(* ===== verification/_CoqProject ===== *)
-Q . S2P
Prelude.v
Bytes.v
Golden.v
Crc32.v
Kaitai.v
CommonTypes.v
Headers.v
Bodies.v
Protocol.v
Frames.v
Ed25519.v
Registry.v
Gin.v
Intent.v
Ingest.v
Submitter.v
Builder.v
ReceiptRecord.v
Json.v
Store.v
Watcher.v
Escrow.v
Processor.v
Egress.v
Pipeline.v
Client.v
Server.v
Ledger.v
DemoChain.v
System.v
Spec.v
Generator.v
CBuffer.v
EgressScan.v
EgressPage.v
PollClient.v
HttpWire.v
Orchestrator.v
WireReceipt.v
GroundLink.v
PacketBuilders.v
Bridge.v
Security.v
Satellite.v
Purchase.v
