(* ===== verification/Prelude.v ===== *)
(** * Void Protocol: verification library

    A development about the Go gateway of the repository ([src/gateway]), the contract it
    settles on ([src/contracts/src/Escrow.sol]), and the C++ on the other side of the
    wire: the ground station ([src/ground-station]) and the two satellites
    ([src/satellite-firmware], [src/void-core]). The seller's satellite broadcasts an
    invoice and the buyer's pays; the ground station takes the payment frame from the
    buyer's serial line to the gateway; the gateway parses and authenticates it, batches
    settlement intents to the contract, watches the contract for settlements, signs a
    receipt frame for each and serves the receipts; the ground station fetches them,
    hands them to the satellite and acknowledges them.

    ** Files

    - [Prelude], [Bytes]: results, hint databases, list lemmas; Go's integers,
      [encoding/binary] and [encoding/hex]. [Golden]: the byte vectors of
      [test/vectors].
    - [Kaitai], [CommonTypes], [Headers], [Bodies], [Protocol], [Frames]: the parser of
      [internal/void_protocol/protocol]. [Kaitai] is the interface of the stream runtime
      and the monad of the generated [Read] methods; one definition per struct and per
      [Read]; [Protocol] is [VoidProtocol] with its memoised instances; [Frames] is the
      specification, a frame format with its serialiser, of which the parser is proved
      the decoder.
    - [Crc32]: [internal/void_protocol/crc.go]. [Ed25519]: the interface of
      [crypto/ed25519]. [Registry]: [internal/core/registry] and
      [internal/core/security].
    - [Gin], [Intent], [Ingest]: [internal/api/handlers/ingest.go] over an HTTP context,
      with the intents of [internal/core/chain/client.go].
    - [Submitter]: [internal/core/chain/submitter.go], its critical sections and, as a
      step relation, the interleavings of callers, timers and submissions.
    - [Escrow]: [Escrow.sol] and [EscrowClient]. [Watcher]:
      [internal/core/chain/watcher.go].
    - [Builder], [ReceiptRecord], [Json], [Store], [Processor]: [internal/core/receipt].
      [Json] is what the store uses of [encoding/json]; [Store] keeps the file as bytes
      and lets every write fail after any number of them; [Processor] has [Handle] as
      one call and as the steps between which other calls run.
    - [Egress]: [internal/api/handlers/egress.go].
    - [Pipeline]: the composition, from a payment frame to its receipt and from the
      chain to the receipt file ([startReceiptWatcher]). [Client]: what [client.go] has
      beside the calls. [Server]: [cmd/server/main.go], start-up from the environment
      and the routes.
    - [Ledger], [DemoChain], [System], [Spec]: the running gateway. [Ledger] is the one node
      both the submitter and the watcher talk to, a class whose laws imply those the
      two were proved against; [DemoChain] is such a node, executable; [System] is the
      process, whose actions are requests, the timer, and the steps of the goroutine of
      the watcher, and around which others settle, blocks are mined and the
      process is restarted. [Spec] is what all of it promises, an abstract desk that
      the process refines.
    - [Generator]: [test/utils/generate_packets.go], the encoder of the test vectors,
      written independently of the parser.
    - [CBuffer]: the buffers of the C++ sources. [EgressScan]: the hex decoder and the
      JSON scanner of the ground station ([egress_hex.cpp], [egress_json.cpp]);
      [EgressPage]: that it reads what the gateway marshals. [PollClient]:
      [egress_poll_client.cpp]; [HttpWire]: what [net/http] writes and reads;
      [Orchestrator]: [egress_orchestrator.h], over a class of clients of which
      [PollClient] is the instance. [WireReceipt], [GroundLink]: receipts on this wire,
      and the poll over a network that refuses and loses requests and answers. [PacketBuilders]:
      [ack_builder.cpp] and [packet_d_builder.cpp].
    - [Bridge]: [main.cpp] of the ground station, with [bouncer.cpp] and
      [gateway_client.cpp]: the loop over the serial line and the operator's commands.
      [Security]: [security_manager.cpp] over the interface of libsodium. [Satellite]:
      [seller.cpp] and [buyer.cpp]. [Purchase]: the way of a payment through all of
      these, and of a receipt back.

    A request goes through [Server.serve] to [Ingest.IngestPacket], whose [Enqueue] is
    that of [Submitter]; a batch goes through [Escrow.EscrowClient_SettleBatch] to the
    node; [Watcher.Poll] reads the node, [Processor.Handle_step] turns an event into a
    line of [Store], and [Egress] serves the lines. [Satellite.runSellerLoop] and
    [Satellite.runBuyerLoop] exchange frames; what the buyer prints goes, a byte at a
    time, to [Bridge.feed], whose [push_to_l2] is the request of [IngestPacket]; and
    [Orchestrator.tick] is the other client of the gateway, of [Egress].

    ** How state and effects are modelled

    A Go function that returns an error is a [result]; one that can panic is an
    [option], [None] being the panic. Methods that change their receiver take and return
    it. Package variables ([MockDB], [Submitter], [EgressStore]) are arguments and
    results. Unsigned integers are in [Z] with their wrap-around written out; floating
    point fields are bit patterns. Log lines have no effect and are left out. A mutex
    makes a critical section one step; where the code releases it, the model has
    another step.

    A C++ function works on byte buffers of fixed length and is in the option monad,
    [None] being an access outside a buffer, or a loop that did not end; packed
    structures are bytes at offsets, and what is on the stack uninitialised is a variable.
    Sockets, the serial port and the radio are what their calls return. What a satellite
    transmits and prints is a list of outputs.

    What is not in the repository is an interface with laws that state its documented
    behaviour, and has an executable instance, so that witnesses run: the Kaitai
    stream, the gin context, Ed25519 (a signature verifies under the key of its seed;
    lengths), go-ethereum's addresses and hashes, the RPC client of the watcher (a
    chain without reorganisations; any call may fail), the node of the submitter
    (a transaction reverts or is executed, and its answer may be lost), the network
    between ground station and gateway, and libsodium.

    ** What is proved

    - Parsing: the parser accepts exactly the byte sequences that start with a
      well-formed frame, and returns its contents; the header accessors are the CCSDS
      bit fields, and where [uint16] makes lengths wrap.
    - Ingest: one response per request, the one the specification of the verdict says;
      only payments signed by the registered key reach the submitter, with the fields
      that were signed; corruption of a checksummed frame in a burst of 32 bits is
      noticed.
    - Submission: batches are lossless, in order and of one to ten intents in every
      interleaving; nothing waits without a timer; a batch is tried at most twice, and
      settles at most once.
    - Settlement: [settleBatch] is all or nothing; a nonce settles once over any
      history; what a replay costs.
    - Receipts: frames are what the parser reads and the signature covers; the store
      refines a log without duplicates, lines being JSON that reads back as the record,
      and survives restarts when the disk is clean: each write is complete and
      synced, or fails before its first byte (for the other writes there are
      [Store_torn_write] and [Store_sync_failure]); calls of [Handle] may interleave with each other and
      with acknowledgements, of which none is lost; the watcher handles
      each settlement once; so the receipt file follows the chain across restarts, on a clean disk.
    - Egress: acknowledgements touch the log only on success; polling drains it; a
      receipt stays until it is acknowledged, whatever the writes in one run of the
      process, and across restarts on a clean disk.
    - The running gateway, on a clean disk: it refines the desk of [Spec], on which
      payments wait, settle and get receipts; under any actions there is no receipt without a
      payment (or a settlement by somebody else), none twice, and no panic; after a
      restart, if the node answers, one round writes every receipt that is missing; and
      if nobody else settles and the node and the disk work, every accepted payment is settled
      and gets its receipt.
    - Server: start-up succeeds exactly under its conditions; without a contract
      address nothing but parsing happens; what is accepted is what is submitted.
    - Generator: it emits the vectors on disk, the gateway accepts them, and the
      receipt builder agrees with it.
    - Ground station: a poll never leaves its buffers, whatever the peer sends; the
      scanner returns the records its specification says, and those the gateway
      marshals; with a working network one poll of a short page transmits and acknowledges
      every receipt on it, and on any network none is acknowledged that was not
      transmitted; the acknowledgements and deliveries that are built are accepted by
      the gateway; the bridge is safe on any bytes and forwards every packet.
    - Satellites: an invoice on the air becomes an intent in the submitter; no nonce of
      the cipher is used twice.

    Where the code does not do what it says, the theorem states what it does:
    [Ccsds_lengths_wrap], [PacketC_fields_not_authenticated], [replay_drops_batch],
    [Poll_poisoned], [Store_torn_write], [Store_sync_failure], [Handle_errors],
    [backlog_never_drains], [seller_deaf], [downlink_ignored], [test_ack_refused].

    ** Bounds and fuel

    The JSON parser recurses on fuel: twice the length of the input and
    two is enough ([unmarshal_terminates]). The loops of the ground station that advance
    by more than one have one unit of fuel more than the bytes that are left, and are
    proved to end; the other loops count down. [write_int] prints at most 20 digits, which
    covers 64 bits. [Handle_interleaved] takes up to 2^14 calls at a time, the range of
    the sequence numbers. The JSON laws are for records in ASCII of at most 100000
    bytes, far above what the processor writes ([json_event_ok]). A ledger has less
    than 2^64 blocks ([ledger_wf]), since block numbers are [uint64]; what is settled
    is stated while there is room for one more ([has_room]). The rounds in the
    conclusions of [System] have explicit lengths ([work], three parts of [Handle] for
    each event).

    ** Not modelled

    The arithmetic of Ed25519 and the ABI encoding of go-ethereum, which are library
    code (the parsed ABI is a parameter); the HTTP server, flags and logging; the [IO_]
    accessors and constructors of the generated structs, which set nothing but the
    stream; and [test/test_run.go], which posts a file. Of the C++: sockets and the
    serial port below their calls, the threads of the ground station (its poll and its
    serial loop are modelled each on its own) and their environment variables,
    [format_json], which nothing calls; the CCSDS build of the firmware, its display and
    radio drivers, and the trajectory of its GPS stub, whose position is an argument. In [System]
    a request, with the submission it may cause, is one action and the goroutine's
    steps come between requests; the finer interleavings of requests with each other
    are those of [Submitter] and [Processor]. The chain does not reorganise: the
    watcher waits for no confirmations, so nothing could be said of one that does. *)
From stdpp Require Export base tactics option list list_numbers numbers.
From Stdlib Require Export ZArith Lia.

#[global] Set Default Goal Selector "!".

(** ** Fallible results

    A Go function returning [(T, error)] is a [result E T]: [Ok v] is
    [(v, nil)], [Err e] is a non-nil error [e]. *)
Inductive result (E A : Type) : Type :=
  | Ok (a : A)
  | Err (e : E).
Arguments Ok {E A} a.
Arguments Err {E A} e.

Declare Scope go_scope.
Delimit Scope go_scope with go.

(** [let* p := m in k] is [p, err := m; if err != nil { return err }; k]. *)
Definition result_bind {E A B} (m : result E A) (k : A → result E B) : result E B :=
  match m with Ok a => k a | Err e => Err e end.

Notation "'let*' p ':=' m 'in' k" := (result_bind m (fun p => k))
  (at level 10, p pattern at level 0, m at level 100, k at level 200) : go_scope.

Definition is_ok {E A} (m : result E A) : bool :=
  match m with Ok _ => true | Err _ => false end.

#[global] Instance result_eq_dec {E A} `{EqDecision E, EqDecision A} :
  EqDecision (result E A).
Proof. solve_decision. Defined.

Section Result.
Context {E A B : Type}.

Lemma result_bind_ok_inv (m : result E A) (k : A → result E B) b :
  result_bind m k = Ok b → ∃ a, m = Ok a ∧ k a = Ok b.
Proof. destruct m; simpl; naive_solver. Qed.

Lemma result_bind_err (m : result E A) (k : A → result E B) e :
  m = Err e → result_bind m k = Err e.
Proof. by intros ->. Qed.
End Result.

(** ** Hint databases of the library

    [wire] holds the facts about encodings and parsers, [lens] the rewriting
    rules for lengths of byte sequences. *)
Create HintDb wire.
Create Rewrite HintDb lens.
#[export] Hint Rewrite @length_app @length_nil @length_cons @length_take
  @length_drop @length_replicate @length_reverse @length_fmap : lens.

(** Length side conditions: rewrite the lengths, then linear arithmetic. *)
Ltac len := autorewrite with lens in *; simpl length in *; lia.

(** Invert a chain of successful binds in the context. *)
Ltac inv_bind :=
  repeat match goal with
  | H : result_bind _ _ = Ok _ |- _ =>
      apply result_bind_ok_inv in H; destruct H as (? & ? & H)
  | p : (_ * _)%type |- _ => destruct p
  end.

(** ** Lists *)
Section Lists.
Context {A : Type}.
Implicit Types l k : list A.

(** Equal-length prefixes of equal lists are equal. *)
Lemma app_inj_length l1 l2 k1 k2 :
  l1 ++ k1 = l2 ++ k2 → length l1 = length l2 → l1 = l2 ∧ k1 = k2.
Proof. intros ??. by apply app_inj_1. Qed.

Lemma take_drop_split n l : n ≤ length l → ∃ l1 l2, l = l1 ++ l2 ∧ length l1 = n.
Proof.
  intros Hn. exists (take n l), (drop n l). rewrite take_drop.
  split; [done|]. rewrite length_take. lia.
Qed.

Lemma take_app_exact n l k : length l = n → take n (l ++ k) = l.
Proof. intros <-. by rewrite take_app_length. Qed.

Lemma drop_app_exact n l k : length l = n → drop n (l ++ k) = k.
Proof. intros <-. by rewrite drop_app_length. Qed.

Lemma list_elem_of_concat (ls : list (list A)) x :
  x ∈ concat ls ↔ ∃ l, x ∈ l ∧ l ∈ ls.
Proof.
  induction ls as [|l ls IH]; cbn.
  - split; [by intros ?%elem_of_nil|by intros (? & _ & ?%elem_of_nil)].
  - rewrite elem_of_app, IH. setoid_rewrite elem_of_cons. naive_solver.
Qed.

Lemma list_length_ind (P : list A → Prop) :
  (∀ l, (∀ l', (length l' < length l)%nat → P l') → P l) → ∀ l, P l.
Proof. intros HP l. induction (well_founded_ltof _ length l) as [l _ IH]. apply HP, IH. Qed.

(** Filtering by a property every element has, or none has. *)
Lemma filter_all (P : A → Prop) `{∀ x, Decision (P x)} l :
  Forall P l → filter P l = l.
Proof. induction 1; [done|]. rewrite filter_cons_True by done. by f_equal. Qed.

Lemma filter_none (P : A → Prop) `{∀ x, Decision (P x)} l :
  Forall (λ x, ¬ P x) l → filter P l = [].
Proof. induction 1; [done|]. by rewrite filter_cons_False. Qed.
End Lists.

(** ** Unsigned machine arithmetic: the value modulo [2^w]. *)
Definition u16 (z : Z) : Z := z mod 2 ^ 16.
Definition u32 (z : Z) : Z := z mod 2 ^ 32.
Definition u64 (z : Z) : Z := z mod 2 ^ 64.

(** Conversion of an unsigned 64-bit value to Go's [int64]. *)
Definition i64 (z : Z) : Z := (z + 2 ^ 63) mod 2 ^ 64 - 2 ^ 63.

Lemma u64_small z : (0 ≤ z < 2 ^ 64)%Z → u64 z = z.
Proof. apply Z.mod_small. Qed.

Lemma u16_small z : (0 ≤ z < 2 ^ 16)%Z → u16 z = z.
Proof. apply Z.mod_small. Qed.
