(* ===== verification/Bytes.v ===== *)
(** * Byte sequences: the parts of Go's standard library the gateway uses

    A [[]byte] is a [list byte]; a Go [string] is also a sequence of bytes, and
    is modelled by [String.string], whose characters are bytes. The file gives
    [encoding/binary] (fixed-width little- and big-endian integers),
    [encoding/hex] and the conversion [byte(x)], with the lemmas that relate
    encoding and decoding. *)
From Stdlib Require Export Strings.Byte Ascii.
From stdpp Require Export strings.
From S2P Require Export Prelude.
#[local] Open Scope Z_scope.

(** ** Bytes and integers *)

(** [uint8] to an integer, and Go's truncating conversion [byte(z)]. *)
Definition byte_to_Z (b : byte) : Z := Z.of_N (Byte.to_N b).

Definition byte_of_Z (z : Z) : byte :=
  default x00 (Byte.of_N (Z.to_N (z mod 256))).

#[global] Instance byte_eq_dec : EqDecision byte := Byte.byte_eq_dec.

Lemma byte_to_Z_range b : 0 <= byte_to_Z b < 256.
Proof.
  unfold byte_to_Z. pose proof (Byte.to_N_bounded b). lia.
Qed.

Lemma byte_to_of_Z z : byte_to_Z (byte_of_Z z) = z mod 256.
Proof.
  unfold byte_to_Z, byte_of_Z.
  pose proof (Z.mod_pos_bound z 256 ltac:(lia)) as Hz.
  destruct (Byte.of_N (Z.to_N (z mod 256))) as [b|] eqn:E; simpl.
  - apply Byte.to_of_N in E. lia.
  - apply Byte.of_N_None_iff in E. lia.
Qed.

Lemma byte_to_Z_inj b c : byte_to_Z b = byte_to_Z c → b = c.
Proof.
  unfold byte_to_Z. intros H%N2Z.inj.
  pose proof (Byte.of_to_N b) as Hb. pose proof (Byte.of_to_N c) as Hc. congruence.
Qed.

Lemma byte_of_to_Z b : byte_of_Z (byte_to_Z b) = b.
Proof.
  apply byte_to_Z_inj. rewrite byte_to_of_Z.
  apply Z.mod_small, byte_to_Z_range.
Qed.

(** ** Fixed-width integers on the wire ([encoding/binary])

    [le_uint]/[be_uint] read the unsigned integer a byte sequence denotes;
    [put_le n]/[put_be n] write the low [n] bytes of an integer. *)
Fixpoint le_uint (l : list byte) : Z :=
  match l with
  | [] => 0
  | b :: t => byte_to_Z b + 256 * le_uint t
  end.

Fixpoint put_le (n : nat) (z : Z) : list byte :=
  match n with
  | O => []
  | S n => byte_of_Z z :: put_le n (z / 256)
  end.

Definition be_uint (l : list byte) : Z := le_uint (reverse l).
Definition put_be (n : nat) (z : Z) : list byte := reverse (put_le n z).

(** Two's complement reading of a [w]-bit unsigned value. *)
Definition to_signed (w : Z) (z : Z) : Z :=
  if z <? 2 ^ (w - 1) then z else z - 2 ^ w.

Lemma le_uint_cons b l : le_uint (b :: l) = byte_to_Z b + 256 * le_uint l.
Proof. done. Qed.

Lemma length_put_le n z : length (put_le n z) = n.
Proof. revert z. induction n; intros; simpl; auto. Qed.

Lemma length_put_be n z : length (put_be n z) = n.
Proof. unfold put_be. by rewrite length_reverse, length_put_le. Qed.
#[export] Hint Rewrite length_put_le length_put_be : lens.

Lemma pow256_S n : 2 ^ (8 * Z.of_nat (S n)) = 256 * 2 ^ (8 * Z.of_nat n).
Proof.
  replace (8 * Z.of_nat (S n)) with (8 + 8 * Z.of_nat n) by lia.
  rewrite Z.pow_add_r by lia. lia.
Qed.

Lemma le_uint_range l : 0 <= le_uint l < 2 ^ (8 * Z.of_nat (length l)).
Proof.
  induction l as [|b l IH]; [simpl; lia|].
  cbn [le_uint length]. rewrite pow256_S.
  pose proof (byte_to_Z_range b). lia.
Qed.

Lemma be_uint_range l : 0 <= be_uint l < 2 ^ (8 * Z.of_nat (length l)).
Proof. unfold be_uint. rewrite <- length_reverse. apply le_uint_range. Qed.

Lemma le_uint_put_le n z :
  le_uint (put_le n z) = z mod 2 ^ (8 * Z.of_nat n).
Proof.
  revert z. induction n as [|n IH]; intros z; [by rewrite Z.mod_1_r|].
  cbn [put_le le_uint]. rewrite IH, byte_to_of_Z, pow256_S.
  rewrite (Z.rem_mul_r z 256) by lia. lia.
Qed.

Lemma put_le_le_uint l : put_le (length l) (le_uint l) = l.
Proof.
  induction l as [|b l IH]; [done|]. cbn [length put_le le_uint].
  pose proof (byte_to_Z_range b).
  rewrite (Z.mul_comm 256), Z.div_add, Z.div_small, Z.add_0_l, IH by lia.
  f_equal. apply byte_to_Z_inj. rewrite byte_to_of_Z, Z.mod_add by lia.
  by apply Z.mod_small.
Qed.

Lemma be_uint_put_be n z : be_uint (put_be n z) = z mod 2 ^ (8 * Z.of_nat n).
Proof. unfold be_uint, put_be. by rewrite reverse_involutive, le_uint_put_le. Qed.

Lemma put_be_be_uint l : put_be (length l) (be_uint l) = l.
Proof.
  unfold be_uint, put_be. rewrite <- (length_reverse l), put_le_le_uint.
  apply reverse_involutive.
Qed.

(** Values in range survive a write followed by a read. *)
Lemma le_uint_put_le_small n z :
  0 <= z < 2 ^ (8 * Z.of_nat n) → le_uint (put_le n z) = z.
Proof. intros. by rewrite le_uint_put_le, Z.mod_small. Qed.

Lemma be_uint_put_be_small n z :
  0 <= z < 2 ^ (8 * Z.of_nat n) → be_uint (put_be n z) = z.
Proof. intros. by rewrite be_uint_put_be, Z.mod_small. Qed.

Lemma le_uint_inj l k : length l = length k → le_uint l = le_uint k → l = k.
Proof.
  intros Hlen H. rewrite <- (put_le_le_uint l), <- (put_le_le_uint k). congruence.
Qed.

Lemma be_uint_inj l k : length l = length k → be_uint l = be_uint k → l = k.
Proof.
  intros Hlen H. rewrite <- (put_be_be_uint l), <- (put_be_be_uint k). congruence.
Qed.

Lemma le_uint_app l k :
  le_uint (l ++ k) = le_uint l + 2 ^ (8 * Z.of_nat (length l)) * le_uint k.
Proof.
  induction l as [|b l IH]; [simpl; lia|].
  cbn [app length le_uint]. rewrite IH, pow256_S. lia.
Qed.

Lemma be_uint_app l k :
  be_uint (l ++ k) = be_uint k + 2 ^ (8 * Z.of_nat (length k)) * be_uint l.
Proof.
  unfold be_uint. rewrite reverse_app, le_uint_app, length_reverse. done.
Qed.

(** A leading run of zero bytes does not change a big-endian value. *)
Lemma le_uint_zeros n : le_uint (replicate n x00) = 0.
Proof. induction n as [|n IH]; [done|]. cbn [replicate le_uint]. by rewrite IH. Qed.

Lemma be_uint_zeros_app n l : be_uint (replicate n x00 ++ l) = be_uint l.
Proof.
  rewrite be_uint_app. unfold be_uint at 2.
  rewrite reverse_replicate, le_uint_zeros. lia.
Qed.

(** The two's complement reading is injective on in-range values. *)
Lemma to_signed_mod w z :
  0 < w → 0 <= z < 2 ^ w → to_signed w z mod 2 ^ w = z.
Proof.
  intros Hw Hz. unfold to_signed. destruct (Z.ltb_spec z (2 ^ (w - 1))).
  - by apply Z.mod_small.
  - replace (z - 2 ^ w) with (z + (-1) * 2 ^ w) by lia.
    rewrite Z.mod_add by lia. by apply Z.mod_small.
Qed.

Lemma to_signed_of_mod w v :
  0 < w → - 2 ^ (w - 1) <= v < 2 ^ (w - 1) → to_signed w (v mod 2 ^ w) = v.
Proof.
  intros Hw Hv. unfold to_signed.
  assert (2 ^ w = 2 * 2 ^ (w - 1)) as Hp.
  { rewrite <- Z.pow_succ_r by lia. f_equal. lia. }
  destruct (Z.le_gt_cases 0 v).
  - rewrite Z.mod_small by lia. destruct (Z.ltb_spec v (2 ^ (w - 1))); lia.
  - assert (v mod 2 ^ w = v + 2 ^ w) as ->.
    { rewrite <- (Z.mod_add v 1), Z.mul_1_l by lia. apply Z.mod_small. lia. }
    destruct (Z.ltb_spec (v + 2 ^ w) (2 ^ (w - 1))); lia.
Qed.

Lemma to_signed_range w z :
  0 < w → 0 <= z < 2 ^ w → - 2 ^ (w - 1) <= to_signed w z < 2 ^ (w - 1).
Proof.
  intros Hw Hz. unfold to_signed.
  assert (2 ^ w = 2 * 2 ^ (w - 1)) as Hp.
  { rewrite <- Z.pow_succ_r by lia. f_equal. lia. }
  destruct (Z.ltb_spec z (2 ^ (w - 1))); lia.
Qed.

(** ** Hexadecimal ([encoding/hex]) *)

Definition hex_digit (z : Z) : ascii :=
  match String.get (Z.to_nat z) "0123456789abcdef" with
  | Some c => c
  | None => "0"%char
  end.

(** [hex.EncodeToString]: lower-case digits, high nibble first. *)
Fixpoint hex_encode (l : list byte) : string :=
  match l with
  | [] => EmptyString
  | b :: t =>
      String (hex_digit (byte_to_Z b / 16))
        (String (hex_digit (byte_to_Z b mod 16)) (hex_encode t))
  end.

(** The value of a hexadecimal digit of either case. *)
Definition from_hex_char (c : ascii) : option Z :=
  let n := Z.of_nat (Ascii.nat_of_ascii c) in
  if (48 <=? n) && (n <=? 57) then Some (n - 48)
  else if (97 <=? n) && (n <=? 102) then Some (n - 87)
  else if (65 <=? n) && (n <=? 70) then Some (n - 55)
  else None.

(** [hex.DecodeString]: an odd length or a non-digit is an error. *)
Fixpoint hex_decode (s : string) : option (list byte) :=
  match s with
  | EmptyString => Some []
  | String a (String b t) =>
      match from_hex_char a, from_hex_char b, hex_decode t with
      | Some x, Some y, Some l => Some (byte_of_Z (16 * x + y) :: l)
      | _, _, _ => None
      end
  | String _ EmptyString => None
  end.

Lemma from_hex_digit z : 0 <= z < 16 → from_hex_char (hex_digit z) = Some z.
Proof.
  intros Hz.
  assert (z = Z.of_nat (Z.to_nat z)) as -> by lia.
  assert (Z.to_nat z < 16)%nat as Hn by lia. revert Hn. generalize (Z.to_nat z).
  intros n Hn. do 16 (destruct n as [|n]; [reflexivity|]). lia.
Qed.

Lemma hex_decode_encode l : hex_decode (hex_encode l) = Some l.
Proof.
  induction l as [|b l IH]; [done|]. cbn [hex_encode hex_decode].
  pose proof (byte_to_Z_range b).
  pose proof (Z.mod_pos_bound (byte_to_Z b) 16 ltac:(lia)).
  assert (0 <= byte_to_Z b / 16 < 16).
  { split; [apply Z.div_pos | apply Z.div_lt_upper_bound]; lia. }
  rewrite !from_hex_digit, IH by done.
  rewrite <- (Z.div_mod (byte_to_Z b) 16), byte_of_to_Z by lia. done.
Qed.

Lemma hex_encode_inj l k : hex_encode l = hex_encode k → l = k.
Proof.
  intros H. pose proof (hex_decode_encode l) as Hl.
  rewrite H, hex_decode_encode in Hl. congruence.
Qed.

(** A literal byte sequence written in hexadecimal. *)
Definition hex (s : string) : list byte := default [] (hex_decode s).

(** ** Slices

    [gslice lo hi l] is Go's [l[lo:hi]] within range. *)
Definition gslice {A} (lo hi : Z) (l : list A) : list A :=
  take (Z.to_nat (hi - lo)) (drop (Z.to_nat lo) l).

(** [go_slice] is the slice expression with its run-time check: [None] is the
    panic of an index out of the slice's length. *)
Definition go_slice {A} (lo hi : Z) (l : list A) : option (list A) :=
  if bool_decide (0 <= lo <= hi ∧ hi <= Z.of_nat (length l))
  then Some (gslice lo hi l) else None.

Lemma go_slice_ok {A} lo hi (l : list A) :
  0 <= lo <= hi → hi <= Z.of_nat (length l) → go_slice lo hi l = Some (gslice lo hi l).
Proof. intros. unfold go_slice. by rewrite bool_decide_eq_true_2. Qed.

Lemma length_gslice {A} lo hi (l : list A) :
  0 <= lo <= hi → hi <= Z.of_nat (length l) →
  length (gslice lo hi l) = Z.to_nat (hi - lo).
Proof. intros. unfold gslice. rewrite length_take, length_drop. lia. Qed.

(** The slice of a concatenation at a piece's boundaries is the piece. *)
Lemma gslice_mid {A} lo hi (a b c : list A) :
  lo = Z.of_nat (length a) → hi - lo = Z.of_nat (length b) →
  gslice lo hi (a ++ b ++ c) = b.
Proof.
  intros -> Hb. unfold gslice. rewrite Hb, !Nat2Z.id.
  by rewrite drop_app_length, take_app_length.
Qed.

Lemma gslice_prefix {A} hi (a c : list A) :
  hi = Z.of_nat (length a) → gslice 0 hi (a ++ c) = a.
Proof. intros ->. unfold gslice. rewrite Z.sub_0_r, Nat2Z.id. apply take_app_length. Qed.

(** ** Ranges of fixed-width fields *)
Definition in_u (w z : Z) : Prop := 0 <= z < 2 ^ w.
Definition in_s (w z : Z) : Prop := - 2 ^ (w - 1) <= z < 2 ^ (w - 1).

Lemma put_le_mod n z : put_le n (z mod 2 ^ (8 * Z.of_nat n)) = put_le n z.
Proof.
  apply le_uint_inj; [by rewrite !length_put_le|].
  rewrite !le_uint_put_le. by rewrite Z.mod_mod by lia.
Qed.

(** Little-endian, big-endian and signed fields are bijective encodings. *)
Lemma le_field_dec n l :
  length l = n → in_u (8 * Z.of_nat n) (le_uint l) ∧ put_le n (le_uint l) = l.
Proof. intros <-. split; [apply le_uint_range|apply put_le_le_uint]. Qed.

Lemma le_field_enc n z :
  in_u (8 * Z.of_nat n) z → length (put_le n z) = n ∧ le_uint (put_le n z) = z.
Proof. intros. by rewrite length_put_le, le_uint_put_le_small. Qed.

Lemma be_field_dec n l :
  length l = n → in_u (8 * Z.of_nat n) (be_uint l) ∧ put_be n (be_uint l) = l.
Proof. intros <-. split; [apply be_uint_range|apply put_be_be_uint]. Qed.

Lemma be_field_enc n z :
  in_u (8 * Z.of_nat n) z → length (put_be n z) = n ∧ be_uint (put_be n z) = z.
Proof. intros. by rewrite length_put_be, be_uint_put_be_small. Qed.

Lemma signed_field_dec n l :
  (0 < n)%nat → length l = n →
  in_s (8 * Z.of_nat n) (to_signed (8 * Z.of_nat n) (le_uint l)) ∧
  put_le n (to_signed (8 * Z.of_nat n) (le_uint l)) = l.
Proof.
  intros Hn <-. pose proof (le_uint_range l). split.
  - apply to_signed_range; lia.
  - rewrite <- put_le_mod, to_signed_mod by lia. apply put_le_le_uint.
Qed.

Lemma signed_field_enc n z :
  (0 < n)%nat → in_s (8 * Z.of_nat n) z →
  length (put_le n z) = n ∧ to_signed (8 * Z.of_nat n) (le_uint (put_le n z)) = z.
Proof.
  intros Hn Hz. rewrite length_put_le, le_uint_put_le. split; [done|].
  apply to_signed_of_mod; [lia|done].
Qed.

#[global] Arguments put_le : simpl never.
#[global] Arguments put_be : simpl never.
#[global] Arguments le_uint : simpl never.
#[global] Arguments be_uint : simpl never.
#[global] Arguments byte_to_Z : simpl never.
#[global] Arguments byte_of_Z : simpl never.
