(* ===== verification/Golden.v ===== *)
(** * Golden vectors

    The byte sequences checked in under [test/vectors/], which the gateway's
    tests parse and the ground station emits: the inputs on which the
    development evaluates its definitions. *)
From S2P Require Export Bytes.
#[local] Open Scope string_scope.

(** [test/vectors/ccsds/packet_a.bin] *)
Definition golden_ccsds_a : list byte := hex (
  "0864c00000410000a0d2f2238e010000000000000062bb4000000000006bc7c000000000" ++
  "008081400000f040cdcc4cbe0ad7233cbebafeca00b108190000000001000000e54a7ce8").

(** [test/vectors/ccsds/packet_b.bin] *)
Definition golden_ccsds_b : list byte := hex (
  "0865c00000b10000a0d2f2238e010000000000000062bb4000000000006bc7c000000000" ++
  "00808140a0d2f2238e010000000000000062bb4000000000006bc7c00000000000808140" ++
  "0000f040cdcc4cbe0ad7233cbebafeca00b10819000000000100e54a7ce80000bebafeca" ++
  "0000000056e3feef9bfcec32a1ba41faab0e67e4bf501c80485c9bc0a1edb06531dc9dc4" ++
  "413f0dab78ce6f284598ef4d31529c54d97d5754a4d3d46e4526dcdd032b1f09e4a003b0" ++
  "00000000").

(** [test/vectors/ccsds/packet_c.bin] *)
Definition golden_ccsds_c : list byte := hex (
  "0864c00000610000a0d2f2238e010000bebafecaefbeadde010000000000000020d9a09a" ++
  "8df7cd0578aaf3beaf64d7bdcb0544b6214deb5702151b52f3e25b1f3609d2b495da1775" ++
  "34badc854e36b3f3ba9620d2e1ad7754da74778b938e61027b05a39900000000").

(** [test/vectors/ccsds/packet_d.bin] *)
Definition golden_ccsds_d : list byte := hex (
  "0865c0000079d000a0d2f2238e010000bebafecae0e1e2e3e4e5e6e7e8e9eaebecedeeef" ++
  "f0f1f2f3f4f5f6f7f8f9fafbfcfdfeff000102030405060708090a0b0c0d0e0f10111213" ++
  "1415161718191a1b1c1d1e1f202122232425262728292a2b2c2d2e2f3031323334353637" ++
  "38393a3b3c3d3e3f4041dcabc372000000000000").

(** [test/vectors/ccsds/packet_h.bin] *)
Definition golden_ccsds_h : list byte := hex (
  "0865c00000698403a0d2f2238e010000a0a1a2a3a4a5a6a7a8a9aaabacadaeafb0b1b2b3" ++
  "b4b5b6b7b8b9babbbcbdbebf070f678b62cc89b7f8bc3eddea62509a19ae221b4858f31d" ++
  "e0ffc62f567b6322b415cfbc942cffc8cf0e9ad3991364189701ae9275b6797aa4082e2e" ++
  "aa6c9105").

(** [test/vectors/ccsds/packet_ack.bin] *)
Definition golden_ccsds_ack : list byte := hex (
  "1865c0000071ac00bebafeca0100b4002d0080240f1a88130000aaabacadaeafb0b1b2b3" ++
  "b4b5b6b7b8b9babbbcbdbebfc0c1c2c3c4c5c6c7c8c9cacbcccdcecfd0d1d2d3d4d5d6d7" ++
  "d8d9dadbdcdddedfe0e1e2e3e4e5e6e7e8e9eaebecedeeeff0f1f2f3f4f5f6f7f8f9fafb" ++
  "fcfdfeff000100001d1ee0a2").

(** [test/vectors/ccsds/packet_l.bin] *)
Definition golden_ccsds_l : list byte := hex (
  "0865c00000210000a0d2f2238e010000c0890100c046b21e000cfeff0410fc0858020308" ++
  "7e2451b7").

(** [test/vectors/snlp/packet_a.bin] *)
Definition golden_snlp_a : list byte := hex (
  "1d01a5a50864c0000041000000000000a0d2f2238e010000000000000062bb4000000000" ++
  "006bc7c000000000008081400000f040cdcc4cbe0ad7233cbebafeca00b1081900000000" ++
  "010000003ecaff34").

(** [test/vectors/snlp/packet_b.bin] *)
Definition golden_snlp_b : list byte := hex (
  "1d01a5a50865c00000b1000000000000a0d2f2238e010000000000000062bb4000000000" ++
  "006bc7c00000000000808140a0d2f2238e010000000000000062bb4000000000006bc7c0" ++
  "00000000008081400000f040cdcc4cbe0ad7233cbebafeca00b108190000000001003eca" ++
  "ff340000bebafeca000000009267555f74c0dc565f906e6476d04a6300daf42a30291c77" ++
  "594a4cf33a31d67b240e16829c4fd120427f996db00a01c10c35994c08fee67fdcc1c600" ++
  "6bee980bcdc8e9a300000000").

(** [test/vectors/snlp/packet_c.bin] *)
Definition golden_snlp_c : list byte := hex (
  "1d01a5a50864c0000061000000000000a0d2f2238e010000bebafecaefbeadde01000000" ++
  "0000000020d9a09a8df7cd0578aaf3beaf64d7bdcb0544b6214deb5702151b52f3e25b1f" ++
  "3609d2b495da177534badc854e36b3f3ba9620d2e1ad7754da74778b938e610284da3f5b" ++
  "00000000").

(** [test/vectors/snlp/packet_d.bin] *)
Definition golden_snlp_d : list byte := hex (
  "1d01a5a50865c000007900000000d000a0d2f2238e010000bebafecae0e1e2e3e4e5e6e7" ++
  "e8e9eaebecedeeeff0f1f2f3f4f5f6f7f8f9fafbfcfdfeff000102030405060708090a0b" ++
  "0c0d0e0f101112131415161718191a1b1c1d1e1f202122232425262728292a2b2c2d2e2f" ++
  "303132333435363738393a3b3c3d3e3f404150e385e5000000000000").

(** [test/vectors/snlp/packet_h.bin] *)
Definition golden_snlp_h : list byte := hex (
  "1d01a5a50865c0000069000000008403a0d2f2238e010000a0a1a2a3a4a5a6a7a8a9aaab" ++
  "acadaeafb0b1b2b3b4b5b6b7b8b9babbbcbdbebf070f678b62cc89b7f8bc3eddea62509a" ++
  "19ae221b4858f31de0ffc62f567b6322b415cfbc942cffc8cf0e9ad3991364189701ae92" ++
  "75b6797aa4082e2eaa6c9105").

(** [test/vectors/snlp/packet_ack.bin] *)
Definition golden_snlp_ack : list byte := hex (
  "1d01a5a51865c000007900000000ac00bebafeca0100b4002d0080240f1a88130000aaab" ++
  "acadaeafb0b1b2b3b4b5b6b7b8b9babbbcbdbebfc0c1c2c3c4c5c6c7c8c9cacbcccdcecf" ++
  "d0d1d2d3d4d5d6d7d8d9dadbdcdddedfe0e1e2e3e4e5e6e7e8e9eaebecedeeeff0f1f2f3" ++
  "f4f5f6f7f8f9fafbfcfdfeff00010203040506070809000017155ced").

(** [test/vectors/snlp/packet_l.bin] *)
Definition golden_snlp_l : list byte := hex (
  "1d01a5a50865c0000021000000000000a0d2f2238e010000c0890100c046b21e000cfeff" ++
  "0410fc08580203082255e8c7").

