(* ===== verification/Crc32.v ===== *)
(** * CRC-32 and the frame pre-validation gate

    Models [gateway/internal/void_protocol/crc.go]. The checksum itself is Go's
    [hash/crc32.ChecksumIEEE], written out as the bit-serial reflected CRC with
    polynomial [0xEDB88320]. The lemmas show that the update is linear over
    GF(2) and injective on 32-bit states, from which the gate's error detection
    follows. *)
From S2P Require Export Bytes.
From S2P Require Import Golden.
#[local] Open Scope Z_scope.

(** ** hash/crc32 *)
Definition crc_poly : Z := 0xEDB88320.
Definition crc_init : Z := 0xFFFFFFFF.

Definition crc_bit (c : Z) : Z :=
  if Z.odd c then Z.lxor (Z.shiftr c 1) crc_poly else Z.shiftr c 1.

Definition crc_byte (c : Z) (b : byte) : Z :=
  Nat.iter 8 crc_bit (Z.lxor c (byte_to_Z b)).

Definition crc_update (c : Z) (l : list byte) : Z := foldl crc_byte c l.

Definition ChecksumIEEE (l : list byte) : Z := Z.lxor (crc_update crc_init l) crc_init.

(** The check value of the CRC-32 catalogue. *)
Example checksum_check_value :
  ChecksumIEEE (hex "313233343536373839") = 0xCBF43926.
Proof. vm_compute. reflexivity. Qed.

(** ** The gate *)

Definition PacketDCrcOffsetFromEnd : Z := 10.
Definition PacketAckCrcOffsetFromEnd : Z := 4.

Inductive crc_error :=
  | CrcOffsetOutOfBounds (crcOffset len : Z)
  | CrcMismatch (computed wire : Z).

Definition ValidateFrameCRC32 (frame : list byte) (crcOffset : Z) : result crc_error unit :=
  if (crcOffset <? 0) || (Z.of_nat (length frame) <? crcOffset + 4)
  then Err (CrcOffsetOutOfBounds crcOffset (Z.of_nat (length frame)))
  else
    let wire := le_uint (gslice crcOffset (crcOffset + 4) frame) in
    let computed := ChecksumIEEE (gslice 0 crcOffset frame) in
    if wire =? computed then Ok tt else Err (CrcMismatch computed wire).

(** ** Ranges *)
Definition word32 (z : Z) : Prop := 0 <= z < 2 ^ 32.

Lemma word32_testbit z :
  0 <= z → (∀ i, 32 <= i → Z.testbit z i = false) → word32 z.
Proof.
  intros Hz Hb. split; [done|].
  destruct (Z.eq_dec z 0) as [->|]; [lia|].
  apply Z.log2_lt_pow2; [lia|]. apply Z.nle_gt. intros Hl.
  rewrite (Hb (Z.log2 z) Hl) in * || idtac.
  pose proof (Z.bit_log2 z ltac:(lia)). rewrite Hb in *; [done|lia].
Qed.

Lemma testbit_word32 z i : word32 z → 32 <= i → Z.testbit z i = false.
Proof.
  intros [? Hz] ?. destruct (Z.eq_dec z 0) as [->|]; [apply Z.bits_0|].
  apply Z.bits_above_log2; [lia|].
  apply Z.log2_lt_pow2 in Hz; lia.
Qed.

Lemma word32_lxor a b : word32 a → word32 b → word32 (Z.lxor a b).
Proof.
  intros Ha Hb. apply word32_testbit.
  - destruct Ha, Hb. by apply Z.lxor_nonneg.
  - intros i Hi. by rewrite Z.lxor_spec, !testbit_word32.
Qed.

Lemma word32_shiftr a : word32 a → word32 (Z.shiftr a 1).
Proof.
  intros [??]. unfold word32. rewrite Z.shiftr_div_pow2 by lia.
  pose proof (Z.div_pos a (2 ^ 1)). pose proof (Z.div_lt_upper_bound a (2 ^ 1) (2 ^ 32)). lia.
Qed.

Lemma word32_poly : word32 crc_poly.
Proof. by compute. Qed.

Lemma word32_init : word32 crc_init.
Proof. by compute. Qed.

Lemma word32_byte b : word32 (byte_to_Z b).
Proof. unfold word32. pose proof (byte_to_Z_range b). lia. Qed.
#[export] Hint Resolve word32_lxor word32_shiftr word32_poly word32_init word32_byte : wire.

Lemma word32_crc_bit c : word32 c → word32 (crc_bit c).
Proof. intros. unfold crc_bit. destruct (Z.odd c); auto with wire. Qed.
#[export] Hint Resolve word32_crc_bit : wire.

Lemma word32_crc_bits n c : word32 c → word32 (Nat.iter n crc_bit c).
Proof. intros. induction n; simpl; auto with wire. Qed.
#[export] Hint Resolve word32_crc_bits : wire.

Lemma word32_crc_update c l : word32 c → word32 (crc_update c l).
Proof.
  revert c. induction l as [|b l IH]; intros c Hc; [done|].
  cbn [crc_update foldl]. apply IH. unfold crc_byte. auto with wire.
Qed.
#[export] Hint Resolve word32_crc_update : wire.

(** ** Linearity and injectivity of the shift register *)
Lemma crc_bit_lxor a b : crc_bit (Z.lxor a b) = Z.lxor (crc_bit a) (crc_bit b).
Proof.
  unfold crc_bit. rewrite <- !Z.bit0_odd, Z.lxor_spec, Z.shiftr_lxor.
  destruct (Z.testbit a 0), (Z.testbit b 0); simpl;
    apply Z.bits_inj'; intros i _; rewrite ?Z.lxor_spec;
    destruct (Z.testbit (Z.shiftr a 1) i), (Z.testbit (Z.shiftr b 1) i),
      (Z.testbit crc_poly i); reflexivity.
Qed.

Lemma crc_bits_lxor n a b :
  Nat.iter n crc_bit (Z.lxor a b) = Z.lxor (Nat.iter n crc_bit a) (Nat.iter n crc_bit b).
Proof. induction n as [|n IH]; simpl; [done|]. by rewrite IH, crc_bit_lxor. Qed.

Lemma crc_bit_double e : crc_bit (2 * e) = e.
Proof.
  unfold crc_bit. rewrite Z.odd_mul. simpl.
  rewrite Z.shiftr_div_pow2 by lia. rewrite Z.mul_comm. by apply Z.div_mul.
Qed.

(** A state in the kernel of one step is zero: the top bit of the polynomial
    records the bit shifted out. *)
Lemma crc_bit_zero c : word32 c → crc_bit c = 0 → c = 0.
Proof.
  unfold crc_bit. intros Hc H. destruct (Z.odd c) eqn:Ho.
  - exfalso. assert (Z.testbit (Z.lxor (Z.shiftr c 1) crc_poly) 31 = false) as Hb
      by (rewrite H; apply Z.bits_0).
    rewrite Z.lxor_spec, Z.shiftr_spec in Hb by lia.
    change (Z.testbit crc_poly 31) with true in Hb.
    rewrite (testbit_word32 c) in Hb; [done|done|lia].
  - rewrite Z.shiftr_div_pow2 in H by lia. change (2 ^ 1) with 2 in H.
    pose proof (Z.div_mod c 2 ltac:(lia)) as Hd. rewrite Zmod_odd, Ho in Hd. lia.
Qed.

Lemma crc_bits_zero n c : word32 c → Nat.iter n crc_bit c = 0 → c = 0.
Proof.
  induction n as [|n IH]; simpl; [done|]. intros Hc H.
  apply IH; [done|]. apply crc_bit_zero; auto with wire.
Qed.

Lemma crc_bits_inj n a b :
  word32 a → word32 b → Nat.iter n crc_bit a = Nat.iter n crc_bit b → a = b.
Proof.
  intros Ha Hb H. apply Z.lxor_eq, (crc_bits_zero n); [auto with wire|].
  by rewrite crc_bits_lxor, H, Z.lxor_nilpotent.
Qed.

Lemma crc_bits_shiftl k e : Nat.iter k crc_bit (Z.shiftl e (Z.of_nat k)) = e.
Proof.
  induction k as [|k IH]; [apply Z.shiftl_0_r|].
  rewrite Nat.iter_succ_r.
  replace (Z.shiftl e (Z.of_nat (S k))) with (2 * Z.shiftl e (Z.of_nat k)).
  { by rewrite crc_bit_double. }
  rewrite !Z.shiftl_mul_pow2 by lia.
  rewrite Nat2Z.inj_succ, Z.pow_succ_r by lia. lia.
Qed.

(** ** A whole message is one run of the register on its integer *)
Lemma byte_lxor_shiftl b z : 0 <= z → byte_to_Z b + 256 * z = Z.lxor (byte_to_Z b) (Z.shiftl z 8).
Proof.
  intros Hz. pose proof (byte_to_Z_range b).
  rewrite <- Z.add_nocarry_lxor.
  - rewrite Z.shiftl_mul_pow2 by lia. lia.
  - apply Z.bits_inj'. intros i Hi. rewrite Z.land_spec, Z.bits_0.
    destruct (Z.lt_ge_cases i 8).
    + by rewrite Z.shiftl_spec_low, andb_false_r by lia.
    + rewrite <- (Z.mod_small (byte_to_Z b) (2 ^ 8)) by lia.
      by rewrite Z.mod_pow2_bits_high by lia.
Qed.

Lemma crc_update_bits c l :
  crc_update c l = Nat.iter (8 * length l) crc_bit (Z.lxor c (le_uint l)).
Proof.
  revert c. induction l as [|b l IH]; intros c; [symmetry; apply Z.lxor_0_r|].
  cbn [crc_update foldl length]. change (foldl crc_byte) with crc_update.
  rewrite IH, le_uint_cons. unfold crc_byte.
  pose proof (le_uint_range l).
  rewrite byte_lxor_shiftl by lia.
  replace (8 * S (length l))%nat with (8 * length l + 8)%nat by lia.
  rewrite Nat.iter_add. f_equal.
  rewrite <- Z.lxor_assoc, (crc_bits_lxor 8 _ (Z.shiftl _ _)). f_equal.
  by rewrite (crc_bits_shiftl 8).
Qed.

(** ** Burst errors *)

(** [burst32 l k]: [k] is [l] with a non-empty error confined to at most 32
    consecutive bits (in the order the register consumes them). *)
Definition burst32 (l k : list byte) : Prop :=
  length l = length k ∧
  ∃ e i, 0 < e < 2 ^ 32 ∧ 0 <= i ∧ Z.lxor (le_uint l) (le_uint k) = Z.shiftl e i.

Lemma crc_update_burst c l k : burst32 l k → crc_update c l ≠ crc_update c k.
Proof.
  intros (Hlen & e & i & He & Hi & Hx) Heq.
  rewrite !crc_update_bits, Hlen in Heq.
  set (n := (8 * length k)%nat) in *.
  assert (Nat.iter n crc_bit (Z.shiftl e i) = 0) as Hz.
  { rewrite <- Hx.
    replace (Z.lxor (le_uint l) (le_uint k)) with
      (Z.lxor (Z.lxor c (le_uint l)) (Z.lxor c (le_uint k))).
    - by rewrite crc_bits_lxor, Heq, Z.lxor_nilpotent.
    - rewrite (Z.lxor_comm c (le_uint k)), Z.lxor_assoc, <- (Z.lxor_assoc (le_uint l)).
      rewrite (Z.lxor_comm (le_uint l) (le_uint k)), (Z.lxor_comm c).
      by rewrite Z.lxor_assoc, Z.lxor_nilpotent, Z.lxor_0_r. }
  assert (i < Z.of_nat n) as Hin.
  { apply Z.nle_gt. intros Hle.
    assert (Z.lxor (le_uint l) (le_uint k) < 2 ^ Z.of_nat n).
    { pose proof (le_uint_range l) as Hl. pose proof (le_uint_range k) as Hk.
      rewrite Hlen in Hl. replace (8 * Z.of_nat (length k)) with (Z.of_nat n) in * by lia.
      destruct (Z.eq_dec (Z.lxor (le_uint l) (le_uint k)) 0) as [->|]; [lia|].
      apply Z.log2_lt_cancel. rewrite Z.log2_pow2 by lia.
      eapply Z.le_lt_trans; [apply Z.log2_lxor; lia|].
      destruct (Z.eq_dec (le_uint l) 0) as [E1|], (Z.eq_dec (le_uint k) 0) as [E2|];
        rewrite ?E1, ?E2; [by rewrite E1, E2 in *| | |];
        apply Z.max_lub_lt; try (apply Z.log2_lt_pow2; lia);
        simpl; destruct (Z.eq_dec (Z.of_nat n) 0) as [En|]; try lia; rewrite En in *; lia. }
    rewrite Hx, Z.shiftl_mul_pow2 in * by lia.
    pose proof (Z.pow_le_mono_r 2 (Z.of_nat n) i). nia. }
  replace n with ((n - Z.to_nat i) + Z.to_nat i)%nat in Hz by lia.
  replace i with (Z.of_nat (Z.to_nat i)) in Hz at 3 by lia.
  rewrite Nat.iter_add, crc_bits_shiftl in Hz.
  apply crc_bits_zero in Hz; unfold word32; lia.
Qed.

(** ** The register after a message and its own checksum

    Appending the little-endian checksum drives the register to one fixed
    residue, so the gate accepts exactly the frames whose covered region
    followed by the CRC field leaves that residue. *)
Definition crc_residue : Z := Nat.iter 32 crc_bit crc_init.

Lemma crc_update_app c l k : crc_update c (l ++ k) = crc_update (crc_update c l) k.
Proof. apply foldl_app. Qed.

Lemma crc_residue_iff l w :
  length w = 4%nat →
  le_uint w = ChecksumIEEE l ↔ crc_update crc_init (l ++ w) = crc_residue.
Proof.
  intros Hw. rewrite crc_update_app, crc_update_bits, Hw.
  change (8 * 4)%nat with 32%nat. unfold crc_residue, ChecksumIEEE.
  set (s := crc_update crc_init l).
  assert (word32 s) by (unfold s; auto with wire).
  assert (word32 (le_uint w)).
  { pose proof (le_uint_range w). rewrite Hw in *. unfold word32. lia. }
  split.
  - intros ->. by rewrite <- Z.lxor_assoc, Z.lxor_nilpotent, Z.lxor_0_l.
  - intros H'. apply crc_bits_inj in H'; [|auto with wire..].
    rewrite <- H', <- Z.lxor_assoc, Z.lxor_nilpotent. by rewrite Z.lxor_0_l.
Qed.

(** The gate in terms of the bytes it covers. *)
Lemma ValidateFrameCRC32_ok_iff frame off :
  ValidateFrameCRC32 frame off = Ok tt ↔
  0 <= off ∧ off + 4 <= Z.of_nat (length frame) ∧
  crc_update crc_init (gslice 0 (off + 4) frame) = crc_residue.
Proof.
  unfold ValidateFrameCRC32.
  destruct (Z.ltb_spec off 0); simpl; [split; [done|lia]|].
  destruct (Z.ltb_spec (Z.of_nat (length frame)) (off + 4)); [split; [done|lia]|].
  assert (gslice 0 (off + 4) frame =
          gslice 0 off frame ++ gslice off (off + 4) frame) as ->.
  { unfold gslice. rewrite !Z.sub_0_r, drop_0.
    replace (Z.to_nat (off + 4)) with (Z.to_nat off + 4)%nat by lia.
    replace (Z.to_nat (off + 4 - off)) with 4%nat by lia.
    symmetry. apply take_take_drop. }
  rewrite <- crc_residue_iff by (rewrite length_gslice; lia).
  destruct (Z.eqb_spec (le_uint (gslice off (off + 4) frame))
              (ChecksumIEEE (gslice 0 off frame))).
  - by repeat split.
  - split; [done|by intros (_ & _ & ?)].
Qed.

(** ** Properties *)

(** The gate accepts exactly the frames that hold, at the given offset, the
    little-endian CRC-32 of everything before it; an offset whose field does not
    lie inside the frame is an error, and no index is out of range. *)
Theorem ValidateFrameCRC32_spec frame off :
  (ValidateFrameCRC32 frame off = Ok tt ↔
   ∃ covered crc tail, frame = covered ++ crc ++ tail ∧
     Z.of_nat (length covered) = off ∧ crc = put_le 4 (ChecksumIEEE covered)) ∧
  (ValidateFrameCRC32 frame off = Err (CrcOffsetOutOfBounds off (Z.of_nat (length frame))) ↔
   off < 0 ∨ Z.of_nat (length frame) < off + 4).
Proof.
  unfold ValidateFrameCRC32.
  destruct (Z.ltb_spec off 0) as [Hneg|Hpos]; simpl.
  { split; split; [done|intros (? & ? & ? & _ & ? & _); lia|by left|done]. }
  destruct (Z.ltb_spec (Z.of_nat (length frame)) (off + 4)) as [Hs|Hl].
  { split; split; [done| |by right|done].
    intros (cov & crc & tl & -> & Hc & ->). rewrite !length_app, length_put_le in Hs. lia. }
  assert (frame = gslice 0 off frame ++ gslice off (off + 4) frame ++
            drop (Z.to_nat (off + 4)) frame) as Hsplit.
  { unfold gslice. rewrite Z.sub_0_r, drop_0, app_assoc.
    replace (Z.to_nat (off + 4 - off)) with 4%nat by lia.
    rewrite take_take_drop. replace (Z.to_nat off + 4)%nat with (Z.to_nat (off + 4)) by lia.
    by rewrite take_drop. }
  split.
  - split.
    + destruct (Z.eqb_spec (le_uint (gslice off (off + 4) frame))
                  (ChecksumIEEE (gslice 0 off frame))) as [E|]; [intros _|done].
      eexists _, _, _. split; [exact Hsplit|]. rewrite length_gslice by lia.
      split; [lia|]. rewrite <- E. symmetry.
      replace 4%nat with (length (gslice off (off + 4) frame)) at 1
        by (rewrite length_gslice; lia). apply put_le_le_uint.
    + intros (cov & crc & tl & -> & Hc & ->).
      rewrite gslice_prefix, gslice_mid by (rewrite ?length_put_le; lia).
      rewrite le_uint_put_le_small; [by rewrite Z.eqb_refl|].
      unfold ChecksumIEEE.
      apply word32_lxor; auto using word32_init with wire.
  - split; [|lia]. by destruct (_ =? _).
Qed.

(** Burst errors are always caught: a frame the gate accepts is rejected
    after any error confined to 32 consecutive bits of the covered region and
    the CRC field, single-bit flips included. *)
Theorem ValidateFrameCRC32_detects_burst frame frame' off :
  ValidateFrameCRC32 frame off = Ok tt →
  burst32 (gslice 0 (off + 4) frame) (gslice 0 (off + 4) frame') →
  is_ok (ValidateFrameCRC32 frame' off) = false.
Proof.
  intros (Ho & Hl & Hr)%ValidateFrameCRC32_ok_iff Hb.
  destruct (ValidateFrameCRC32 frame' off) as [[]|] eqn:E; [|done].
  apply ValidateFrameCRC32_ok_iff in E as (_ & _ & E).
  apply (crc_update_burst crc_init) in Hb. congruence.
Qed.

Lemma ValidateFrameCRC32_detects_burst_witness :
  let hit := take 20 golden_snlp_d ++ [x41; x42; x43; x44] ++ drop 24 golden_snlp_d in
  is_ok (ValidateFrameCRC32 golden_snlp_d 126) = true ∧
  is_ok (ValidateFrameCRC32 hit 126) = false.
Proof.
  split; [by vm_compute|].
  apply (ValidateFrameCRC32_detects_burst golden_snlp_d); [by vm_compute|].
  split; [by vm_compute|].
  set (x := Z.lxor _ _). exists (Z.shiftr x 160), 160.
  split; [split; by vm_compute|]. split; [done|]. by vm_compute.
Defined.
