(* ===== verification/Kaitai.v ===== *)
(** * The binary stream the generated parser reads from

    The parser under [gateway/internal/void_protocol/protocol] is generated
    against the third-party Kaitai Struct runtime. The runtime is a parameter:
    [KaitaiStream] lists the operations the parser calls, [KaitaiStreamLaws]
    states their documented behaviour over a ghost view of the stream (its
    bytes and its position). [ListStream] is an executable implementation that
    satisfies the laws.

    [SR] is the monad of the generated [Read] methods. [denotes m P] says that
    reading succeeds exactly on the byte sequences that [P] relates to the
    value read; its rules follow the structure of the code. *)
From S2P Require Export Bytes.
#[local] Open Scope Z_scope.

(** The errors a [Read] returns: one of the runtime's own, or the validation
    error the generated code constructs for a field with a fixed value. *)
Inductive kaitai_error :=
  | KaitaiIOError
  | ValidationNotEqualError (path : string).

(** IEEE-754 values are represented by their bit patterns. *)
Definition float32 : Type := Z.
Definition float64 : Type := Z.

Class KaitaiStream (St : Type) := {
  NewStream : list byte → St;
  Pos : St → result kaitai_error Z;
  SeekStart : Z → St → result kaitai_error St;
  ReadBytes : Z → St → result kaitai_error (list byte * St);
  ReadU1 : St → result kaitai_error (Z * St);
  ReadU2le : St → result kaitai_error (Z * St);
  ReadU4le : St → result kaitai_error (Z * St);
  ReadU8le : St → result kaitai_error (Z * St);
  ReadS2le : St → result kaitai_error (Z * St);
  ReadS4le : St → result kaitai_error (Z * St);
  ReadU2be : St → result kaitai_error (Z * St);
  ReadU4be : St → result kaitai_error (Z * St);
  ReadF4le : St → result kaitai_error (float32 * St);
  ReadF8le : St → result kaitai_error (float64 * St);
}.

(** A fixed-width read: [n] bytes are consumed and decoded, or it fails because
    fewer than [n] remain. *)
Definition reads {St A} (data : St → list byte) (pos : St → nat)
    (n : nat) (dec : list byte → A) (rd : St → result kaitai_error (A * St)) : Prop :=
  ∀ s,
    let r := drop (pos s) (data s) in
    if decide (n ≤ length r)%nat
    then ∃ s', rd s = Ok (dec (take n r), s') ∧ data s' = data s ∧ pos s' = (pos s + n)%nat
    else ∃ e, rd s = Err e.

Class KaitaiStreamLaws (St : Type) `{KaitaiStream St} := {
  stream_data : St → list byte;
  stream_pos : St → nat;
  NewStream_data l : stream_data (NewStream l) = l;
  NewStream_pos l : stream_pos (NewStream l) = O;
  Pos_law s : Pos s = Ok (Z.of_nat (stream_pos s));
  SeekStart_law p s : 0 <= p →
    ∃ s', SeekStart p s = Ok s' ∧ stream_data s' = stream_data s ∧ stream_pos s' = Z.to_nat p;
  ReadBytes_law n : 0 <= n → reads stream_data stream_pos (Z.to_nat n) id (ReadBytes n);
  ReadU1_law : reads stream_data stream_pos 1 le_uint ReadU1;
  ReadU2le_law : reads stream_data stream_pos 2 le_uint ReadU2le;
  ReadU4le_law : reads stream_data stream_pos 4 le_uint ReadU4le;
  ReadU8le_law : reads stream_data stream_pos 8 le_uint ReadU8le;
  ReadS2le_law : reads stream_data stream_pos 2 (to_signed 16 ∘ le_uint) ReadS2le;
  ReadS4le_law : reads stream_data stream_pos 4 (to_signed 32 ∘ le_uint) ReadS4le;
  ReadU2be_law : reads stream_data stream_pos 2 be_uint ReadU2be;
  ReadU4be_law : reads stream_data stream_pos 4 be_uint ReadU4be;
  ReadF4le_law : reads stream_data stream_pos 4 le_uint ReadF4le;
  ReadF8le_law : reads stream_data stream_pos 8 le_uint ReadF8le;
}.

(** ** The monad of [Read] methods *)
Definition SR (St A : Type) : Type := St → result kaitai_error (A * St).

Definition sret {St A} (a : A) : SR St A := λ s, Ok (a, s).
Definition sfail {St A} (e : kaitai_error) : SR St A := λ _, Err e.
Definition sbind {St A B} (m : SR St A) (k : A → SR St B) : SR St B :=
  λ s, result_bind (m s) (λ '(a, s'), k a s').

Notation "'let!' x ':=' m 'in' k" := (sbind m (fun x => k))
  (at level 10, x name, m at level 100, k at level 200) : go_scope.

(** [bytes.Equal] *)
Definition bytes_equal (l k : list byte) : bool := bool_decide (l = k).

(** ** What a read denotes *)
Section Denotes.
Context {St : Type} `{KaitaiStreamLaws St}.

Definition rest (s : St) : list byte := drop (stream_pos s) (stream_data s).

Definition denotes {A} (m : SR St A) (P : A → list byte → Prop) : Prop :=
  ∀ s,
    (∀ a s', m s = Ok (a, s') →
       stream_data s' = stream_data s ∧ ∃ l, P a l ∧ rest s = l ++ rest s') ∧
    (∀ a l l', P a l → rest s = l ++ l' →
       ∃ s', m s = Ok (a, s') ∧ stream_data s' = stream_data s ∧ rest s' = l').

Lemma denotes_iff {A} (m : SR St A) P Q :
  denotes m P → (∀ a l, P a l ↔ Q a l) → denotes m Q.
Proof.
  intros Hm HPQ s. destruct (Hm s) as [Hs Hc]. split.
  - intros a s' E. destruct (Hs a s' E) as (? & l & ?%HPQ & ?). eauto.
  - intros a l l' ?%HPQ ?. eauto.
Qed.

Lemma denotes_ret {A} (x : A) : denotes (sret x) (λ a l, a = x ∧ l = []).
Proof.
  intros s. split.
  - intros a s' [= -> ->]. split; [done|]. by exists [].
  - intros a l l' [-> ->] ?. by exists s.
Qed.

Lemma denotes_fail {A} e : denotes (sfail e) (λ (_ : A) _, False).
Proof. intros s. split; [by intros|naive_solver]. Qed.

Lemma denotes_bind {A B} (m : SR St A) (k : A → SR St B) P Q :
  denotes m P → (∀ a, denotes (k a) (Q a)) →
  denotes (sbind m k)
    (λ b l, ∃ a l1 l2, P a l1 ∧ Q a b l2 ∧ l = l1 ++ l2).
Proof.
  intros Hm Hk s. destruct (Hm s) as [Hs Hc]. unfold sbind. split.
  - intros b s' E. apply result_bind_ok_inv in E as ((a & s1) & E1 & E2).
    destruct (Hs a s1 E1) as (Hd1 & l1 & HP & Hr1).
    destruct (Hk a s1) as [Hs2 _]. destruct (Hs2 b s' E2) as (Hd2 & l2 & HQ & Hr2).
    split; [congruence|]. exists (l1 ++ l2). split; [by eauto 10|].
    by rewrite Hr1, Hr2, app_assoc.
  - intros b l l' (a & l1 & l2 & HP & HQ & ->) Hr. rewrite <- app_assoc in Hr.
    destruct (Hc a l1 (l2 ++ l') HP Hr) as (s1 & -> & Hd1 & Hr1). simpl.
    destruct (Hk a s1) as [_ Hc2].
    destruct (Hc2 b l2 l' HQ Hr1) as (s2 & E2 & Hd2 & Hr2).
    exists s2. split; [done|]. split; [congruence|done].
Qed.

Lemma denotes_if {A} (c : bool) (m1 m2 : SR St A) P1 P2 :
  denotes m1 P1 → denotes m2 P2 →
  denotes (if c then m1 else m2) (λ a l, if c then P1 a l else P2 a l).
Proof. by destruct c. Qed.

(** A lawful fixed-width read of an invertible encoding. *)
Lemma denotes_reads {A} n (dec : list byte → A) (enc : A → list byte) (wf : A → Prop) rd :
  reads stream_data stream_pos n dec rd →
  (∀ l, length l = n → wf (dec l) ∧ enc (dec l) = l) →
  (∀ a, wf a → length (enc a) = n ∧ dec (enc a) = a) →
  denotes rd (λ a l, wf a ∧ l = enc a).
Proof.
  intros Hrd Hdec Henc s. specialize (Hrd s). simpl in Hrd. fold (rest s) in Hrd.
  assert (∀ s', stream_data s' = stream_data s → stream_pos s' = (stream_pos s + n)%nat →
            rest s' = drop n (rest s)) as Hrest.
  { intros s' Hd Hp. unfold rest. by rewrite Hd, Hp, drop_drop. }
  split.
  - intros a s' E. case_decide as Hn.
    + destruct Hrd as (s1 & E1 & Hd & Hp). rewrite E in E1. injection E1 as -> ->.
      split; [done|]. destruct (Hdec (take n (rest s))) as [Hwf He].
      { rewrite length_take. lia. }
      exists (take n (rest s)). rewrite He, (Hrest s1) by done.
      by rewrite take_drop.
    + destruct Hrd as [e He]. congruence.
  - intros a l l' [Hwf ->] Hr. destruct (Henc a Hwf) as [Hlen Hda].
    rewrite decide_True in Hrd by (rewrite Hr, length_app; lia).
    destruct Hrd as (s1 & E1 & Hd & Hp).
    rewrite Hr, take_app_exact, Hda in E1 by done.
    exists s1. split; [done|]. split; [done|].
    rewrite (Hrest s1), Hr by done. by apply drop_app_exact.
Qed.
End Denotes.

(** ** The reads of the runtime, as denotations *)
Section Primitives.
Context {St : Type} `{KaitaiStreamLaws St}.

Lemma denotes_ReadBytes n : 0 <= n →
  denotes (ReadBytes n) (λ a l, length a = Z.to_nat n ∧ l = a).
Proof.
  intros Hn. eapply denotes_iff.
  - apply (denotes_reads (Z.to_nat n) id id (λ a, length a = Z.to_nat n));
      [by apply ReadBytes_law|done|done].
  - done.
Qed.

Lemma denotes_ReadU1 : denotes ReadU1 (λ a l, in_u 8 a ∧ l = put_le 1 a).
Proof. eapply denotes_reads; [apply ReadU1_law|apply (le_field_dec 1)|apply (le_field_enc 1)]. Qed.

Lemma denotes_ReadU2le : denotes ReadU2le (λ a l, in_u 16 a ∧ l = put_le 2 a).
Proof. eapply denotes_reads; [apply ReadU2le_law|apply (le_field_dec 2)|apply (le_field_enc 2)]. Qed.

Lemma denotes_ReadU4le : denotes ReadU4le (λ a l, in_u 32 a ∧ l = put_le 4 a).
Proof. eapply denotes_reads; [apply ReadU4le_law|apply (le_field_dec 4)|apply (le_field_enc 4)]. Qed.

Lemma denotes_ReadU8le : denotes ReadU8le (λ a l, in_u 64 a ∧ l = put_le 8 a).
Proof. eapply denotes_reads; [apply ReadU8le_law|apply (le_field_dec 8)|apply (le_field_enc 8)]. Qed.

Lemma denotes_ReadF4le : denotes ReadF4le (λ a l, in_u 32 a ∧ l = put_le 4 a).
Proof. eapply denotes_reads; [apply ReadF4le_law|apply (le_field_dec 4)|apply (le_field_enc 4)]. Qed.

Lemma denotes_ReadF8le : denotes ReadF8le (λ a l, in_u 64 a ∧ l = put_le 8 a).
Proof. eapply denotes_reads; [apply ReadF8le_law|apply (le_field_dec 8)|apply (le_field_enc 8)]. Qed.

Lemma denotes_ReadU2be : denotes ReadU2be (λ a l, in_u 16 a ∧ l = put_be 2 a).
Proof. eapply denotes_reads; [apply ReadU2be_law|apply (be_field_dec 2)|apply (be_field_enc 2)]. Qed.

Lemma denotes_ReadU4be : denotes ReadU4be (λ a l, in_u 32 a ∧ l = put_be 4 a).
Proof. eapply denotes_reads; [apply ReadU4be_law|apply (be_field_dec 4)|apply (be_field_enc 4)]. Qed.

Lemma denotes_ReadS2le : denotes ReadS2le (λ a l, in_s 16 a ∧ l = put_le 2 a).
Proof.
  eapply denotes_reads;
    [apply ReadS2le_law
    |intros; apply (signed_field_dec 2); [lia|done]
    |intros; apply (signed_field_enc 2); [lia|done]].
Qed.

Lemma denotes_ReadS4le : denotes ReadS4le (λ a l, in_s 32 a ∧ l = put_le 4 a).
Proof.
  eapply denotes_reads;
    [apply ReadS4le_law
    |intros; apply (signed_field_dec 4); [lia|done]
    |intros; apply (signed_field_enc 4); [lia|done]].
Qed.

Lemma rest_NewStream l : rest (NewStream l) = l.
Proof. unfold rest. by rewrite NewStream_data, NewStream_pos. Qed.
End Primitives.

Create HintDb denotes.
#[export] Hint Resolve denotes_ReadU1 denotes_ReadU2le denotes_ReadU4le
  denotes_ReadU8le denotes_ReadS2le denotes_ReadS4le denotes_ReadU2be
  denotes_ReadU4be denotes_ReadF4le denotes_ReadF8le : denotes.

(** Compute the denotation of a [Read] method from its code. *)
Ltac denote_step :=
  match goal with
  | |- denotes (sbind _ _) _ => eapply denotes_bind; [ | intros ? ]
  | |- denotes (if _ then _ else _) _ => eapply denotes_if
  | |- denotes (sret _) _ => eapply denotes_ret
  | |- denotes (sfail _) _ => eapply denotes_fail
  | |- denotes (ReadBytes _) _ => apply denotes_ReadBytes; lia
  | |- denotes _ _ => solve [ eauto with denotes nocore ]
  end.
Ltac head_of t := lazymatch t with ?f _ => head_of f | _ => t end.
Ltac denote :=
  lazymatch goal with
  | |- denotes ?m _ => let h := head_of m in unfold h; repeat denote_step
  end.

(** Split a denotation into its parts, or rebuild it from them. *)
Ltac split_denotation :=
  repeat match goal with
  | H : ∃ _, _ |- _ => destruct H as [? H]
  | H : _ ∧ _ |- _ => destruct H as [? H]
  | H : False |- _ => destruct H
  end; subst.

Ltac build_denotation :=
  repeat match goal with
  | |- ∃ _, _ => eexists
  | |- _ ∧ _ => split
  end.

(** The denotation computed from the code is the stated one. *)
Ltac solve_denotes :=
  eapply denotes_iff; [ denote | ];
  let v := fresh "v" in
  intros v ?; split;
  [ intros ?; split_denotation; rewrite ?app_nil_r; by auto 20
  | intros ?; destruct v; split_denotation; build_denotation;
    (* equations first: they determine the fields read *)
    try (lazymatch goal with |- _ = _ =>
           first [ reflexivity | rewrite ?app_nil_r, <- ?app_assoc; reflexivity ] end);
    try assumption ].

(** The same for a structure whose first field is compared with a constant. *)
Ltac solve_denotes_magic :=
  eapply denotes_iff; [ denote | ];
  let v := fresh "v" in
  intros v ?; split;
  [ intros (m & ? & ? & [? ->] & Hm & ->); unfold bytes_equal in Hm;
    case_bool_decide; [ | done ]; cbn [negb] in Hm;
    split_denotation; rewrite ?app_nil_r; by auto 20
  | intros ?; destruct v; split_denotation;
    match goal with H : _ = [?b] |- _ =>
      cbn in H; subst; exists [b], [b]; eexists end;
    split; [ split; reflexivity | ]; split; [ | reflexivity ];
    unfold bytes_equal; rewrite bool_decide_eq_true_2 by reflexivity; cbn [negb]; build_denotation;
    try (lazymatch goal with |- _ = _ =>
           first [ reflexivity | rewrite ?app_nil_r, <- ?app_assoc; reflexivity ] end);
    try assumption ].

(** The length of an encoding from the lengths of its parts. *)
Ltac body_length :=
  intros ?; destruct_and?; autorewrite with lens;
  repeat match goal with
  | H : length _ = _ |- _ => rewrite H; clear H
  | H : ?x = [_] |- context [length ?x] => rewrite H; clear H
  end; reflexivity.

(** ** An executable stream *)
Record ListStream := { ls_data : list byte; ls_pos : nat }.

Definition ls_read {A} (n : nat) (dec : list byte → A) (s : ListStream)
    : result kaitai_error (A * ListStream) :=
  let r := drop (ls_pos s) (ls_data s) in
  if decide (n ≤ length r)%nat
  then Ok (dec (take n r), {| ls_data := ls_data s; ls_pos := ls_pos s + n |})
  else Err KaitaiIOError.

#[export] Instance ListStream_ops : KaitaiStream ListStream := {
  NewStream l := {| ls_data := l; ls_pos := 0 |};
  Pos s := Ok (Z.of_nat (ls_pos s));
  SeekStart p s := if p <? 0 then Err KaitaiIOError
    else Ok {| ls_data := ls_data s; ls_pos := Z.to_nat p |};
  ReadBytes n := ls_read (Z.to_nat n) id;
  ReadU1 := ls_read 1 le_uint;
  ReadU2le := ls_read 2 le_uint;
  ReadU4le := ls_read 4 le_uint;
  ReadU8le := ls_read 8 le_uint;
  ReadS2le := ls_read 2 (to_signed 16 ∘ le_uint);
  ReadS4le := ls_read 4 (to_signed 32 ∘ le_uint);
  ReadU2be := ls_read 2 be_uint;
  ReadU4be := ls_read 4 be_uint;
  ReadF4le := ls_read 4 le_uint;
  ReadF8le := ls_read 8 le_uint;
}.

Lemma ls_read_reads {A} n (dec : list byte → A) : reads ls_data ls_pos n dec (ls_read n dec).
Proof. intros s. unfold ls_read. simpl. case_decide; eauto. Qed.

#[export] Instance ListStream_laws : KaitaiStreamLaws ListStream.
Proof.
  refine {| stream_data := ls_data; stream_pos := ls_pos |};
    try (intros; apply ls_read_reads); try done.
  intros p s Hp. simpl. destruct (Z.ltb_spec p 0); [lia|]. eauto.
Defined.
