(* ===== verification/CommonTypes.v ===== *)
(** * Common field types

    Models [protocol/tig_common_types.go]: the enumerations with their
    [isDefined] tests and the sub-structures shared by the packet bodies. For
    each structure: its record, its [Read] method, the bytes it denotes
    ([_bytes]), the ranges of its fields ([_wf]) and the lemma that [Read]
    denotes exactly that encoding. *)
From S2P Require Export Kaitai.
#[local] Open Scope Z_scope.
#[local] Open Scope go_scope.

(** ** Enumerations

    The generated Go types are integers: the parser stores any wire value, and
    [isDefined] tells whether it is one of the named constants. *)
Definition TigCommonTypes_AssetId_Usdc : Z := 1.
Definition AssetId_isDefined (v : Z) : bool := bool_decide (v ∈ [1]).

Definition TigCommonTypes_CmdCode_UnlockDispense : Z := 1.
Definition TigCommonTypes_CmdCode_AtomicDestroy : Z := 255.
Definition CmdCode_isDefined (v : Z) : bool := bool_decide (v ∈ [1; 255]).

Definition TigCommonTypes_PacketTypeId_Telemetry : Z := 0.
Definition TigCommonTypes_PacketTypeId_Telecommand : Z := 1.
Definition PacketTypeId_isDefined (v : Z) : bool := bool_decide (v ∈ [0; 1]).

Definition TigCommonTypes_SettlementStatus_Settled : Z := 1.
Definition TigCommonTypes_SettlementStatus_Rejected : Z := 255.
Definition SettlementStatus_isDefined (v : Z) : bool := bool_decide (v ∈ [1; 255]).

Definition TigCommonTypes_SysState_Boot : Z := 0.
Definition TigCommonTypes_SysState_Idle : Z := 1.
Definition TigCommonTypes_SysState_TxActive : Z := 2.
Definition TigCommonTypes_SysState_RxActive : Z := 3.
Definition TigCommonTypes_SysState_Connected : Z := 4.
Definition TigCommonTypes_SysState_Provisioning : Z := 5.
Definition TigCommonTypes_SysState_Error : Z := 6.
Definition SysState_isDefined (v : Z) : bool := bool_decide (v ∈ [0; 1; 2; 3; 4; 5; 6]).

(** ** Structures *)
Record TigCommonTypes_Ed25519Signature := { Ed25519Signature_Raw : list byte }.
Record TigCommonTypes_GpsFixedPoint := { Gps_Latitude : Z; Gps_Longitude : Z }.
Record TigCommonTypes_RelayOps := {
  RelayOps_Azimuth : Z; RelayOps_Elevation : Z;
  RelayOps_Frequency : Z; RelayOps_DurationMs : Z }.
Record TigCommonTypes_Vector3d := {
  Vector3d_X : float64; Vector3d_Y : float64; Vector3d_Z : float64 }.
Record TigCommonTypes_Vector3f := {
  Vector3f_X : float32; Vector3f_Y : float32; Vector3f_Z : float32 }.
Record TigCommonTypes_X25519PublicKey := { X25519PublicKey_Raw : list byte }.

Section Reads.
Context {St : Type} `{KaitaiStream St}.

Definition Ed25519Signature_Read : SR St TigCommonTypes_Ed25519Signature :=
  let! tmp1 := ReadBytes 64 in
  sret {| Ed25519Signature_Raw := tmp1 |}.

Definition GpsFixedPoint_Read : SR St TigCommonTypes_GpsFixedPoint :=
  let! tmp2 := ReadS4le in
  let! tmp3 := ReadS4le in
  sret {| Gps_Latitude := tmp2; Gps_Longitude := tmp3 |}.

Definition RelayOps_Read : SR St TigCommonTypes_RelayOps :=
  let! tmp4 := ReadU2le in
  let! tmp5 := ReadU2le in
  let! tmp6 := ReadU4le in
  let! tmp7 := ReadU4le in
  sret {| RelayOps_Azimuth := tmp4; RelayOps_Elevation := tmp5;
          RelayOps_Frequency := tmp6; RelayOps_DurationMs := tmp7 |}.

Definition Vector3d_Read : SR St TigCommonTypes_Vector3d :=
  let! tmp8 := ReadF8le in
  let! tmp9 := ReadF8le in
  let! tmp10 := ReadF8le in
  sret {| Vector3d_X := tmp8; Vector3d_Y := tmp9; Vector3d_Z := tmp10 |}.

Definition Vector3f_Read : SR St TigCommonTypes_Vector3f :=
  let! tmp11 := ReadF4le in
  let! tmp12 := ReadF4le in
  let! tmp13 := ReadF4le in
  sret {| Vector3f_X := tmp11; Vector3f_Y := tmp12; Vector3f_Z := tmp13 |}.

Definition X25519PublicKey_Read : SR St TigCommonTypes_X25519PublicKey :=
  let! tmp14 := ReadBytes 32 in
  sret {| X25519PublicKey_Raw := tmp14 |}.
End Reads.

(** ** Encodings *)
Definition Ed25519Signature_bytes (v : TigCommonTypes_Ed25519Signature) : list byte :=
  Ed25519Signature_Raw v.
Definition Ed25519Signature_wf (v : TigCommonTypes_Ed25519Signature) : Prop :=
  length (Ed25519Signature_Raw v) = 64%nat.

Definition GpsFixedPoint_bytes (v : TigCommonTypes_GpsFixedPoint) : list byte :=
  put_le 4 (Gps_Latitude v) ++ put_le 4 (Gps_Longitude v).
Definition GpsFixedPoint_wf (v : TigCommonTypes_GpsFixedPoint) : Prop :=
  in_s 32 (Gps_Latitude v) ∧ in_s 32 (Gps_Longitude v).

Definition RelayOps_bytes (v : TigCommonTypes_RelayOps) : list byte :=
  put_le 2 (RelayOps_Azimuth v) ++ put_le 2 (RelayOps_Elevation v) ++
  put_le 4 (RelayOps_Frequency v) ++ put_le 4 (RelayOps_DurationMs v).
Definition RelayOps_wf (v : TigCommonTypes_RelayOps) : Prop :=
  in_u 16 (RelayOps_Azimuth v) ∧ in_u 16 (RelayOps_Elevation v) ∧
  in_u 32 (RelayOps_Frequency v) ∧ in_u 32 (RelayOps_DurationMs v).

Definition Vector3d_bytes (v : TigCommonTypes_Vector3d) : list byte :=
  put_le 8 (Vector3d_X v) ++ put_le 8 (Vector3d_Y v) ++ put_le 8 (Vector3d_Z v).
Definition Vector3d_wf (v : TigCommonTypes_Vector3d) : Prop :=
  in_u 64 (Vector3d_X v) ∧ in_u 64 (Vector3d_Y v) ∧ in_u 64 (Vector3d_Z v).

Definition Vector3f_bytes (v : TigCommonTypes_Vector3f) : list byte :=
  put_le 4 (Vector3f_X v) ++ put_le 4 (Vector3f_Y v) ++ put_le 4 (Vector3f_Z v).
Definition Vector3f_wf (v : TigCommonTypes_Vector3f) : Prop :=
  in_u 32 (Vector3f_X v) ∧ in_u 32 (Vector3f_Y v) ∧ in_u 32 (Vector3f_Z v).

Definition X25519PublicKey_bytes (v : TigCommonTypes_X25519PublicKey) : list byte :=
  X25519PublicKey_Raw v.
Definition X25519PublicKey_wf (v : TigCommonTypes_X25519PublicKey) : Prop :=
  length (X25519PublicKey_Raw v) = 32%nat.

Section Denotations.
Context {St : Type} `{KaitaiStreamLaws St}.

Lemma denotes_Ed25519Signature :
  denotes Ed25519Signature_Read (λ v l, Ed25519Signature_wf v ∧ l = Ed25519Signature_bytes v).
Proof. unfold Ed25519Signature_wf, Ed25519Signature_bytes. solve_denotes. Qed.

Lemma denotes_GpsFixedPoint :
  denotes GpsFixedPoint_Read (λ v l, GpsFixedPoint_wf v ∧ l = GpsFixedPoint_bytes v).
Proof. unfold GpsFixedPoint_wf, GpsFixedPoint_bytes. solve_denotes. Qed.

Lemma denotes_RelayOps :
  denotes RelayOps_Read (λ v l, RelayOps_wf v ∧ l = RelayOps_bytes v).
Proof. unfold RelayOps_wf, RelayOps_bytes. solve_denotes. Qed.

Lemma denotes_Vector3d :
  denotes Vector3d_Read (λ v l, Vector3d_wf v ∧ l = Vector3d_bytes v).
Proof. unfold Vector3d_wf, Vector3d_bytes. solve_denotes. Qed.

Lemma denotes_Vector3f :
  denotes Vector3f_Read (λ v l, Vector3f_wf v ∧ l = Vector3f_bytes v).
Proof. unfold Vector3f_wf, Vector3f_bytes. solve_denotes. Qed.

Lemma denotes_X25519PublicKey :
  denotes X25519PublicKey_Read (λ v l, X25519PublicKey_wf v ∧ l = X25519PublicKey_bytes v).
Proof. unfold X25519PublicKey_wf, X25519PublicKey_bytes. solve_denotes. Qed.
End Denotations.
#[export] Hint Resolve denotes_Ed25519Signature denotes_GpsFixedPoint
  denotes_RelayOps denotes_Vector3d denotes_Vector3f denotes_X25519PublicKey : denotes.

Lemma length_RelayOps_bytes v : length (RelayOps_bytes v) = 12%nat.
Proof. unfold RelayOps_bytes. len. Qed.
Lemma length_Vector3d_bytes v : length (Vector3d_bytes v) = 24%nat.
Proof. unfold Vector3d_bytes. len. Qed.
Lemma length_Vector3f_bytes v : length (Vector3f_bytes v) = 12%nat.
Proof. unfold Vector3f_bytes. len. Qed.
#[export] Hint Rewrite length_RelayOps_bytes length_Vector3d_bytes
  length_Vector3f_bytes : lens.
Lemma length_Ed25519Signature_bytes v :
  Ed25519Signature_wf v → length (Ed25519Signature_bytes v) = 64%nat.
Proof. done. Qed.
Lemma length_X25519PublicKey_bytes v :
  X25519PublicKey_wf v → length (X25519PublicKey_bytes v) = 32%nat.
Proof. done. Qed.
#[export] Hint Rewrite length_Ed25519Signature_bytes length_X25519PublicKey_bytes
  using assumption : lens.
