(* ===== verification/Headers.v ===== *)
(** * Routing headers

    Models [protocol/ccsds_primary_header.go] (the 6-byte CCSDS primary header
    and its memoised bit-field accessors) and [protocol/snlp_header.go] (the
    14-byte SNLP header that embeds it).

    The Go accessors take [uint16] words apart with masks and shifts; additions
    are done in [uint16] before the conversion to [int], so they wrap. *)
From S2P Require Export CommonTypes.
#[local] Open Scope Z_scope.
#[local] Open Scope go_scope.

(** A lazily computed instance: the flag [_f_x] and the cached value [x]. *)
Record memo (A : Type) := { memo_f : bool; memo_v : A }.
Arguments memo_f {A}. Arguments memo_v {A}. Arguments Build_memo {A}.
Definition memo_none {A} (zero : A) : memo A := {| memo_f := false; memo_v := zero |}.
Definition memo_some {A} (v : A) : memo A := {| memo_f := true; memo_v := v |}.

Record CcsdsPrimaryHeader := {
  VersionTypeFlagApid : Z;
  SeqFlagsCount : Z;
  PacketDataLength : Z;
  m_apid : memo Z;
  m_dataFieldLength : memo Z;
  m_packetType : memo Z;
  m_secHeaderFlag : memo Z;
  m_seqCount : memo Z;
  m_seqFlags : memo Z;
  m_totalPacketLength : memo Z;
  m_version : memo Z;
}.

(** The header just read: the three words, no instance computed yet. *)
Definition ccsds_of_words (w0 w1 w2 : Z) : CcsdsPrimaryHeader :=
  {| VersionTypeFlagApid := w0; SeqFlagsCount := w1; PacketDataLength := w2;
     m_apid := memo_none 0; m_dataFieldLength := memo_none 0;
     m_packetType := memo_none 0; m_secHeaderFlag := memo_none 0;
     m_seqCount := memo_none 0; m_seqFlags := memo_none 0;
     m_totalPacketLength := memo_none 0; m_version := memo_none 0 |}.

(** ** The accessors *)
Definition Ccsds_Apid (this : CcsdsPrimaryHeader) : Z * CcsdsPrimaryHeader :=
  let '(Build_CcsdsPrimaryHeader w0 w1 w2 a d p h c s t v) := this in
  if memo_f a then (memo_v a, this) else
  let r := Z.land w0 2047 in
  (r, Build_CcsdsPrimaryHeader w0 w1 w2 (memo_some r) d p h c s t v).

Definition Ccsds_DataFieldLength (this : CcsdsPrimaryHeader) : Z * CcsdsPrimaryHeader :=
  let '(Build_CcsdsPrimaryHeader w0 w1 w2 a d p h c s t v) := this in
  if memo_f d then (memo_v d, this) else
  let r := u16 (w2 + 1) in
  (r, Build_CcsdsPrimaryHeader w0 w1 w2 a (memo_some r) p h c s t v).

Definition Ccsds_PacketType (this : CcsdsPrimaryHeader) : Z * CcsdsPrimaryHeader :=
  let '(Build_CcsdsPrimaryHeader w0 w1 w2 a d p h c s t v) := this in
  if memo_f p then (memo_v p, this) else
  let r := Z.land (Z.shiftr w0 12) 1 in
  (r, Build_CcsdsPrimaryHeader w0 w1 w2 a d (memo_some r) h c s t v).

Definition Ccsds_SecHeaderFlag (this : CcsdsPrimaryHeader) : Z * CcsdsPrimaryHeader :=
  let '(Build_CcsdsPrimaryHeader w0 w1 w2 a d p h c s t v) := this in
  if memo_f h then (memo_v h, this) else
  let r := Z.land (Z.shiftr w0 11) 1 in
  (r, Build_CcsdsPrimaryHeader w0 w1 w2 a d p (memo_some r) c s t v).

Definition Ccsds_SeqCount (this : CcsdsPrimaryHeader) : Z * CcsdsPrimaryHeader :=
  let '(Build_CcsdsPrimaryHeader w0 w1 w2 a d p h c s t v) := this in
  if memo_f c then (memo_v c, this) else
  let r := Z.land w1 16383 in
  (r, Build_CcsdsPrimaryHeader w0 w1 w2 a d p h (memo_some r) s t v).

Definition Ccsds_SeqFlags (this : CcsdsPrimaryHeader) : Z * CcsdsPrimaryHeader :=
  let '(Build_CcsdsPrimaryHeader w0 w1 w2 a d p h c s t v) := this in
  if memo_f s then (memo_v s, this) else
  let r := Z.land (Z.shiftr w1 14) 3 in
  (r, Build_CcsdsPrimaryHeader w0 w1 w2 a d p h c (memo_some r) t v).

Definition Ccsds_TotalPacketLength (this : CcsdsPrimaryHeader) : Z * CcsdsPrimaryHeader :=
  let '(Build_CcsdsPrimaryHeader w0 w1 w2 a d p h c s t v) := this in
  if memo_f t then (memo_v t, this) else
  let r := u16 (w2 + 7) in
  (r, Build_CcsdsPrimaryHeader w0 w1 w2 a d p h c s (memo_some r) v).

Definition Ccsds_Version (this : CcsdsPrimaryHeader) : Z * CcsdsPrimaryHeader :=
  let '(Build_CcsdsPrimaryHeader w0 w1 w2 a d p h c s t v) := this in
  if memo_f v then (memo_v v, this) else
  let r := Z.land (Z.shiftr w0 13) 7 in
  (r, Build_CcsdsPrimaryHeader w0 w1 w2 a d p h c s t (memo_some r)).

Record SnlpHeader := {
  SyncWord : list byte;
  Ccsds : CcsdsPrimaryHeader;
  AlignPad : Z;
}.

(** ** Reading *)
Section Reads.
Context {St : Type} `{KaitaiStream St}.

Definition CcsdsPrimaryHeader_Read : SR St CcsdsPrimaryHeader :=
  let! tmp1 := ReadU2be in
  let! tmp2 := ReadU2be in
  let! tmp3 := ReadU2be in
  sret (ccsds_of_words tmp1 tmp2 tmp3).

Definition SnlpHeader_Read : SR St SnlpHeader :=
  let! tmp1 := ReadBytes 4 in
  if negb (bytes_equal tmp1 [x1d; x01; xa5; xa5])
  then sfail (ValidationNotEqualError "/seq/0")
  else
    let! tmp2 := CcsdsPrimaryHeader_Read in
    let! tmp3 := ReadU4be in
    if negb (tmp3 =? 0)
    then sfail (ValidationNotEqualError "/seq/2")
    else sret {| SyncWord := tmp1; Ccsds := tmp2; AlignPad := tmp3 |}.
End Reads.

(** ** Encodings *)
Definition sync_word_bytes : list byte := [x1d; x01; xa5; xa5].

Definition Ccsds_bytes (h : CcsdsPrimaryHeader) : list byte :=
  put_be 2 (VersionTypeFlagApid h) ++ put_be 2 (SeqFlagsCount h) ++ put_be 2 (PacketDataLength h).

Definition Ccsds_wf (h : CcsdsPrimaryHeader) : Prop :=
  in_u 16 (VersionTypeFlagApid h) ∧ in_u 16 (SeqFlagsCount h) ∧ in_u 16 (PacketDataLength h) ∧
  h = ccsds_of_words (VersionTypeFlagApid h) (SeqFlagsCount h) (PacketDataLength h).

Definition Snlp_bytes (h : SnlpHeader) : list byte :=
  SyncWord h ++ Ccsds_bytes (Ccsds h) ++ put_be 4 (AlignPad h).

Definition Snlp_wf (h : SnlpHeader) : Prop :=
  SyncWord h = sync_word_bytes ∧ Ccsds_wf (Ccsds h) ∧ AlignPad h = 0.

Lemma length_Ccsds_bytes h : length (Ccsds_bytes h) = 6%nat.
Proof. unfold Ccsds_bytes. len. Qed.
#[export] Hint Rewrite length_Ccsds_bytes : lens.

Lemma length_Snlp_bytes h : Snlp_wf h → length (Snlp_bytes h) = 14%nat.
Proof. intros (Hs & _). unfold Snlp_bytes. rewrite Hs. len. Qed.

Section Denotations.
Context {St : Type} `{KaitaiStreamLaws St}.

Lemma denotes_Ccsds :
  denotes CcsdsPrimaryHeader_Read (λ h l, Ccsds_wf h ∧ l = Ccsds_bytes h).
Proof.
  eapply denotes_iff; [denote|]. intros h l. split.
  - intros ?. split_denotation. rewrite app_nil_r. unfold Ccsds_wf. by auto.
  - intros [(H0' & H1' & H2' & ->) ->].
    build_denotation; try (lazymatch goal with |- _ = _ =>
      first [ reflexivity | rewrite ?app_nil_r, <- ?app_assoc; reflexivity ] end); done.
Qed.
End Denotations.
#[export] Hint Resolve denotes_Ccsds : denotes.

Section SnlpDenotation.
Context {St : Type} `{KaitaiStreamLaws St}.

Lemma denotes_Snlp :
  denotes SnlpHeader_Read (λ h l, Snlp_wf h ∧ l = Snlp_bytes h).
Proof.
  eapply denotes_iff; [denote|]. intros h l. split.
  - intros (sw & l1 & l2 & [Hlen ->] & Hk & ->).
    unfold bytes_equal in Hk. case_bool_decide as Hsw; [|done]. simpl in Hk.
    destruct Hk as (c & k1 & k2 & [Hc ->] & (pad & k3 & k4 & [Hp ->] & Hk & ->) & ->).
    destruct (Z.eqb_spec pad 0) as [->|]; [|done]. destruct Hk as [-> ->].
    split; [by split|]. by rewrite app_nil_r.
  - intros [(Hsw & Hc & Hp) ->]. destruct h as [sw c pad]. simpl in *. subst sw pad.
    exists sync_word_bytes, sync_word_bytes, (Ccsds_bytes c ++ put_be 4 0).
    split; [done|]. split; [|done].
    exists c, (Ccsds_bytes c), (put_be 4 0). split; [done|]. split; [|done].
    exists 0, (put_be 4 0), []. rewrite app_nil_r. done.
Qed.
End SnlpDenotation.
#[export] Hint Resolve denotes_Snlp : denotes.

(** ** The accessors compute their bit fields *)

(** The value each instance denotes, as a function of the three words. *)
Definition spec_apid (h : CcsdsPrimaryHeader) : Z := VersionTypeFlagApid h mod 2 ^ 11.
Definition spec_packetType (h : CcsdsPrimaryHeader) : Z := VersionTypeFlagApid h / 2 ^ 12 mod 2.
Definition spec_secHeaderFlag (h : CcsdsPrimaryHeader) : Z := VersionTypeFlagApid h / 2 ^ 11 mod 2.
Definition spec_version (h : CcsdsPrimaryHeader) : Z := VersionTypeFlagApid h / 2 ^ 13 mod 8.
Definition spec_seqCount (h : CcsdsPrimaryHeader) : Z := SeqFlagsCount h mod 2 ^ 14.
Definition spec_seqFlags (h : CcsdsPrimaryHeader) : Z := SeqFlagsCount h / 2 ^ 14 mod 4.
Definition spec_dataFieldLength (h : CcsdsPrimaryHeader) : Z := (PacketDataLength h + 1) mod 2 ^ 16.
Definition spec_totalPacketLength (h : CcsdsPrimaryHeader) : Z := (PacketDataLength h + 7) mod 2 ^ 16.

(** Every cached value is the value of its instance. *)
Definition memo_ok {A} (m : memo A) (v : A) : Prop := memo_f m = true → memo_v m = v.

Definition ccsds_memo_ok (h : CcsdsPrimaryHeader) : Prop :=
  memo_ok (m_apid h) (spec_apid h) ∧
  memo_ok (m_dataFieldLength h) (spec_dataFieldLength h) ∧
  memo_ok (m_packetType h) (spec_packetType h) ∧
  memo_ok (m_secHeaderFlag h) (spec_secHeaderFlag h) ∧
  memo_ok (m_seqCount h) (spec_seqCount h) ∧
  memo_ok (m_seqFlags h) (spec_seqFlags h) ∧
  memo_ok (m_totalPacketLength h) (spec_totalPacketLength h) ∧
  memo_ok (m_version h) (spec_version h).

(** The words of a header, which no accessor changes. *)
Definition same_words (h h' : CcsdsPrimaryHeader) : Prop :=
  VersionTypeFlagApid h' = VersionTypeFlagApid h ∧
  SeqFlagsCount h' = SeqFlagsCount h ∧
  PacketDataLength h' = PacketDataLength h.

(** An accessor is correct when, on a header with sound caches, it returns the
    instance's value and leaves the words and the soundness of the caches. *)
Definition accessor_ok (acc : CcsdsPrimaryHeader → Z * CcsdsPrimaryHeader)
    (spec : CcsdsPrimaryHeader → Z) : Prop :=
  ∀ h, ccsds_memo_ok h →
    (acc h).1 = spec h ∧ ccsds_memo_ok (acc h).2 ∧ same_words h (acc h).2.

Lemma ccsds_memo_ok_fresh w0 w1 w2 : ccsds_memo_ok (ccsds_of_words w0 w1 w2).
Proof. by repeat split. Qed.

(** Masks and shifts, arithmetically. *)
Lemma land_mask z n : 0 <= n → Z.land z (2 ^ n - 1) = z mod 2 ^ n.
Proof. intros. rewrite <- Z.land_ones by done. f_equal. by rewrite Z.ones_equiv, Z.sub_1_r. Qed.

Ltac accessor acc n :=
  intros h Hok; unfold acc;
  destruct h as [w0 w1 w2 a d p f c s t v]; simpl in *;
  match goal with |- context [if memo_f ?m then _ else _] => destruct (memo_f m) eqn:Hm end;
  [ split; [ by apply Hok | by repeat split; try apply Hok ]
  | assert (∀ z, Z.land z (2 ^ n - 1) = z mod 2 ^ n) as Hland by (intros; by apply land_mask);
    simpl in Hland; unfold ccsds_memo_ok, memo_ok, spec_apid, spec_packetType,
      spec_secHeaderFlag, spec_version, spec_seqCount, spec_seqFlags,
      spec_dataFieldLength, spec_totalPacketLength in *; simpl in *;
    rewrite ?Hland, ?Z.shiftr_div_pow2 by lia; split; [ done | ];
    split; [ destruct Hok as (?&?&?&?&?&?&?&?); split_and!;
             first [ assumption | by intros _ ] | by repeat split ] ].

Lemma Apid_accessor : accessor_ok Ccsds_Apid spec_apid.
Proof. accessor Ccsds_Apid 11. Qed.
Lemma DataFieldLength_accessor : accessor_ok Ccsds_DataFieldLength spec_dataFieldLength.
Proof. accessor Ccsds_DataFieldLength 1. Qed.
Lemma PacketType_accessor : accessor_ok Ccsds_PacketType spec_packetType.
Proof. accessor Ccsds_PacketType 1. Qed.
Lemma SecHeaderFlag_accessor : accessor_ok Ccsds_SecHeaderFlag spec_secHeaderFlag.
Proof. accessor Ccsds_SecHeaderFlag 1. Qed.
Lemma SeqCount_accessor : accessor_ok Ccsds_SeqCount spec_seqCount.
Proof. accessor Ccsds_SeqCount 14. Qed.
Lemma SeqFlags_accessor : accessor_ok Ccsds_SeqFlags spec_seqFlags.
Proof. accessor Ccsds_SeqFlags 2. Qed.
Lemma TotalPacketLength_accessor : accessor_ok Ccsds_TotalPacketLength spec_totalPacketLength.
Proof. accessor Ccsds_TotalPacketLength 1. Qed.
Lemma Version_accessor : accessor_ok Ccsds_Version spec_version.
Proof. accessor Ccsds_Version 3. Qed.

(** ** Properties *)

(** Each of the eight lazily computed instances of the CCSDS header returns
    its bit field (or length) of the three words, whatever was computed before:
    the caches stay sound and no accessor changes the words. *)
Theorem Ccsds_accessors_correct :
  accessor_ok Ccsds_Apid spec_apid ∧
  accessor_ok Ccsds_DataFieldLength spec_dataFieldLength ∧
  accessor_ok Ccsds_PacketType spec_packetType ∧
  accessor_ok Ccsds_SecHeaderFlag spec_secHeaderFlag ∧
  accessor_ok Ccsds_SeqCount spec_seqCount ∧
  accessor_ok Ccsds_SeqFlags spec_seqFlags ∧
  accessor_ok Ccsds_TotalPacketLength spec_totalPacketLength ∧
  accessor_ok Ccsds_Version spec_version.
Proof.
  split_and!; auto using Apid_accessor, DataFieldLength_accessor, PacketType_accessor,
    SecHeaderFlag_accessor, SeqCount_accessor, SeqFlags_accessor,
    TotalPacketLength_accessor, Version_accessor.
Qed.

(** The bit fields partition the first two words: nothing of them is lost
    or shared between two accessors. *)
Theorem Ccsds_fields_partition w0 w1 w2 :
  in_u 16 w0 → in_u 16 w1 →
  let h := ccsds_of_words w0 w1 w2 in
  w0 = (Ccsds_Version h).1 * 2 ^ 13 + (Ccsds_PacketType h).1 * 2 ^ 12 +
       (Ccsds_SecHeaderFlag h).1 * 2 ^ 11 + (Ccsds_Apid h).1 ∧
  w1 = (Ccsds_SeqFlags h).1 * 2 ^ 14 + (Ccsds_SeqCount h).1 ∧
  (Ccsds_PacketType h).1 < 2 ∧ (Ccsds_SecHeaderFlag h).1 < 2 ∧
  (Ccsds_Apid h).1 < 2 ^ 11 ∧ (Ccsds_SeqCount h).1 < 2 ^ 14.
Proof.
  intros H0 H1 h. unfold in_u in *.
  pose proof (ccsds_memo_ok_fresh w0 w1 w2) as Hf.
  rewrite (proj1 (Version_accessor h Hf)), (proj1 (PacketType_accessor h Hf)),
    (proj1 (SecHeaderFlag_accessor h Hf)), (proj1 (Apid_accessor h Hf)),
    (proj1 (SeqFlags_accessor h Hf)), (proj1 (SeqCount_accessor h Hf)).
  unfold spec_version, spec_packetType, spec_secHeaderFlag, spec_apid, spec_seqFlags,
    spec_seqCount. cbn.
  change (Z.pow_pos 2 13) with 8192. change (Z.pow_pos 2 12) with 4096.
  change (Z.pow_pos 2 11) with 2048. change (Z.pow_pos 2 14) with 16384.
  change (2 ^ 16) with 65536 in *.
  split_and!; Z.to_euclidean_division_equations; lia.
Qed.

Lemma Ccsds_fields_partition_witness :
  2152 = 0 * 2 ^ 13 + 0 * 2 ^ 12 + 1 * 2 ^ 11 + 104.
Proof.
  destruct (Ccsds_fields_partition 2152 49153 97) as [H _];
    [unfold in_u; lia | unfold in_u; lia |].
  exact H.
Defined.

(** C40. The lengths are computed in [uint16], so they are the CCSDS lengths only
    below the wrap-around: the data field length is [PacketDataLength + 1] except
    that 65535 gives an empty data field, and the total packet length is
    [PacketDataLength + 7] only below 65529. *)
Theorem Ccsds_lengths_wrap w0 w1 w2 :
  in_u 16 w2 →
  let h := ccsds_of_words w0 w1 w2 in
  (Ccsds_DataFieldLength h).1 = (if w2 <? 65535 then w2 + 1 else 0) ∧
  (Ccsds_TotalPacketLength h).1 = (if w2 <? 65529 then w2 + 7 else w2 - 65529).
Proof.
  intros H2 h. unfold in_u in *. pose proof (ccsds_memo_ok_fresh w0 w1 w2) as Hf.
  rewrite (proj1 (DataFieldLength_accessor h Hf)), (proj1 (TotalPacketLength_accessor h Hf)).
  unfold spec_dataFieldLength, spec_totalPacketLength. cbn.
  change (Z.pow_pos 2 16) with 65536. change (2 ^ 16) with 65536 in *.
  destruct (Z.ltb_spec w2 65535), (Z.ltb_spec w2 65529); split;
    Z.to_euclidean_division_equations; lia.
Qed.

Lemma Ccsds_lengths_wrap_witness :
  let h := ccsds_of_words 0 0 65535 in
  (Ccsds_DataFieldLength h).1 = 0 ∧ (Ccsds_TotalPacketLength h).1 = 6.
Proof. apply (Ccsds_lengths_wrap 0 0 65535). unfold in_u. lia. Defined.
