(* ===== verification/Bodies.v ===== *)
(** * Packet bodies

    Models the body types of [protocol/void_protocol.go]. Each body has its
    record (the fields of the generated struct, in wire order), its [Read]
    method with the source's temporaries, the encoding [_bytes] and ranges [_wf]
    that [Read] denotes, and its wire length. Floating-point fields are bit
    patterns; enumeration fields are the raw wire integers. *)
From S2P Require Export Headers.
#[local] Open Scope Z_scope.
#[local] Open Scope go_scope.

(** ** Data *)
(** System heartbeat: health, status and GPS telemetry (34 bytes). *)
Record VoidProtocol_HeartbeatBody := {
  Heartbeat_PadHead : list byte;
  Heartbeat_EpochTs : Z;
  Heartbeat_PressurePa : Z;
  Heartbeat_LatFixed : Z;
  Heartbeat_LonFixed : Z;
  Heartbeat_VbattMv : Z;
  Heartbeat_TempC : Z;
  Heartbeat_GpsSpeedCms : Z;
  Heartbeat_SysState : Z;
  Heartbeat_SatLock : Z;
  Heartbeat_Crc32 : Z;
}.

(** The invoice broadcast by the seller (66 bytes). *)
Record VoidProtocol_PacketABody := {
  PacketA_PadHead : list byte;
  PacketA_EpochTs : Z;
  PacketA_PosVec : TigCommonTypes_Vector3d;
  PacketA_VelVec : TigCommonTypes_Vector3f;
  PacketA_SatId : Z;
  PacketA_Amount : Z;
  PacketA_AssetId : Z;
  PacketA_PreCrc : list byte;
  PacketA_Crc32 : Z;
}.

(** Ground acknowledgement, CCSDS tier (114 bytes). *)
Record VoidProtocol_PacketAckBodyCcsds := {
  AckCcsds_Magic : list byte;
  AckCcsds_PadA : list byte;
  AckCcsds_TargetTxId : Z;
  AckCcsds_Status : Z;
  AckCcsds_PadB : list byte;
  AckCcsds_RelayOps : TigCommonTypes_RelayOps;
  AckCcsds_EncTunnel : list byte;
  AckCcsds_PadC : list byte;
  AckCcsds_Crc32 : Z;
}.

(** Ground acknowledgement, SNLP tier (122 bytes). *)
Record VoidProtocol_PacketAckBodySnlp := {
  AckSnlp_Magic : list byte;
  AckSnlp_PadA : list byte;
  AckSnlp_TargetTxId : Z;
  AckSnlp_Status : Z;
  AckSnlp_PadB : list byte;
  AckSnlp_RelayOps : TigCommonTypes_RelayOps;
  AckSnlp_EncTunnel : list byte;
  AckSnlp_PadC : list byte;
  AckSnlp_Crc32 : Z;
}.

(** The payment sent by the mule (178 bytes). *)
Record VoidProtocol_PacketBBody := {
  PacketB_PadHead : list byte;
  PacketB_EpochTs : Z;
  PacketB_PosVec : TigCommonTypes_Vector3d;
  PacketB_EncPayload : list byte;
  PacketB_PreSat : list byte;
  PacketB_SatId : Z;
  PacketB_PreSig : list byte;
  PacketB_Signature : TigCommonTypes_Ed25519Signature;
  PacketB_GlobalCrc : Z;
  PacketB_TailPad : list byte;
}.

(** The receipt: proof of execution (98 bytes). *)
Record VoidProtocol_PacketCBody := {
  PacketC_PadHead : list byte;
  PacketC_ExecTime : Z;
  PacketC_EncTxId : Z;
  PacketC_EncStatus : Z;
  PacketC_PadSig : list byte;
  PacketC_Signature : TigCommonTypes_Ed25519Signature;
  PacketC_Crc32 : Z;
  PacketC_TailPad : list byte;
}.

(** The delivery: a stripped receipt wrapped for downlink (122 bytes). *)
Record VoidProtocol_PacketDBody := {
  PacketD_Magic : list byte;
  PacketD_PadHead : list byte;
  PacketD_DownlinkTs : Z;
  PacketD_SatBId : Z;
  PacketD_Payload : list byte;
  PacketD_GlobalCrc : Z;
  PacketD_Tail : list byte;
}.

(** The handshake: ephemeral key exchange (106 bytes). *)
Record VoidProtocol_PacketHBody := {
  PacketH_SessionTtl : Z;
  PacketH_Timestamp : Z;
  PacketH_EphPubKey : TigCommonTypes_X25519PublicKey;
  PacketH_Signature : TigCommonTypes_Ed25519Signature;
}.

(** ** Reading *)
Section Reads.
Context {St : Type} `{KaitaiStream St}.

Definition HeartbeatBody_Read : SR St VoidProtocol_HeartbeatBody :=
  let! tmp46 := ReadBytes 2 in
  let! tmp47 := ReadU8le in
  let! tmp48 := ReadU4le in
  let! tmp49 := ReadS4le in
  let! tmp50 := ReadS4le in
  let! tmp51 := ReadU2le in
  let! tmp52 := ReadS2le in
  let! tmp53 := ReadU2le in
  let! tmp54 := ReadU1 in
  let! tmp55 := ReadU1 in
  let! tmp56 := ReadU4le in
  sret {| Heartbeat_PadHead := tmp46;
          Heartbeat_EpochTs := tmp47;
          Heartbeat_PressurePa := tmp48;
          Heartbeat_LatFixed := tmp49;
          Heartbeat_LonFixed := tmp50;
          Heartbeat_VbattMv := tmp51;
          Heartbeat_TempC := tmp52;
          Heartbeat_GpsSpeedCms := tmp53;
          Heartbeat_SysState := tmp54;
          Heartbeat_SatLock := tmp55;
          Heartbeat_Crc32 := tmp56 |}.

Definition PacketABody_Read : SR St VoidProtocol_PacketABody :=
  let! tmp57 := ReadBytes 2 in
  let! tmp58 := ReadU8le in
  let! tmp59 := Vector3d_Read in
  let! tmp60 := Vector3f_Read in
  let! tmp61 := ReadU4le in
  let! tmp62 := ReadU8le in
  let! tmp63 := ReadU2le in
  let! tmp64 := ReadBytes 2 in
  let! tmp65 := ReadU4le in
  sret {| PacketA_PadHead := tmp57;
          PacketA_EpochTs := tmp58;
          PacketA_PosVec := tmp59;
          PacketA_VelVec := tmp60;
          PacketA_SatId := tmp61;
          PacketA_Amount := tmp62;
          PacketA_AssetId := tmp63;
          PacketA_PreCrc := tmp64;
          PacketA_Crc32 := tmp65 |}.

Definition PacketAckBodyCcsds_Read : SR St VoidProtocol_PacketAckBodyCcsds :=
  let! tmp66 := ReadBytes 1 in
  if negb (bytes_equal tmp66 [xac])
  then sfail (ValidationNotEqualError "/types/packet_ack_body_ccsds/seq/0")
  else
  let! tmp67 := ReadBytes 1 in
  let! tmp68 := ReadU4le in
  let! tmp69 := ReadU1 in
  let! tmp70 := ReadBytes 1 in
  let! tmp71 := RelayOps_Read in
  let! tmp72 := ReadBytes 88 in
  let! tmp73 := ReadBytes 2 in
  let! tmp74 := ReadU4le in
  sret {| AckCcsds_Magic := tmp66;
          AckCcsds_PadA := tmp67;
          AckCcsds_TargetTxId := tmp68;
          AckCcsds_Status := tmp69;
          AckCcsds_PadB := tmp70;
          AckCcsds_RelayOps := tmp71;
          AckCcsds_EncTunnel := tmp72;
          AckCcsds_PadC := tmp73;
          AckCcsds_Crc32 := tmp74 |}.

Definition PacketAckBodySnlp_Read : SR St VoidProtocol_PacketAckBodySnlp :=
  let! tmp75 := ReadBytes 1 in
  if negb (bytes_equal tmp75 [xac])
  then sfail (ValidationNotEqualError "/types/packet_ack_body_snlp/seq/0")
  else
  let! tmp76 := ReadBytes 1 in
  let! tmp77 := ReadU4le in
  let! tmp78 := ReadU1 in
  let! tmp79 := ReadBytes 1 in
  let! tmp80 := RelayOps_Read in
  let! tmp81 := ReadBytes 96 in
  let! tmp82 := ReadBytes 2 in
  let! tmp83 := ReadU4le in
  sret {| AckSnlp_Magic := tmp75;
          AckSnlp_PadA := tmp76;
          AckSnlp_TargetTxId := tmp77;
          AckSnlp_Status := tmp78;
          AckSnlp_PadB := tmp79;
          AckSnlp_RelayOps := tmp80;
          AckSnlp_EncTunnel := tmp81;
          AckSnlp_PadC := tmp82;
          AckSnlp_Crc32 := tmp83 |}.

Definition PacketBBody_Read : SR St VoidProtocol_PacketBBody :=
  let! tmp84 := ReadBytes 2 in
  let! tmp85 := ReadU8le in
  let! tmp86 := Vector3d_Read in
  let! tmp87 := ReadBytes 62 in
  let! tmp88 := ReadBytes 2 in
  let! tmp89 := ReadU4le in
  let! tmp90 := ReadBytes 4 in
  let! tmp91 := Ed25519Signature_Read in
  let! tmp92 := ReadU4le in
  let! tmp93 := ReadBytes 4 in
  sret {| PacketB_PadHead := tmp84;
          PacketB_EpochTs := tmp85;
          PacketB_PosVec := tmp86;
          PacketB_EncPayload := tmp87;
          PacketB_PreSat := tmp88;
          PacketB_SatId := tmp89;
          PacketB_PreSig := tmp90;
          PacketB_Signature := tmp91;
          PacketB_GlobalCrc := tmp92;
          PacketB_TailPad := tmp93 |}.

Definition PacketCBody_Read : SR St VoidProtocol_PacketCBody :=
  let! tmp94 := ReadBytes 2 in
  let! tmp95 := ReadU8le in
  let! tmp96 := ReadU8le in
  let! tmp97 := ReadU1 in
  let! tmp98 := ReadBytes 7 in
  let! tmp99 := Ed25519Signature_Read in
  let! tmp100 := ReadU4le in
  let! tmp101 := ReadBytes 4 in
  sret {| PacketC_PadHead := tmp94;
          PacketC_ExecTime := tmp95;
          PacketC_EncTxId := tmp96;
          PacketC_EncStatus := tmp97;
          PacketC_PadSig := tmp98;
          PacketC_Signature := tmp99;
          PacketC_Crc32 := tmp100;
          PacketC_TailPad := tmp101 |}.

Definition PacketDBody_Read : SR St VoidProtocol_PacketDBody :=
  let! tmp102 := ReadBytes 1 in
  if negb (bytes_equal tmp102 [xd0])
  then sfail (ValidationNotEqualError "/types/packet_d_body/seq/0")
  else
  let! tmp103 := ReadBytes 1 in
  let! tmp104 := ReadU8le in
  let! tmp105 := ReadU4le in
  let! tmp106 := ReadBytes 98 in
  let! tmp107 := ReadU4le in
  let! tmp108 := ReadBytes 6 in
  sret {| PacketD_Magic := tmp102;
          PacketD_PadHead := tmp103;
          PacketD_DownlinkTs := tmp104;
          PacketD_SatBId := tmp105;
          PacketD_Payload := tmp106;
          PacketD_GlobalCrc := tmp107;
          PacketD_Tail := tmp108 |}.

Definition PacketHBody_Read : SR St VoidProtocol_PacketHBody :=
  let! tmp109 := ReadU2le in
  let! tmp110 := ReadU8le in
  let! tmp111 := X25519PublicKey_Read in
  let! tmp112 := Ed25519Signature_Read in
  sret {| PacketH_SessionTtl := tmp109;
          PacketH_Timestamp := tmp110;
          PacketH_EphPubKey := tmp111;
          PacketH_Signature := tmp112 |}.

End Reads.

(** ** Encodings *)
Definition HeartbeatBody_bytes (v : VoidProtocol_HeartbeatBody) : list byte :=
  Heartbeat_PadHead v ++
  put_le 8 (Heartbeat_EpochTs v) ++
  put_le 4 (Heartbeat_PressurePa v) ++
  put_le 4 (Heartbeat_LatFixed v) ++
  put_le 4 (Heartbeat_LonFixed v) ++
  put_le 2 (Heartbeat_VbattMv v) ++
  put_le 2 (Heartbeat_TempC v) ++
  put_le 2 (Heartbeat_GpsSpeedCms v) ++
  put_le 1 (Heartbeat_SysState v) ++
  put_le 1 (Heartbeat_SatLock v) ++
  put_le 4 (Heartbeat_Crc32 v).

Definition HeartbeatBody_wf (v : VoidProtocol_HeartbeatBody) : Prop :=
  length (Heartbeat_PadHead v) = 2%nat ∧
  in_u 64 (Heartbeat_EpochTs v) ∧
  in_u 32 (Heartbeat_PressurePa v) ∧
  in_s 32 (Heartbeat_LatFixed v) ∧
  in_s 32 (Heartbeat_LonFixed v) ∧
  in_u 16 (Heartbeat_VbattMv v) ∧
  in_s 16 (Heartbeat_TempC v) ∧
  in_u 16 (Heartbeat_GpsSpeedCms v) ∧
  in_u 8 (Heartbeat_SysState v) ∧
  in_u 8 (Heartbeat_SatLock v) ∧
  in_u 32 (Heartbeat_Crc32 v).

Definition PacketABody_bytes (v : VoidProtocol_PacketABody) : list byte :=
  PacketA_PadHead v ++
  put_le 8 (PacketA_EpochTs v) ++
  Vector3d_bytes (PacketA_PosVec v) ++
  Vector3f_bytes (PacketA_VelVec v) ++
  put_le 4 (PacketA_SatId v) ++
  put_le 8 (PacketA_Amount v) ++
  put_le 2 (PacketA_AssetId v) ++
  PacketA_PreCrc v ++
  put_le 4 (PacketA_Crc32 v).

Definition PacketABody_wf (v : VoidProtocol_PacketABody) : Prop :=
  length (PacketA_PadHead v) = 2%nat ∧
  in_u 64 (PacketA_EpochTs v) ∧
  Vector3d_wf (PacketA_PosVec v) ∧
  Vector3f_wf (PacketA_VelVec v) ∧
  in_u 32 (PacketA_SatId v) ∧
  in_u 64 (PacketA_Amount v) ∧
  in_u 16 (PacketA_AssetId v) ∧
  length (PacketA_PreCrc v) = 2%nat ∧
  in_u 32 (PacketA_Crc32 v).

Definition PacketAckBodyCcsds_bytes (v : VoidProtocol_PacketAckBodyCcsds) : list byte :=
  AckCcsds_Magic v ++
  AckCcsds_PadA v ++
  put_le 4 (AckCcsds_TargetTxId v) ++
  put_le 1 (AckCcsds_Status v) ++
  AckCcsds_PadB v ++
  RelayOps_bytes (AckCcsds_RelayOps v) ++
  AckCcsds_EncTunnel v ++
  AckCcsds_PadC v ++
  put_le 4 (AckCcsds_Crc32 v).

Definition PacketAckBodyCcsds_wf (v : VoidProtocol_PacketAckBodyCcsds) : Prop :=
  AckCcsds_Magic v = [xac] ∧
  length (AckCcsds_PadA v) = 1%nat ∧
  in_u 32 (AckCcsds_TargetTxId v) ∧
  in_u 8 (AckCcsds_Status v) ∧
  length (AckCcsds_PadB v) = 1%nat ∧
  RelayOps_wf (AckCcsds_RelayOps v) ∧
  length (AckCcsds_EncTunnel v) = 88%nat ∧
  length (AckCcsds_PadC v) = 2%nat ∧
  in_u 32 (AckCcsds_Crc32 v).

Definition PacketAckBodySnlp_bytes (v : VoidProtocol_PacketAckBodySnlp) : list byte :=
  AckSnlp_Magic v ++
  AckSnlp_PadA v ++
  put_le 4 (AckSnlp_TargetTxId v) ++
  put_le 1 (AckSnlp_Status v) ++
  AckSnlp_PadB v ++
  RelayOps_bytes (AckSnlp_RelayOps v) ++
  AckSnlp_EncTunnel v ++
  AckSnlp_PadC v ++
  put_le 4 (AckSnlp_Crc32 v).

Definition PacketAckBodySnlp_wf (v : VoidProtocol_PacketAckBodySnlp) : Prop :=
  AckSnlp_Magic v = [xac] ∧
  length (AckSnlp_PadA v) = 1%nat ∧
  in_u 32 (AckSnlp_TargetTxId v) ∧
  in_u 8 (AckSnlp_Status v) ∧
  length (AckSnlp_PadB v) = 1%nat ∧
  RelayOps_wf (AckSnlp_RelayOps v) ∧
  length (AckSnlp_EncTunnel v) = 96%nat ∧
  length (AckSnlp_PadC v) = 2%nat ∧
  in_u 32 (AckSnlp_Crc32 v).

Definition PacketBBody_bytes (v : VoidProtocol_PacketBBody) : list byte :=
  PacketB_PadHead v ++
  put_le 8 (PacketB_EpochTs v) ++
  Vector3d_bytes (PacketB_PosVec v) ++
  PacketB_EncPayload v ++
  PacketB_PreSat v ++
  put_le 4 (PacketB_SatId v) ++
  PacketB_PreSig v ++
  Ed25519Signature_bytes (PacketB_Signature v) ++
  put_le 4 (PacketB_GlobalCrc v) ++
  PacketB_TailPad v.

Definition PacketBBody_wf (v : VoidProtocol_PacketBBody) : Prop :=
  length (PacketB_PadHead v) = 2%nat ∧
  in_u 64 (PacketB_EpochTs v) ∧
  Vector3d_wf (PacketB_PosVec v) ∧
  length (PacketB_EncPayload v) = 62%nat ∧
  length (PacketB_PreSat v) = 2%nat ∧
  in_u 32 (PacketB_SatId v) ∧
  length (PacketB_PreSig v) = 4%nat ∧
  Ed25519Signature_wf (PacketB_Signature v) ∧
  in_u 32 (PacketB_GlobalCrc v) ∧
  length (PacketB_TailPad v) = 4%nat.

Definition PacketCBody_bytes (v : VoidProtocol_PacketCBody) : list byte :=
  PacketC_PadHead v ++
  put_le 8 (PacketC_ExecTime v) ++
  put_le 8 (PacketC_EncTxId v) ++
  put_le 1 (PacketC_EncStatus v) ++
  PacketC_PadSig v ++
  Ed25519Signature_bytes (PacketC_Signature v) ++
  put_le 4 (PacketC_Crc32 v) ++
  PacketC_TailPad v.

Definition PacketCBody_wf (v : VoidProtocol_PacketCBody) : Prop :=
  length (PacketC_PadHead v) = 2%nat ∧
  in_u 64 (PacketC_ExecTime v) ∧
  in_u 64 (PacketC_EncTxId v) ∧
  in_u 8 (PacketC_EncStatus v) ∧
  length (PacketC_PadSig v) = 7%nat ∧
  Ed25519Signature_wf (PacketC_Signature v) ∧
  in_u 32 (PacketC_Crc32 v) ∧
  length (PacketC_TailPad v) = 4%nat.

Definition PacketDBody_bytes (v : VoidProtocol_PacketDBody) : list byte :=
  PacketD_Magic v ++
  PacketD_PadHead v ++
  put_le 8 (PacketD_DownlinkTs v) ++
  put_le 4 (PacketD_SatBId v) ++
  PacketD_Payload v ++
  put_le 4 (PacketD_GlobalCrc v) ++
  PacketD_Tail v.

Definition PacketDBody_wf (v : VoidProtocol_PacketDBody) : Prop :=
  PacketD_Magic v = [xd0] ∧
  length (PacketD_PadHead v) = 1%nat ∧
  in_u 64 (PacketD_DownlinkTs v) ∧
  in_u 32 (PacketD_SatBId v) ∧
  length (PacketD_Payload v) = 98%nat ∧
  in_u 32 (PacketD_GlobalCrc v) ∧
  length (PacketD_Tail v) = 6%nat.

Definition PacketHBody_bytes (v : VoidProtocol_PacketHBody) : list byte :=
  put_le 2 (PacketH_SessionTtl v) ++
  put_le 8 (PacketH_Timestamp v) ++
  X25519PublicKey_bytes (PacketH_EphPubKey v) ++
  Ed25519Signature_bytes (PacketH_Signature v).

Definition PacketHBody_wf (v : VoidProtocol_PacketHBody) : Prop :=
  in_u 16 (PacketH_SessionTtl v) ∧
  in_u 64 (PacketH_Timestamp v) ∧
  X25519PublicKey_wf (PacketH_EphPubKey v) ∧
  Ed25519Signature_wf (PacketH_Signature v).

(** ** [Read] denotes the encoding *)
Section Denotations.
Context {St : Type} `{KaitaiStreamLaws St}.

Lemma denotes_HeartbeatBody :
  denotes HeartbeatBody_Read (λ v l, HeartbeatBody_wf v ∧ l = HeartbeatBody_bytes v).
Proof. unfold HeartbeatBody_wf, HeartbeatBody_bytes. solve_denotes. Qed.

Lemma denotes_PacketABody :
  denotes PacketABody_Read (λ v l, PacketABody_wf v ∧ l = PacketABody_bytes v).
Proof. unfold PacketABody_wf, PacketABody_bytes. solve_denotes. Qed.

Lemma denotes_PacketAckBodyCcsds :
  denotes PacketAckBodyCcsds_Read (λ v l, PacketAckBodyCcsds_wf v ∧ l = PacketAckBodyCcsds_bytes v).
Proof. unfold PacketAckBodyCcsds_wf, PacketAckBodyCcsds_bytes. solve_denotes_magic. Qed.

Lemma denotes_PacketAckBodySnlp :
  denotes PacketAckBodySnlp_Read (λ v l, PacketAckBodySnlp_wf v ∧ l = PacketAckBodySnlp_bytes v).
Proof. unfold PacketAckBodySnlp_wf, PacketAckBodySnlp_bytes. solve_denotes_magic. Qed.

Lemma denotes_PacketBBody :
  denotes PacketBBody_Read (λ v l, PacketBBody_wf v ∧ l = PacketBBody_bytes v).
Proof. unfold PacketBBody_wf, PacketBBody_bytes. solve_denotes. Qed.

Lemma denotes_PacketCBody :
  denotes PacketCBody_Read (λ v l, PacketCBody_wf v ∧ l = PacketCBody_bytes v).
Proof. unfold PacketCBody_wf, PacketCBody_bytes. solve_denotes. Qed.

Lemma denotes_PacketDBody :
  denotes PacketDBody_Read (λ v l, PacketDBody_wf v ∧ l = PacketDBody_bytes v).
Proof. unfold PacketDBody_wf, PacketDBody_bytes. solve_denotes_magic. Qed.

Lemma denotes_PacketHBody :
  denotes PacketHBody_Read (λ v l, PacketHBody_wf v ∧ l = PacketHBody_bytes v).
Proof. unfold PacketHBody_wf, PacketHBody_bytes. solve_denotes. Qed.

End Denotations.
#[export] Hint Resolve denotes_HeartbeatBody denotes_PacketABody denotes_PacketAckBodyCcsds denotes_PacketAckBodySnlp denotes_PacketBBody denotes_PacketCBody denotes_PacketDBody denotes_PacketHBody : denotes.

(** ** Wire lengths *)
Lemma length_HeartbeatBody_bytes v : HeartbeatBody_wf v → length (HeartbeatBody_bytes v) = 34%nat.
Proof. unfold HeartbeatBody_wf, HeartbeatBody_bytes. body_length. Qed.

Lemma length_PacketABody_bytes v : PacketABody_wf v → length (PacketABody_bytes v) = 66%nat.
Proof. unfold PacketABody_wf, PacketABody_bytes. body_length. Qed.

Lemma length_PacketAckBodyCcsds_bytes v : PacketAckBodyCcsds_wf v → length (PacketAckBodyCcsds_bytes v) = 114%nat.
Proof. unfold PacketAckBodyCcsds_wf, PacketAckBodyCcsds_bytes. body_length. Qed.

Lemma length_PacketAckBodySnlp_bytes v : PacketAckBodySnlp_wf v → length (PacketAckBodySnlp_bytes v) = 122%nat.
Proof. unfold PacketAckBodySnlp_wf, PacketAckBodySnlp_bytes. body_length. Qed.

Lemma length_PacketBBody_bytes v : PacketBBody_wf v → length (PacketBBody_bytes v) = 178%nat.
Proof. unfold PacketBBody_wf, PacketBBody_bytes. body_length. Qed.

Lemma length_PacketCBody_bytes v : PacketCBody_wf v → length (PacketCBody_bytes v) = 98%nat.
Proof. unfold PacketCBody_wf, PacketCBody_bytes. body_length. Qed.

Lemma length_PacketDBody_bytes v : PacketDBody_wf v → length (PacketDBody_bytes v) = 122%nat.
Proof. unfold PacketDBody_wf, PacketDBody_bytes. body_length. Qed.

Lemma length_PacketHBody_bytes v : PacketHBody_wf v → length (PacketHBody_bytes v) = 106%nat.
Proof. unfold PacketHBody_wf, PacketHBody_bytes. body_length. Qed.
