(* ===== verification/Protocol.v ===== *)
(** * The frame parser

    Models the root of [protocol/void_protocol.go]: the lazily computed
    instances of [VoidProtocol] ([MagicPeek], [IsSnlp], [BodyLength],
    [GlobalApid], [GlobalPacketType]), the dispatcher for 122-byte bodies and
    the root [Read].

    A [*VoidProtocol] is a mutable object that survives a failed call, so its
    methods are modelled in the monad [VM], which threads the object through
    successes and errors alike. *)
From S2P Require Export Bodies.
#[local] Open Scope Z_scope.
#[local] Open Scope go_scope.

(** ** Data *)

(** The [kaitai.Struct] stored in [RoutingHeader]. *)
Inductive routing_header :=
  | RH_Ccsds (h : CcsdsPrimaryHeader)
  | RH_Snlp (h : SnlpHeader).

Inductive dispatch_content :=
  | Content_AckSnlp (b : VoidProtocol_PacketAckBodySnlp)
  | Content_D (b : VoidProtocol_PacketDBody).

Record VoidProtocol_Dispatch122 := {
  Dispatch_Content : option dispatch_content;
  m_dispatchMagicPeek : memo Z;
}.

(** The [interface{}] stored in [Body]; [None] is nil. *)
Inductive packet_body :=
  | Body_H (b : VoidProtocol_PacketHBody)
  | Body_AckCcsds (b : VoidProtocol_PacketAckBodyCcsds)
  | Body_Dispatch122 (b : VoidProtocol_Dispatch122)
  | Body_B (b : VoidProtocol_PacketBBody)
  | Body_Heartbeat (b : VoidProtocol_HeartbeatBody)
  | Body_A (b : VoidProtocol_PacketABody)
  | Body_C (b : VoidProtocol_PacketCBody).

Record VoidProtocol (St : Type) := {
  RoutingHeader : option routing_header;
  Body : option packet_body;
  vp_io : St;
  raw_Body : list byte;
  m_bodyLength : memo Z;
  m_globalApid : memo Z;
  m_globalPacketType : memo Z;
  m_isSnlp : memo bool;
  m_magicPeek : memo Z;
}.
Arguments Build_VoidProtocol {St}.
Arguments RoutingHeader {St}. Arguments Body {St}. Arguments vp_io {St}.
Arguments raw_Body {St}. Arguments m_bodyLength {St}. Arguments m_globalApid {St}.
Arguments m_globalPacketType {St}. Arguments m_isSnlp {St}. Arguments m_magicPeek {St}.

(** Field assignments [this.f = v]. *)
Section Setters.
Context {St : Type}.
Definition set_RoutingHeader v (p : VoidProtocol St) : VoidProtocol St :=
  let '(Build_VoidProtocol _ b s r l a t i m) := p in
  Build_VoidProtocol v b s r l a t i m.
Definition set_Body v (p : VoidProtocol St) : VoidProtocol St :=
  let '(Build_VoidProtocol h _ s r l a t i m) := p in
  Build_VoidProtocol h v s r l a t i m.
Definition set_io v (p : VoidProtocol St) : VoidProtocol St :=
  let '(Build_VoidProtocol h b _ r l a t i m) := p in
  Build_VoidProtocol h b v r l a t i m.
Definition set_raw_Body v (p : VoidProtocol St) : VoidProtocol St :=
  let '(Build_VoidProtocol h b s _ l a t i m) := p in
  Build_VoidProtocol h b s v l a t i m.
Definition set_bodyLength v (p : VoidProtocol St) : VoidProtocol St :=
  let '(Build_VoidProtocol h b s r _ a t i m) := p in
  Build_VoidProtocol h b s r v a t i m.
Definition set_globalApid v (p : VoidProtocol St) : VoidProtocol St :=
  let '(Build_VoidProtocol h b s r l _ t i m) := p in
  Build_VoidProtocol h b s r l v t i m.
Definition set_globalPacketType v (p : VoidProtocol St) : VoidProtocol St :=
  let '(Build_VoidProtocol h b s r l a _ i m) := p in
  Build_VoidProtocol h b s r l a v i m.
Definition set_isSnlp v (p : VoidProtocol St) : VoidProtocol St :=
  let '(Build_VoidProtocol h b s r l a t _ m) := p in
  Build_VoidProtocol h b s r l a t v m.
Definition set_magicPeek v (p : VoidProtocol St) : VoidProtocol St :=
  let '(Build_VoidProtocol h b s r l a t i _) := p in
  Build_VoidProtocol h b s r l a t i v.
End Setters.

(** ** The monad of methods on the object

    A method ends with a value, with an error value, or with a run-time panic
    (a failed type assertion). *)
Inductive go_exit :=
  | GoErr (e : kaitai_error)
  | GoPanic.

Definition VM (St A : Type) : Type :=
  VoidProtocol St → result go_exit A * VoidProtocol St.

Definition vret {St A} (a : A) : VM St A := λ p, (Ok a, p).
Definition vfail {St A} (e : go_exit) : VM St A := λ p, (Err e, p).
Definition vget {St} : VM St (VoidProtocol St) := λ p, (Ok p, p).
Definition vset {St} (f : VoidProtocol St → VoidProtocol St) : VM St unit := λ p, (Ok tt, f p).
Definition vbind {St A B} (m : VM St A) (k : A → VM St B) : VM St B :=
  λ p, match m p with
       | (Ok a, p') => k a p'
       | (Err e, p') => (Err e, p')
       end.

(** An operation on [this._io]. *)
Definition vio {St A} (m : SR St A) : VM St A :=
  λ p, match m (vp_io p) with
       | Ok (a, s') => (Ok a, set_io s' p)
       | Err e => (Err (GoErr e), p)
       end.

Notation "'do!' x ':=' m 'in' k" := (vbind m (fun x => k))
  (at level 10, x name, m at level 100, k at level 200) : go_scope.
Notation "'run!' m 'in' k" := (vbind m (fun _ => k))
  (at level 10, m at level 100, k at level 200) : go_scope.

Section Parser.
Context {St : Type} `{KaitaiStream St}.

(** [Seek] and [Pos] as operations of the stream monad. *)
Definition sr_pos : SR St Z := λ s, let* n := Pos s in Ok (n, s).
Definition sr_seek (n : Z) : SR St unit := λ s, let* s' := SeekStart n s in Ok (tt, s').

Definition NewVoidProtocol (io : St) : VoidProtocol St :=
  Build_VoidProtocol None None io [] (memo_none 0) (memo_none 0) (memo_none 0)
    (memo_none false) (memo_none 0).

Definition VoidProtocol_MagicPeek : VM St Z :=
  do! this := vget in
  if memo_f (m_magicPeek this) then vret (memo_v (m_magicPeek this)) else
  run! vset (set_magicPeek (memo_some 0)) in
  do! pos := vio sr_pos in
  run! vio (sr_seek 0) in
  do! tmp41 := vio ReadU4be in
  run! vset (set_magicPeek (memo_some tmp41)) in
  run! vio (sr_seek pos) in
  vret tmp41.

Definition VoidProtocol_IsSnlp : VM St bool :=
  do! this := vget in
  if memo_f (m_isSnlp this) then vret (memo_v (m_isSnlp this)) else
  run! vset (set_isSnlp (memo_some false)) in
  do! tmp40 := VoidProtocol_MagicPeek in
  run! vset (set_isSnlp (memo_some (tmp40 =? 486647205))) in
  vret (tmp40 =? 486647205).

(** Call an accessor of the CCSDS header held by [RoutingHeader], through the
    type assertion of the current tier; a failed assertion panics. *)
Definition with_ccsds (snlp : bool)
    (acc : CcsdsPrimaryHeader → Z * CcsdsPrimaryHeader) : VM St Z :=
  do! this := vget in
  match snlp, RoutingHeader this with
  | true, Some (RH_Snlp h) =>
      let '(v, c) := acc (Ccsds h) in
      run! vset (set_RoutingHeader (Some (RH_Snlp
            {| SyncWord := SyncWord h; Ccsds := c; AlignPad := AlignPad h |}))) in
      vret v
  | false, Some (RH_Ccsds h) =>
      let '(v, c) := acc h in
      run! vset (set_RoutingHeader (Some (RH_Ccsds c))) in
      vret v
  | _, _ => vfail GoPanic
  end.

Definition VoidProtocol_BodyLength : VM St Z :=
  do! this := vget in
  if memo_f (m_bodyLength this) then vret (memo_v (m_bodyLength this)) else
  run! vset (set_bodyLength (memo_some 0)) in
  do! tmp29 := VoidProtocol_IsSnlp in
  do! tmp28 := with_ccsds tmp29 Ccsds_DataFieldLength in
  run! vset (set_bodyLength (memo_some tmp28)) in
  vret tmp28.

Definition VoidProtocol_GlobalApid : VM St Z :=
  do! this := vget in
  if memo_f (m_globalApid this) then vret (memo_v (m_globalApid this)) else
  run! vset (set_globalApid (memo_some 0)) in
  do! tmp33 := VoidProtocol_IsSnlp in
  do! tmp32 := with_ccsds tmp33 Ccsds_Apid in
  run! vset (set_globalApid (memo_some tmp32)) in
  vret tmp32.

Definition VoidProtocol_GlobalPacketType : VM St Z :=
  do! this := vget in
  if memo_f (m_globalPacketType this) then vret (memo_v (m_globalPacketType this)) else
  run! vset (set_globalPacketType (memo_some 0)) in
  do! tmp37 := VoidProtocol_IsSnlp in
  do! tmp36 := with_ccsds tmp37 Ccsds_PacketType in
  run! vset (set_globalPacketType (memo_some tmp36)) in
  vret tmp36.

(** The dispatcher peeks at offset 0 of its own stream. *)
Definition Dispatch122_MagicPeek : SR St Z :=
  let! pos := sr_pos in
  let! u := sr_seek 0 in
  let! tmp45 := ReadU1 in
  let! u := sr_seek pos in
  sret tmp45.

Definition Dispatch122_Read : SR St VoidProtocol_Dispatch122 :=
  let! tmp42 := Dispatch122_MagicPeek in
  if tmp42 =? 172 then
    let! tmp43 := PacketAckBodySnlp_Read in
    sret {| Dispatch_Content := Some (Content_AckSnlp tmp43);
            m_dispatchMagicPeek := memo_some tmp42 |}
  else if tmp42 =? 208 then
    let! tmp44 := PacketDBody_Read in
    sret {| Dispatch_Content := Some (Content_D tmp44);
            m_dispatchMagicPeek := memo_some tmp42 |}
  else
    sret {| Dispatch_Content := None; m_dispatchMagicPeek := memo_some tmp42 |}.

(** One case of the body switch: take [BodyLength] bytes, then parse them as a
    stream of their own. *)
Definition read_raw_body : VM St (list byte) :=
  do! tmp5 := VoidProtocol_BodyLength in
  do! tmp6 := vio (ReadBytes tmp5) in
  run! vset (set_raw_Body tmp6) in
  vret tmp6.

Definition read_body {A} (rd : SR St A) (inj : A → packet_body) : VM St unit :=
  do! raw := read_raw_body in
  match rd (NewStream raw) with
  | Ok (b, _) => vset (set_Body (Some (inj b)))
  | Err e => vfail (GoErr e)
  end.

(** The body switch of [Read]. *)
Definition VoidProtocol_ReadBody : VM St unit :=
  do! tmp4 := VoidProtocol_BodyLength in
  if tmp4 =? 106 then read_body PacketHBody_Read Body_H
  else if tmp4 =? 114 then read_body PacketAckBodyCcsds_Read Body_AckCcsds
  else if tmp4 =? 122 then read_body Dispatch122_Read Body_Dispatch122
  else if tmp4 =? 178 then read_body PacketBBody_Read Body_B
  else if tmp4 =? 34 then read_body HeartbeatBody_Read Body_Heartbeat
  else if tmp4 =? 66 then read_body PacketABody_Read Body_A
  else if tmp4 =? 98 then read_body PacketCBody_Read Body_C
  else
    do! tmp27 := read_raw_body in
    vret tt.

Definition VoidProtocol_Read : VM St unit :=
  do! tmp1 := VoidProtocol_IsSnlp in
  run! (if tmp1 : bool then
          do! tmp3 := vio SnlpHeader_Read in
          vset (set_RoutingHeader (Some (RH_Snlp tmp3)))
        else
          do! tmp2 := vio CcsdsPrimaryHeader_Read in
          vset (set_RoutingHeader (Some (RH_Ccsds tmp2)))) in
  VoidProtocol_ReadBody.
End Parser.
