(* ===== verification/Frames.v ===== *)
(** * The frame format, and the parser as its decoder

    A [frame] is what a byte sequence means on the wire: a tier and the three
    words of its CCSDS header, a raw body of the length the header announces,
    and the typed body that raw body encodes. [frame_bytes] serialises it. The
    refinement theorem states that the generated parser, over any lawful
    stream, succeeds exactly on the serialisations of well-formed frames
    (possibly followed by trailing bytes) and recovers the frame. *)
From S2P Require Export Protocol.
From S2P Require Import Golden.
#[local] Open Scope Z_scope.
#[local] Open Scope go_scope.

(** ** Frames *)
Inductive frame_header :=
  | F_Ccsds (w0 w1 w2 : Z)
  | F_Snlp (w0 w1 w2 : Z).

Record frame := { fr_header : frame_header; fr_raw : list byte; fr_body : option packet_body }.

Definition fh_is_snlp (h : frame_header) : bool :=
  match h with F_Ccsds _ _ _ => false | F_Snlp _ _ _ => true end.

(** The header as the parser stores it, before any accessor has run. *)
Definition fh_fresh (h : frame_header) : routing_header :=
  match h with
  | F_Ccsds w0 w1 w2 => RH_Ccsds (ccsds_of_words w0 w1 w2)
  | F_Snlp w0 w1 w2 =>
      RH_Snlp {| SyncWord := sync_word_bytes; Ccsds := ccsds_of_words w0 w1 w2; AlignPad := 0 |}
  end.

Definition fh_bytes (h : frame_header) : list byte :=
  match fh_fresh h with
  | RH_Ccsds c => Ccsds_bytes c
  | RH_Snlp s => Snlp_bytes s
  end.

Definition fh_ccsds (h : frame_header) : CcsdsPrimaryHeader :=
  match h with F_Ccsds w0 w1 w2 | F_Snlp w0 w1 w2 => ccsds_of_words w0 w1 w2 end.

(** The announced body length, computed in [uint16] as the code does. *)
Definition fh_body_length (h : frame_header) : Z := spec_dataFieldLength (fh_ccsds h).

Definition fh_length (h : frame_header) : Z := if fh_is_snlp h then 14 else 6.

(** A CCSDS header must not open with the SNLP sync word. *)
Definition fh_wf (h : frame_header) : Prop :=
  Ccsds_wf (fh_ccsds h) ∧
  match h with
  | F_Ccsds _ _ _ => be_uint (take 4 (fh_bytes h)) ≠ 486647205
  | F_Snlp _ _ _ => True
  end.

(** The body type selected by a length, and its encoding. *)
Definition dispatch_ok (raw : list byte) (d : VoidProtocol_Dispatch122) : Prop :=
  ∃ m, head raw = Some m ∧ m_dispatchMagicPeek d = memo_some (byte_to_Z m) ∧
  match Dispatch_Content d with
  | Some (Content_AckSnlp b) => PacketAckBodySnlp_wf b ∧ raw = PacketAckBodySnlp_bytes b
  | Some (Content_D b) => PacketDBody_wf b ∧ raw = PacketDBody_bytes b
  | None => m ≠ xac ∧ m ≠ xd0
  end.

Definition body_ok (len : Z) (raw : list byte) (b : option packet_body) : Prop :=
  match b with
  | Some (Body_H b) => len = 106 ∧ PacketHBody_wf b ∧ raw = PacketHBody_bytes b
  | Some (Body_AckCcsds b) => len = 114 ∧ PacketAckBodyCcsds_wf b ∧ raw = PacketAckBodyCcsds_bytes b
  | Some (Body_Dispatch122 d) => len = 122 ∧ dispatch_ok raw d
  | Some (Body_B b) => len = 178 ∧ PacketBBody_wf b ∧ raw = PacketBBody_bytes b
  | Some (Body_Heartbeat b) => len = 34 ∧ HeartbeatBody_wf b ∧ raw = HeartbeatBody_bytes b
  | Some (Body_A b) => len = 66 ∧ PacketABody_wf b ∧ raw = PacketABody_bytes b
  | Some (Body_C b) => len = 98 ∧ PacketCBody_wf b ∧ raw = PacketCBody_bytes b
  | None => len ∉ [106; 114; 122; 178; 34; 66; 98]
  end.

Definition frame_wf (f : frame) : Prop :=
  fh_wf (fr_header f) ∧
  Z.of_nat (length (fr_raw f)) = fh_body_length (fr_header f) ∧
  body_ok (fh_body_length (fr_header f)) (fr_raw f) (fr_body f).

Definition frame_bytes (f : frame) : list byte := fh_bytes (fr_header f) ++ fr_raw f.

(** ** The parser's object as a frame *)
Definition header_frame (h : routing_header) : frame_header :=
  match h with
  | RH_Ccsds c => F_Ccsds (VersionTypeFlagApid c) (SeqFlagsCount c) (PacketDataLength c)
  | RH_Snlp s => F_Snlp (VersionTypeFlagApid (Ccsds s)) (SeqFlagsCount (Ccsds s))
                   (PacketDataLength (Ccsds s))
  end.

Definition frame_of {St} (p : VoidProtocol St) : option frame :=
  match RoutingHeader p with
  | Some h => Some {| fr_header := header_frame h; fr_raw := raw_Body p; fr_body := Body p |}
  | None => None
  end.

(** The object [Read] leaves behind for a frame: the header with its length
    cached, the body, and the instances computed on the way. *)
Definition parsed {St} (f : frame) (peek : Z) (s : St) : VoidProtocol St :=
  let h := match fr_header f with
           | F_Ccsds w0 w1 w2 => RH_Ccsds (Ccsds_DataFieldLength (ccsds_of_words w0 w1 w2)).2
           | F_Snlp w0 w1 w2 =>
               RH_Snlp {| SyncWord := sync_word_bytes;
                          Ccsds := (Ccsds_DataFieldLength (ccsds_of_words w0 w1 w2)).2;
                          AlignPad := 0 |}
           end in
  Build_VoidProtocol (Some h) (fr_body f) s (fr_raw f)
    (memo_some (fh_body_length (fr_header f))) (memo_none 0) (memo_none 0)
    (memo_some (fh_is_snlp (fr_header f))) (memo_some peek).

Lemma frame_of_parsed {St} f peek (s : St) : frame_of (parsed f peek s) = Some f.
Proof. destruct f as [[] ? ?]; done. Qed.

Lemma length_fh_bytes h : Z.of_nat (length (fh_bytes h)) = fh_length h.
Proof.
  destruct h; unfold fh_bytes, fh_fresh, fh_length, fh_is_snlp; [by rewrite length_Ccsds_bytes|].
  unfold Snlp_bytes. by rewrite !length_app, length_Ccsds_bytes, length_put_be.
Qed.

Lemma fh_body_length_nonneg h : 0 <= fh_body_length h.
Proof. destruct h; by apply Z.mod_pos_bound. Qed.

Section Refinement.
Context {St : Type} `{KaitaiStreamLaws St}.

(** Reading a whole body: [rd] decides whether the remaining bytes encode one. *)
Definition reads_body {A} (rd : SR St A) (n : nat) (Q : A → list byte → Prop) : Prop :=
  ∀ s, length (rest s) = n →
    match rd s with
    | Ok (a, _) => Q a (rest s)
    | Err _ => ¬ ∃ a, Q a (rest s)
    end.

Lemma reads_body_denotes {A} (rd : SR St A) (enc : A → list byte) (wf : A → Prop) n :
  denotes rd (λ a l, wf a ∧ l = enc a) →
  (∀ a, wf a → length (enc a) = n) →
  reads_body rd n (λ a l, wf a ∧ l = enc a).
Proof.
  intros Hd Hlen s Hn. destruct (Hd s) as [Hs Hc]. destruct (rd s) as [[a s']|e].
  - destruct (Hs a s' eq_refl) as (_ & l & [Hwf ->] & Hr). split; [done|].
    specialize (Hlen a Hwf). rewrite Hr, length_app in Hn.
    assert (rest s' = []) as Hnil by (apply nil_length_inv; lia).
    by rewrite Hr, Hnil, app_nil_r.
  - intros (a & Hwf & Hraw). destruct (Hc a (enc a) []) as (? & ? & _); [done| |done].
    by rewrite app_nil_r.
Qed.

(** The dispatcher's peek leaves its stream where it was. *)
Lemma Dispatch122_MagicPeek_spec raw m :
  head raw = Some m →
  ∃ s, Dispatch122_MagicPeek (NewStream raw) = Ok (byte_to_Z m, s) ∧ rest s = raw.
Proof.
  intros Hm. destruct raw as [|m' raw]; [done|]. injection Hm as ->.
  unfold Dispatch122_MagicPeek, sbind, sr_pos, sr_seek, sret. rewrite Pos_law. simpl.
  destruct (SeekStart_law 0 (NewStream (m :: raw))) as (s1 & -> & Hd1 & Hp1); [done|]. simpl.
  pose proof (ReadU1_law s1) as Hu. simpl in Hu. rewrite Hd1, Hp1, NewStream_data in Hu.
  rewrite decide_True in Hu by (simpl; lia).
  destruct Hu as (s2 & -> & Hd2 & Hp2). simpl.
  destruct (SeekStart_law (Z.of_nat (stream_pos (NewStream (m :: raw)))) s2)
    as (s3 & -> & Hd3 & Hp3); [lia|]. simpl.
  exists s3. split; [by rewrite le_uint_cons, Z.mul_0_r, Z.add_0_r|].
  unfold rest. rewrite Hd3, Hd2, Hp3, NewStream_pos. done.
Qed.

Lemma reads_dispatch raw :
  length raw = 122%nat →
  match Dispatch122_Read (NewStream raw) with
  | Ok (d, _) => dispatch_ok raw d
  | Err _ => ¬ ∃ d, dispatch_ok raw d
  end.
Proof.
  intros Hlen. destruct (head raw) as [m|] eqn:Hm; [|by destruct raw].
  destruct (Dispatch122_MagicPeek_spec raw m Hm) as (s & Hpeek & Hr).
  unfold Dispatch122_Read, sbind at 1. rewrite Hpeek. cbn [result_bind].
  assert (∀ k, byte_to_Z m = byte_to_Z k → m = k) as Hinj by (intros; by apply byte_to_Z_inj).
  destruct (Z.eqb_spec (byte_to_Z m) 172) as [E|NE];
    [|destruct (Z.eqb_spec (byte_to_Z m) 208) as [E|NE']].
  - pose proof (reads_body_denotes _ _ _ _ denotes_PacketAckBodySnlp
                  length_PacketAckBodySnlp_bytes s) as Hb.
    rewrite Hr in Hb. specialize (Hb Hlen). unfold sbind.
    destruct (PacketAckBodySnlp_Read s) as [[b s']|e]; cbn.
    + exists m. done.
    + intros (d & m' & Hm' & _ & Hd). apply Hb.
      assert (m' = xac) as -> by (rewrite Hm in Hm'; injection Hm' as <-; by apply Hinj).
      destruct (Dispatch_Content d) as [[b|b]|]; [by exists b| |by destruct Hd].
      exfalso. destruct Hd as [(Hmag & _) ->]. unfold PacketDBody_bytes in Hm'.
      rewrite Hmag in Hm'. done.
  - pose proof (reads_body_denotes _ _ _ _ denotes_PacketDBody
                  length_PacketDBody_bytes s) as Hb.
    rewrite Hr in Hb. specialize (Hb Hlen). unfold sbind.
    destruct (PacketDBody_Read s) as [[b s']|e]; cbn.
    + exists m. done.
    + intros (d & m' & Hm' & _ & Hd). apply Hb.
      assert (m' = xd0) as -> by (rewrite Hm in Hm'; injection Hm' as <-; by apply Hinj).
      destruct (Dispatch_Content d) as [[b|b]|]; [|by exists b|by destruct Hd].
      exfalso. destruct Hd as [(Hmag & _) ->]. unfold PacketAckBodySnlp_bytes in Hm'.
      rewrite Hmag in Hm'. done.
  - cbn. exists m. split; [done|]. split; [done|]. split; intros ->; [by apply NE|by apply NE'].
Qed.

(** One case of the switch. *)
Lemma read_raw_body_spec (p : VoidProtocol St) L :
  0 <= L → m_bodyLength p = memo_some L →
  match read_raw_body p with
  | (Ok raw, p') => ∃ s', Z.of_nat (length raw) = L ∧ rest (vp_io p) = raw ++ rest s' ∧
      p' = set_raw_Body raw (set_io s' p)
  | (Err e, _) => e ≠ GoPanic ∧ Z.of_nat (length (rest (vp_io p))) < L
  end.
Proof.
  intros HL Hm. unfold read_raw_body, VoidProtocol_BodyLength, vbind, vget, vio.
  rewrite Hm. cbn [memo_f memo_v memo_some vret].
  pose proof (ReadBytes_law L HL (vp_io p)) as Hrd. cbn zeta in Hrd.
  fold (rest (vp_io p)) in Hrd. case_decide as Hle.
  - destruct Hrd as (s' & -> & Hd & Hp). cbn. exists s'. unfold id in *.
    rewrite length_take. split; [lia|]. split; [|done].
    assert (rest s' = drop (Z.to_nat L) (rest (vp_io p))) as ->.
    { unfold rest. by rewrite Hd, Hp, drop_drop. }
    by rewrite take_drop.
  - destruct Hrd as [e ->]. split; [done|]. lia.
Qed.

Lemma read_body_spec {A} (rd : SR St A) inj n (Q : A → list byte → Prop) (p : VoidProtocol St) :
  (∀ raw, length raw = n →
     match rd (NewStream raw) with Ok (a, _) => Q a raw | Err _ => ¬ ∃ a, Q a raw end) →
  m_bodyLength p = memo_some (Z.of_nat n) →
  match read_body rd inj p with
  | (Ok _, p') => ∃ raw s' a, length raw = n ∧ rest (vp_io p) = raw ++ rest s' ∧ Q a raw ∧
      p' = set_Body (Some (inj a)) (set_raw_Body raw (set_io s' p))
  | (Err e, _) => e ≠ GoPanic ∧
      ¬ ∃ raw a tl, length raw = n ∧ rest (vp_io p) = raw ++ tl ∧ Q a raw
  end.
Proof.
  intros Hrd Hm. unfold read_body, vbind.
  pose proof (read_raw_body_spec p (Z.of_nat n) ltac:(lia) Hm) as Hraw.
  destruct (read_raw_body p) as [[raw|e] p'].
  - destruct Hraw as (s' & Hlen & Hr & ->). specialize (Hrd raw ltac:(lia)).
    destruct (rd (NewStream raw)) as [[a s2]|e]; cbn.
    + exists raw, s', a. split_and!; [lia|done..].
    + split; [done|]. intros (raw' & a & tl & Hl & Hr' & HQ). apply Hrd. exists a.
      rewrite Hr' in Hr. apply app_inj_length in Hr as [-> _]; [done|lia].
  - destruct Hraw as [He Hshort]. split; [done|].
    intros (raw & a & tl & Hl & Hr & _). rewrite Hr, length_app in Hshort. lia.
Qed.

(** The object when the body switch starts. *)
Definition before_body (h : frame_header) (peek : Z) (s : St) : VoidProtocol St :=
  Build_VoidProtocol (Some (fh_fresh h)) None s [] (memo_none 0) (memo_none 0) (memo_none 0)
    (memo_some (fh_is_snlp h)) (memo_some peek).

Lemma BodyLength_first h peek s :
  VoidProtocol_BodyLength (before_body h peek s) =
  (Ok (fh_body_length h), set_Body None (parsed {| fr_header := h; fr_raw := []; fr_body := None |} peek s)).
Proof. by destruct h. Qed.

Definition body_stage_ok (h : frame_header) (l : list byte) raw b : Prop :=
  Z.of_nat (length raw) = fh_body_length h ∧ body_ok (fh_body_length h) raw b ∧
  ∃ tl, l = raw ++ tl.

Lemma ReadBody_case {A} (rd : SR St A) inj n (Q : A → list byte → Prop) h peek s :
  fh_body_length h = Z.of_nat n →
  (∀ raw, length raw = n →
     match rd (NewStream raw) with Ok (a, _) => Q a raw | Err _ => ¬ ∃ a, Q a raw end) →
  (∀ raw b, body_ok (fh_body_length h) raw b ↔ ∃ a, b = Some (inj a) ∧ Q a raw) →
  match read_body rd inj
          (parsed {| fr_header := h; fr_raw := []; fr_body := None |} peek s) with
  | (Ok _, p) => ∃ raw b s', body_stage_ok h (rest s) raw b ∧ rest s = raw ++ rest s' ∧
      p = parsed {| fr_header := h; fr_raw := raw; fr_body := b |} peek s'
  | (Err e, _) => e ≠ GoPanic ∧ ¬ ∃ raw b, body_stage_ok h (rest s) raw b
  end.
Proof.
  intros Hn Hrd Hok.
  set (p0 := parsed _ peek s).
  pose proof (read_body_spec rd inj n Q p0 Hrd) as Hb.
  specialize (Hb ltac:(by rewrite <- Hn)).
  destruct (read_body rd inj p0) as [[u|e] p]; cbn in Hb.
  - destruct Hb as (raw & s' & a & Hl & Hr & HQ & ->).
    exists raw, (Some (inj a)), s'. split; [|done]. split; [by rewrite Hl|].
    split; [apply Hok; eauto|eauto].
  - destruct Hb as [He Hno]. split; [done|]. intros (raw & b & Hl & Hbo & tl & Hr).
    apply Hok in Hbo as (a & -> & HQ). apply Hno. exists raw, a, tl.
    split; [lia|done].
Qed.
(** The types a length selects: the body switch and [body_ok] agree. *)
Ltac body_cases E :=
  intros raw b; rewrite E; destruct b as [[]|]; cbn [body_ok];
  (split;
   [ first [ by intros (? & ? & ?); eauto
           | by intros [? _]
           | by intros [? ?]; eauto
           | by intros []; repeat constructor ]
   | intros (? & Heq & HQ); first [ done | by injection Heq as -> ] ]).

Ltac body_case E n dec len :=
  eapply (ReadBody_case _ _ n);
  [ exact E
  | intros raw Hraw; pose proof (reads_body_denotes _ _ _ _ dec len (NewStream raw)) as Hb;
    rewrite rest_NewStream in Hb; exact (Hb Hraw)
  | body_cases E ].

Lemma ReadBody_spec h peek s :
  match VoidProtocol_ReadBody (before_body h peek s) with
  | (Ok _, p) => ∃ raw b s', body_stage_ok h (rest s) raw b ∧ rest s = raw ++ rest s' ∧
      p = parsed {| fr_header := h; fr_raw := raw; fr_body := b |} peek s'
  | (Err e, _) => e ≠ GoPanic ∧ ¬ ∃ raw b, body_stage_ok h (rest s) raw b
  end.
Proof.
  unfold VoidProtocol_ReadBody, vbind at 1. rewrite BodyLength_first.
  change (set_Body None (parsed {| fr_header := h; fr_raw := []; fr_body := None |} peek s))
    with (parsed {| fr_header := h; fr_raw := []; fr_body := None |} peek s).
  destruct (Z.eqb_spec (fh_body_length h) 106) as [E|N1].
  { body_case E 106%nat denotes_PacketHBody length_PacketHBody_bytes. }
  destruct (Z.eqb_spec (fh_body_length h) 114) as [E|N2].
  { body_case E 114%nat denotes_PacketAckBodyCcsds length_PacketAckBodyCcsds_bytes. }
  destruct (Z.eqb_spec (fh_body_length h) 122) as [E|N3].
  { eapply (ReadBody_case _ _ 122%nat); [exact E|by apply reads_dispatch|body_cases E]. }
  destruct (Z.eqb_spec (fh_body_length h) 178) as [E|N4].
  { body_case E 178%nat denotes_PacketBBody length_PacketBBody_bytes. }
  destruct (Z.eqb_spec (fh_body_length h) 34) as [E|N5].
  { body_case E 34%nat denotes_HeartbeatBody length_HeartbeatBody_bytes. }
  destruct (Z.eqb_spec (fh_body_length h) 66) as [E|N6].
  { body_case E 66%nat denotes_PacketABody length_PacketABody_bytes. }
  destruct (Z.eqb_spec (fh_body_length h) 98) as [E|N7].
  { body_case E 98%nat denotes_PacketCBody length_PacketCBody_bytes. }
  unfold vbind.
  set (p0 := parsed {| fr_header := h; fr_raw := []; fr_body := None |} peek s).
  pose proof (read_raw_body_spec p0 (fh_body_length h)) as Hraw.
  specialize (Hraw (fh_body_length_nonneg h) eq_refl).
  destruct (read_raw_body p0) as [[raw|e] p]; cbn.
  - destruct Hraw as (s' & Hlen & Hr & ->). exists raw, None, s'. split; [|done].
    split; [done|]. split; [|by exists (rest s')].
    cbn. rewrite !not_elem_of_cons. split_and!; auto. apply not_elem_of_nil.
  - destruct Hraw as [He Hshort]. split; [done|]. intros (raw & b & Hl & _ & tl & Hr).
    cbn in Hshort. rewrite Hr, length_app in Hshort. lia.
Qed.

(** The tier is decided by the first four bytes; peeking does not consume. *)
Definition peeked (raw : list byte) (s : St) : VoidProtocol St :=
  Build_VoidProtocol None None s [] (memo_none 0) (memo_none 0) (memo_none 0)
    (memo_some (be_uint (take 4 raw) =? 486647205)) (memo_some (be_uint (take 4 raw))).

Lemma IsSnlp_fresh raw :
  match VoidProtocol_IsSnlp (NewVoidProtocol (NewStream raw)) with
  | (Ok b, p) => (4 <= length raw)%nat ∧ b = (be_uint (take 4 raw) =? 486647205) ∧
      ∃ s, rest s = raw ∧ p = peeked raw s
  | (Err e, _) => e ≠ GoPanic ∧ (length raw < 4)%nat
  end.
Proof.
  unfold VoidProtocol_IsSnlp, VoidProtocol_MagicPeek, NewVoidProtocol, vbind, vget, vio,
    vset, vret, sr_pos, sr_seek. cbn.
  rewrite Pos_law. cbn.
  destruct (SeekStart_law 0 (NewStream raw)) as (s1 & -> & Hd1 & Hp1); [done|]. cbn.
  pose proof (ReadU4be_law s1) as Hu. cbn zeta in Hu. rewrite Hd1, Hp1, NewStream_data in Hu.
  change (Z.to_nat 0) with O in Hu. rewrite drop_0 in Hu.
  case_decide as Hle.
  - destruct Hu as (s2 & -> & Hd2 & Hp2). cbn.
    destruct (SeekStart_law (Z.of_nat (stream_pos (NewStream raw))) s2)
      as (s3 & -> & Hd3 & Hp3); [lia|]. cbn.
    split; [done|]. split; [done|]. exists s3. split; [|done].
    unfold rest. rewrite Hd3, Hd2, Hp3, NewStream_pos. done.
  - destruct Hu as [e ->]. cbn. split; [done|lia].
Qed.

Lemma Ccsds_wf_words c : Ccsds_wf c →
  Ccsds_wf (ccsds_of_words (VersionTypeFlagApid c) (SeqFlagsCount c) (PacketDataLength c)).
Proof. intros Hc. destruct (Hc) as (_ & _ & _ & <-). done. Qed.

Lemma fh_fresh_bytes_ccsds c : Ccsds_wf c →
  let h := F_Ccsds (VersionTypeFlagApid c) (SeqFlagsCount c) (PacketDataLength c) in
  fh_fresh h = RH_Ccsds c ∧ fh_bytes h = Ccsds_bytes c.
Proof. intros (_ & _ & _ & Hc). unfold fh_bytes. cbn. by rewrite <- Hc. Qed.

Lemma fh_fresh_bytes_snlp n : Snlp_wf n →
  let h := F_Snlp (VersionTypeFlagApid (Ccsds n)) (SeqFlagsCount (Ccsds n))
             (PacketDataLength (Ccsds n)) in
  fh_fresh h = RH_Snlp n ∧ fh_bytes h = Snlp_bytes n.
Proof.
  intros (Hs & (_ & _ & _ & Hc) & Hp). unfold fh_bytes. cbn. rewrite <- Hc.
  destruct n; cbn in *. by subst.
Qed.

Lemma take4_fh_bytes h tl : take 4 (fh_bytes h ++ tl) = take 4 (fh_bytes h).
Proof.
  rewrite take_app_le; [done|]. pose proof (length_fh_bytes h).
  destruct h; unfold fh_length in *; cbn [fh_is_snlp] in *; lia.
Qed.

Lemma take4_snlp w0 w1 w2 : be_uint (take 4 (fh_bytes (F_Snlp w0 w1 w2))) = 486647205.
Proof. done. Qed.

Lemma denotes_Ccsds_fail s e :
  CcsdsPrimaryHeader_Read s = Err e → ¬ ∃ c tl, Ccsds_wf c ∧ rest s = Ccsds_bytes c ++ tl.
Proof.
  intros He (c & tl & Hwf & Hr). destruct (denotes_Ccsds s) as [_ Hc].
  destruct (Hc c (Ccsds_bytes c) tl) as (? & ? & _); [done|done|congruence].
Qed.

Lemma denotes_Snlp_fail s e :
  SnlpHeader_Read s = Err e → ¬ ∃ n tl, Snlp_wf n ∧ rest s = Snlp_bytes n ++ tl.
Proof.
  intros He (c & tl & Hwf & Hr). destruct (denotes_Snlp s) as [_ Hc].
  destruct (Hc c (Snlp_bytes c) tl) as (? & ? & _); [done|done|congruence].
Qed.

(** Headers are prefix-free: the first bytes determine the header. *)
Lemma Ccsds_bytes_inj w0 w1 w2 v0 v1 v2 :
  Ccsds_wf (ccsds_of_words w0 w1 w2) → Ccsds_wf (ccsds_of_words v0 v1 v2) →
  Ccsds_bytes (ccsds_of_words w0 w1 w2) = Ccsds_bytes (ccsds_of_words v0 v1 v2) →
  w0 = v0 ∧ w1 = v1 ∧ w2 = v2.
Proof.
  intros (H1 & H2 & H3 & _) (K1 & K2 & K3 & _) Hb. unfold Ccsds_bytes in Hb. cbn in *.
  apply app_inj_length in Hb as [E1 Hb]; [|len].
  apply app_inj_length in Hb as [E2 E3]; [|len].
  assert (∀ x y, in_u 16 x → in_u 16 y → put_be 2 x = put_be 2 y → x = y) as Hinj.
  { intros x y Hx Hy Hxy. rewrite <- (be_uint_put_be_small 2 x), Hxy by done.
    by apply be_uint_put_be_small. }
  auto.
Qed.

Lemma fh_bytes_inj h h' tl tl' :
  fh_wf h → fh_wf h' → fh_bytes h ++ tl = fh_bytes h' ++ tl' → h = h' ∧ tl = tl'.
Proof.
  intros [Hc Hm] [Hc' Hm'] E.
  assert (take 4 (fh_bytes h) = take 4 (fh_bytes h')) as E4.
  { by rewrite <- (take4_fh_bytes h tl), <- (take4_fh_bytes h' tl'), E. }
  assert (fh_is_snlp h = fh_is_snlp h') as Ht.
  { destruct h, h'; try done; exfalso;
      [apply Hm; rewrite E4|apply Hm'; rewrite <- E4]; apply take4_snlp. }
  apply app_inj_length in E as [E ->].
  2:{ apply Nat2Z.inj. rewrite !length_fh_bytes. unfold fh_length. by rewrite Ht. }
  split; [|done]. unfold fh_bytes in E.
  destruct h, h'; try done; cbn [fh_fresh] in E; cbn [fh_ccsds] in *.
  - destruct (Ccsds_bytes_inj _ _ _ _ _ _ Hc Hc' E) as (-> & -> & ->). done.
  - unfold Snlp_bytes in E. cbn [SyncWord Ccsds AlignPad] in E.
    apply app_inv_head, app_inv_tail in E.
    destruct (Ccsds_bytes_inj _ _ _ _ _ _ Hc Hc' E) as (-> & -> & ->). done.
Qed.

(** The routing header: [Read] up to the body switch. *)
Lemma read_header_spec raw s :
  rest s = raw → (4 <= length raw)%nat →
  let peek := be_uint (take 4 raw) in
  match (if peek =? 486647205 then
           do! tmp3 := vio SnlpHeader_Read in
           vset (set_RoutingHeader (Some (RH_Snlp tmp3)))
         else
           do! tmp2 := vio CcsdsPrimaryHeader_Read in
           vset (set_RoutingHeader (Some (RH_Ccsds tmp2)))) (peeked raw s)
  with
  | (Ok _, p) => ∃ h s', fh_wf h ∧ raw = fh_bytes h ++ rest s' ∧ p = before_body h peek s'
  | (Err e, _) => e ≠ GoPanic ∧ ¬ ∃ h tl, fh_wf h ∧ raw = fh_bytes h ++ tl
  end.
Proof.
  intros Hr Hlen. cbn zeta. unfold peeked.
  destruct (Z.eqb_spec (be_uint (take 4 raw)) 486647205) as [Hm|Hm];
    unfold vbind, vio, vset; cbn [vp_io].
  - destruct (SnlpHeader_Read s) as [[n s']|e] eqn:E; cbn.
    + destruct (proj1 (denotes_Snlp s) n s' E) as (_ & l & [Hwf ->] & Hrest).
      destruct (fh_fresh_bytes_snlp n Hwf) as [Hf Hb].
      exists (header_frame (RH_Snlp n)), s'. cbn [header_frame].
      split; [by split; [apply Ccsds_wf_words; apply Hwf|]|].
      rewrite Hb. split; [congruence|]. unfold before_body. by rewrite Hf.
    + split; [done|]. intros (h & tl & [Hc Hh] & Hraw).
      destruct h as [w0 w1 w2|w0 w1 w2].
      { apply Hh. by rewrite <- (take4_fh_bytes _ tl), <- Hraw. }
      apply (denotes_Snlp_fail s e E). eexists _, tl. rewrite Hr.
      split; [|exact Hraw]. done.
  - destruct (CcsdsPrimaryHeader_Read s) as [[c s']|e] eqn:E; cbn.
    + destruct (proj1 (denotes_Ccsds s) c s' E) as (_ & l & [Hwf ->] & Hrest).
      destruct (fh_fresh_bytes_ccsds c Hwf) as [Hf Hb].
      exists (header_frame (RH_Ccsds c)), s'. cbn [header_frame]. rewrite <- Hr. split.
      { split; [by apply Ccsds_wf_words|]. rewrite Hb.
        rewrite <- Hr, Hrest, <- Hb, take4_fh_bytes in Hm. by rewrite Hb in Hm. }
      rewrite Hb. split; [congruence|]. unfold before_body. by rewrite Hf, Hr.
    + split; [done|]. intros (h & tl & [Hc Hh] & Hraw).
      destruct h as [w0 w1 w2|w0 w1 w2].
      * apply (denotes_Ccsds_fail s e E). eexists _, tl. rewrite Hr. split; [exact Hc|exact Hraw].
      * apply Hm. by rewrite Hraw, take4_fh_bytes.
Qed.

(** A body stage is what a frame has after its header. *)
Lemma body_stage_frame h l raw b :
  fh_wf h → body_stage_ok h l raw b ↔
  fh_wf h ∧ frame_wf {| fr_header := h; fr_raw := raw; fr_body := b |} ∧ ∃ tl, l = raw ++ tl.
Proof. unfold body_stage_ok, frame_wf. cbn. tauto. Qed.

Lemma Read_spec raw :
  match VoidProtocol_Read (NewVoidProtocol (NewStream raw)) with
  | (Ok _, p) => ∃ f s, frame_wf f ∧ raw = frame_bytes f ++ rest s ∧
      p = parsed f (be_uint (take 4 raw)) s
  | (Err e, _) => e ≠ GoPanic ∧ ¬ ∃ f tl, frame_wf f ∧ raw = frame_bytes f ++ tl
  end.
Proof.
  unfold VoidProtocol_Read. unfold vbind at 1.
  pose proof (IsSnlp_fresh raw) as Hpeek.
  destruct (VoidProtocol_IsSnlp _) as [[b|e] p0].
  2:{ destruct Hpeek as [He Hshort]. split; [done|]. intros (f & tl & _ & Hraw).
      unfold frame_bytes in Hraw. rewrite Hraw, !length_app in Hshort.
      pose proof (length_fh_bytes (fr_header f)).
      destruct (fr_header f); unfold fh_length in *; cbn [fh_is_snlp] in *; lia. }
  destruct Hpeek as (Hlen & -> & s0 & Hr0 & ->).
  pose proof (read_header_spec raw s0 Hr0 Hlen) as Hhead. cbn zeta in Hhead.
  unfold vbind at 1.
  lazymatch type of Hhead with match ?m with _ => _ end => destruct m as [[u|e] p1] end.
  2:{ destruct Hhead as [He Hno]. split; [done|]. intros (f & tl & Hwf & Hraw). apply Hno.
      exists (fr_header f), (fr_raw f ++ tl). split; [apply Hwf|].
      by rewrite Hraw; unfold frame_bytes; rewrite app_assoc. }
  destruct Hhead as (h & s1 & Hh & Hraw & ->).
  pose proof (ReadBody_spec h (be_uint (take 4 raw)) s1) as Hbody.
  destruct (VoidProtocol_ReadBody _) as [[u'|e] p2].
  - destruct Hbody as (raw' & b & s2 & Hst & Hr & ->).
    apply body_stage_frame in Hst as (_ & Hwf & _); [|done].
    eexists _, s2. split; [exact Hwf|]. split; [|done].
    unfold frame_bytes. cbn. by rewrite Hraw, Hr, app_assoc.
  - destruct Hbody as [He Hno]. split; [done|]. intros (f & tl & (Hfh & Hfl & Hfb) & Hraw').
    apply Hno. assert (fr_header f = h ∧ fr_raw f ++ tl = rest s1) as [<- <-].
    { apply fh_bytes_inj; [done|done|]. rewrite <- Hraw, Hraw'. unfold frame_bytes.
      by rewrite app_assoc. }
    exists (fr_raw f), (fr_body f). split; [done|]. split; [done|]. by exists tl.
Qed.
End Refinement.

(** ** Frames are unambiguous *)
Section Unambiguous.
Context {St : Type} `{KaitaiStreamLaws St}.

(** An encoding that a reader denotes is injective. *)
Lemma denotes_enc_inj {A} (m : SR St A) (wf : A → Prop) (enc : A → list byte) a b :
  denotes m (λ a l, wf a ∧ l = enc a) → wf a → wf b → enc a = enc b → a = b.
Proof.
  intros Hm Ha Hb E. destruct (Hm (NewStream (enc a))) as [_ Hc].
  destruct (Hc a (enc a) []) as (s & Es & _); [done|by rewrite rest_NewStream, app_nil_r|].
  destruct (Hc b (enc b) []) as (s' & Es' & _); [done|by rewrite rest_NewStream, app_nil_r|].
  congruence.
Qed.

Lemma dispatch_ok_inj raw d d' : dispatch_ok raw d → dispatch_ok raw d' → d = d'.
Proof.
  intros (m & Hm & Hp & Hd) (m' & Hm' & Hp' & Hd').
  assert (m' = m) as -> by congruence.
  destruct d as [c pk], d' as [c' pk']. cbn in *. subst pk pk'. f_equal.
  assert (∀ b, PacketAckBodySnlp_wf b → raw = PacketAckBodySnlp_bytes b → m = xac) as HA.
  { intros b (Hmag & _) ->. unfold PacketAckBodySnlp_bytes in Hm. rewrite Hmag in Hm.
    by injection Hm as <-. }
  assert (∀ b, PacketDBody_wf b → raw = PacketDBody_bytes b → m = xd0) as HD.
  { intros b (Hmag & _) ->. unfold PacketDBody_bytes in Hm. rewrite Hmag in Hm.
    by injection Hm as <-. }
  destruct c as [[b|b]|], c' as [[b'|b']|]; destruct_and?; try done;
    try (assert (m = xac) by eauto; assert (m = xd0) by eauto; congruence);
    try (assert (m = xac) by eauto; congruence); try (assert (m = xd0) by eauto; congruence);
    do 2 f_equal.
  - eapply denotes_enc_inj; [apply denotes_PacketAckBodySnlp|done|done|congruence].
  - eapply denotes_enc_inj; [apply denotes_PacketDBody|done|done|congruence].
Qed.

Lemma body_ok_inj len raw b b' : body_ok len raw b → body_ok len raw b' → b = b'.
Proof.
  assert (∀ x n : Z, x = n → x ≠ n → False) as Hne by auto.
  intros Hb Hb'.
  destruct b as [[b|b|b|b|b|b|b]|], b' as [[b'|b'|b'|b'|b'|b'|b']|]; cbn in Hb, Hb';
    destruct_and?; try (exfalso; lia);
    try (exfalso; subst len;
         match goal with Hn : _ ∉ _ |- _ => apply Hn; repeat constructor end);
    try done; do 2 f_equal; try (by eapply dispatch_ok_inj);
    eapply denotes_enc_inj; eauto with denotes nocore; congruence.
Qed.

Lemma frame_unique f f' tl tl' :
  frame_wf f → frame_wf f' → frame_bytes f ++ tl = frame_bytes f' ++ tl' → f = f' ∧ tl = tl'.
Proof.
  intros (Hh & Hl & Hb) (Hh' & Hl' & Hb') E. unfold frame_bytes in E.
  rewrite <- !app_assoc in E.
  destruct (fh_bytes_inj _ _ _ _ Hh Hh' E) as [Eh E'].
  apply app_inj_length in E' as [Er ->]; [|apply Nat2Z.inj; rewrite Hl, Hl'; congruence].
  split; [|done]. rewrite <- Eh, <- Er in Hb'.
  pose proof (body_ok_inj _ _ _ _ Hb Hb') as Eb.
  destruct f, f'; cbn in *; congruence.
Qed.
End Unambiguous.

(** ** An executable decoder of exact frames *)
Definition decode_frame (raw : list byte) : option frame :=
  match VoidProtocol_Read (NewVoidProtocol (NewStream raw : ListStream)) with
  | (Ok _, p) => match rest (vp_io p) with [] => frame_of p | _ :: _ => None end
  | (Err _, _) => None
  end.

Lemma decode_frame_iff raw f : decode_frame raw = Some f ↔ frame_wf f ∧ raw = frame_bytes f.
Proof.
  unfold decode_frame. pose proof (Read_spec (St := ListStream) raw) as Hr.
  destruct (VoidProtocol_Read _) as [[u|e] p].
  - destruct Hr as (f' & s & Hwf & Hraw & ->). rewrite frame_of_parsed. cbn [parsed vp_io].
    destruct (rest s) as [|x tl] eqn:Hrest.
    + rewrite app_nil_r in Hraw. split; [by intros [= <-]|]. intros [Hwf' Hraw'].
      destruct (frame_unique (St := ListStream) f' f [] []) as [-> _];
        [done|done|by rewrite !app_nil_r, <- Hraw, <- Hraw'|done].
    + split; [done|]. intros [Hwf' Hraw']. exfalso.
      destruct (frame_unique (St := ListStream) f' f (x :: tl) []) as [_ Hnil];
        [done|done|by rewrite app_nil_r, <- Hraw, <- Hraw'|done].
  - destruct Hr as [_ Hno]. split; [done|]. intros [Hwf ->]. destruct Hno.
    exists f, []. by rewrite app_nil_r.
Qed.

(** ** Properties of the parser *)
Section Properties.
Context {St : Type} `{KaitaiStreamLaws St}.

(** C18. The generated parser is the decoder of the frame format. Over any
    lawful stream, reading succeeds exactly when the input starts with the
    serialisation of a well-formed frame; the object then holds that frame,
    which is the only one the input starts with, and the bytes after it are
    left unread. It never panics. *)
Theorem VoidProtocol_Read_decodes raw :
  match VoidProtocol_Read (NewVoidProtocol (NewStream raw)) with
  | (Ok _, p) => ∃ f, frame_of p = Some f ∧ frame_wf f ∧
      raw = frame_bytes f ++ rest (vp_io p) ∧
      ∀ f' tl, frame_wf f' → raw = frame_bytes f' ++ tl → f' = f ∧ tl = rest (vp_io p)
  | (Err e, _) => e ≠ GoPanic ∧ ¬ ∃ f tl, frame_wf f ∧ raw = frame_bytes f ++ tl
  end.
Proof.
  pose proof (Read_spec raw) as Hr. destruct (VoidProtocol_Read _) as [[u|e] p]; [|done].
  destruct Hr as (f & s & Hwf & Hraw & ->). exists f. rewrite frame_of_parsed.
  split; [done|]. split; [done|]. split; [done|]. intros f' tl Hf' Hraw'.
  apply frame_unique; [done|done|]. cbn. congruence.
Qed.

(** Parsing the serialisation of a well-formed frame. *)
Lemma Read_frame f tl :
  frame_wf f →
  ∃ s, rest s = tl ∧
    VoidProtocol_Read (NewVoidProtocol (NewStream (frame_bytes f ++ tl))) =
    (Ok tt, parsed f (be_uint (take 4 (frame_bytes f ++ tl))) s).
Proof.
  intros Hwf. pose proof (Read_spec (frame_bytes f ++ tl)) as Hr.
  destruct (VoidProtocol_Read _) as [[[]|e] p].
  - destruct Hr as (f' & s & Hwf' & Hraw & ->).
    apply frame_unique in Hraw as [-> ->]; [|done|done]. by exists s.
  - destruct Hr as [_ Hno]. destruct Hno. by exists f, tl.
Qed.
End Properties.

Lemma VoidProtocol_Read_decodes_witness :
  (∃ f, frame_wf f ∧ golden_ccsds_b = frame_bytes f) ∧
  ¬ (∃ f tl, frame_wf f ∧ take 100 golden_ccsds_b = frame_bytes f ++ tl).
Proof.
  pose proof (VoidProtocol_Read_decodes (St := ListStream) golden_ccsds_b) as Hok.
  pose proof (VoidProtocol_Read_decodes (St := ListStream) (take 100 golden_ccsds_b)) as Herr.
  split.
  - destruct (VoidProtocol_Read _) as [[u|e] p] eqn:E in Hok.
    + destruct Hok as (f & _ & Hwf & Hraw & _). exists f. split; [done|].
      assert (rest (vp_io p) = []) as Hnil.
      { assert (p = (VoidProtocol_Read (NewVoidProtocol
          (NewStream golden_ccsds_b : ListStream))).2) as -> by by rewrite E.
        vm_compute. reflexivity. }
      by rewrite Hraw, Hnil, app_nil_r.
    + exfalso. vm_compute in E. discriminate E.
  - destruct (VoidProtocol_Read _) as [[u|e] p] eqn:E in Herr; [|apply Herr].
    exfalso. vm_compute in E. discriminate E.
Defined.
