(* ===== verification/Ed25519.v ===== *)
(** * Digital signatures

    The gateway uses four functions of [crypto/ed25519]. Their arithmetic is not
    modelled: [Ed25519] is the interface (key derivation, signing and
    verification as functions of the 32-byte seed) and [Ed25519Laws] the
    documented facts the gateway relies on. The Go functions are defined on top
    of it with their run-time length checks, whose failure is a panic ([None]).

    [toy_ed25519] is an executable instance; it has no security, and only shows
    that the laws can hold. *)
From S2P Require Export Crc32.
#[local] Open Scope Z_scope.

Definition SeedSize : nat := 32.
Definition PublicKeySize : nat := 32.
Definition PrivateKeySize : nat := 64.
Definition SignatureSize : nat := 64.

Class Ed25519 := {
  derive_public : list byte → list byte;
  sign_with : list byte → list byte → list byte;
  verify_with : list byte → list byte → list byte → bool;
}.

Class Ed25519Laws `{Ed25519} : Prop := {
  length_derive_public seed : length seed = SeedSize →
    length (derive_public seed) = PublicKeySize;
  length_sign_with seed msg : length seed = SeedSize →
    length (sign_with seed msg) = SignatureSize;
  verify_sign_with seed msg : length seed = SeedSize →
    verify_with (derive_public seed) msg (sign_with seed msg) = true;
}.

(** ** The functions of [crypto/ed25519] *)
Section Functions.
Context `{Ed25519}.

(** A private key is the seed followed by the public key. *)
Definition NewKeyFromSeed (seed : list byte) : option (list byte) :=
  if decide (length seed = SeedSize) then Some (seed ++ derive_public seed) else None.

Definition PrivateKey_Public (priv : list byte) : list byte := drop SeedSize priv.

Definition Sign (priv msg : list byte) : option (list byte) :=
  if decide (length priv = PrivateKeySize)
  then Some (sign_with (take SeedSize priv) msg) else None.

Definition Verify (pub msg sig : list byte) : option bool :=
  if decide (length pub = PublicKeySize)
  then Some (bool_decide (length sig = SignatureSize) && verify_with pub msg sig)
  else None.

Context `{!Ed25519Laws}.

Lemma NewKeyFromSeed_ok seed :
  length seed = SeedSize →
  NewKeyFromSeed seed = Some (seed ++ derive_public seed) ∧
  length (seed ++ derive_public seed) = PrivateKeySize ∧
  PrivateKey_Public (seed ++ derive_public seed) = derive_public seed ∧
  ∀ msg, Sign (seed ++ derive_public seed) msg = Some (sign_with seed msg).
Proof.
  intros Hs. unfold NewKeyFromSeed, PrivateKey_Public, Sign. rewrite decide_True by done.
  assert (length (seed ++ derive_public seed) = PrivateKeySize) as Hl.
  { by rewrite length_app, length_derive_public, Hs. }
  split_and!; [done|done|by apply drop_app_exact|].
  intros msg. by rewrite decide_True, take_app_exact.
Qed.

Lemma Verify_sign seed msg :
  length seed = SeedSize →
  Verify (derive_public seed) msg (sign_with seed msg) = Some true.
Proof.
  intros Hs. unfold Verify. rewrite decide_True by by apply length_derive_public.
  rewrite bool_decide_eq_true_2 by by apply length_sign_with.
  by rewrite verify_sign_with.
Qed.
End Functions.

(** ** An executable instance *)
#[export] Instance toy_ed25519 : Ed25519 := {
  derive_public seed := reverse seed;
  sign_with seed msg := put_le 32 (ChecksumIEEE msg) ++ put_le 32 (le_uint seed);
  verify_with pub msg sig :=
    bool_decide (sig = put_le 32 (ChecksumIEEE msg) ++ put_le 32 (be_uint pub));
}.

#[export] Instance toy_ed25519_laws : Ed25519Laws.
Proof.
  split; intros seed; cbn.
  - by rewrite length_reverse.
  - intros. by rewrite length_app, !length_put_le.
  - intros. unfold be_uint. rewrite reverse_involutive. by apply bool_decide_eq_true_2.
Qed.
