(* ===== verification/Registry.v ===== *)
(** * The satellite registry and the signature verifier

    Models [gateway/internal/core/registry/registry.go] (the in-memory table
    [MockDB] of satellites, its hardcoded contents and the demo-key loader) and
    [gateway/internal/core/security/verifier.go] (the signature check against
    the registered key).

    [MockDB] is a package-level map that the functions read and write: it is
    passed to them and, where they assign to it, returned. *)
From stdpp Require Export gmap.
From S2P Require Export Ed25519.
#[local] Open Scope Z_scope.
#[local] Open Scope string_scope.

Record SatRecord := {
  SatID : Z;
  PubKeyHex : string;
  Wallet : string;
  Role : string;
}.

#[export] Instance SatRecord_eq_dec : EqDecision SatRecord.
Proof. solve_decision. Defined.

Notation MockDB := (gmap Z SatRecord).

Definition FlatSatDemoSatID : Z := 0xCAFEBABE.
Definition FlatSatDemoWallet : string := "0x70997970C51812dc3A010C7d01b50e0d17dc79C8".

(** [MockDB[id] = rec] for the three hardcoded satellites. *)
Definition Initialize (db : MockDB) : MockDB :=
  let db := <[100 :=
    {| SatID := 100;
       PubKeyHex := "4822f97bc9e8746acc9b2401e21db1afba0212657ad4ae8ee9fd16964dd27d97";
       Wallet := "0x1A2B3C4D5E6F7A8B9C0D1E2F3A4B5C6D7E8F9A0B";
       Role := "Seller" |}]> db in
  let db := <[101 :=
    {| SatID := 101;
       PubKeyHex := "4102f95e145ccbaea5959f51cdf2e52e31b2de6bc19ae9ba1347f57e31549dd3";
       Wallet := "0x9F8E7D6C5B4A39281706F5E4D3C2B1A09F8E7D6C";
       Role := "Mule" |}]> db in
  <[FlatSatDemoSatID :=
    {| SatID := FlatSatDemoSatID; PubKeyHex := ""; Wallet := FlatSatDemoWallet;
       Role := "Seller" |}]> db.

(** [sat, exists := MockDB[id]]: [None] when the key is absent. *)
Definition GetSat (db : MockDB) (id : Z) : option SatRecord := db !! id.

Definition set_PubKeyHex (k : string) (r : SatRecord) : SatRecord :=
  {| SatID := SatID r; PubKeyHex := k; Wallet := Wallet r; Role := Role r |}.

Inductive registry_error :=
  | SeedNotHex
  | SeedWrongLength (got : nat)
  | FlatSatNotSeeded.

Inductive verify_error :=
  | UnknownSatellite (satID : Z)
  | PubKeyNotHex (satID : Z)
  | PubKeyWrongLength (satID : Z)
  | InvalidSignature (satID : Z).

Section Functions.
Context `{Ed25519}.

(** The result of the call and the table it leaves; [None] is a panic. *)
Definition LoadFlatSatDemoKey (seedHex : string) (db : MockDB)
    : option (result registry_error unit * MockDB) :=
  match hex_decode seedHex with
  | None => Some (Err SeedNotHex, db)
  | Some seed =>
      if negb (Nat.eqb (length seed) SeedSize)
      then Some (Err (SeedWrongLength (length seed)), db)
      else
        priv ← NewKeyFromSeed seed;
        let pub := PrivateKey_Public priv in
        match GetSat db FlatSatDemoSatID with
        | None => Some (Err FlatSatNotSeeded, db)
        | Some rec =>
            let rec := set_PubKeyHex (hex_encode pub) rec in
            Some (Ok tt, <[FlatSatDemoSatID := rec]> db)
        end
  end.

Definition VerifyPacketSignature (db : MockDB) (satID : Z) (message signature : list byte)
    : option (result verify_error unit) :=
  match GetSat db satID with
  | None => Some (Err (UnknownSatellite satID))
  | Some satRecord =>
      match hex_decode (PubKeyHex satRecord) with
      | None => Some (Err (PubKeyNotHex satID))
      | Some pubKey =>
          if negb (Nat.eqb (length pubKey) PublicKeySize)
          then Some (Err (PubKeyWrongLength satID))
          else
            isValid ← Verify pubKey message signature;
            if negb isValid then Some (Err (InvalidSignature satID)) else Some (Ok tt)
      end
  end.

(** The key registered for a satellite, when it is a usable Ed25519 key. *)
Definition registered_key (db : MockDB) (satID : Z) : option (list byte) :=
  rec ← GetSat db satID;
  pub ← hex_decode (PubKeyHex rec);
  if decide (length pub = PublicKeySize) then Some pub else None.

Lemma VerifyPacketSignature_total db satID msg sig :
  is_Some (VerifyPacketSignature db satID msg sig).
Proof.
  unfold VerifyPacketSignature, Verify.
  destruct (GetSat db satID); [|by eexists].
  destruct (hex_decode _) as [pub|]; [|by eexists].
  destruct (Nat.eqb_spec (length pub) PublicKeySize); simpl; [|by eexists].
  rewrite decide_True by done. simpl. destruct (_ && _); simpl; by eexists.
Qed.

Lemma VerifyPacketSignature_iff db satID msg sig :
  VerifyPacketSignature db satID msg sig = Some (Ok tt) ↔
  ∃ pub, registered_key db satID = Some pub ∧ Verify pub msg sig = Some true.
Proof.
  unfold VerifyPacketSignature, registered_key, Verify.
  destruct (GetSat db satID) as [rec|]; simpl; [|by split; [|intros (? & ? & _)]].
  destruct (hex_decode _) as [pub|]; simpl; [|by split; [|intros (? & ? & _)]].
  destruct (Nat.eqb_spec (length pub) PublicKeySize) as [Hl|Hl]; simpl.
  - rewrite !(decide_True _ _ Hl). simpl. destruct (_ && _) eqn:E; simpl.
    + split; [|done]. intros _. exists pub. by rewrite decide_True, E.
    + split; [done|]. intros (? & [= <-] & Hv). rewrite decide_True, E in Hv by done. done.
  - rewrite !(decide_False _ _ Hl). by split; [|intros (? & ? & _)].
Qed.
End Functions.

(** ** Properties *)
Section Properties.
Context `{Ed25519Laws}.

(** A packet signature is accepted exactly when the satellite is registered
    with a hexadecimal 32-byte key that verifies the 64-byte signature over the
    message; every other case is an error value, and no input panics. *)
Theorem VerifyPacketSignature_correct db satID msg sig :
  is_Some (VerifyPacketSignature db satID msg sig) ∧
  (VerifyPacketSignature db satID msg sig = Some (Ok tt) ↔
   ∃ rec pub, db !! satID = Some rec ∧ hex_decode (PubKeyHex rec) = Some pub ∧
     length pub = PublicKeySize ∧ length sig = SignatureSize ∧
     verify_with pub msg sig = true).
Proof.
  split; [apply VerifyPacketSignature_total|]. rewrite VerifyPacketSignature_iff.
  unfold registered_key, GetSat, Verify. split.
  - intros (pub & Hk & Hv). apply bind_Some in Hk as (rec & Hrec & Hk).
    apply bind_Some in Hk as (pub' & Hpub & Hk). 
    destruct (decide (length pub' = PublicKeySize)) as [Hl|]; [|done].
    injection Hk as <-. rewrite decide_True in Hv by done. injection Hv as Hv.
    apply andb_true_iff in Hv as [Hs%bool_decide_eq_true Hv]. by exists rec, pub'.
  - intros (rec & pub & -> & Hp & Hl & Hs & Hv). simpl. rewrite Hp. simpl.
    exists pub. rewrite !decide_True by done. split; [done|].
    by rewrite bool_decide_eq_true_2, Hv.
Qed.

Lemma LoadFlatSatDemoKey_ok seed db :
  length seed = SeedSize →
  ∃ db', LoadFlatSatDemoKey (hex_encode seed) (Initialize db) = Some (Ok tt, db') ∧
    (∀ id, id ≠ FlatSatDemoSatID → db' !! id = Initialize db !! id) ∧
    Wallet <$> db' !! FlatSatDemoSatID = Some FlatSatDemoWallet ∧
    registered_key db' FlatSatDemoSatID = Some (derive_public seed).
Proof.
  intros Hs. destruct (NewKeyFromSeed_ok seed Hs) as (Hnew & _ & Hpub & _).
  unfold LoadFlatSatDemoKey. rewrite hex_decode_encode, Hs. cbn [Nat.eqb SeedSize negb].
  rewrite Hnew. cbn [mbind option_bind]. rewrite Hpub.
  unfold GetSat at 1. unfold Initialize at 1. rewrite lookup_insert_eq.
  set (db' := <[FlatSatDemoSatID := _]> (Initialize db)).
  exists db'. split; [done|]. split_and!.
  - intros id Hid. unfold db'. by rewrite lookup_insert_ne.
  - unfold db'. by rewrite lookup_insert_eq.
  - unfold registered_key, GetSat, db'. rewrite lookup_insert_eq. simpl.
    rewrite hex_decode_encode. simpl. by rewrite decide_True by by apply length_derive_public.
Qed.

(** Loading the demo seed turns the flat-sat entry, which verifies nothing
    after [Initialize], into one that accepts exactly what the seed's public key
    verifies, the seed's own signatures in particular; its wallet and every
    other entry are unchanged. *)
Theorem LoadFlatSatDemoKey_enables seed db :
  length seed = SeedSize →
  (∀ msg sig, VerifyPacketSignature (Initialize db) FlatSatDemoSatID msg sig =
     Some (Err (PubKeyWrongLength FlatSatDemoSatID))) ∧
  ∃ db', LoadFlatSatDemoKey (hex_encode seed) (Initialize db) = Some (Ok tt, db') ∧
    (∀ id, id ≠ FlatSatDemoSatID → db' !! id = Initialize db !! id) ∧
    Wallet <$> db' !! FlatSatDemoSatID = Some FlatSatDemoWallet ∧
    registered_key db' FlatSatDemoSatID = Some (derive_public seed) ∧
    ∀ msg, VerifyPacketSignature db' FlatSatDemoSatID msg (sign_with seed msg) = Some (Ok tt).
Proof.
  intros Hs. split.
  { intros msg sig. unfold VerifyPacketSignature, GetSat, Initialize. by rewrite lookup_insert_eq. }
  destruct (LoadFlatSatDemoKey_ok seed db Hs) as (db' & Hload & Hother & Hw & Hk).
  exists db'. split_and!; [done|done|done|done|].
  intros msg. apply VerifyPacketSignature_iff. exists (derive_public seed). by rewrite Verify_sign.
Qed.

(** A seed that is not hexadecimal, has the wrong length, or arrives before
    [Initialize] is an error that leaves the registry as it was; no seed
    string panics the loader. *)
Theorem LoadFlatSatDemoKey_errors s db :
  ∃ r db', LoadFlatSatDemoKey s db = Some (r, db') ∧
    (is_ok r = false → db' = db) ∧
    (r = Err SeedNotHex ↔ hex_decode s = None) ∧
    ((∃ n, r = Err (SeedWrongLength n)) ↔
       ∃ seed, hex_decode s = Some seed ∧ length seed ≠ SeedSize) ∧
    (r = Err FlatSatNotSeeded ↔
       db !! FlatSatDemoSatID = None ∧ ∃ seed, hex_decode s = Some seed ∧ length seed = SeedSize).
Proof.
  unfold LoadFlatSatDemoKey. destruct (hex_decode s) as [seed|].
  2:{ eexists _, _. split; [done|]. naive_solver. }
  destruct (Nat.eqb_spec (length seed) SeedSize) as [Hl|Hl]; cbn [negb].
  - destruct (NewKeyFromSeed_ok seed Hl) as (-> & _). cbn [mbind option_bind].
    unfold GetSat. destruct (db !! FlatSatDemoSatID); eexists _, _; (split; [done|]); naive_solver.
  - eexists _, _. split; [done|]. naive_solver.
Qed.
End Properties.

Lemma LoadFlatSatDemoKey_enables_witness :
  let seed := put_le 32 123456789 in
  ∃ db', LoadFlatSatDemoKey (hex_encode seed) (Initialize ∅) = Some (Ok tt, db') ∧
    VerifyPacketSignature db' FlatSatDemoSatID (hex "0102") (sign_with seed (hex "0102")) =
      Some (Ok tt).
Proof.
  destruct (LoadFlatSatDemoKey_enables (put_le 32 123456789) ∅) as (_ & db' & Hl & _ & _ & _ & Hv);
    [reflexivity|].
  exists db'. split; [exact Hl|]. apply Hv.
Defined.

Lemma VerifyPacketSignature_correct_witness :
  VerifyPacketSignature (Initialize ∅) 100 [] (replicate 63 x00) ≠ Some (Ok tt).
Proof.
  intros H. apply (VerifyPacketSignature_correct (Initialize ∅) 100) in H.
  destruct H as (rec & pub & _ & _ & _ & Hl & _). discriminate Hl.
Defined.

Lemma LoadFlatSatDemoKey_errors_witness :
  ∃ r db', LoadFlatSatDemoKey (hex_encode (replicate 32 x07)) ∅ = Some (r, db') ∧
    r = Err FlatSatNotSeeded ∧ db' = ∅.
Proof.
  destruct (LoadFlatSatDemoKey_errors (hex_encode (replicate 32 x07)) ∅)
    as (r & db' & Hl & Hdb & _ & _ & Hns).
  exists r, db'. split; [exact Hl|].
  assert (r = Err FlatSatNotSeeded) as E.
  { apply Hns. split; [reflexivity|]. exists (replicate 32 x07). split; reflexivity. }
  split; [exact E|]. apply Hdb. rewrite E. reflexivity.
Defined.
