(* ===== verification/Gin.v ===== *)
(** * The HTTP context

    The handlers talk to a [*gin.Context], an object of a third-party framework.
    [GinContext] lists the operations they call and [GinContextLaws] their
    documented behaviour over a ghost log of the responses written;
    [TraceContext] is an executable instance that records them. *)
From S2P Require Export Bytes.
#[local] Open Scope Z_scope.

(** The values the handlers put in a [gin.H]. *)
Inductive gin_value :=
  | V_string (s : string)
  | V_int (z : Z).

Definition gin_H : Type := list (string * gin_value).

(** [gin.H{"error": msg}] *)
Definition error_H (msg : string) : gin_H := [("error"%string, V_string msg)].

Definition StatusOK : Z := 200.
Definition StatusBadRequest : Z := 400.
Definition StatusUnauthorized : Z := 401.
Definition StatusNotFound : Z := 404.
Definition StatusInternalServerError : Z := 500.
Definition StatusServiceUnavailable : Z := 503.

(** [C] is the context, [P] the type of the payloads serialised into it. *)
Class GinContext (C P : Type) := {
  AbortWithStatusJSON : Z → P → C → C;
  JSON : Z → P → C → C;
  IsAborted : C → bool;
}.

Class GinContextLaws (C P : Type) `{GinContext C P} := {
  responses : C → list (Z * P);
  Abort_responses code obj c :
    responses (AbortWithStatusJSON code obj c) = responses c ++ [(code, obj)];
  Abort_aborted code obj c : IsAborted (AbortWithStatusJSON code obj c) = true;
  JSON_responses code obj c : responses (JSON code obj c) = responses c ++ [(code, obj)];
  JSON_aborted code obj c : IsAborted (JSON code obj c) = IsAborted c;
}.

(** ** An executable context *)
Record TraceContext (P : Type) := { tc_responses : list (Z * P); tc_aborted : bool }.
Arguments tc_responses {P}. Arguments tc_aborted {P}. Arguments Build_TraceContext {P}.

Definition new_context {P} : TraceContext P := {| tc_responses := []; tc_aborted := false |}.

#[export] Instance TraceContext_ops P : GinContext (TraceContext P) P := {
  AbortWithStatusJSON code obj c :=
    {| tc_responses := tc_responses c ++ [(code, obj)]; tc_aborted := true |};
  JSON code obj c :=
    {| tc_responses := tc_responses c ++ [(code, obj)]; tc_aborted := tc_aborted c |};
  IsAborted c := tc_aborted c;
}.

#[export] Instance TraceContext_laws P : GinContextLaws (TraceContext P) P.
Proof. by refine {| responses := tc_responses |}. Defined.
