(* ===== verification/Intent.v ===== *)
(** * Settlement intents

    Models the part of [gateway/internal/core/chain/client.go] that every later
    stage shares: the intent sent to the Escrow contract, the derivation of its
    nonce, and the [Enqueuer] interface through which the ingest handler hands
    intents over ([submitter.go]).

    The go-ethereum types are parameters: [EthCommon] lists the functions of its
    package [common] the gateway calls. *)
From S2P Require Export Bytes.
#[local] Open Scope Z_scope.

Class EthCommon := {
  Address : Type;
  Hash : Type;
  #[global] Address_eq_dec :: EqDecision Address;
  HexToAddress : string → Address;
  BytesToAddress : list byte → Address;
  Address_Bytes : Address → list byte;
  Address_Hex : Address → string;
  BytesToHash : list byte → Hash;
  Hash_Bytes : Hash → list byte;
  Hash_Hex : Hash → string;
}.

(** A [common.Hash] is 32 bytes, and its [Hex] form determines them; an address
    survives being padded to a 32-byte word; [HexToAddress] crops and pads to 20 bytes. *)
Class EthCommonLaws `{EthCommon} : Prop := {
  length_Hash_Bytes h : length (Hash_Bytes h) = 32%nat;
  Hash_Bytes_of l : length l = 32%nat → Hash_Bytes (BytesToHash l) = l;
  BytesToAddress_word a : BytesToAddress (replicate 12 x00 ++ Address_Bytes a) = a;
  length_HexToAddress s : length (Address_Bytes (HexToAddress s)) = 20%nat;
  #[global] Hash_Hex_inj :: Inj (=) (=) Hash_Hex;
}.

(** Executable instance: addresses and hashes are byte sequences of any length. *)
#[export] Instance toy_eth : EthCommon := {
  Address := list byte;
  Hash := list byte;
  HexToAddress s := take 20 (String.list_byte_of_string s ++ replicate 20 x00);
  BytesToAddress l := drop 12 l;
  Address_Bytes a := a;
  Address_Hex a := hex_encode a;
  BytesToHash l := l;
  Hash_Bytes h := take 32 (h ++ replicate 32 x00);
  Hash_Hex h := hex_encode h;
}.

#[export] Instance toy_eth_laws : EthCommonLaws.
Proof.
  split.
  - intros h. change (length (take 32 (h ++ replicate 32 x00)) = 32%nat).
    rewrite length_take, length_app, length_replicate. lia.
  - intros l Hl. change (take 32 (l ++ replicate 32 x00) = l). by apply take_app_exact.
  - intros a. change (drop 12 (replicate 12 x00 ++ a) = a). by apply drop_app_exact.
  - intros s. change (length (take 20 (String.list_byte_of_string s ++ replicate 20 x00)) = 20%nat).
    rewrite length_take, length_app, length_replicate. lia.
  - intros h h' E. by apply hex_encode_inj.
Qed.

(** [*big.Int] values are integers; the gateway never mutates one it shares. *)
Record SettlementIntent `{EthCommon} := {
  SI_SatId : Z;
  SI_Amount : Z;
  SI_AssetId : Z;
  SI_TxNonce : Z;
  SI_Wallet : Address;
}.

(** The values a [SettlementIntent] of the contract's ABI can hold. *)
Definition intent_wf `{EthCommon} (i : SettlementIntent) : Prop :=
  in_u 32 (SI_SatId i) ∧ in_u 256 (SI_Amount i) ∧ in_u 16 (SI_AssetId i) ∧
  in_u 256 (SI_TxNonce i) ∧ length (Address_Bytes (SI_Wallet i)) = 20%nat.

(** [nonce = satID; nonce.Lsh(nonce, 64); nonce.Or(nonce, epochTsMs)] *)
Definition DeriveTxNonce (satID epochTsMs : Z) : Z :=
  let nonce := satID in
  let nonce := Z.shiftl nonce 64 in
  Z.lor nonce epochTsMs.

Class Enqueuer `{EthCommon} (E : Type) := Enqueue : SettlementIntent → E → E.

Lemma land_shiftl_low a b n : 0 <= n → in_u n b → Z.land (Z.shiftl a n) b = 0.
Proof.
  intros Hn Hb. apply Z.bits_inj'. intros i Hi. rewrite Z.land_spec, Z.bits_0.
  destruct (Z.lt_ge_cases i n).
  - by rewrite Z.shiftl_spec_low.
  - rewrite <- (Z.mod_small b (2 ^ n)), Z.mod_pow2_bits_high by done. apply andb_false_r.
Qed.

Lemma DeriveTxNonce_sum satID epoch :
  in_u 64 epoch → DeriveTxNonce satID epoch = satID * 2 ^ 64 + epoch.
Proof.
  intros He. unfold DeriveTxNonce. cbn zeta.
  pose proof (land_shiftl_low satID epoch 64 ltac:(lia) He) as Hl.
  pose proof (Z.add_lor_land (Z.shiftl satID 64) epoch) as Ha.
  rewrite Hl, Z.shiftl_mul_pow2 in * by lia. lia.
Qed.

Lemma u64_DeriveTxNonce satID epoch :
  in_u 64 epoch → u64 (DeriveTxNonce satID epoch) = epoch.
Proof.
  intros He. rewrite DeriveTxNonce_sum by done. unfold u64.
  rewrite Z.add_comm, Z.mod_add by lia. by apply Z.mod_small.
Qed.

(** The on-chain nonce identifies the payment: it is [sat_id] in the bits
    above 64 and [epoch_ts] below, fits in 96 bits, determines both, and its low
    64 bits are the epoch the receipt later quotes. *)
Theorem DeriveTxNonce_correct satID epoch :
  in_u 32 satID → in_u 64 epoch →
  DeriveTxNonce satID epoch = satID * 2 ^ 64 + epoch ∧
  in_u 96 (DeriveTxNonce satID epoch) ∧
  u64 (DeriveTxNonce satID epoch) = epoch ∧
  ∀ satID' epoch', in_u 32 satID' → in_u 64 epoch' →
    DeriveTxNonce satID' epoch' = DeriveTxNonce satID epoch → satID' = satID ∧ epoch' = epoch.
Proof.
  intros Hs He. rewrite u64_DeriveTxNonce, DeriveTxNonce_sum by done.
  unfold in_u in *. split_and!; [done|lia|lia|done|].
  intros satID' epoch' Hs' He'. rewrite DeriveTxNonce_sum by done. lia.
Qed.

Lemma DeriveTxNonce_correct_witness :
  DeriveTxNonce 0xCAFEBABE 1710000100000 = 0xCAFEBABE * 2 ^ 64 + 1710000100000.
Proof. apply (DeriveTxNonce_correct 0xCAFEBABE 1710000100000); unfold in_u; lia. Defined.
