(* ===== verification/Ingest.v ===== *)
(** * The ingest handler

    Models [gateway/internal/api/handlers/ingest.go]: [IngestPacket], the body
    dispatch [handlePayloadBody], the magic-byte check and the settlement
    enqueue.

    A handler works on the gin context and on the package-level [Submitter]; it
    is modelled in the state monad [HM], whose [None] is a run-time panic (an
    index out of range, a nil dereference, a failed type assertion). Log lines
    have no effect on the state and are left out. *)
From S2P Require Export Frames Registry Gin Intent.
From S2P Require Import Golden.
#[local] Open Scope Z_scope.
#[local] Open Scope go_scope.

Definition PacketBBodyLen : Z := 178.
Definition PacketBSigScopeBody : Z := 106.
Definition CCSDSHeaderLen : Z := 6.
Definition SNLPHeaderLen : Z := 14.

Definition magicPacketD : byte := xd0.
Definition magicPacketAck : byte := xac.

(** [raw[headerLen]] behind its length check; [None] is [(0, false)]. *)
Definition bodyOffsetZero (raw : list byte) (isSnlp : bool) : option byte :=
  let headerLen := if isSnlp then 14 else 6 in
  if Z.of_nat (length raw) <=? headerLen then None else raw !! Z.to_nat headerLen.

Section Handler.
Context {St : Type} `{KaitaiStream St} `{Ed25519} `{EthCommon}.
Context {C E : Type} `{GinContext C gin_H} `{!Enqueuer E}.

(** The context and [var Submitter chain.Enqueuer] ([None] is nil). *)
Record handler_state := { h_ctx : C; h_submitter : option E }.

Definition HM (A : Type) : Type := handler_state → option (A * handler_state).

Definition hret {A} (a : A) : HM A := λ s, Some (a, s).
Definition hbind {A B} (m : HM A) (k : A → HM B) : HM B :=
  λ s, match m s with Some (a, s') => k a s' | None => None end.
(** An expression that may panic. *)
Definition hlift {A} (o : option A) : HM A := λ s, match o with Some a => Some (a, s) | None => None end.

Definition Abort (code : Z) (msg : string) : HM unit := λ s,
  Some (tt, {| h_ctx := AbortWithStatusJSON code (error_H msg) (h_ctx s);
               h_submitter := h_submitter s |}).
Definition Respond (code : Z) (obj : gin_H) : HM unit := λ s,
  Some (tt, {| h_ctx := JSON code obj (h_ctx s); h_submitter := h_submitter s |}).
Definition get_aborted : HM bool := λ s, Some (IsAborted (h_ctx s), s).
Definition get_submitter : HM (option E) := λ s, Some (h_submitter s, s).
(** [Submitter.Enqueue(intent)]; a nil [Submitter] panics. *)
Definition Submitter_Enqueue (intent : SettlementIntent) : HM unit := λ s,
  match h_submitter s with
  | Some e => Some (tt, {| h_ctx := h_ctx s; h_submitter := Some (Enqueue intent e) |})
  | None => None
  end.

Notation "'call!' x ':=' m 'in' k" := (hbind m (fun x => k))
  (at level 10, x name, m at level 100, k at level 200).
Notation "'exec!' m 'in' k" := (hbind m (fun _ => k))
  (at level 10, m at level 100, k at level 200).

Variable db : MockDB.

Definition enqueueSettlementIntent (b : VoidProtocol_PacketBBody) : HM unit :=
  let innerLen := 62%nat in
  if negb (Nat.eqb (length (PacketB_EncPayload b)) innerLen) then hret tt else
  match GetSat db (PacketB_SatId b) with
  | None => hret tt
  | Some satRec =>
      if String.eqb (Wallet satRec) "" then hret tt else
      call! amount_bytes := hlift (go_slice 48 56 (PacketB_EncPayload b)) in
      call! asset_bytes := hlift (go_slice 56 58 (PacketB_EncPayload b)) in
      let amount := le_uint amount_bytes in
      let assetID := le_uint asset_bytes in
      Submitter_Enqueue
        {| SI_SatId := PacketB_SatId b;
           SI_Amount := amount;
           SI_AssetId := assetID;
           SI_TxNonce := DeriveTxNonce (PacketB_SatId b) (PacketB_EpochTs b);
           SI_Wallet := HexToAddress (Wallet satRec) |}
  end.

(** The CRC gate of the D and ACK cases. *)
Definition crc_gate (rawData : list byte) (crcOffset : Z) (msg : string) : HM bool :=
  match ValidateFrameCRC32 rawData crcOffset with
  | Err _ => exec! Abort StatusBadRequest msg in hret true
  | Ok _ => hret true
  end.

(** The case of a CCSDS acknowledgement. *)
Definition handle_ack_ccsds (rawData : list byte) (packetSize : Z) (isSnlp : bool) : HM bool :=
  match bodyOffsetZero rawData isSnlp with
  | None =>
      exec! Abort StatusBadRequest "Packet ACK frame too short for magic byte" in hret true
  | Some magic =>
      if negb (bool_decide (magic = magicPacketAck)) then
        exec! Abort StatusBadRequest "Packet ACK magic byte mismatch (F-03)" in hret true
      else
        let crcOffset := packetSize - PacketAckCrcOffsetFromEnd in
        crc_gate rawData crcOffset "Packet ACK CRC mismatch (VOID-122)"
  end.

Definition handlePayloadBody (body : option packet_body) (rawData : list byte)
    (packetSize : Z) (isSnlp : bool) : HM bool :=
  match body with
  | Some (Body_Heartbeat b) => hret true
  | Some (Body_A b) => hret true
  | Some (Body_B b) =>
      if packetSize <? PacketBBodyLen then
        exec! Abort StatusBadRequest "Packet too short for signature verification" in hret true
      else
        let bodyStart := packetSize - PacketBBodyLen in
        call! headerBytes := hlift (go_slice 0 bodyStart rawData) in
        call! bodyPreSig :=
          hlift (go_slice bodyStart (bodyStart + PacketBSigScopeBody) rawData) in
        let messageBytes := ([] ++ headerBytes) ++ bodyPreSig in
        call! err := hlift (VerifyPacketSignature db (PacketB_SatId b) messageBytes
                              (Ed25519Signature_Raw (PacketB_Signature b))) in
        match err with
        | Err _ => exec! Abort StatusBadRequest "Invalid Cryptographic Signature" in hret true
        | Ok _ =>
            call! submitter := get_submitter in
            match submitter with
            | Some _ => exec! enqueueSettlementIntent b in hret true
            | None => hret true
            end
        end
  | Some (Body_C b) =>
      if packetSize <? 98 then
        exec! Abort StatusBadRequest "Packet too short for signature verification" in hret true
      else
        let sellerSatID := 100 in
        let payloadStart := packetSize - 98 in
        call! messageBytes := hlift (go_slice payloadStart (payloadStart + 26) rawData) in
        call! err := hlift (VerifyPacketSignature db sellerSatID messageBytes
                              (Ed25519Signature_Raw (PacketC_Signature b))) in
        match err with
        | Err _ => exec! Abort StatusUnauthorized "Invalid Cryptographic Signature" in hret true
        | Ok _ => hret true
        end
  | Some (Body_H b) => hret true
  | Some (Body_Dispatch122 b) =>
      match bodyOffsetZero rawData isSnlp with
      | None =>
          exec! Abort StatusBadRequest "Dispatch_122 frame too short for magic byte" in hret true
      | Some magic =>
          match Dispatch_Content b with
          | Some (Content_D inner) =>
              if negb (bool_decide (magic = magicPacketD)) then
                exec! Abort StatusBadRequest "Packet D magic byte mismatch (F-03)" in hret true
              else
                let crcOffset := packetSize - PacketDCrcOffsetFromEnd in
                crc_gate rawData crcOffset "Packet D CRC mismatch (VOID-122)"
          | Some (Content_AckSnlp inner) =>
              if negb (bool_decide (magic = magicPacketAck)) then
                exec! Abort StatusBadRequest "Packet ACK magic byte mismatch (F-03)" in hret true
              else
                let crcOffset := packetSize - PacketAckCrcOffsetFromEnd in
                crc_gate rawData crcOffset "Packet ACK CRC mismatch (VOID-122)"
          | None => hret false
          end
      end
  | Some (Body_AckCcsds b) => handle_ack_ccsds rawData packetSize isSnlp
  | None => hret false
  end.

(** [v, _ := method()]: an error yields the zero value. *)
Definition discard_error {A} (zero : A) (m : VM St A) (p : VoidProtocol St)
    : option (A * VoidProtocol St) :=
  match m p with
  | (Ok a, p') => Some (a, p')
  | (Err (GoErr _), p') => Some (zero, p')
  | (Err GoPanic, _) => None
  end.

Definition tier_name (isSnlp : bool) : string :=
  if isSnlp then "Community (SNLP)" else "Enterprise (CCSDS)".

Definition success_H (apid : Z) (tier : string) : gin_H :=
  [("status", V_string "success"); ("message", V_string "Packet parsed and accepted");
   ("sat_id", V_int apid); ("tier", V_string tier)]%string.

(** The request body is what [io.ReadAll] returns. *)
Definition IngestPacket (request : result unit (list byte)) : HM unit :=
  match request with
  | Err _ => Abort StatusBadRequest "Missing binary payload"
  | Ok rawData =>
      if Nat.eqb (length rawData) 0 then Abort StatusBadRequest "Missing binary payload" else
      match VoidProtocol_Read (NewVoidProtocol (NewStream rawData : St)) with
      | (Err GoPanic, _) => hlift None
      | (Err (GoErr _), _) => Abort StatusBadRequest "Invalid Void Protocol Frame"
      | (Ok _, packet) =>
          let packetSize := Z.of_nat (length rawData) in
          call! apid_p := hlift (discard_error 0 VoidProtocol_GlobalApid packet) in
          let '(apid, packet) := apid_p in
          call! snlp_p := hlift (discard_error false VoidProtocol_IsSnlp packet) in
          let '(isSnlp, packet) := snlp_p in
          call! version_p := hlift (discard_error 0 (with_ccsds isSnlp Ccsds_Version) packet) in
          let '(ccsdsVersion, packet) := version_p in
          if negb (ccsdsVersion =? 0) then
            Abort StatusBadRequest "Unknown CCSDS version — only Version 1 accepted"
          else
            let tier := tier_name isSnlp in
            call! handled := handlePayloadBody (Body packet) rawData packetSize isSnlp in
            if negb handled then
              call! aborted := get_aborted in
              if negb aborted then
                Abort StatusBadRequest "Unsupported or truncated Void Protocol frame"
              else hret tt
            else
              call! aborted := get_aborted in
              if negb aborted then Respond StatusOK (success_H apid tier) else hret tt
      end
  end.
End Handler.

Arguments h_ctx {C E}. Arguments h_submitter {C E}. Arguments Build_handler_state {C E}.

(** ** What the handler decides

    The specification: a verdict on a decoded frame inside a request, and the
    intent an accepted payment gives rise to. *)
Inductive verdict :=
  | Accept
  | Reject (code : Z) (msg : string).

Section Verdict.
Context `{Ed25519} `{EthCommon}.
Variable db : MockDB.

Definition sig_ok (satID : Z) (msg sig : list byte) : bool :=
  match registered_key db satID with
  | Some pub => bool_decide (length sig = SignatureSize) && verify_with pub msg sig
  | None => false
  end.

Definition crc_verdict (raw : list byte) (off : Z) (msg : string) : verdict :=
  if is_ok (ValidateFrameCRC32 raw off) then Accept else Reject StatusBadRequest msg.

(** [raw] is the whole request, which may go on after the frame. *)
Definition body_verdict (b : option packet_body) (raw : list byte) : verdict :=
  let n := Z.of_nat (length raw) in
  match b with
  | Some (Body_Heartbeat _) | Some (Body_A _) | Some (Body_H _) => Accept
  | Some (Body_B b) =>
      if sig_ok (PacketB_SatId b) (gslice 0 (n - 72) raw)
           (Ed25519Signature_Raw (PacketB_Signature b))
      then Accept else Reject StatusBadRequest "Invalid Cryptographic Signature"
  | Some (Body_C b) =>
      if sig_ok 100 (gslice (n - 98) (n - 72) raw)
           (Ed25519Signature_Raw (PacketC_Signature b))
      then Accept else Reject StatusUnauthorized "Invalid Cryptographic Signature"
  | Some (Body_Dispatch122 d) =>
      match Dispatch_Content d with
      | Some (Content_D _) => crc_verdict raw (n - 10) "Packet D CRC mismatch (VOID-122)"
      | Some (Content_AckSnlp _) => crc_verdict raw (n - 4) "Packet ACK CRC mismatch (VOID-122)"
      | None => Reject StatusBadRequest "Unsupported or truncated Void Protocol frame"
      end
  | Some (Body_AckCcsds _) => crc_verdict raw (n - 4) "Packet ACK CRC mismatch (VOID-122)"
  | None => Reject StatusBadRequest "Unsupported or truncated Void Protocol frame"
  end.

Definition frame_verdict (f : frame) (raw : list byte) : verdict :=
  if spec_version (fh_ccsds (fr_header f)) =? 0 then body_verdict (fr_body f) raw
  else Reject StatusBadRequest "Unknown CCSDS version — only Version 1 accepted".

(** The intent of a verified payment; none when its payer has no wallet. *)
Definition payment_intent (b : option packet_body) : option SettlementIntent :=
  match b with
  | Some (Body_B b) =>
      match GetSat db (PacketB_SatId b) with
      | Some rec =>
          if String.eqb (Wallet rec) "" then None else
          Some {| SI_SatId := PacketB_SatId b;
                  SI_Amount := le_uint (gslice 48 56 (PacketB_EncPayload b));
                  SI_AssetId := le_uint (gslice 56 58 (PacketB_EncPayload b));
                  SI_TxNonce := DeriveTxNonce (PacketB_SatId b) (PacketB_EpochTs b);
                  SI_Wallet := HexToAddress (Wallet rec) |}
      | None => None
      end
  | _ => None
  end.

Lemma VerifyPacketSignature_sig_ok satID msg sig :
  ∃ r, VerifyPacketSignature db satID msg sig = Some r ∧ is_ok r = sig_ok satID msg sig.
Proof.
  unfold sig_ok, registered_key, VerifyPacketSignature, Verify.
  destruct (GetSat db satID) as [rec|]; cbn; [|by eexists].
  destruct (hex_decode _) as [pub|]; cbn; [|by eexists].
  destruct (Nat.eqb_spec (length pub) PublicKeySize) as [Hl|Hl]; cbn.
  - rewrite !(decide_True _ _ Hl). cbn. destruct (_ && _); cbn; by eexists.
  - rewrite !(decide_False _ _ Hl). by eexists.
Qed.
End Verdict.

(** ** The handler implements the verdict *)
Section Refinement.
Context {St : Type} `{KaitaiStreamLaws St} `{Ed25519} `{EthCommon}.
Context {C E : Type} `{GinContextLaws C gin_H} `{!Enqueuer E}.
Variable db : MockDB.
Implicit Types s : handler_state (C := C) (E := E).

(** The state after a verdict: one response, and the intent enqueued when the
    frame is accepted and a submitter is wired. *)
Definition enqueue_opt (i : option SettlementIntent) (e : E) : E :=
  match i with Some i => Enqueue i e | None => e end.

Definition after_verdict (v : verdict) (i : option SettlementIntent) (ok : gin_H) s :
    handler_state :=
  match v with
  | Accept => Build_handler_state (JSON StatusOK ok (h_ctx s)) (enqueue_opt i <$> h_submitter s)
  | Reject code msg =>
      Build_handler_state (AbortWithStatusJSON code (error_H msg) (h_ctx s)) (h_submitter s)
  end.

Lemma parsed_fields f peek (s : St) :
  ∃ p1 p2 p3,
    discard_error 0 VoidProtocol_GlobalApid (parsed f peek s) =
      Some ((Ccsds_Apid (fh_ccsds (fr_header f))).1, p1) ∧
    discard_error false VoidProtocol_IsSnlp p1 = Some (fh_is_snlp (fr_header f), p2) ∧
    discard_error 0 (with_ccsds (fh_is_snlp (fr_header f)) Ccsds_Version) p2 =
      Some ((Ccsds_Version (fh_ccsds (fr_header f))).1, p3) ∧
    Body p3 = fr_body f.
Proof. destruct f as [[] ? ?]; do 3 eexists; repeat split. Qed.

Lemma bodyOffsetZero_frame f tl m :
  head (fr_raw f) = Some m →
  bodyOffsetZero (frame_bytes f ++ tl) (fh_is_snlp (fr_header f)) = Some m.
Proof.
  intros Hm. destruct (fr_raw f) as [|m' r] eqn:Er; [done|]. injection Hm as ->.
  unfold bodyOffsetZero, frame_bytes. rewrite Er.
  change (if fh_is_snlp (fr_header f) then 14 else 6) with (fh_length (fr_header f)).
  rewrite <- length_fh_bytes, <- app_assoc. rewrite length_app, length_app.
  destruct (Z.leb_spec (Z.of_nat (length (fh_bytes (fr_header f)) +
    (length (m :: r) + length tl))) (Z.of_nat (length (fh_bytes (fr_header f))))) as [Hc|];
    [cbn in Hc; lia|].
  rewrite Nat2Z.id. by rewrite lookup_app_r, Nat.sub_diag by lia.
Qed.

Lemma gslice_app {A} (l : list A) (a b : Z) :
  0 <= a <= b → gslice 0 a l ++ gslice a b l = gslice 0 b l.
Proof.
  intros Hab. unfold gslice. rewrite !Z.sub_0_r, drop_0, take_take_drop.
  f_equal. lia.
Qed.

(** The payload of a parsed payment has its 62 bytes. *)
Lemma enqueueSettlementIntent_spec b s e :
  PacketBBody_wf b → h_submitter s = Some e →
  enqueueSettlementIntent db b s =
  Some (tt, Build_handler_state (h_ctx s) (Some (enqueue_opt (payment_intent db (Some (Body_B b))) e))).
Proof.
  intros (_ & _ & _ & Hp & _) He. unfold enqueueSettlementIntent, payment_intent. rewrite Hp.
  cbn [Nat.eqb negb]. destruct s as [c sub]. cbn in He. subst sub.
  destruct (GetSat db _) as [rec|]; [|done].
  destruct (String.eqb _ _); [done|].
  by rewrite !go_slice_ok by (rewrite ?Hp; lia).
Qed.

Definition unknown_body (b : option packet_body) : bool :=
  match b with
  | None => true
  | Some (Body_Dispatch122 d) =>
      match Dispatch_Content d with None => true | Some _ => false end
  | Some _ => false
  end.

Lemma frame_length f tl :
  frame_wf f →
  Z.of_nat (length (frame_bytes f ++ tl)) =
  fh_length (fr_header f) + fh_body_length (fr_header f) + Z.of_nat (length tl).
Proof.
  intros (_ & Hl & _). unfold frame_bytes. rewrite !length_app, !Nat2Z.inj_add, Hl.
  by rewrite length_fh_bytes.
Qed.

Lemma fh_length_pos h : 6 <= fh_length h.
Proof. by destruct h. Qed.

(** The state a verdict on the body leaves to [IngestPacket], which responds. *)
Definition body_state (v : verdict) (i : option SettlementIntent) s : handler_state :=
  match v with
  | Accept => Build_handler_state (h_ctx s) (enqueue_opt i <$> h_submitter s)
  | Reject code msg =>
      Build_handler_state (AbortWithStatusJSON code (error_H msg) (h_ctx s)) (h_submitter s)
  end.

Lemma body_state_accept s : body_state Accept None s = s.
Proof. destruct s as [c [e|]]; done. Qed.

Lemma crc_gate_spec raw off msg s :
  crc_gate raw off msg s = Some (true, body_state (crc_verdict raw off msg) None s).
Proof.
  unfold crc_gate, crc_verdict. destruct (ValidateFrameCRC32 raw off); [|done].
  by rewrite body_state_accept.
Qed.

(** The magic byte of a checksummed body is the one its parser required. *)
Lemma magic_gate f tl m (k1 k2 k3 : HM bool) s :
  head (fr_raw f) = Some m →
  (match bodyOffsetZero (frame_bytes f ++ tl) (fh_is_snlp (fr_header f)) with
   | None => k1
   | Some magic => if negb (bool_decide (magic = m)) then k2 else k3
   end) s = k3 s.
Proof.
  intros Hm. rewrite (bodyOffsetZero_frame f tl m Hm). by rewrite bool_decide_eq_true_2.
Qed.

(** The signed cases: an answer with [code] unless the signature verifies. *)
Lemma signature_gate satID msg sig code (k : HM bool) i s :
  k s = Some (true, body_state Accept i s) →
  hbind (hlift (VerifyPacketSignature db satID msg sig)) (λ err,
    match err with
    | Err _ => hbind (Abort code "Invalid Cryptographic Signature") (λ _, hret true)
    | Ok _ => k
    end) s =
  Some (true, body_state (if sig_ok db satID msg sig then Accept
                          else Reject code "Invalid Cryptographic Signature") i s).
Proof.
  intros Hk. unfold hbind at 1, hlift.
  destruct (VerifyPacketSignature_sig_ok db satID msg sig) as (r & -> & <-).
  by destruct r as [u|e].
Qed.

Lemma handlePayloadBody_spec f tl s :
  frame_wf f →
  let raw := frame_bytes f ++ tl in
  handlePayloadBody db (fr_body f) raw (Z.of_nat (length raw)) (fh_is_snlp (fr_header f)) s =
  if unknown_body (fr_body f) then Some (false, s) else
  Some (true, body_state (body_verdict db (fr_body f) raw) (payment_intent db (fr_body f)) s).
Proof.
  intros Hwf raw. pose proof (frame_length f tl Hwf) as Hn. fold raw in Hn.
  pose proof (fh_length_pos (fr_header f)) as Hh.
  destruct Hwf as (_ & _ & Hb). unfold handlePayloadBody, handle_ack_ccsds, body_verdict.
  set (n := Z.of_nat (length raw)) in *. fold n.
  destruct (fr_body f) as [[b|b|b|b|b|b|b]|]; cbn [body_ok unknown_body payment_intent] in *.
  - (* H *) by rewrite body_state_accept.
  - (* ACK, CCSDS *)
    destruct Hb as (_ & (Hm & _) & Hraw). unfold raw. rewrite magic_gate; [apply crc_gate_spec|].
    rewrite Hraw. unfold PacketAckBodyCcsds_bytes. by rewrite Hm.
  - (* 122-byte bodies *)
    destruct Hb as (_ & m & Hm & _ & Hc). unfold raw. rewrite (bodyOffsetZero_frame f tl m Hm).
    destruct (Dispatch_Content b) as [[a|d]|]; [| |done]; destruct Hc as [(Hmag & _) Hraw];
      unfold PacketAckBodySnlp_bytes, PacketDBody_bytes in Hraw; rewrite Hraw, Hmag in Hm;
      injection Hm as <-; rewrite bool_decide_eq_true_2 by done; apply crc_gate_spec.
  - (* B *)
    destruct Hb as (Hlen & Hbwf & _). unfold PacketBBodyLen, PacketBSigScopeBody.
    destruct (Z.ltb_spec n 178); [lia|]. unfold hbind at 1, hlift at 1. rewrite go_slice_ok by lia.
    unfold hbind at 1, hlift at 1. rewrite go_slice_ok by lia. cbn [app].
    replace (n - 178 + 106) with (n - 72) by lia. rewrite gslice_app by lia.
    apply signature_gate. unfold hbind, get_submitter.
    destruct (h_submitter s) as [e|] eqn:Hs; [|by destruct s; cbn in Hs; subst].
    rewrite (enqueueSettlementIntent_spec b s e) by done. by unfold body_state; rewrite Hs.
  - (* Heartbeat *) by rewrite body_state_accept.
  - (* A *) by rewrite body_state_accept.
  - (* C *)
    destruct Hb as (Hlen & Hbwf & _). destruct (Z.ltb_spec n 98); [lia|].
    unfold hbind at 1, hlift at 1. rewrite go_slice_ok by lia.
    replace (n - 98 + 26) with (n - 72) by lia. apply signature_gate. by rewrite body_state_accept.
  - done.
Qed.

(** What a payment's signature covers, in terms of its frame. *)
Lemma signed_prefix f tl :
  frame_wf f → (∃ b, fr_body f = Some (Body_B b)) →
  let raw := frame_bytes f ++ tl in
  ∃ ext, gslice 0 (Z.of_nat (length raw) - 72) raw =
           fh_bytes (fr_header f) ++ take 106 (fr_raw f) ++ ext ∧
         length ext = length tl.
Proof.
  intros Hwf [b Hb] raw. pose proof (frame_length f tl Hwf) as Hn. fold raw in Hn.
  pose proof (fh_length_pos (fr_header f)).
  destruct Hwf as (_ & Hl & Hbo). rewrite Hb in Hbo. destruct Hbo as (H178 & _).
  rewrite H178 in *. unfold gslice. rewrite drop_0, Hn.
  exists (take (length tl) (drop 106 (fr_raw f) ++ tl)). split.
  - unfold raw, frame_bytes. rewrite <- app_assoc.
    rewrite take_app_ge by (pose proof (length_fh_bytes (fr_header f)); lia). f_equal.
    pose proof (length_fh_bytes (fr_header f)).
    replace (Z.to_nat _ - length (fh_bytes (fr_header f)))%nat
      with (length (take 106 (fr_raw f)) + length tl)%nat.
    2:{ rewrite length_take. lia. }
    rewrite <- (take_drop 106 (fr_raw f)) at 2. rewrite <- app_assoc.
    by rewrite take_app_add.
  - rewrite length_take, length_app. lia.
Qed.

Definition frame_success (f : frame) : gin_H :=
  success_H (spec_apid (fh_ccsds (fr_header f))) (tier_name (fh_is_snlp (fr_header f))).

Lemma unknown_body_verdict b raw :
  unknown_body b = true →
  body_verdict db b raw =
    Reject StatusBadRequest "Unsupported or truncated Void Protocol frame".
Proof.
  destruct b as [[]|]; cbn; try done. by destruct (Dispatch_Content _).
Qed.

Lemma IngestPacket_frame f tl s :
  frame_wf f → IsAborted (h_ctx s) = false →
  IngestPacket (St := St) db (Ok (frame_bytes f ++ tl)) s =
  Some (tt, after_verdict (frame_verdict db f (frame_bytes f ++ tl))
              (payment_intent db (fr_body f)) (frame_success f) s).
Proof.
  intros Hwf Ha. unfold IngestPacket. pose proof (frame_length f tl Hwf) as Hn.
  pose proof (fh_length_pos (fr_header f)). pose proof (fh_body_length_nonneg (fr_header f)).
  destruct (Nat.eqb_spec (length (frame_bytes f ++ tl)) 0); [lia|].
  destruct (Read_frame (St := St) f tl Hwf) as (s1 & _ & ->).
  destruct (parsed_fields f (be_uint (take 4 (frame_bytes f ++ tl))) s1)
    as (p1 & p2 & p3 & Hp1 & Hp2 & Hp3 & Hbody).
  unfold hbind at 1, hlift at 1. rewrite Hp1. cbv iota beta.
  unfold hbind at 1, hlift at 1. rewrite Hp2. cbv iota beta.
  unfold hbind at 1, hlift at 1. rewrite Hp3. cbv iota beta. rewrite Hbody.
  assert (ccsds_memo_ok (fh_ccsds (fr_header f))) as Hmem.
  { destruct (fr_header f); apply ccsds_memo_ok_fresh. }
  rewrite (proj1 (Version_accessor _ Hmem)), (proj1 (Apid_accessor _ Hmem)).
  unfold frame_verdict. destruct (_ =? 0); cbn [negb]; [|done].
  unfold hbind at 1. rewrite (handlePayloadBody_spec f tl s Hwf).
  destruct (unknown_body (fr_body f)) eqn:Hu; cbv iota beta.
  - rewrite unknown_body_verdict by done. cbn [negb]. unfold hbind, get_aborted.
    by rewrite Ha.
  - cbn [negb]. unfold hbind, get_aborted.
    destruct (body_verdict db (fr_body f) (frame_bytes f ++ tl)) as [|code msg]; cbn [body_state h_ctx].
    + by rewrite Ha.
    + by rewrite Abort_aborted.
Qed.

(** Every request is missing, malformed, or starts with a frame. *)
Definition request_case (request : result unit (list byte)) (P0 P1 : Prop)
    (P2 : frame → list byte → Prop) : Prop :=
  match request with
  | Err _ | Ok [] => P0
  | Ok raw => (P1 ∧ ¬ ∃ f tl, frame_wf f ∧ raw = frame_bytes f ++ tl) ∨
              ∃ f tl, frame_wf f ∧ raw = frame_bytes f ++ tl ∧ P2 f tl
  end.

Lemma IngestPacket_cases request s :
  IsAborted (h_ctx s) = false →
  ∃ s', IngestPacket (St := St) db request s = Some (tt, s') ∧
    request_case request
      (s' = after_verdict (Reject 400 "Missing binary payload") None [] s)
      (s' = after_verdict (Reject 400 "Invalid Void Protocol Frame") None [] s)
      (λ f tl, s' = after_verdict (frame_verdict db f (frame_bytes f ++ tl))
                      (payment_intent db (fr_body f)) (frame_success f) s).
Proof.
  intros Ha. destruct request as [raw|e]; [|by eexists].
  destruct raw as [|x raw]; [by eexists|].
  pose proof (Read_spec (St := St) (x :: raw)) as Hr.
  destruct (VoidProtocol_Read _) as [[u|e] p] eqn:HR.
  - destruct Hr as (f & s1 & Hwf & Hraw & _). rewrite Hraw.
    eexists. split; [by apply IngestPacket_frame|].
    rewrite <- Hraw. right. exists f, (rest s1). by rewrite <- Hraw.
  - destruct Hr as [He Hno]. unfold IngestPacket. cbn [length Nat.eqb]. rewrite HR.
    destruct e as [e|]; [|done]. eexists. split; [done|]. by left.
Qed.
End Refinement.

(** ** Properties *)
Section Properties.
Context {St : Type} `{KaitaiStreamLaws St} `{Ed25519} `{EthCommon}.
Context {C E : Type} `{GinContextLaws C gin_H} `{!Enqueuer E}.
Variable db : MockDB.
Implicit Types s : handler_state (C := C) (E := E).

(** C19. The handler implements the verdict on every request, without panicking:
    a missing body and a body that does not start with a well-formed frame are
    refused with 400; a frame gets the response its verdict says, and an
    accepted payment is handed to the submitter, if one is wired. *)
Theorem IngestPacket_correct request s :
  IsAborted (h_ctx s) = false →
  ∃ s', IngestPacket (St := St) db request s = Some (tt, s') ∧
    request_case request
      (s' = after_verdict (Reject 400 "Missing binary payload") None [] s)
      (s' = after_verdict (Reject 400 "Invalid Void Protocol Frame") None [] s)
      (λ f tl, s' = after_verdict (frame_verdict db f (frame_bytes f ++ tl))
                      (payment_intent db (fr_body f)) (frame_success f) s).
Proof. apply IngestPacket_cases. Qed.

Lemma request_case_inv request P0 P1 P2 :
  request_case request P0 P1 P2 →
  P0 ∨ P1 ∨ ∃ f tl, frame_wf f ∧ request = Ok (frame_bytes f ++ tl) ∧ P2 f tl.
Proof.
  destruct request as [[|x raw]|e]; cbn; [by left| |by left].
  intros [[? _]|(f & tl & ? & -> & ?)]; [by right; left|right; right]. by exists f, tl.
Qed.

(** C15. Only authenticated payments reach the chain: when a request changes the
    submitter, it starts with a version-1 frame carrying a payment body, exactly
    one intent with that payment's fields was enqueued, and the key registered
    for its [sat_id] verifies the frame's signature over a message that begins
    with the routing header and body bytes 0 to 105, and is exactly that when
    nothing follows the frame. *)
Theorem IngestPacket_enqueues_only_signed request s s' :
  IsAborted (h_ctx s) = false →
  IngestPacket (St := St) db request s = Some (tt, s') →
  h_submitter s' ≠ h_submitter s →
  ∃ f tl b rec pub e ext,
    request = Ok (frame_bytes f ++ tl) ∧ frame_wf f ∧ fr_body f = Some (Body_B b) ∧
    spec_version (fh_ccsds (fr_header f)) = 0 ∧
    db !! PacketB_SatId b = Some rec ∧
    h_submitter s = Some e ∧
    h_submitter s' = Some (Enqueue
      {| SI_SatId := PacketB_SatId b;
         SI_Amount := le_uint (gslice 48 56 (PacketB_EncPayload b));
         SI_AssetId := le_uint (gslice 56 58 (PacketB_EncPayload b));
         SI_TxNonce := DeriveTxNonce (PacketB_SatId b) (PacketB_EpochTs b);
         SI_Wallet := HexToAddress (Wallet rec) |} e) ∧
    hex_decode (PubKeyHex rec) = Some pub ∧
    verify_with pub (fh_bytes (fr_header f) ++ take 106 (fr_raw f) ++ ext)
      (Ed25519Signature_Raw (PacketB_Signature b)) = true ∧
    length ext = length tl.
Proof.
  intros Ha Hrun Hne. destruct (IngestPacket_cases db request s Ha) as (s1 & Hs1 & Hcase).
  rewrite Hrun in Hs1. injection Hs1 as <-.
  apply request_case_inv in Hcase as [->|[->|(f & tl & Hwf & -> & ->)]]; [done|done|].
  set (raw := frame_bytes f ++ tl) in *.
  destruct (frame_verdict db f raw) eqn:Hv; [|done].
  unfold after_verdict in *. cbn [h_submitter] in *. unfold frame_verdict in Hv.
  destruct (Z.eqb_spec (spec_version (fh_ccsds (fr_header f))) 0) as [Hver|]; [|done].
  unfold payment_intent in *. destruct (fr_body f) as [[]|] eqn:Hb;
    try (by destruct (h_submitter s); exfalso; apply Hne).
  destruct (GetSat db (PacketB_SatId b)) as [rec|] eqn:Hrec;
    [|by destruct (h_submitter s); exfalso; apply Hne].
  destruct (String.eqb (Wallet rec) "");
    [by destruct (h_submitter s); exfalso; apply Hne|].
  destruct (h_submitter s) as [q|] eqn:He; [|done].
  cbn [body_verdict] in Hv. unfold sig_ok, registered_key in Hv. rewrite Hrec in Hv.
  cbn [mbind option_bind] in Hv. destruct (hex_decode (PubKeyHex rec)) as [pub|] eqn:Hk; [|done].
  cbn [mbind option_bind] in Hv.
  destruct (decide (length pub = PublicKeySize)) as [Hl|]; [|done].
  destruct (_ && _) eqn:Hsig; [|done]. apply andb_true_iff in Hsig as [_ Hsig].
  destruct (signed_prefix f tl) as (ext & Hmsg & Hext); [done|by eexists|].
  exists f, tl, b, rec, pub, q, ext. fold raw in Hmsg. rewrite <- Hmsg.
  split_and!; first [done|exact Hrec].
Qed.

Lemma frame_verdict_reject f raw code msg :
  frame_verdict db f raw = Reject code msg → code = 400 ∨ code = 401.
Proof.
  unfold frame_verdict, body_verdict, crc_verdict.
  destruct (_ =? 0); [|intros [= <- _]; by left].
  destruct (fr_body f) as [[]|]; repeat case_match; intros [= <- _]; by (left + right).
Qed.

(** Every request gets exactly one response, and the context is aborted
    exactly when it is an error. The response is 200 precisely for requests that
    start with a well-formed frame whose verdict is to accept it; every other
    answer is 400 or 401. *)
Theorem IngestPacket_one_response request s :
  IsAborted (h_ctx s) = false →
  ∃ s' code obj, IngestPacket (St := St) db request s = Some (tt, s') ∧
    responses (h_ctx s') = responses (h_ctx s) ++ [(code, obj)] ∧
    IsAborted (h_ctx s') = negb (code =? 200) ∧
    (code = 200 ∨ code = 400 ∨ code = 401) ∧
    (code = 200 ↔ ∃ f tl, request = Ok (frame_bytes f ++ tl) ∧ frame_wf f ∧
                    frame_verdict db f (frame_bytes f ++ tl) = Accept).
Proof.
  intros Ha. destruct (IngestPacket_cases (St := St) db request s Ha) as (s' & Hrun & Hcase).
  assert (∀ code msg, code = 400 ∨ code = 401 →
      s' = after_verdict (Reject code msg) None [] s →
      (¬ ∃ f tl, request = Ok (frame_bytes f ++ tl) ∧ frame_wf f ∧
           frame_verdict db f (frame_bytes f ++ tl) = Accept) →
      responses (h_ctx s') = responses (h_ctx s) ++ [(code, error_H msg)] ∧
      IsAborted (h_ctx s') = negb (code =? 200) ∧ (code = 200 ∨ code = 400 ∨ code = 401) ∧
      (code = 200 ↔ ∃ f tl, request = Ok (frame_bytes f ++ tl) ∧ frame_wf f ∧
           frame_verdict db f (frame_bytes f ++ tl) = Accept)) as Hrej.
  { intros code msg Hcode -> Hno. cbn. rewrite Abort_responses, Abort_aborted.
    destruct Hcode as [-> | ->]; split_and!; auto; split; [done|by intros ?%Hno|done|by intros ?%Hno]. }
  exists s'. destruct request as [[|x raw]|e].
  - eexists _, _. split; [done|]. apply Hrej; [by left|exact Hcase|].
    intros (f & tl & [= Hraw] & Hwf & _). pose proof (frame_length f tl Hwf) as Hn.
    rewrite <- Hraw in Hn. cbn in Hn. pose proof (fh_length_pos (fr_header f)).
    pose proof (fh_body_length_nonneg (fr_header f)). lia.
  - cbn [request_case] in Hcase. destruct Hcase as [[Hs' Hno]|(f & tl & Hwf & Hraw & Hs')].
    { eexists _, _. split; [done|]. apply Hrej; [by left|exact Hs'|].
      intros (f & tl & [= Hraw] & Hwf & _). apply Hno. by exists f, tl. }
    destruct (frame_verdict db f (frame_bytes f ++ tl)) as [|code msg] eqn:Hv.
    + eexists 200, _. split; [done|]. rewrite Hs'. cbn.
      rewrite JSON_responses, JSON_aborted. split_and!; auto. split; [|done]. intros _.
      exists f, tl. by rewrite Hraw.
    + eexists code, _. split; [done|]. apply Hrej; [by eapply frame_verdict_reject|exact Hs'|].
      intros (f' & tl' & [= Hraw'] & Hwf' & Hv'). rewrite Hraw in Hraw'.
      destruct (frame_unique (St := St) _ _ _ _ Hwf Hwf' Hraw') as [-> ->]. congruence.
  - eexists _, _. split; [done|]. apply Hrej; [by left|exact Hcase|].
    by intros (f & tl & [=] & _).
Qed.

(** The bodies behind the CRC gate, and the distance of the CRC field from the
    end of the frame. *)
Definition crc_from_end (b : option packet_body) : option Z :=
  match b with
  | Some (Body_AckCcsds _) => Some 4
  | Some (Body_Dispatch122 d) =>
      match Dispatch_Content d with
      | Some (Content_D _) => Some 10
      | Some (Content_AckSnlp _) => Some 4
      | None => None
      end
  | _ => None
  end.

(** C35. The handler refuses corrupted deliveries and acknowledgements: if a
    frame passed the CRC gate, a frame of the same kind that differs from it by
    any error confined to 32 consecutive bits of the covered region (header
    included) or the CRC field is answered with an error and nothing else
    changes. *)
Theorem IngestPacket_rejects_corruption f f' k s :
  frame_wf f → frame_wf f' → IsAborted (h_ctx s) = false →
  crc_from_end (fr_body f) = Some k → crc_from_end (fr_body f') = Some k →
  frame_verdict db f (frame_bytes f) = Accept →
  let n := Z.of_nat (length (frame_bytes f)) in
  length (frame_bytes f') = length (frame_bytes f) →
  burst32 (gslice 0 (n - k + 4) (frame_bytes f)) (gslice 0 (n - k + 4) (frame_bytes f')) →
  ∃ msg, IngestPacket (St := St) db (Ok (frame_bytes f')) s =
    Some (tt, after_verdict (Reject 400 msg) None [] s).
Proof.
  intros Hwf Hwf' Ha Hk Hk' Hv n Hn Hburst.
  rewrite <- (app_nil_r (frame_bytes f')), IngestPacket_frame, app_nil_r by done.
  assert (∀ g, crc_from_end (fr_body g) = Some k → ∃ msg,
    body_verdict db (fr_body g) (frame_bytes g) =
    crc_verdict (frame_bytes g) (Z.of_nat (length (frame_bytes g)) - k) msg) as Hcrc.
  { intros g Hg. unfold crc_from_end, body_verdict in *. repeat case_match; simplify_eq; eauto. }
  destruct (Hcrc f Hk) as (m & Hm). destruct (Hcrc f' Hk') as (m' & Hm').
  unfold frame_verdict in *. rewrite Hm in Hv. rewrite Hm', Hn.
  destruct (spec_version (fh_ccsds (fr_header f)) =? 0); [|done].
  destruct (spec_version (fh_ccsds (fr_header f')) =? 0); [|by eexists].
  fold n in Hv |- *. unfold crc_verdict in *.
  destruct (ValidateFrameCRC32 (frame_bytes f) (n - k)) as [[]|] eqn:Hok; [|done].
  apply ValidateFrameCRC32_ok_iff in Hok as (Ho & Hl & Hr).
  destruct (ValidateFrameCRC32 (frame_bytes f') (n - k)) as [[]|] eqn:Hok'; [|by eexists].
  apply ValidateFrameCRC32_ok_iff in Hok' as (_ & _ & Hr').
  apply (crc_update_burst crc_init) in Hburst. congruence.
Qed.

(** C36. The receipt signature is anchored at the end of the request while the
    fields are read from its front: whoever holds one accepted receipt can
    replace its time, transaction and status at will, by sending the altered
    frame followed by the genuine body. *)
Theorem PacketC_fields_not_authenticated f b b' s :
  frame_wf f → fr_body f = Some (Body_C b) →
  frame_verdict db f (frame_bytes f) = Accept →
  PacketCBody_wf b' → PacketC_Signature b' = PacketC_Signature b →
  IsAborted (h_ctx s) = false →
  let f' := {| fr_header := fr_header f; fr_raw := PacketCBody_bytes b';
               fr_body := Some (Body_C b') |} in
  frame_wf f' ∧
  IngestPacket (St := St) db (Ok (frame_bytes f' ++ fr_raw f)) s =
    Some (tt, after_verdict Accept None (frame_success f) s).
Proof.
  intros Hwf Hb Hv Hwf' Hsig Ha f'.
  assert (frame_wf f') as Hf'.
  { destruct Hwf as (Hh & Hl & Hbo). rewrite Hb in Hbo. destruct Hbo as (H98 & _).
    split; [done|]. cbn [f' fr_header fr_raw fr_body].
    rewrite H98, length_PacketCBody_bytes by done.
    split; [done|]. split; [done|]. by split. }
  split; [done|]. rewrite IngestPacket_frame by done. do 2 f_equal.
  unfold frame_verdict in *. cbn [f' fr_header fr_body] in *. rewrite Hb in Hv.
  destruct (_ =? 0); [|done]. cbn [body_verdict] in *. rewrite Hsig.
  assert (length (fr_raw f) = 98%nat) as Hraw.
  { destruct Hwf as (_ & Hl & Hbo). rewrite Hb in Hbo. destruct Hbo as (H98 & _). lia. }
  assert (∀ pre, gslice (Z.of_nat (length (pre ++ fr_raw f)) - 98)
            (Z.of_nat (length (pre ++ fr_raw f)) - 72) (pre ++ fr_raw f) =
          take 26 (fr_raw f)) as Hslice.
  { intros pre. rewrite length_app, Hraw. unfold gslice.
    rewrite drop_app_exact by lia. f_equal. lia. }
  unfold frame_bytes in Hv at 2. unfold frame_bytes in Hv at 1.
  unfold frame_bytes in Hv. rewrite Hslice in Hv. rewrite Hslice.
  by destruct (sig_ok _ _ _ _).
Qed.
End Properties.

(** ** Witnesses

    A gateway with the executable instances of the interfaces: the demo key is
    loaded, and the golden payment frames carry a signature of that key. *)
#[export] Instance list_enqueuer : Enqueuer (list SettlementIntent) := λ i e, e ++ [i].

Definition demo_seed : list byte := put_le 32 0xC0FFEE.

Definition demo_db : MockDB :=
  match LoadFlatSatDemoKey (hex_encode demo_seed) (Initialize ∅) with
  | Some (_, db) => db
  | None => ∅
  end.

Definition demo_state : handler_state (C := TraceContext gin_H) (E := list SettlementIntent) :=
  {| h_ctx := new_context; h_submitter := Some [] |}.

Lemma demo_fresh : IsAborted (h_ctx demo_state) = false.
Proof. reflexivity. Qed.

(** [golden_ccsds_b] re-signed with the demo key. *)
Definition demo_b : list byte :=
  take 112 golden_ccsds_b ++ sign_with demo_seed (take 112 golden_ccsds_b) ++
  drop 176 golden_ccsds_b.

Definition ingest (request : result unit (list byte)) :=
  IngestPacket (St := ListStream) (E := list SettlementIntent) (C := TraceContext gin_H)
    demo_db request demo_state.

Lemma IngestPacket_correct_witness :
  ∃ s', ingest (Ok golden_ccsds_a) = Some (tt, s') ∧
    map fst (tc_responses (h_ctx s')) = [200] ∧ h_submitter s' = Some [].
Proof.
  destruct (IngestPacket_correct (St := ListStream) demo_db (Ok golden_ccsds_a) demo_state demo_fresh)
    as (s' & Hrun & _).
  exists s'. split; [exact Hrun|].
  assert ((λ r, (map fst (tc_responses (h_ctx r.2)), h_submitter r.2)) <$>
    ingest (Ok golden_ccsds_a) = Some ([200], Some [])) as Hr by (vm_compute; reflexivity).
  unfold ingest in Hr. rewrite Hrun in Hr. injection Hr as Hc Hs. split; [exact Hc|exact Hs].
Defined.

Lemma IngestPacket_enqueues_only_signed_witness :
  ∃ f b pub,
    demo_b = frame_bytes f ∧ fr_body f = Some (Body_B b) ∧
    verify_with pub (fh_bytes (fr_header f) ++ take 106 (fr_raw f))
      (Ed25519Signature_Raw (PacketB_Signature b)) = true.
Proof.
  assert (∃ s', ingest (Ok demo_b) = Some (tt, s') ∧ h_submitter s' ≠ h_submitter demo_state)
    as (s' & Hrun & Hne).
  { assert ((λ r, match h_submitter r.2 with Some (_ :: _) => true | _ => false end) <$>
      ingest (Ok demo_b) = Some true) as Hr by (vm_compute; reflexivity).
    destruct (ingest (Ok demo_b)) as [[[] s']|]; [|discriminate Hr]. exists s'.
    split; [reflexivity|]. intros E. cbn [fmap option_fmap option_map snd] in Hr.
    rewrite E in Hr. discriminate Hr. }
  destruct (IngestPacket_enqueues_only_signed (St := ListStream) demo_db (Ok demo_b)
    demo_state s' demo_fresh Hrun Hne)
    as (f & tl & b & rec & pub & e & ext & [= Hraw] & Hwf & Hb & _ & _ & _ & _ & _ & Hv & Hext).
  pose proof (frame_length f tl Hwf) as Hn. rewrite <- Hraw in Hn.
  assert (tl = []) as ->.
  { destruct Hwf as (Hh & _ & Hbo). rewrite Hb in Hbo. destruct Hbo as (H178 & _).
    rewrite H178 in Hn. change (Z.of_nat (length demo_b)) with 184 in Hn.
    pose proof (fh_length_pos (fr_header f)). destruct tl; [done|cbn in Hn; lia]. }
  destruct ext; [|done]. rewrite app_nil_r in Hraw, Hv. exists f, b, pub. by split_and!.
Defined.

Lemma IngestPacket_one_response_witness :
  ∃ s' code obj, ingest (Ok (take 100 golden_ccsds_a)) = Some (tt, s') ∧
    tc_responses (h_ctx s') = [(code, obj)] ∧ tc_aborted (h_ctx s') = negb (code =? 200).
Proof.
  destruct (IngestPacket_one_response (St := ListStream) demo_db
    (Ok (take 100 golden_ccsds_a)) demo_state demo_fresh)
    as (s' & code & obj & Hrun & Hr & Ha & _).
  exists s', code, obj. split; [exact Hrun|]. split; [exact Hr|exact Ha].
Defined.

(** A frame decoded from concrete bytes. *)
Definition the_frame (raw : list byte) : frame :=
  default {| fr_header := F_Ccsds 0 0 0; fr_raw := []; fr_body := None |} (decode_frame raw).

Lemma the_frame_ok raw :
  is_Some (decode_frame raw) → frame_wf (the_frame raw) ∧ raw = frame_bytes (the_frame raw).
Proof. intros [f Hf]. unfold the_frame. rewrite Hf. by apply decode_frame_iff. Qed.

Lemma IngestPacket_rejects_corruption_witness :
  let hit := take 20 golden_snlp_d ++ [x41; x42; x43; x44] ++ drop 24 golden_snlp_d in
  ∃ msg, ingest (Ok hit) = Some (tt, after_verdict (Reject 400 msg) None [] demo_state).
Proof.
  set (hit := take 20 golden_snlp_d ++ _).
  destruct (the_frame_ok golden_snlp_d) as [Hwf Hraw]; [vm_compute; by eexists|].
  destruct (the_frame_ok hit) as [Hwf' Hraw']; [vm_compute; by eexists|].
  destruct (IngestPacket_rejects_corruption (St := ListStream) demo_db (the_frame golden_snlp_d)
    (the_frame hit) 10 demo_state Hwf Hwf' demo_fresh) as (msg & Hrun).
  - vm_compute. reflexivity.
  - vm_compute. reflexivity.
  - vm_compute. reflexivity.
  - vm_compute. reflexivity.
  - rewrite <- Hraw, <- Hraw'. split; [vm_compute; reflexivity|].
    set (x := Z.lxor _ _). exists (Z.shiftr x 160), 160.
    split; [split; vm_compute; reflexivity|]. split; [discriminate|]. vm_compute. reflexivity.
  - exists msg. rewrite <- Hraw' in Hrun. exact Hrun.
Defined.

Lemma frame_body_C f b :
  frame_wf f → fr_body f = Some (Body_C b) → PacketCBody_wf b ∧ fr_raw f = PacketCBody_bytes b.
Proof. intros (_ & _ & Hbo) Hb. rewrite Hb in Hbo. by destruct Hbo as (_ & ? & ?). Qed.

(** A receipt signed with the key registered for satellite 100, and the same
    frame claiming another execution time. *)
Definition seller_db : MockDB :=
  <[100 := {| SatID := 100; PubKeyHex := hex_encode (derive_public demo_seed);
              Wallet := ""; Role := "Seller" |}]> ∅.

Definition demo_c : list byte :=
  take 32 golden_ccsds_c ++ sign_with demo_seed (gslice 6 32 golden_ccsds_c) ++
  drop 96 golden_ccsds_c.
Definition forged_c : list byte := take 8 demo_c ++ put_le 8 1 ++ drop 16 demo_c.

Lemma PacketC_fields_not_authenticated_witness :
  ∃ s', IngestPacket (St := ListStream) seller_db (Ok (forged_c ++ drop 6 demo_c)) demo_state =
    Some (tt, s') ∧ map fst (tc_responses (h_ctx s')) = [200].
Proof.
  destruct (the_frame_ok demo_c) as [Hwf Hraw]; [vm_compute; by eexists|].
  destruct (the_frame_ok forged_c) as [Hwf' Hraw']; [vm_compute; by eexists|].
  assert (∃ b, fr_body (the_frame demo_c) = Some (Body_C b)) as [b Hb] by (vm_compute; by eexists).
  assert (∃ b', fr_body (the_frame forged_c) = Some (Body_C b')) as [b' Hb']
    by (vm_compute; by eexists).
  destruct (frame_body_C _ b' Hwf' Hb') as [Hbwf Hbraw].
  destruct (PacketC_fields_not_authenticated (St := ListStream) seller_db (the_frame demo_c)
    b b' demo_state Hwf Hb) as [_ Hrun].
  - vm_compute. reflexivity.
  - exact Hbwf.
  - vm_compute in Hb, Hb'. injection Hb as <-. injection Hb' as <-. reflexivity.
  - exact demo_fresh.
  - eexists. split; [|shelve].
    rewrite <- Hbraw in Hrun. unfold frame_bytes in Hrun. cbn [fr_header fr_raw] in Hrun.
    assert (fh_bytes (fr_header (the_frame demo_c)) ++ fr_raw (the_frame forged_c) = forged_c)
      as E by (vm_compute; reflexivity).
    rewrite E in Hrun.
    assert (fr_raw (the_frame demo_c) = drop 6 demo_c) as E' by (vm_compute; reflexivity).
    rewrite E' in Hrun. exact Hrun.
    Unshelve. reflexivity.
Defined.
