(* ===== verification/Submitter.v ===== *)
(** * The buffered submitter

    Models [gateway/internal/core/chain/submitter.go]: the buffer that batches
    settlement intents, its interval timer, and the submit-with-one-retry loop.

    Each region the code runs under [s.mu] is one function on the shared object
    ([*_locked]); what runs outside the lock is a separate step, so that the
    interleavings of callers, timer callbacks and submissions are those of the
    step relation [step]. The RPC client is a parameter ([IntentSubmitter]). *)
From stdpp Require Export gmap sets.
From S2P Require Export Intent.
#[local] Open Scope Z_scope.

Definition DefaultMaxBatch : Z := 10.
(** Durations are in nanoseconds. *)
Definition DefaultInterval : Z := 5 * 10 ^ 9.
Definition submitRetries : nat := 2.

(** ** Timers

    [time.AfterFunc] arms a timer, [Stop] disarms it if it has not fired. *)
Record timer_env := { armed : gset nat; next_timer : nat }.

Definition AfterFunc (w : timer_env) : nat * timer_env :=
  (next_timer w, {| armed := {[next_timer w]} ∪ armed w; next_timer := S (next_timer w) |}).

Definition Timer_Stop (t : nat) (w : timer_env) : timer_env :=
  {| armed := armed w ∖ {[t]}; next_timer := next_timer w |}.

Section Submitter.
Context `{EthCommon}.

Record BufferedSubmitter := {
  maxBatch : Z;
  interval : Z;
  buf : list SettlementIntent;
  timer : option nat;
  closed : bool;
}.

Definition NewBufferedSubmitter (max ivl : Z) : BufferedSubmitter :=
  let max := if max <=? 0 then DefaultMaxBatch else max in
  let ivl := if ivl <=? 0 then DefaultInterval else ivl in
  {| maxBatch := max; interval := ivl; buf := []; timer := None; closed := false |}.

(** The object together with the timers its methods arm and stop. *)
Definition locked (A : Type) : Type :=
  BufferedSubmitter * timer_env → A * (BufferedSubmitter * timer_env).

Definition stealLocked : locked (list SettlementIntent) := λ '(s, w),
  let batch := buf s in
  let w := match timer s with Some t => Timer_Stop t w | None => w end in
  (batch, ({| maxBatch := maxBatch s; interval := interval s; buf := [];
              timer := None; closed := closed s |}, w)).

(** The critical section of [Enqueue]: the batch it goes on to submit, if this
    entry filled one. *)
Definition Enqueue_locked (intent : SettlementIntent) : locked (option (list SettlementIntent)) :=
  λ '(s, w),
    if closed s then (None, (s, w)) else
    let s := {| maxBatch := maxBatch s; interval := interval s; buf := buf s ++ [intent];
                timer := timer s; closed := closed s |} in
    let '(s, w) :=
      if Nat.eqb (length (buf s)) 1 then
        let '(t, w) := AfterFunc w in
        ({| maxBatch := maxBatch s; interval := interval s; buf := buf s;
            timer := Some t; closed := closed s |}, w)
      else (s, w) in
    if Z.of_nat (length (buf s)) <? maxBatch s then (None, (s, w)) else
    let '(batch, sw) := stealLocked (s, w) in (Some batch, sw).

Definition Flush_locked : locked (option (list SettlementIntent)) := λ '(s, w),
  if closed s then (None, (s, w)) else
  let '(batch, sw) := stealLocked (s, w) in
  (if Nat.eqb (length batch) 0 then None else Some batch, sw).

Definition Stop_locked : locked (option (list SettlementIntent)) := λ '(s, w),
  let s := {| maxBatch := maxBatch s; interval := interval s; buf := buf s;
              timer := timer s; closed := true |} in
  let '(batch, sw) := stealLocked (s, w) in
  (if Nat.ltb 0 (length batch) then Some batch else None, sw).

Definition onTimer_locked : locked (option (list SettlementIntent)) := λ '(s, w),
  if closed s || Nat.eqb (length (buf s)) 0 then (None, (s, w)) else
  let '(batch, sw) := stealLocked (s, w) in (Some batch, sw).

(** ** Submission *)
Class IntentSubmitter (K : Type) :=
  SettleBatch : list SettlementIntent → K → result unit Hash * K.

(** The retry loop of [submit]: [n] attempts are left. *)
Fixpoint submit_attempts {K} `{IntentSubmitter K} (n : nat) (batch : list SettlementIntent)
    (client : K) : K :=
  match n with
  | O => client
  | S n =>
      let '(r, client) := SettleBatch batch client in
      if is_ok r then client else submit_attempts n batch client
  end.

Definition submit {K} `{IntentSubmitter K} (batch : list SettlementIntent) (client : K) : K :=
  if Nat.eqb (length batch) 0 then client else submit_attempts submitRetries batch client.

(** A whole call when no other goroutine runs: the critical section, then the
    submission. *)
Definition run_call {K} `{IntentSubmitter K} (m : locked (option (list SettlementIntent)))
    (st : (BufferedSubmitter * timer_env) * K) : (BufferedSubmitter * timer_env) * K :=
  let '(sw, client) := st in
  match m sw with
  | (Some batch, sw) => (sw, submit batch client)
  | (None, sw) => (sw, client)
  end.

(** [*BufferedSubmitter] is the ingest handler's [Enqueuer]. *)
#[global] Instance BufferedSubmitter_Enqueuer {K} `{IntentSubmitter K} :
  Enqueuer ((BufferedSubmitter * timer_env) * K) :=
  λ intent, run_call (Enqueue_locked intent).

(** [Flush] returns the number of intents it took. *)
Definition Flush {K} `{IntentSubmitter K} (st : (BufferedSubmitter * timer_env) * K)
    : nat * ((BufferedSubmitter * timer_env) * K) :=
  (match (Flush_locked st.1).1 with Some batch => length batch | None => O end,
   run_call Flush_locked st).

Definition Stop {K} `{IntentSubmitter K} := run_call (K := K) Stop_locked.

(** ** The concurrent system

    [inflight] holds the goroutines inside [submit]: the batch (numbered in the
    order batches were taken) and the current attempt. [callbacks] are timers
    that fired and whose [onTimer] has not yet taken the lock. The remaining
    components are history: the intents accepted, the batches taken, every RPC
    with its outcome, and the batches given up or delivered. *)
Record task := { task_no : nat; task_batch : list SettlementIntent; task_attempt : nat }.

Record system := {
  sub : BufferedSubmitter;
  timers : timer_env;
  callbacks : list nat;
  inflight : list task;
  accepted : list SettlementIntent;
  taken : list (list SettlementIntent);
  rpcs : list (nat * bool);
  delivered : list nat;
  dropped : list nat;
}.

Definition init (max ivl : Z) : system :=
  {| sub := NewBufferedSubmitter max ivl; timers := {| armed := ∅; next_timer := 0 |};
     callbacks := []; inflight := []; accepted := []; taken := []; rpcs := [];
     delivered := []; dropped := [] |}.

(** The effect of a critical section that returned [r]: a goroutine starts to
    submit the batch. *)
Definition after_section (r : option (list SettlementIntent))
    (sw : BufferedSubmitter * timer_env) (y : system) : system :=
  let '(s, w) := sw in
  match r with
  | None => {| sub := s; timers := w; callbacks := callbacks y; inflight := inflight y;
               accepted := accepted y; taken := taken y; rpcs := rpcs y;
               delivered := delivered y; dropped := dropped y |}
  | Some batch =>
      {| sub := s; timers := w; callbacks := callbacks y;
         inflight := inflight y ++
           [{| task_no := length (taken y); task_batch := batch; task_attempt := 1 |}];
         accepted := accepted y; taken := taken y ++ [batch]; rpcs := rpcs y;
         delivered := delivered y; dropped := dropped y |}
  end.

Definition run_section (m : locked (option (list SettlementIntent))) (y : system) : system :=
  let '(r, sw) := m (sub y, timers y) in after_section r sw y.

Definition accept (intent : SettlementIntent) (y : system) : system :=
  if closed (sub y) then y else
  {| sub := sub y; timers := timers y; callbacks := callbacks y; inflight := inflight y;
     accepted := accepted y ++ [intent]; taken := taken y; rpcs := rpcs y;
     delivered := delivered y; dropped := dropped y |}.

Definition with_tasks (tasks : list task) (rpc : nat * bool) (ok drop : list nat) (y : system)
    : system :=
  {| sub := sub y; timers := timers y; callbacks := callbacks y; inflight := tasks;
     accepted := accepted y; taken := taken y; rpcs := rpcs y ++ [rpc];
     delivered := delivered y ++ ok; dropped := dropped y ++ drop |}.

(** One attempt of the goroutine [t]. *)
Definition attempt (t : task) (ok : bool) (l1 l2 : list task) (y : system) : system :=
  if ok then with_tasks (l1 ++ l2) (task_no t, true) [task_no t] [] y
  else if Nat.leb (S (task_attempt t)) submitRetries then
    with_tasks (l1 ++ {| task_no := task_no t; task_batch := task_batch t;
                         task_attempt := S (task_attempt t) |} :: l2) (task_no t, false) [] [] y
  else with_tasks (l1 ++ l2) (task_no t, false) [] [task_no t] y.

Definition fire (t : nat) (y : system) : system :=
  {| sub := sub y;
     timers := {| armed := armed (timers y) ∖ {[t]}; next_timer := next_timer (timers y) |};
     callbacks := callbacks y ++ [t]; inflight := inflight y; accepted := accepted y;
     taken := taken y; rpcs := rpcs y; delivered := delivered y; dropped := dropped y |}.

Definition with_callbacks (l : list nat) (y : system) : system :=
  {| sub := sub y; timers := timers y; callbacks := l; inflight := inflight y;
     accepted := accepted y; taken := taken y; rpcs := rpcs y;
     delivered := delivered y; dropped := dropped y |}.

Inductive step : system → system → Prop :=
  | step_Enqueue intent y :
      step y (run_section (Enqueue_locked intent) (accept intent y))
  | step_Flush y : step y (run_section Flush_locked y)
  | step_Stop y : step y (run_section Stop_locked y)
  | step_fire t y : t ∈ armed (timers y) → step y (fire t y)
  | step_onTimer l1 t l2 y :
      callbacks y = l1 ++ t :: l2 →
      step y (run_section onTimer_locked (with_callbacks (l1 ++ l2) y))
  | step_attempt l1 t l2 ok y :
      inflight y = l1 ++ t :: l2 → step y (attempt t ok l1 l2 y).

Definition reachable (max ivl : Z) : system → Prop := rtc step (init max ivl).
End Submitter.

(** ** Invariants *)
Section Invariant.
Context `{EthCommon}.

(** The shared object, its timer and the history of what it accepted and gave
    out: [cb] are the fired timers still to run, [acc] the accepted intents and
    [tk] the batches taken. *)
Record buffer_inv (s : BufferedSubmitter) (w : timer_env) (cb : list nat)
    (acc : list SettlementIntent) (tk : list (list SettlementIntent)) : Prop := {
  bi_max : 1 <= maxBatch s;
  bi_len : Z.of_nat (length (buf s)) < maxBatch s;
  bi_timer : timer s = None ↔ buf s = [];
  bi_live t : timer s = Some t → t ∈ armed w ∨ t ∈ cb;
  bi_armed t : t ∈ armed w → timer s = Some t;
  bi_closed : closed s = true → buf s = [];
  bi_fifo : acc = concat tk ++ buf s;
  bi_sizes : Forall (λ b, (0 < length b)%nat ∧ Z.of_nat (length b) <= maxBatch s) tk;
}.

(** The goroutines in [submit], by the number of the batch they carry. *)
Definition rpcs_of (n : nat) (l : list (nat * bool)) : list (nat * bool) :=
  filter (λ r, r.1 = n) l.

Record tasks_inv (fl : list task) (tk : list (list SettlementIntent))
    (rs : list (nat * bool)) (ok drop : list nat) : Prop := {
  ti_batch t : t ∈ fl → tk !! task_no t = Some (task_batch t);
  ti_perm : (task_no <$> fl) ++ ok ++ drop ≡ₚ seq 0 (length tk);
  ti_new n : (length tk ≤ n)%nat → rpcs_of n rs = [];
  ti_fl t : t ∈ fl → (1 ≤ task_attempt t ≤ submitRetries)%nat ∧
    rpcs_of (task_no t) rs = replicate (task_attempt t - 1) (task_no t, false);
  ti_ok n : n ∈ ok → ∃ k, (k < submitRetries)%nat ∧
    rpcs_of n rs = replicate k (n, false) ++ [(n, true)];
  ti_drop n : n ∈ drop → rpcs_of n rs = replicate submitRetries (n, false);
}.

Definition sys_inv (y : system) : Prop :=
  buffer_inv (sub y) (timers y) (callbacks y) (accepted y) (taken y) ∧
  tasks_inv (inflight y) (taken y) (rpcs y) (delivered y) (dropped y).

(** *** The buffer *)

Lemma stealLocked_inv s w cb acc tk batch s' w' :
  1 <= maxBatch s → (∀ t, t ∈ armed w → timer s = Some t) →
  acc = concat tk ++ buf s →
  Forall (λ b, (0 < length b)%nat ∧ Z.of_nat (length b) <= maxBatch s) tk →
  Z.of_nat (length (buf s)) <= maxBatch s →
  stealLocked (s, w) = (batch, (s', w')) →
  batch = buf s ∧ maxBatch s' = maxBatch s ∧ closed s' = closed s ∧ buf s' = [] ∧
  buffer_inv s' w' cb acc (if decide (batch = []) then tk else tk ++ [batch]).
Proof.
  intros Hmax Harmed Hacc Hsz Hlen [= <- <- <-]. split_and!; [done..|].
  split; cbn [maxBatch buf timer closed]; [done|cbn; lia|done|done| |done| |].
  - intros t Ht. destruct (timer s) as [t'|]; cbn in Ht.
    + apply elem_of_difference in Ht as [Ht Hne]. apply Harmed in Ht. set_solver.
    + by apply Harmed in Ht.
  - case_decide as E; [by rewrite Hacc, E|].
    by rewrite concat_app, Hacc; cbn; rewrite !app_nil_r.
  - case_decide as E; [done|]. apply Forall_app. split; [done|].
    apply Forall_singleton. split; [|done]. destruct (buf s); [done|cbn; lia].
Qed.

Lemma buffer_inv_section m s w cb acc tk r s' w' :
  (∀ s w, (m : locked (option (list SettlementIntent))) (s, w) = (None, (s, w)) ∨
    ∃ batch s1, m (s, w) = (if Nat.eqb (length batch) 0 then None else Some batch,
                            (stealLocked (s1, w)).2) ∧
      batch = (stealLocked (s1, w)).1 ∧ maxBatch s1 = maxBatch s ∧ buf s1 = buf s ∧
      timer s1 = timer s) →
  buffer_inv s w cb acc tk → m (s, w) = (r, (s', w')) →
  buffer_inv s' w' cb acc (match r with Some b => tk ++ [b] | None => tk end).
Proof.
  intros Hm Hi. destruct (Hm s w) as [-> | (batch & s1 & -> & Hb & Hmax & Hbuf & Ht)].
  { by intros [= <- <- <-]. }
  destruct Hi as [I1 I2 I3 I4 I5 I6 I7 I8].
  destruct (stealLocked (s1, w)) as [batch' [s2 w2]] eqn:Hs. cbn [fst snd] in *. subst batch'.
  intros [= <- <- <-].
  apply (stealLocked_inv s1 w cb acc tk) in Hs as (-> & _ & _ & _ & Hi');
    rewrite ?Hmax, ?Hbuf, ?Ht; [|done..|lia].
  rewrite Hbuf in Hi'. revert Hi'. destruct (buf s); by case_decide.
Qed.

Lemma Enqueue_inv s w cb acc tk intent r s' w' :
  buffer_inv s w cb acc tk → Enqueue_locked intent (s, w) = (r, (s', w')) →
  buffer_inv s' w' cb (if closed s then acc else acc ++ [intent])
    (match r with Some b => tk ++ [b] | None => tk end).
Proof.
  intros Hi He. unfold Enqueue_locked in He.
  destruct (closed s) eqn:Hc; [by injection He as <- <- <-|].
  destruct Hi as [I1 I2 I3 I4 I5 I6 I7 I8].
  cbn [buf] in He. rewrite length_app in He. cbn [length] in He.
  (* the timer and the armed timers after the empty-to-1 transition *)
  set (s1 := if (length (buf s) + 1 =? 1)%nat then _ else _) in He.
  assert (∃ t w1, s1 = ({| maxBatch := maxBatch s; interval := interval s;
      buf := buf s ++ [intent]; timer := Some t; closed := false |}, w1) ∧
      (t ∈ armed w1 ∨ t ∈ cb) ∧ ∀ u, u ∈ armed w1 → u = t) as (t & w1 & Hs1 & Hlive & Harm).
  { unfold s1. destruct (Nat.eqb_spec (length (buf s) + 1) 1) as [E|E]; cbn.
    - assert (buf s = []) as Hnil by (apply nil_length_inv; lia).
      apply I3 in Hnil. eexists _, _. split; [done|]. cbn. split; [set_solver|].
      intros u [->%elem_of_singleton|Hu]%elem_of_union; [done|]. apply I5 in Hu. congruence.
    - destruct (timer s) as [t|] eqn:Ht; [|rewrite (proj1 I3 eq_refl) in E; done].
      exists t, w. split; [done|]. split; [by apply I4|].
      intros u Hu%I5. congruence. }
  rewrite Hs1 in He. cbn [buf maxBatch] in He. rewrite length_app in He. cbn [length] in He.
  destruct (Z.ltb_spec (Z.of_nat (length (buf s) + 1)) (maxBatch s)) as [Hlt|Hge].
  - injection He as <- <- <-. split; cbn; [done|rewrite length_app; cbn; lia| | | |done| |done].
    + split; [done|]. by intros [_ ?]%app_nil.
    + by intros u [= <-].
    + intros u Hu. by rewrite (Harm u Hu).
    + by rewrite I7, app_assoc.
  - destruct (stealLocked _) as [batch [s2 w2]] eqn:Hs. injection He as <- <- <-.
    apply (stealLocked_inv _ w1 cb (acc ++ [intent]) tk) in Hs as (-> & _ & _ & _ & Hi);
      cbn [buf maxBatch timer] in *.
    + revert Hi. rewrite decide_False; [done|]. by intros [_ ?]%app_nil.
    + done.
    + intros u Hu. by rewrite (Harm u Hu).
    + by rewrite I7, app_assoc.
    + done.
    + rewrite length_app. cbn. lia.
Qed.

(** *** The submissions *)

Lemma tasks_inv_take fl tk rs ok drop b :
  tasks_inv fl tk rs ok drop →
  tasks_inv (fl ++ [{| task_no := length tk; task_batch := b; task_attempt := 1 |}])
    (tk ++ [b]) rs ok drop.
Proof.
  intros [T1 T2 T3 T4 T5 T6]. split; [| | | |done|done].
  - intros t [Ht | ->%list_elem_of_singleton]%elem_of_app.
    + apply lookup_app_l_Some. by apply T1.
    + cbn. by rewrite lookup_app_r, Nat.sub_diag.
  - rewrite fmap_app, length_app, Nat.add_1_r, seq_S, <- T2. cbn. solve_Permutation.
  - intros n Hn. apply T3. rewrite length_app in Hn. lia.
  - intros t [Ht | ->%list_elem_of_singleton]%elem_of_app; [by apply T4|].
    cbn. split; [unfold submitRetries; lia|]. by apply T3.
Qed.

Lemma rpcs_of_snoc n l m ok :
  rpcs_of n (l ++ [(m, ok)]) = rpcs_of n l ++ (if decide (m = n) then [(m, ok)] else []).
Proof. unfold rpcs_of. by rewrite list.filter_app. Qed.

Lemma rpcs_of_other n l m ok : m ≠ n → rpcs_of n (l ++ [(m, ok)]) = rpcs_of n l.
Proof. intros. by rewrite rpcs_of_snoc, decide_False, app_nil_r. Qed.

Lemma rpcs_of_same n l ok : rpcs_of n (l ++ [(n, ok)]) = rpcs_of n l ++ [(n, ok)].
Proof. by rewrite rpcs_of_snoc, decide_True. Qed.

(** The task that makes an attempt is distinct from every other batch. *)
Lemma tasks_inv_distinct l1 t l2 tk rs ok drop :
  tasks_inv (l1 ++ t :: l2) tk rs ok drop →
  (task_no t < length tk)%nat ∧
  (∀ t', t' ∈ l1 ++ l2 → task_no t ≠ task_no t') ∧
  (∀ n, n ∈ ok → task_no t ≠ n) ∧ (∀ n, n ∈ drop → task_no t ≠ n).
Proof.
  intros [T1 T2 _ _ _ _].
  assert (NoDup ((task_no <$> l1 ++ t :: l2) ++ ok ++ drop)) as Hnd.
  { rewrite T2. apply NoDup_seq. }
  split; [apply lookup_lt_is_Some_1; rewrite T1; [by eexists|set_solver]|].
  assert ((task_no <$> l1 ++ t :: l2) ++ ok ++ drop ≡ₚ
          task_no t :: (task_no <$> l1 ++ l2) ++ ok ++ drop) as Hp.
  { rewrite !fmap_app, fmap_cons. solve_Permutation. }
  rewrite Hp in Hnd. apply list.NoDup_cons in Hnd as [Hnd _].
  rewrite !not_elem_of_app in Hnd. destruct Hnd as (H1 & H2 & H3).
  split_and!; [|by intros n Hn <-|by intros n Hn <-].
  intros t' Ht' E. apply H1. rewrite E. by apply list_elem_of_fmap_2.
Qed.

Lemma tasks_inv_done l1 t l2 tk rs ok drop (b : bool) ok' drop' :
  tasks_inv (l1 ++ t :: l2) tk rs ok drop →
  (if b then ok' = [task_no t] ∧ drop' = []
   else ok' = [] ∧ drop' = [task_no t] ∧ task_attempt t = submitRetries) →
  tasks_inv (l1 ++ l2) tk (rs ++ [(task_no t, b)]) (ok ++ ok') (drop ++ drop').
Proof.
  intros Hi Hb. destruct (tasks_inv_distinct _ _ _ _ _ _ _ Hi) as (D1 & D2 & D3 & D4).
  destruct Hi as [T1 T2 T3 T4 T5 T6].
  assert (t ∈ l1 ++ t :: l2) as Ht by set_solver.
  assert (∀ t', t' ∈ l1 ++ l2 → t' ∈ l1 ++ t :: l2) as Hsub by set_solver.
  destruct (T4 t Ht) as [Hk Hr]. split.
  - auto.
  - rewrite <- T2, !fmap_app, fmap_cons.
    destruct b; [destruct Hb as [-> ->]|destruct Hb as (-> & -> & _)]; solve_Permutation.
  - intros n Hn. rewrite rpcs_of_other by lia. auto.
  - intros t' Ht'. rewrite rpcs_of_other by auto. auto.
  - intros n [Hn|Hn]%elem_of_app; [rewrite rpcs_of_other by auto; auto|].
    destruct b; [|by destruct Hb as (-> & _); apply not_elem_of_nil in Hn].
    destruct Hb as [-> _]. apply list_elem_of_singleton in Hn as ->.
    exists (task_attempt t - 1)%nat. split; [lia|]. by rewrite rpcs_of_same, Hr.
  - intros n [Hn|Hn]%elem_of_app; [rewrite rpcs_of_other by auto; auto|].
    destruct b; [by destruct Hb as (_ & ->); apply not_elem_of_nil in Hn|].
    destruct Hb as (_ & -> & Ha). apply list_elem_of_singleton in Hn as ->.
    by rewrite rpcs_of_same, Hr, Ha.
Qed.

Lemma tasks_inv_retry l1 t l2 tk rs ok drop :
  tasks_inv (l1 ++ t :: l2) tk rs ok drop →
  (S (task_attempt t) ≤ submitRetries)%nat →
  tasks_inv (l1 ++ {| task_no := task_no t; task_batch := task_batch t;
                      task_attempt := S (task_attempt t) |} :: l2)
    tk (rs ++ [(task_no t, false)]) ok drop.
Proof.
  intros Hi Ha. destruct (tasks_inv_distinct _ _ _ _ _ _ _ Hi) as (D1 & D2 & D3 & D4).
  destruct Hi as [T1 T2 T3 T4 T5 T6].
  assert (t ∈ l1 ++ t :: l2) as Ht by set_solver.
  assert (∀ t', t' ∈ l1 ++ l2 → t' ∈ l1 ++ t :: l2) as Hsub by set_solver.
  destruct (T4 t Ht) as [Hk Hr]. split.
  - intros t' [Ht'|[->|Ht']%elem_of_cons]%elem_of_app; [|cbn|]; apply T1; set_solver.
  - by rewrite <- T2, !fmap_app, !fmap_cons.
  - intros n Hn. rewrite rpcs_of_other by lia. auto.
  - intros t' Ht'. assert (t' ∈ l1 ++ l2 ∨ t' = {| task_no := task_no t;
      task_batch := task_batch t; task_attempt := S (task_attempt t) |}) as [Hin| ->]
      by set_solver.
    + rewrite rpcs_of_other by auto. auto.
    + cbn. split; [lia|]. rewrite rpcs_of_same, Hr.
      replace (task_attempt t - 0)%nat with (S (task_attempt t - 1)) by lia.
      by rewrite replicate_S_end.
  - intros n Hn. rewrite rpcs_of_other by auto. auto.
  - intros n Hn. rewrite rpcs_of_other by auto. auto.
Qed.

(** *** Every step preserves the invariant *)

Lemma sys_inv_init max ivl : sys_inv (init max ivl).
Proof.
  split; split; cbn; try done; try set_solver.
  - destruct (Z.leb_spec max 0); unfold DefaultMaxBatch; lia.
  - destruct (Z.leb_spec max 0); unfold DefaultMaxBatch; lia.
Qed.

(** The sections that take the whole buffer or leave everything as it was. *)
Definition steals (m : locked (option (list SettlementIntent))) : Prop :=
  ∀ s w, m (s, w) = (None, (s, w)) ∨
    ∃ batch s1, m (s, w) = (if Nat.eqb (length batch) 0 then None else Some batch,
                            (stealLocked (s1, w)).2) ∧
      batch = (stealLocked (s1, w)).1 ∧ maxBatch s1 = maxBatch s ∧ buf s1 = buf s ∧
      timer s1 = timer s.

Lemma Flush_steals : steals Flush_locked.
Proof.
  intros s w. unfold Flush_locked. destruct (closed s); [by left|right].
  exists (buf s), s. split_and!; done.
Qed.

Lemma Stop_steals : steals Stop_locked.
Proof.
  intros s w. right. eexists (buf s), {| maxBatch := maxBatch s; interval := interval s;
    buf := buf s; timer := timer s; closed := true |}.
  split_and!; try done. unfold Stop_locked. cbn. by destruct (buf s).
Qed.

Lemma onTimer_steals : steals onTimer_locked.
Proof.
  intros s w. unfold onTimer_locked. destruct (closed s); [by left|].
  destruct (Nat.eqb_spec (length (buf s)) 0) as [|Hne]; [by left|right].
  exists (buf s), s. split_and!; try done. cbn. by destruct (buf s).
Qed.

Lemma tasks_inv_after_section r sw y :
  tasks_inv (inflight y) (taken y) (rpcs y) (delivered y) (dropped y) →
  let y' := after_section r sw y in
  tasks_inv (inflight y') (taken y') (rpcs y') (delivered y') (dropped y').
Proof.
  intros Hi. destruct sw as [s w], r as [b|]; cbn; [by apply tasks_inv_take|done].
Qed.

Lemma sys_inv_section m y :
  steals m → sys_inv y → sys_inv (run_section m y).
Proof.
  intros Hm [Hb Ht]. unfold run_section.
  destruct (m (sub y, timers y)) as [r [s' w']] eqn:E.
  split; [|by apply tasks_inv_after_section].
  pose proof (buffer_inv_section m _ _ _ _ _ _ _ _ Hm Hb E) as Hb'.
  by destruct r; cbn.
Qed.

Lemma buffer_inv_callbacks s w cb cb' acc tk :
  buffer_inv s w cb acc tk →
  (∀ t, timer s = Some t → t ∈ cb → t ∈ armed w ∨ t ∈ cb') →
  buffer_inv s w cb' acc tk.
Proof.
  intros [I1 I2 I3 I4 I5 I6 I7 I8] Hcb. split; auto.
  intros t Ht. destruct (I4 t Ht); auto.
Qed.

(** A callback leaves the list of fired timers in the same critical section in
    which it clears the buffer's timer. *)
Lemma onTimer_inv s w cb cb' acc tk r s' w' :
  buffer_inv s w cb acc tk → onTimer_locked (s, w) = (r, (s', w')) →
  buffer_inv s' w' cb' acc (match r with Some b => tk ++ [b] | None => tk end).
Proof.
  intros Hb E.
  pose proof (buffer_inv_section _ _ _ _ _ _ _ _ _ onTimer_steals Hb E) as Hb'.
  assert (timer s' = None) as Hnone.
  { unfold onTimer_locked in E. destruct Hb as [_ _ I3 _ _ I6 _ _].
    destruct (closed s) eqn:Hc; cbn in E.
    { injection E as <- <- <-. apply I3, I6. done. }
    destruct (Nat.eqb_spec (length (buf s)) 0) as [Hz|]; injection E as <- <- <-; [|done].
    by apply I3, nil_length_inv. }
  eapply buffer_inv_callbacks; [exact Hb'|]. intros u Hu. congruence.
Qed.

Lemma fire_inv s w cb t acc tk :
  buffer_inv s w cb acc tk →
  buffer_inv s {| armed := armed w ∖ {[t]}; next_timer := next_timer w |} (cb ++ [t]) acc tk.
Proof.
  intros [I1 I2 I3 I4 I5 I6 I7 I8]. split; cbn; auto.
  - intros u Hu. destruct (I4 u Hu) as [Hin|]; [|set_solver].
    destruct (decide (u = t)) as [->|]; [right|left]; set_solver.
  - intros u Hu. apply I5. set_solver.
Qed.

Lemma sys_inv_onTimer l1 t l2 y :
  callbacks y = l1 ++ t :: l2 → sys_inv y →
  sys_inv (run_section onTimer_locked (with_callbacks (l1 ++ l2) y)).
Proof.
  intros Hcb [Hb Ht]. unfold run_section. cbn [sub timers with_callbacks].
  destruct (onTimer_locked (sub y, timers y)) as [r [s' w']] eqn:E.
  split; [|by apply (tasks_inv_after_section r _ (with_callbacks (l1 ++ l2) y))].
  pose proof (onTimer_inv _ _ _ (l1 ++ l2) _ _ _ _ _ Hb E). by destruct r; cbn.
Qed.

Lemma sys_inv_step y y' : step y y' → sys_inv y → sys_inv y'.
Proof.
  intros Hs Hi. destruct Hs as [i y|y|y|t y Ht|l1 t l2 y Hcb|l1 t l2 ok y Hfl].
  - destruct Hi as [Hb Ht]. unfold run_section.
    assert (∀ a, (sub (accept a y), timers (accept a y)) = (sub y, timers y)) as Hacc.
    { intros a. unfold accept. by destruct (closed (sub y)). }
    rewrite Hacc. destruct (Enqueue_locked i (sub y, timers y)) as [r [s' w']] eqn:E.
    pose proof (Enqueue_inv _ _ _ _ _ _ _ _ _ Hb E) as Hb'.
    split; [|apply tasks_inv_after_section; unfold accept; by destruct (closed (sub y))].
    unfold accept. destruct r, (closed (sub y)); done.
  - by apply sys_inv_section; [apply Flush_steals|].
  - by apply sys_inv_section; [apply Stop_steals|].
  - destruct Hi as [Hb Hti]. split; [|done]. by apply fire_inv.
  - by eapply sys_inv_onTimer.
  - destruct Hi as [Hb Hti]. rewrite Hfl in Hti. split; [by unfold attempt; repeat case_match|].
    unfold attempt. destruct ok.
    { by apply (tasks_inv_done _ _ _ _ _ _ _ true [task_no t] []). }
    destruct (Nat.leb_spec (S (task_attempt t)) submitRetries) as [Hle|Hgt]; cbn.
    + rewrite !app_nil_r. by apply tasks_inv_retry.
    + apply (tasks_inv_done _ _ _ _ _ _ _ false [] [task_no t]); [done|].
      destruct Hti as [_ _ _ T4 _ _]. destruct (T4 t) as [Hk _]; [set_solver|].
      split_and!; [done|done|lia].
Qed.

Lemma sys_inv_reachable max ivl y : reachable max ivl y → sys_inv y.
Proof.
  unfold reachable. intros Hr. pattern y. revert y Hr.
  apply (rtc_ind_r _ (init max ivl)); [apply sys_inv_init|].
  intros y z _ Hs Hi. by eapply sys_inv_step.
Qed.
End Invariant.

(** ** Properties *)
Section Properties.
Context `{EthCommon}.

(** The threshold a submitter was configured with. *)
Definition threshold (max : Z) : Z := if max <=? 0 then DefaultMaxBatch else max.

Lemma section_maxBatch m y :
  (∀ s w, maxBatch (m (s, w)).2.1 = maxBatch s) →
  maxBatch (sub (run_section m y)) = maxBatch (sub y).
Proof.
  intros Hm. unfold run_section. specialize (Hm (sub y) (timers y)).
  destruct (m (sub y, timers y)) as [[b|] [s w]]; done.
Qed.

Lemma step_maxBatch y y' : step y y' → maxBatch (sub y') = maxBatch (sub y).
Proof.
  destruct 1 as [i y|y|y|t y Ht|l1 t l2 y Hcb|l1 t l2 ok y Hfl].
  - rewrite section_maxBatch; [unfold accept; by destruct (closed (sub y))|].
    intros s w. unfold Enqueue_locked. destruct (closed s); [done|]. cbn.
    destruct (_ =? 1)%nat; cbn; by destruct (_ <? _).
  - apply section_maxBatch. intros s w. unfold Flush_locked. by destruct (closed s).
  - by apply section_maxBatch.
  - done.
  - rewrite section_maxBatch; [done|]. intros s w. unfold onTimer_locked. by destruct (_ || _).
  - unfold attempt. destruct ok; [done|]. by destruct (Nat.leb _ _).
Qed.

Lemma reachable_maxBatch max ivl y : reachable max ivl y → maxBatch (sub y) = threshold max.
Proof.
  unfold reachable. intros Hr. pattern y. revert y Hr.
  apply (rtc_ind_r _ (init max ivl)); [done|].
  intros y z _ Hs <-. by apply step_maxBatch.
Qed.

Lemma submitter_closed_empty max ivl y :
  reachable max ivl y → closed (sub y) = true → buf (sub y) = [].
Proof. intros Hr. by destruct (sys_inv_reachable _ _ _ Hr) as [[] _]. Qed.

Lemma closed_step y y' :
  step y y' → closed (sub y) = true → buf (sub y) = [] →
  closed (sub y') = true ∧ accepted y' = accepted y ∧ taken y' = taken y ∧ buf (sub y') = [].
Proof.
  destruct 1 as [i y|y|y|t y Ht|l1 t l2 y Hcb|l1 t l2 ok y Hfl]; intros Hc Hb.
  - unfold run_section, accept. rewrite Hc. unfold Enqueue_locked. by rewrite Hc.
  - unfold run_section, Flush_locked. by rewrite Hc.
  - unfold run_section, Stop_locked, stealLocked. cbn. by rewrite Hb.
  - done.
  - unfold run_section, onTimer_locked. cbn. by rewrite Hc.
  - unfold attempt. by repeat case_match.
Qed.

(** C25. Batching is lossless and bounded, in every interleaving of callers, timer
    callbacks and submissions: the accepted intents are, in order, the batches
    taken so far followed by the buffer; a batch has between one and [maxBatch]
    intents; the buffer stays below the threshold; and no intent is buffered in a
    closed submitter. *)
Theorem submitter_batches max ivl y :
  reachable max ivl y →
  accepted y = concat (taken y) ++ buf (sub y) ∧
  Forall (λ b, 1 <= Z.of_nat (length b) <= threshold max) (taken y) ∧
  Z.of_nat (length (buf (sub y))) < threshold max ∧
  (closed (sub y) = true → buf (sub y) = []).
Proof.
  intros Hr. destruct (sys_inv_reachable _ _ _ Hr) as [[I1 I2 I3 I4 I5 I6 I7 I8] _].
  rewrite (reachable_maxBatch _ _ _ Hr) in *. split_and!; try done.
  eapply list.Forall_impl; [exact I8|]. cbn. lia.
Qed.

(** C27. No batch that was taken is forgotten, and none is tried more than twice:
    it is in flight, delivered or dropped, and only one of these; an in-flight batch has failed exactly the
    attempts before its current one; a delivered batch failed at most once and
    then succeeded; a dropped batch failed exactly twice. *)
Theorem submitter_retries_once max ivl y n batch :
  reachable max ivl y → taken y !! n = Some batch →
  (∃ t, (t ∈ inflight y) ∧ task_no t = n ∧ task_batch t = batch ∧
     (1 ≤ task_attempt t ≤ 2)%nat ∧
     rpcs_of n (rpcs y) = replicate (task_attempt t - 1) (n, false) ∧
     (n ∉ delivered y) ∧ (n ∉ dropped y)) ∨
  ((n ∈ delivered y) ∧ (n ∉ dropped y) ∧ (n ∉ task_no <$> inflight y) ∧
     (rpcs_of n (rpcs y) = [(n, true)] ∨ rpcs_of n (rpcs y) = [(n, false); (n, true)])) ∨
  ((n ∈ dropped y) ∧ (n ∉ delivered y) ∧ (n ∉ task_no <$> inflight y) ∧
     rpcs_of n (rpcs y) = [(n, false); (n, false)]).
Proof.
  intros Hr Hn. destruct (sys_inv_reachable _ _ _ Hr) as [_ [T1 T2 T3 T4 T5 T6]].
  apply lookup_lt_Some in Hn as Hlt.
  assert (n ∈ (task_no <$> inflight y) ++ delivered y ++ dropped y) as Hin.
  { rewrite T2. apply elem_of_seq. lia. }
  assert (NoDup ((task_no <$> inflight y) ++ delivered y ++ dropped y)) as Hnd.
  { rewrite T2. apply NoDup_seq. }
  apply list.NoDup_app in Hnd as (_ & D1 & (_ & D2 & _)%list.NoDup_app).
  apply elem_of_app in Hin as [Hin|[Hin|Hin]%elem_of_app].
  - left. specialize (D1 _ Hin). rewrite not_elem_of_app in D1.
    apply list_elem_of_fmap in Hin as (t & -> & Ht). exists t.
    destruct (T4 t Ht) as [Ha Hrpc]. rewrite (T1 t Ht) in Hn. injection Hn as <-.
    destruct D1 as [D1 D1']. unfold submitRetries in Ha. split_and!; first [done|lia].
  - right; left. destruct (T5 n Hin) as (k & Hk & Hrpc).
    split_and!; [done|by apply D2|intros Hf%D1; set_solver|]. rewrite Hrpc.
    destruct k as [|[|k]]; [by left|by right|unfold submitRetries in Hk; lia].
  - right; right. split_and!; [done|intros Hd%D2; done|intros Hf%D1; set_solver|].
    by apply T6.
Qed.

(** [submit] ignores an empty batch, stops after the first success, and makes
    exactly one more attempt after a failure, whatever its outcome. *)
Theorem submit_correct {K} `{IntentSubmitter K} batch (client : K) :
  submit batch client =
  match batch with
  | [] => client
  | _ :: _ =>
      let '(r1, client1) := SettleBatch batch client in
      match r1 with Ok _ => client1 | Err _ => (SettleBatch batch client1).2 end
  end.
Proof.
  destruct batch as [|i batch]; [done|]. unfold submit. cbn [length Nat.eqb].
  unfold submitRetries. cbn [submit_attempts].
  destruct (SettleBatch (i :: batch) client) as [[h|e] k]; cbn [is_ok]; [done|].
  by destruct (SettleBatch (i :: batch) k) as [[h|e2] k2]; cbn.
Qed.

(** No intent is stranded: whenever the buffer is not empty the interval timer
    is armed or has already fired, and letting it fire and run its callback,
    with nothing else happening, takes the whole buffer as a batch. *)
Theorem submitter_timer_flushes max ivl y :
  reachable max ivl y → buf (sub y) ≠ [] →
  ∃ t y1 l1 l2,
    timer (sub y) = Some t ∧
    (y1 = y ∨ t ∈ armed (timers y) ∧ y1 = fire t y) ∧
    callbacks y1 = l1 ++ t :: l2 ∧
    let y2 := run_section onTimer_locked (with_callbacks (l1 ++ l2) y1) in
    step y1 y2 ∧ buf (sub y2) = [] ∧ taken y2 = taken y ++ [buf (sub y)] ∧
    accepted y2 = accepted y ∧ timer (sub y2) = None.
Proof.
  intros Hr Hne. destruct (sys_inv_reachable _ _ _ Hr) as [[I1 I2 I3 I4 I5 I6 I7 I8] _].
  destruct (timer (sub y)) as [t|] eqn:Ht; [|by destruct Hne; apply I3].
  assert (closed (sub y) = false) as Hc.
  { destruct (closed (sub y)); [by destruct Hne; apply I6|done]. }
  assert (∃ y1 l1 l2, (y1 = y ∨ t ∈ armed (timers y) ∧ y1 = fire t y) ∧
            callbacks y1 = l1 ++ t :: l2 ∧ sub y1 = sub y ∧ taken y1 = taken y ∧
            accepted y1 = accepted y) as (y1 & l1 & l2 & Hy1 & Hcb & Hs & Htk & Hacc).
  { destruct (I4 t eq_refl) as [Ha|Hin].
    - exists (fire t y), (callbacks y), []. split; [by right|]. done.
    - apply list_elem_of_split in Hin as (l1 & l2 & Hin). exists y, l1, l2. by split; [left|]. }
  exists t, y1, l1, l2. split; [done|]. split; [done|]. split; [done|]. cbn zeta.
  split; [by apply (step_onTimer l1 t l2)|].
  unfold run_section, onTimer_locked. cbn [sub timers with_callbacks].
  rewrite Hs, Hc. cbn [orb].
  destruct (Nat.eqb_spec (length (buf (sub y))) 0) as [Hz|]; [by destruct Hne; apply nil_length_inv|].
  cbn. by rewrite Htk, Hacc.
Qed.

(** [Stop] is final and loses nothing: after it, no step accepts an intent or
    reopens the submitter, and once the submissions in flight have ended every
    intent ever accepted is in a batch that was delivered or dropped. *)
Theorem submitter_stop_final max ivl y y' :
  reachable max ivl y → closed (sub y) = true → rtc step y y' →
  closed (sub y') = true ∧ accepted y' = accepted y ∧
  accepted y' = concat (taken y') ∧ taken y' = taken y ∧
  (inflight y' = [] → delivered y' ++ dropped y' ≡ₚ seq 0 (length (taken y'))).
Proof.
  intros Hr Hc Hrtc.
  assert (closed (sub y') = true ∧ accepted y' = accepted y ∧ taken y' = taken y) as (Hc' & Ha & Ht).
  { assert (buf (sub y) = []) as Hbuf by by apply (submitter_closed_empty max ivl).
    revert Hr Hc Hbuf. induction Hrtc as [y|y y1 y' Hs _ IH]; [done|]. intros Hr Hc Hbuf.
    destruct (closed_step y y1 Hs Hc Hbuf) as (Hc1 & Ha1 & Ht1 & Hb1).
    rewrite <- Ha1, <- Ht1. apply IH; [|done|done]. by eapply rtc_r. }
  assert (reachable max ivl y') as Hr' by (unfold reachable in *; by etrans).
  destruct (sys_inv_reachable _ _ _ Hr') as [[I1 I2 I3 I4 I5 I6 I7 I8] [T1 T2 T3 T4 T5 T6]].
  split_and!; try done.
  - by rewrite I7, I6, app_nil_r.
  - intros Hfl. by rewrite Hfl in T2.
Qed.
End Properties.

(** ** Witnesses: a submitter with a threshold of two *)
Definition demo_intent (n : Z) : SettlementIntent (H := toy_eth) :=
  {| SI_SatId := n; SI_Amount := 420; SI_AssetId := 1;
     SI_TxNonce := DeriveTxNonce n 1; SI_Wallet := HexToAddress (EthCommon := toy_eth) "0xA" |}.

Definition demo_partial : system (H := toy_eth) :=
  run_section (Enqueue_locked (demo_intent 1)) (accept (demo_intent 1) (init 2 0)).
Definition demo_full : system (H := toy_eth) :=
  run_section (Enqueue_locked (demo_intent 2)) (accept (demo_intent 2) demo_partial).
Definition demo_stopped : system (H := toy_eth) := run_section Stop_locked demo_partial.

Lemma demo_partial_reachable : reachable 2 0 demo_partial.
Proof. eapply rtc_l; [apply (step_Enqueue (demo_intent 1))|apply rtc_refl]. Qed.

Lemma demo_full_reachable : reachable 2 0 demo_full.
Proof. eapply rtc_r; [apply demo_partial_reachable|apply (step_Enqueue (demo_intent 2))]. Qed.

Lemma demo_stopped_reachable : reachable 2 0 demo_stopped.
Proof. eapply rtc_r; [apply demo_partial_reachable|apply step_Stop]. Qed.

Lemma submitter_batches_witness :
  taken demo_full = [[demo_intent 1; demo_intent 2]] ∧
  accepted demo_full = concat (taken demo_full) ++ buf (sub demo_full).
Proof.
  destruct (submitter_batches 2 0 demo_full demo_full_reachable) as (Ha & _).
  split; [reflexivity|exact Ha].
Defined.

Lemma submitter_retries_once_witness :
  ∃ t, t ∈ inflight demo_full ∧ task_no t = 0%nat ∧ (1 ≤ task_attempt t ≤ 2)%nat.
Proof.
  destruct (submitter_retries_once 2 0 demo_full 0 [demo_intent 1; demo_intent 2]
    demo_full_reachable eq_refl) as [(t & Ht & Hno & _ & Ha & _)|[[Hd _]|[Hd _]]].
  - exists t. split; [exact Ht|]. split; [exact Hno|exact Ha].
  - exfalso. apply elem_of_nil in Hd. exact Hd.
  - exfalso. apply elem_of_nil in Hd. exact Hd.
Defined.

Lemma submitter_timer_flushes_witness :
  ∃ t y1, timer (sub demo_partial) = Some t ∧ (y1 = demo_partial ∨ t ∈ armed (timers demo_partial) ∧ y1 = fire t demo_partial).
Proof.
  destruct (submitter_timer_flushes 2 0 demo_partial demo_partial_reachable)
    as (t & y1 & l1 & l2 & Ht & Hy & _); [discriminate|].
  exists t, y1. split; [exact Ht|exact Hy].
Defined.

Lemma submitter_stop_final_witness :
  let y' := attempt {| task_no := 0; task_batch := [demo_intent 1]; task_attempt := 1 |}
              true [] [] demo_stopped in
  closed (sub y') = true ∧ accepted y' = [demo_intent 1] ∧ delivered y' ++ dropped y' ≡ₚ [0%nat].
Proof.
  destruct (submitter_stop_final 2 0 demo_stopped
    (attempt {| task_no := 0; task_batch := [demo_intent 1]; task_attempt := 1 |}
       true [] [] demo_stopped) demo_stopped_reachable eq_refl) as (Hc & Ha & _ & _ & Hd).
  - apply rtc_once. apply (step_attempt [] _ [] true). reflexivity.
  - split; [exact Hc|]. split; [exact Ha|]. apply Hd. reflexivity.
Defined.
