(* ===== verification/Builder.v ===== *)
(** * The receipt builder

    Models [gateway/internal/core/receipt/builder.go]: [Build] lays out, signs
    and checksums the 112-byte receipt frame (packet C, SNLP tier).

    The frame is one buffer that the function writes into; [put_at] is a copy
    into a slice of it. *)
From S2P Require Export Ingest.
From S2P Require Import Golden.
#[local] Open Scope Z_scope.

Definition PacketCFrameLen : nat := 112.
Definition PacketCBodyStart : nat := 14.
Definition PacketCExecTimeOff : nat := PacketCBodyStart + 2.
Definition PacketCEncTxIDOff : nat := PacketCExecTimeOff + 8.
Definition PacketCEncStatusOff : nat := PacketCEncTxIDOff + 8.
Definition PacketCSigScopeLen : nat := 26.
Definition PacketCSignatureOff : nat := PacketCBodyStart + PacketCSigScopeLen.
Definition PacketCCRCOff : nat := PacketCSignatureOff + SignatureSize.
Definition PacketCTailPadOff : nat := PacketCCRCOff + 4.

Record Inputs := {
  ExecTimeMs : Z;
  EncTxID : Z;
  EncStatus : Z;
  APID : Z;
  SeqCount : Z;
  SeedEd25519 : list byte;
}.

Inductive build_error := SeedSizeError (got : nat).

(** [copy(dst[off:], l)] and [dst[off] = b] for an [off] within [dst]. *)
Definition put_at (off : nat) (l dst : list byte) : list byte :=
  take off dst ++ take (length dst - off) l ++ drop (off + length l) dst.

(** The header written into the 14-byte slice [dst]. *)
Definition writeSNLPHeader (dst : list byte) (apid seqCount bodyLen : Z) : list byte :=
  let dst := <[0%nat := x1d]> dst in
  let dst := <[1%nat := x01]> dst in
  let dst := <[2%nat := xa5]> dst in
  let dst := <[3%nat := xa5]> dst in
  let id := Z.lor 0x0800 (Z.land apid 0x07FF) in
  let dst := <[4%nat := byte_of_Z (Z.shiftr id 8)]> dst in
  let dst := <[5%nat := byte_of_Z id]> dst in
  let seq := Z.lor 0xC000 (Z.land seqCount 0x3FFF) in
  let dst := <[6%nat := byte_of_Z (Z.shiftr seq 8)]> dst in
  let dst := <[7%nat := byte_of_Z seq]> dst in
  let plen := u16 (bodyLen - 1) in
  let dst := <[8%nat := byte_of_Z (Z.shiftr plen 8)]> dst in
  let dst := <[9%nat := byte_of_Z plen]> dst in
  dst.

Section Build.
Context `{Ed25519}.

(** [None] is a panic of [crypto/ed25519]. *)
Definition Build (inp : Inputs) : option (result build_error (list byte)) :=
  if negb (Nat.eqb (length (SeedEd25519 inp)) SeedSize)
  then Some (Err (SeedSizeError (length (SeedEd25519 inp))))
  else
    priv ← NewKeyFromSeed (SeedEd25519 inp);
    let frame := replicate PacketCFrameLen x00 in
    let frame := writeSNLPHeader (take 14 frame) (APID inp) (SeqCount inp)
                   (Z.of_nat PacketCFrameLen - SNLPHeaderLen) ++ drop 14 frame in
    let frame := put_at PacketCExecTimeOff (put_le 8 (ExecTimeMs inp)) frame in
    let frame := put_at PacketCEncTxIDOff (put_le 8 (EncTxID inp)) frame in
    let frame := <[PacketCEncStatusOff := byte_of_Z (EncStatus inp)]> frame in
    let sigScope := take PacketCSigScopeLen (drop PacketCBodyStart frame) in
    sig ← Sign priv sigScope;
    let frame := put_at PacketCSignatureOff (take SignatureSize sig) frame in
    let crc := ChecksumIEEE (take PacketCCRCOff frame) in
    let frame := put_at PacketCCRCOff (put_le 4 crc) frame in
    Some (Ok frame).
End Build.

(** ** What is built *)
Section Spec.
Context `{Ed25519Laws}.

(** The words of the header: version 0, telemetry, secondary header present,
    unsegmented. *)
Definition receipt_header (inp : Inputs) : frame_header :=
  F_Snlp (2 ^ 11 + APID inp mod 2 ^ 11) (3 * 2 ^ 14 + SeqCount inp mod 2 ^ 14) 97.

(** The 26 body bytes the signature covers. *)
Definition receipt_scope (inp : Inputs) : list byte :=
  [x00; x00] ++ put_le 8 (ExecTimeMs inp) ++ put_le 8 (EncTxID inp) ++
  put_le 1 (EncStatus inp) ++ replicate 7 x00.

Definition receipt_covered (inp : Inputs) : list byte :=
  fh_bytes (receipt_header inp) ++ receipt_scope inp ++
  sign_with (SeedEd25519 inp) (receipt_scope inp).

Definition receipt_body (inp : Inputs) : VoidProtocol_PacketCBody :=
  {| PacketC_PadHead := [x00; x00];
     PacketC_ExecTime := ExecTimeMs inp;
     PacketC_EncTxId := EncTxID inp;
     PacketC_EncStatus := EncStatus inp;
     PacketC_PadSig := replicate 7 x00;
     PacketC_Signature := {| Ed25519Signature_Raw :=
       sign_with (SeedEd25519 inp) (receipt_scope inp) |};
     PacketC_Crc32 := ChecksumIEEE (receipt_covered inp);
     PacketC_TailPad := replicate 4 x00 |}.

Definition receipt_frame (inp : Inputs) : frame :=
  {| fr_header := receipt_header inp;
     fr_raw := PacketCBody_bytes (receipt_body inp);
     fr_body := Some (Body_C (receipt_body inp)) |}.

(** The widths of the Go types of the inputs. *)
Definition Inputs_wf (inp : Inputs) : Prop :=
  in_u 64 (ExecTimeMs inp) ∧ in_u 64 (EncTxID inp) ∧ in_u 8 (EncStatus inp) ∧
  in_u 16 (APID inp) ∧ in_u 16 (SeqCount inp).

Lemma put_at_mid off (a b c l : list byte) :
  length a = off → length b = length l → put_at off l (a ++ b ++ c) = a ++ l ++ c.
Proof.
  intros <- Hl. unfold put_at. rewrite take_app_length, !length_app.
  rewrite take_ge by lia. do 2 f_equal.
  rewrite <- drop_drop, drop_app_length. by apply drop_app_exact.
Qed.

Lemma lor_mod_pow2 a b n : 0 <= n → 0 <= b → a = 2 ^ n * (a / 2 ^ n) →
  Z.lor a (Z.land b (2 ^ n - 1)) = a + b mod 2 ^ n.
Proof.
  intros Hn Hb Ha. rewrite land_mask by done.
  assert (Z.land a (b mod 2 ^ n) = 0) as Hl.
  { rewrite Ha, Z.mul_comm, <- Z.shiftl_mul_pow2 by done.
    apply land_shiftl_low; [done|]. apply Z.mod_pos_bound. lia. }
  pose proof (Z.add_lor_land a (b mod 2 ^ n)). lia.
Qed.

Lemma put_be_2 z : put_be 2 z = [byte_of_Z (Z.shiftr z 8); byte_of_Z z].
Proof. unfold put_be. cbn [put_le]. by rewrite Z.shiftr_div_pow2. Qed.

Lemma writeSNLPHeader_bytes apid seq rest :
  0 <= apid → 0 <= seq →
  writeSNLPHeader (replicate 14 x00) apid seq 98 ++ rest =
  fh_bytes (F_Snlp (2 ^ 11 + apid mod 2 ^ 11) (3 * 2 ^ 14 + seq mod 2 ^ 14) 97) ++ rest.
Proof.
  intros Ha Hs. unfold writeSNLPHeader.
  pose proof (lor_mod_pow2 0x0800 apid 11 ltac:(lia) Ha eq_refl) as H1.
  pose proof (lor_mod_pow2 0xC000 seq 14 ltac:(lia) Hs eq_refl) as H2.
  change (2 ^ 11 - 1) with 0x07FF in H1. change (2 ^ 14 - 1) with 0x3FFF in H2.
  rewrite H1, H2. change (u16 (98 - 1)) with 97.
  unfold fh_bytes, fh_fresh, Snlp_bytes, Ccsds_bytes. cbn [SyncWord Ccsds AlignPad
    VersionTypeFlagApid SeqFlagsCount PacketDataLength ccsds_of_words].
  rewrite !put_be_2. done.
Qed.

(** The body of the buffer behind the fields that are signed. *)
Definition receipt_tail : list byte := replicate 64 x00 ++ replicate 4 x00 ++ replicate 4 x00.

Lemma length_receipt_scope inp : length (receipt_scope inp) = 26%nat.
Proof. unfold receipt_scope. by rewrite !length_app, !length_put_le, length_replicate. Qed.

(** The writes of time, transaction and status into the zeroed body. *)
Lemma write_fields inp hd :
  length hd = 14%nat →
  <[PacketCEncStatusOff := byte_of_Z (EncStatus inp)]>
    (put_at PacketCEncTxIDOff (put_le 8 (EncTxID inp))
      (put_at PacketCExecTimeOff (put_le 8 (ExecTimeMs inp))
        (hd ++ drop 14 (replicate PacketCFrameLen x00)))) =
  hd ++ receipt_scope inp ++ receipt_tail.
Proof.
  intros Hhd.
  change (drop 14 (replicate PacketCFrameLen x00)) with
    ([x00; x00] ++ replicate 8 x00 ++ replicate 8 x00 ++ [x00] ++ replicate 7 x00 ++ receipt_tail).
  set (E := put_le 8 (ExecTimeMs inp)). set (T := put_le 8 (EncTxID inp)).
  assert (length E = 8%nat) as HE by apply length_put_le.
  assert (length T = 8%nat) as HT by apply length_put_le.
  rewrite (app_assoc hd [x00; x00]).
  rewrite (put_at_mid PacketCExecTimeOff _ (replicate 8 x00) _ E) by (rewrite ?length_app, ?Hhd, ?HE; done).
  rewrite (app_assoc (hd ++ [x00; x00]) E).
  rewrite (put_at_mid PacketCEncTxIDOff _ (replicate 8 x00) _ T)
    by (rewrite ?length_app, ?Hhd, ?HE, ?HT; done).
  rewrite (app_assoc ((hd ++ [x00; x00]) ++ E) T).
  set (P := ((hd ++ [x00; x00]) ++ E) ++ T).
  assert (length P = 32%nat) as HP by (unfold P; by rewrite !length_app, Hhd, HE, HT).
  cbn [app]. rewrite insert_app_r_alt by (rewrite HP; unfold PacketCEncStatusOff; cbn; lia).
  rewrite HP. change (PacketCEncStatusOff - 32)%nat with 0%nat. cbn [insert list_insert].
  unfold P, receipt_scope. fold E T. by rewrite <- !app_assoc.
Qed.

(** The signature and the checksum written behind them. *)
Lemma write_signature hd scope sig crc :
  length hd = 14%nat → length scope = 26%nat → length sig = 64%nat →
  put_at PacketCSignatureOff sig (hd ++ scope ++ receipt_tail) =
    (hd ++ scope ++ sig) ++ replicate 4 x00 ++ replicate 4 x00 ∧
  put_at PacketCCRCOff (put_le 4 crc) ((hd ++ scope ++ sig) ++ replicate 4 x00 ++ replicate 4 x00) =
    (hd ++ scope ++ sig) ++ put_le 4 crc ++ replicate 4 x00.
Proof.
  intros Hhd Hsc Hsig. split.
  - unfold receipt_tail. rewrite (app_assoc hd).
    rewrite (put_at_mid PacketCSignatureOff _ (replicate 64 x00) _ sig)
      by (rewrite ?length_app, ?Hhd, ?Hsc, ?Hsig; done).
    by rewrite <- !app_assoc.
  - apply put_at_mid; [by rewrite !length_app, Hhd, Hsc, Hsig|by rewrite length_put_le].
Qed.

Lemma Build_frame inp :
  Inputs_wf inp → length (SeedEd25519 inp) = SeedSize →
  Build inp = Some (Ok (frame_bytes (receipt_frame inp))).
Proof.
  intros (He & Ht & Hst & Ha & Hs) Hseed. unfold Build. rewrite Hseed. cbn [Nat.eqb negb SeedSize].
  destruct (NewKeyFromSeed_ok _ Hseed) as (-> & _ & _ & Hsign). cbn [mbind option_bind].
  change (take 14 (replicate PacketCFrameLen x00)) with (replicate 14 x00).
  change (Z.of_nat PacketCFrameLen - SNLPHeaderLen) with 98.
  rewrite writeSNLPHeader_bytes by (unfold in_u in *; lia).
  fold (receipt_header inp). set (hd := fh_bytes (receipt_header inp)).
  assert (length hd = 14%nat) as Hhd by done.
  pose proof (length_receipt_scope inp) as Hsc.
  rewrite (write_fields inp hd Hhd).
  rewrite (drop_app_exact PacketCBodyStart), (take_app_exact PacketCSigScopeLen) by done.
  rewrite Hsign. cbn [mbind option_bind].
  set (sig := sign_with (SeedEd25519 inp) (receipt_scope inp)).
  assert (length sig = 64%nat) as Hsig by by apply length_sign_with.
  rewrite (take_ge sig) by (rewrite Hsig; done).
  destruct (write_signature hd (receipt_scope inp) sig (ChecksumIEEE (receipt_covered inp)) Hhd Hsc Hsig)
    as [-> Hcrc].
  change (hd ++ receipt_scope inp ++ sig) with (receipt_covered inp) in *.
  rewrite (take_app_exact PacketCCRCOff).
  2:{ change (receipt_covered inp) with (hd ++ receipt_scope inp ++ sig).
      by rewrite !length_app, Hhd, Hsc, Hsig. }
  rewrite Hcrc. reflexivity.
Qed.

Lemma receipt_frame_wf inp :
  Inputs_wf inp → length (SeedEd25519 inp) = SeedSize → frame_wf (receipt_frame inp).
Proof.
  intros (He & Ht & Hst & Ha & Hs) Hseed.
  assert (PacketCBody_wf (receipt_body inp)) as Hb.
  { unfold PacketCBody_wf, Ed25519Signature_wf. cbn. rewrite length_sign_with by done.
    split_and!; try done.
    apply word32_lxor; auto using word32_init with wire. }
  split_and!.
  - split; [|done]. pose proof (Z.mod_pos_bound (APID inp) (2 ^ 11)).
    pose proof (Z.mod_pos_bound (SeqCount inp) (2 ^ 14)).
    unfold Ccsds_wf, in_u. cbn [fr_header receipt_frame receipt_header fh_ccsds ccsds_of_words
      VersionTypeFlagApid SeqFlagsCount PacketDataLength]. split_and!; first [done|lia].
  - cbn [fr_raw receipt_frame]. by rewrite length_PacketCBody_bytes.
  - by split.
Qed.

Lemma receipt_words inp :
  spec_version (fh_ccsds (receipt_header inp)) = 0 ∧
  spec_packetType (fh_ccsds (receipt_header inp)) = 0 ∧
  spec_secHeaderFlag (fh_ccsds (receipt_header inp)) = 1 ∧
  spec_apid (fh_ccsds (receipt_header inp)) = APID inp mod 2 ^ 11 ∧
  spec_seqFlags (fh_ccsds (receipt_header inp)) = 3 ∧
  spec_seqCount (fh_ccsds (receipt_header inp)) = SeqCount inp mod 2 ^ 14 ∧
  fh_body_length (receipt_header inp) = 98.
Proof.
  unfold spec_version, spec_packetType, spec_secHeaderFlag, spec_apid, spec_seqFlags,
    spec_seqCount. cbn [receipt_header fh_ccsds ccsds_of_words VersionTypeFlagApid SeqFlagsCount].
  change (2 ^ 11) with 2048. change (2 ^ 14) with 16384. change (2 ^ 12) with 4096.
  change (2 ^ 13) with 8192.
  split_and!; try done; Z.to_euclidean_division_equations; lia.
Qed.

Lemma receipt_bytes_split inp :
  frame_bytes (receipt_frame inp) =
  receipt_covered inp ++ put_le 4 (ChecksumIEEE (receipt_covered inp)) ++ replicate 4 x00.
Proof.
  unfold receipt_covered, receipt_scope, frame_bytes, PacketCBody_bytes. cbn.
  by rewrite <- !app_assoc.
Qed.

Lemma length_receipt_covered inp :
  length (SeedEd25519 inp) = SeedSize → length (receipt_covered inp) = 104%nat.
Proof.
  intros Hs. unfold receipt_covered, receipt_scope.
  by rewrite !length_app, !length_put_le, length_sign_with.
Qed.
End Spec.

(** ** Properties *)
Section Properties.
Context {St : Type} `{KaitaiStreamLaws St} `{Ed25519Laws} `{EthCommon}.
Context {C E : Type} `{GinContextLaws C gin_H} `{!Enqueuer E}.

(** A 112-byte well-formed SNLP frame that carries [inp], with a valid checksum
    and a signature that verifies under the seed's public key. *)
Definition is_receipt (inp : Inputs) (raw : list byte) : Prop :=
  ∃ p b h, length raw = PacketCFrameLen ∧
    VoidProtocol_Read (NewVoidProtocol (NewStream raw : St)) = (Ok tt, p) ∧
    frame_of p = Some {| fr_header := h; fr_raw := drop 14 raw; fr_body := Some (Body_C b) |} ∧
    fh_is_snlp h = true ∧ fh_body_length h = 98 ∧ spec_version (fh_ccsds h) = 0 ∧
    spec_apid (fh_ccsds h) = APID inp mod 2 ^ 11 ∧
    spec_seqCount (fh_ccsds h) = SeqCount inp mod 2 ^ 14 ∧
    PacketC_ExecTime b = ExecTimeMs inp ∧ PacketC_EncTxId b = EncTxID inp ∧
    PacketC_EncStatus b = EncStatus inp ∧
    ValidateFrameCRC32 raw (Z.of_nat PacketCCRCOff) = Ok tt ∧
    verify_with (derive_public (SeedEd25519 inp)) (take 26 (drop 14 raw))
      (Ed25519Signature_Raw (PacketC_Signature b)) = true.

Lemma Build_spec inp :
  Inputs_wf inp → length (SeedEd25519 inp) = SeedSize →
  ∃ raw, Build inp = Some (Ok raw) ∧ is_receipt inp raw.
Proof.
  intros Hin Hseed. pose proof (receipt_frame_wf inp Hin Hseed) as Hwf.
  destruct (Read_frame (St := St) (receipt_frame inp) [] Hwf) as (s & _ & Hread).
  rewrite app_nil_r in Hread.
  destruct (receipt_words inp) as (? & ? & ? & ? & ? & ? & ?).
  assert (drop 14 (frame_bytes (receipt_frame inp)) = fr_raw (receipt_frame inp)) as Hd.
  { by apply drop_app_exact. }
  exists (frame_bytes (receipt_frame inp)).
  split; [by apply Build_frame|]. exists (parsed (receipt_frame inp)
    (be_uint (take 4 (frame_bytes (receipt_frame inp)))) s), (receipt_body inp), (receipt_header inp).
  unfold is_receipt. rewrite frame_of_parsed, Hd. split_and!; try done.
  - rewrite receipt_bytes_split, !length_app, length_receipt_covered, length_put_le by done. done.
  - apply ValidateFrameCRC32_ok_iff. change (Z.of_nat PacketCCRCOff) with 104.
    rewrite receipt_bytes_split.
    pose proof (length_receipt_covered inp Hseed) as Hl.
    rewrite !length_app, Hl, length_put_le. split_and!; [done|cbn; lia|].
    rewrite app_assoc, gslice_prefix by by rewrite length_app, Hl, length_put_le.
    apply crc_residue_iff; [by rewrite length_put_le|].
    apply le_uint_put_le_small, word32_lxor; auto using word32_init with wire.
  - cbn [receipt_body PacketC_Signature Ed25519Signature_Raw].
    assert (take 26 (fr_raw (receipt_frame inp)) = receipt_scope inp) as ->.
    { unfold receipt_scope. cbn [fr_raw receipt_frame]. done. }
    by apply verify_sign_with.
Qed.

(** What the builder emits, the parser reads back: for every seed of the right
    size the result is a 112-byte well-formed SNLP frame whose body holds the
    given time, transaction and status, whose header holds the APID and sequence
    count modulo their widths, whose CRC passes the gate and whose signature
    verifies under the seed's public key over body bytes 0 to 25. *)
Theorem Build_roundtrip inp :
  Inputs_wf inp → length (SeedEd25519 inp) = SeedSize →
  ∃ raw p b h, Build inp = Some (Ok raw) ∧ length raw = PacketCFrameLen ∧
    VoidProtocol_Read (NewVoidProtocol (NewStream raw : St)) = (Ok tt, p) ∧
    frame_of p = Some {| fr_header := h; fr_raw := drop 14 raw; fr_body := Some (Body_C b) |} ∧
    fh_is_snlp h = true ∧ fh_body_length h = 98 ∧ spec_version (fh_ccsds h) = 0 ∧
    spec_apid (fh_ccsds h) = APID inp mod 2 ^ 11 ∧
    spec_seqCount (fh_ccsds h) = SeqCount inp mod 2 ^ 14 ∧
    PacketC_ExecTime b = ExecTimeMs inp ∧ PacketC_EncTxId b = EncTxID inp ∧
    PacketC_EncStatus b = EncStatus inp ∧
    ValidateFrameCRC32 raw (Z.of_nat PacketCCRCOff) = Ok tt ∧
    verify_with (derive_public (SeedEd25519 inp)) (take 26 (drop 14 raw))
      (Ed25519Signature_Raw (PacketC_Signature b)) = true.
Proof.
  intros Hin Hseed. destruct (Build_spec inp Hin Hseed) as (raw & Hb & p & b & h & Hr).
  by exists raw, p, b, h.
Qed.

(** A seed of the wrong size is an error, and is the only one: the builder
    never panics, whatever the inputs. *)
Theorem Build_errors inp :
  is_Some (Build inp) ∧
  (length (SeedEd25519 inp) ≠ SeedSize ↔
   Build inp = Some (Err (SeedSizeError (length (SeedEd25519 inp))))).
Proof.
  unfold Build. destruct (Nat.eqb_spec (length (SeedEd25519 inp)) SeedSize) as [Hs|Hs]; cbn [negb].
  - destruct (NewKeyFromSeed_ok _ Hs) as (-> & _ & _ & Hsign). cbn [mbind option_bind].
    rewrite Hsign. cbn [mbind option_bind]. by split; [eexists|].
  - by split; [eexists|].
Qed.

(** The gateway accepts its own receipts: when the registry holds the seed's
    public key for satellite 100, a built frame is answered with 200. *)
Theorem Build_accepted db rec inp raw (s : handler_state (C := C) (E := E)) :
  Inputs_wf inp → Build inp = Some (Ok raw) →
  db !! 100 = Some rec → PubKeyHex rec = hex_encode (derive_public (SeedEd25519 inp)) →
  IsAborted (h_ctx s) = false →
  IngestPacket (St := St) db (Ok raw) s =
    Some (tt, after_verdict Accept None (success_H (APID inp mod 2 ^ 11) (tier_name true)) s).
Proof.
  intros Hin Hbuild Hrec Hkey Ha.
  assert (length (SeedEd25519 inp) = SeedSize) as Hseed.
  { unfold Build in Hbuild. by destruct (Nat.eqb_spec (length (SeedEd25519 inp)) SeedSize). }
  pose proof (receipt_frame_wf inp Hin Hseed) as Hwf.
  rewrite Build_frame in Hbuild by done. injection Hbuild as <-.
  rewrite <- (app_nil_r (frame_bytes _)), IngestPacket_frame by done. rewrite app_nil_r.
  destruct (receipt_words inp) as (Hv & _ & _ & Hapid & _).
  pose proof (receipt_bytes_split inp) as Hraw. set (raw := frame_bytes _) in *.
  unfold frame_verdict, frame_success. cbn [fr_header receipt_frame]. rewrite Hv, Hapid.
  cbn [Z.eqb body_verdict fr_body payment_intent receipt_frame].
  assert (gslice (Z.of_nat (length raw) - 98) (Z.of_nat (length raw) - 72) raw =
    receipt_scope inp) as ->.
  { assert (length raw = 112%nat) as ->.
    { by rewrite Hraw, !length_app, length_receipt_covered, length_put_le. }
    change (take 26 (drop 14 raw) = receipt_scope inp). reflexivity. }
  unfold sig_ok, registered_key, GetSat. rewrite Hrec. cbn [mbind option_bind].
  rewrite Hkey, hex_decode_encode. cbn [mbind option_bind].
  rewrite decide_True by by apply length_derive_public.
  cbn [receipt_body PacketC_Signature Ed25519Signature_Raw].
  rewrite bool_decide_eq_true_2 by by apply length_sign_with.
  by rewrite verify_sign_with.
Qed.
End Properties.

(** ** Witnesses *)
Definition demo_inputs : Inputs :=
  {| ExecTimeMs := 1710000200000; EncTxID := 1710000100000; EncStatus := 1; APID := 100;
     SeqCount := 20000; SeedEd25519 := demo_seed |}.

Lemma demo_inputs_wf : Inputs_wf demo_inputs.
Proof. unfold Inputs_wf, in_u. cbn. lia. Qed.

Lemma Build_roundtrip_witness :
  ∃ raw b, Build demo_inputs = Some (Ok raw) ∧ length raw = 112%nat ∧
    PacketC_ExecTime b = 1710000200000 ∧ PacketC_EncTxId b = 1710000100000.
Proof.
  destruct (Build_roundtrip (St := ListStream) demo_inputs demo_inputs_wf eq_refl)
    as (raw & p & b & h & Hb & Hl & _ & _ & _ & _ & _ & _ & _ & He & Ht & _).
  exists raw, b. split; [exact Hb|]. split; [exact Hl|]. split; [exact He|exact Ht].
Defined.

Lemma Build_errors_witness :
  Build {| ExecTimeMs := 0; EncTxID := 0; EncStatus := 1; APID := 100; SeqCount := 0;
           SeedEd25519 := replicate 31 x00 |} = Some (Err (SeedSizeError 31)).
Proof. apply (Build_errors {| ExecTimeMs := 0; EncTxID := 0; EncStatus := 1; APID := 100;
  SeqCount := 0; SeedEd25519 := replicate 31 x00 |}). discriminate. Defined.

Lemma Build_accepted_witness :
  ∃ raw s', Build demo_inputs = Some (Ok raw) ∧
    IngestPacket (St := ListStream) seller_db (Ok raw) demo_state = Some (tt, s') ∧
    map fst (tc_responses (h_ctx s')) = [200].
Proof.
  destruct (Build demo_inputs) as [[raw|e]|] eqn:E; try (vm_compute in E; discriminate E).
  eexists raw, _. split; [reflexivity|]. split; [|shelve].
  exact (Build_accepted (St := ListStream) seller_db
    {| SatID := 100; PubKeyHex := hex_encode (derive_public demo_seed); Wallet := ""; Role := "Seller" |}
    demo_inputs raw demo_state demo_inputs_wf E eq_refl eq_refl demo_fresh).
  Unshelve. reflexivity.
Defined.

(** With the signature of the checked-in vector, the builder reproduces it byte
    for byte: layout, header and checksum are those of the reference generator. *)
Definition golden_signer : Ed25519 :=
  {| derive_public seed := take 32 seed;
     sign_with _ _ := take 64 (drop 40 golden_snlp_c);
     verify_with _ _ _ := false |}.

Example Build_golden :
  Build (H := golden_signer)
    {| ExecTimeMs := 1710000100000; EncTxID := 0xDEADBEEFCAFEBABE; EncStatus := 1;
       APID := 100; SeqCount := 0; SeedEd25519 := replicate 32 x00 |} =
  Some (Ok golden_snlp_c).
Proof. vm_compute. reflexivity. Qed.
