(* ===== verification/ReceiptRecord.v ===== *)
(** * Receipt records

    The data of [gateway/internal/core/receipt/store.go]: one settlement with the
    receipt frame sent for it, and the interface of its encoding as a line of the
    file. *)
From S2P Require Export Bytes.
#[local] Open Scope string_scope.
#[local] Open Scope Z_scope.
#[local] Open Scope list_scope.

(** ** Data *)
Record Receipt := {
  PaymentID : string;
  SettlementTxHash : string;
  RecSatID : Z;
  RecAmount : string;
  RecAssetID : Z;
  RecWallet : string;
  PacketCHex : string;
  RecBlockNumber : Z;
  TsMs : Z;
  DispatchStatus : string;
}.

#[export] Instance Receipt_eq_dec : EqDecision Receipt.
Proof. solve_decision. Defined.

Definition StatusPending : string := "PENDING".
Definition StatusDispatched : string := "DISPATCHED".

(** [rec.DispatchStatus = s] *)
Definition set_DispatchStatus (s : string) (r : Receipt) : Receipt :=
  {| PaymentID := PaymentID r; SettlementTxHash := SettlementTxHash r; RecSatID := RecSatID r;
     RecAmount := RecAmount r; RecAssetID := RecAssetID r; RecWallet := RecWallet r;
     PacketCHex := PacketCHex r; RecBlockNumber := RecBlockNumber r; TsMs := TsMs r;
     DispatchStatus := s |}.

(** [if rec.DispatchStatus == "" { rec.DispatchStatus = StatusPending }] *)
Definition default_pending (r : Receipt) : Receipt :=
  if String.eqb (DispatchStatus r) "" then set_DispatchStatus StatusPending r else r.

(** ** The codec of a line *)
Class RecordCodec := {
  Marshal : Receipt → option (list byte);
  Unmarshal : list byte → option Receipt;
  (** The records the codec represents faithfully. *)
  codec_ok : Receipt → Prop;
}.

Definition newline : byte := x0a.
Definition carriage_return : byte := x0d.
Definition max_token : nat := 2 ^ 20.

(** The facts about [encoding/json] the store relies on: a faithful record
    marshals to one line that fits the scanner and unmarshals to the record; its
    status may change; and no proper prefix of the line is a JSON value. *)
Class RecordCodecLaws `{RecordCodec} : Prop := {
  codec_roundtrip r : codec_ok r →
    ∃ l, Marshal r = Some l ∧ Unmarshal l = Some r ∧ (newline ∉ l) ∧
         (list.last l ≠ Some carriage_return) ∧ (length l < max_token)%nat;
  codec_dispatched r : codec_ok r → codec_ok (set_DispatchStatus StatusDispatched r);
  codec_pending r : codec_ok r → codec_ok (set_DispatchStatus StatusPending r);
  codec_prefix r l k : codec_ok r → Marshal r = Some l → (k < length l)%nat →
    Unmarshal (take k l) = None;
}.
