(* ===== verification/Json.v ===== *)
(** * JSON: the part of [encoding/json] the receipt store uses

    [MarshalRecord] is [json.Marshal] of a [Record]: its fields in the order of the
    struct, [dispatch_status] only if it is not empty, strings quoted with the escapes
    Go writes. [UnmarshalRecord] is [json.Unmarshal] into a [Record]: a parser of the
    JSON grammar with Go's limit on nesting, then the fields it knows, matched without
    regard to case, later ones over earlier ones, [null] changing nothing, values of
    another type or range being errors.

    [json_codec] is the instance of the interface [RecordCodec] they give, and the
    laws of that interface are proved for it. *)
From stdpp Require Import pretty.
From S2P Require Export ReceiptRecord.
#[local] Open Scope Z_scope.
#[local] Open Scope list_scope.

(** ** Characters *)
Definition bytes_of (s : string) : list byte := String.list_byte_of_string s.

Definition in_range (lo hi : Z) (b : byte) : bool :=
  (lo <=? byte_to_Z b) && (byte_to_Z b <=? hi).
Definition is_space (b : byte) : bool := existsb (Byte.eqb b) [x20; x09; x0a; x0d].
Definition is_digit : byte → bool := in_range 48 57.
Definition hex_value (b : byte) : option Z :=
  if in_range 48 57 b then Some (byte_to_Z b - 48)
  else if in_range 97 102 b then Some (byte_to_Z b - 87)
  else if in_range 65 70 b then Some (byte_to_Z b - 55)
  else None.

Fixpoint skip_space (l : list byte) : list byte :=
  match l with
  | b :: t => if is_space b then skip_space t else l
  | [] => []
  end.

(** The length of the UTF-8 sequence at the head of [l], 0 if it is not one
    ([utf8.DecodeRune] with size 1 on a byte from 0x80 on). *)
Definition utf8_size (l : list byte) : nat :=
  let cont := in_range 0x80 0xBF in
  match l with
  | a :: b :: t =>
      if in_range 0xC2 0xDF a && cont b then 2%nat else
      match t with
      | c :: t =>
          if ((Byte.eqb a xe0 && in_range 0xA0 0xBF b) || (in_range 0xE1 0xEC a && cont b) ||
              (Byte.eqb a xed && in_range 0x80 0x9F b) || (in_range 0xEE 0xEF a && cont b)) && cont c
          then 3%nat else
          match t with
          | d :: _ =>
              if ((Byte.eqb a xf0 && in_range 0x90 0xBF b) || (in_range 0xF1 0xF3 a && cont b) ||
                  (Byte.eqb a xf4 && in_range 0x80 0x8F b)) && cont c && cont d
              then 4%nat else O
          | [] => O
          end
      | [] => O
      end
  | _ => O
  end.

(** [utf8.EncodeRune] of a rune that is not a surrogate half. *)
Definition utf8_encode (r : Z) : list byte :=
  if r <? 0x80 then [byte_of_Z r]
  else if r <? 0x800 then [byte_of_Z (0xC0 + r / 64); byte_of_Z (0x80 + r mod 64)]
  else if r <? 0x10000 then
    [byte_of_Z (0xE0 + r / 4096); byte_of_Z (0x80 + r / 64 mod 64); byte_of_Z (0x80 + r mod 64)]
  else [byte_of_Z (0xF0 + r / 262144); byte_of_Z (0x80 + r / 4096 mod 64);
        byte_of_Z (0x80 + r / 64 mod 64); byte_of_Z (0x80 + r mod 64)].

Definition replacement_char : list byte := [xef; xbf; xbd].

(** ** Writing *)

(** [appendString] on a byte below 0x80. *)
Definition escape_ascii (b : byte) : list byte :=
  let hex (z : Z) := byte_of_Z (if z <? 10 then 48 + z else 87 + z) in
  if Byte.eqb b x5c || Byte.eqb b x22 then [x5c; b]
  else if Byte.eqb b x08 then [x5c; x62]
  else if Byte.eqb b x0c then [x5c; x66]
  else if Byte.eqb b x0a then [x5c; x6e]
  else if Byte.eqb b x0d then [x5c; x72]
  else if Byte.eqb b x09 then [x5c; x74]
  else if in_range 0 31 b || Byte.eqb b x3c || Byte.eqb b x3e || Byte.eqb b x26 then
    [x5c; x75; x30; x30; hex (byte_to_Z b / 16); hex (byte_to_Z b mod 16)]
  else [b].

(** The content of a string literal; the next [n] bytes are the rest of a
    character, to be copied or dropped. *)
Fixpoint escape (n : nat) (copy : bool) (l : list byte) : list byte :=
  match l with
  | [] => []
  | b :: t =>
      match n with
      | S n => if copy then b :: escape n copy t else escape n copy t
      | O =>
          if byte_to_Z b <? 0x80 then escape_ascii b ++ escape 0 true t else
          match utf8_size l with
          | O => bytes_of "\ufffd" ++ escape 0 true t
          | S n =>
              if bool_decide (take 3 l = [xe2; x80; xa8]) then bytes_of "\u2028" ++ escape n false t
              else if bool_decide (take 3 l = [xe2; x80; xa9])
              then bytes_of "\u2029" ++ escape n false t
              else b :: escape n true t
          end
      end
  end.

Definition write_string (s : string) : list byte := [x22] ++ escape 0 true (bytes_of s) ++ [x22].

(** Decimal digits, the lowest first; [n] bounds their number. *)
Fixpoint digits_low (n : nat) (z : Z) : list byte :=
  match n with
  | O => []
  | S n =>
      if z <? 10 then [byte_of_Z (48 + z)]
      else byte_of_Z (48 + z mod 10) :: digits_low n (z / 10)
  end.

(** [strconv.AppendInt] and [AppendUint] in base 10, on 64 bits. *)
Definition write_int (z : Z) : list byte :=
  if z <? 0 then [x2d] ++ reverse (digits_low 20 (- z)) else reverse (digits_low 20 z).

Definition write_member (key : string) (v : list byte) : list byte :=
  [x22] ++ bytes_of key ++ [x22; x3a] ++ v.

Definition record_members (r : Receipt) : list (string * list byte) :=
  [("payment_id", write_string (PaymentID r));
   ("settlement_tx_hash", write_string (SettlementTxHash r));
   ("sat_id", write_int (RecSatID r));
   ("amount", write_string (RecAmount r));
   ("asset_id", write_int (RecAssetID r));
   ("wallet", write_string (RecWallet r));
   ("packet_c_hex", write_string (PacketCHex r));
   ("block_number", write_int (RecBlockNumber r));
   ("ts_ms", write_int (TsMs r))]%string ++
  (if String.eqb (DispatchStatus r) "" then []
   else [("dispatch_status"%string, write_string (DispatchStatus r))]).

(** The members after the opening brace, separated by commas, and the closing brace. *)
Fixpoint write_members (ms : list (string * list byte)) : list byte :=
  match ms with
  | [] => [x7d]
  | [(k, v)] => write_member k v ++ [x7d]
  | (k, v) :: ms => write_member k v ++ [x2c] ++ write_members ms
  end.

Definition MarshalRecord (r : Receipt) : list byte := [x7b] ++ write_members (record_members r).

(** ** Reading: the grammar *)

(** The content of a string literal up to the closing quote, escapes checked and
    kept. *)
Fixpoint scan_string (l : list byte) : option (list byte * list byte) :=
  let push p (x : option (list byte * list byte)) := '(raw, r) ← x; Some (p ++ raw, r) in
  match l with
  | [] => None
  | b :: t =>
      if Byte.eqb b x22 then Some ([], t)
      else if Byte.eqb b x5c then
        match t with
        | [] => None
        | e :: t =>
            if existsb (Byte.eqb e) (bytes_of "\/bfnrt" ++ [x22]) then push [x5c; e] (scan_string t)
            else if Byte.eqb e x75 then
              match t with
              | h1 :: h2 :: h3 :: h4 :: t =>
                  if forallb (λ h, bool_decide (is_Some (hex_value h))) [h1; h2; h3; h4]
                  then push [x5c; x75; h1; h2; h3; h4] (scan_string t) else None
              | _ => None
              end
            else None
        end
      else if in_range 0 31 b then None
      else push [b] (scan_string t)
  end.

Fixpoint span_digits (l : list byte) : list byte * list byte :=
  match l with
  | b :: t => if is_digit b then let '(d, r) := span_digits t in (b :: d, r) else ([], l)
  | [] => ([], [])
  end.

(** One or more digits. *)
Definition scan_digits (l : list byte) : option (list byte * list byte) :=
  match span_digits l with
  | ([], _) => None
  | (d, r) => Some (d, r)
  end.

Definition scan_int (l : list byte) : option (list byte * list byte) :=
  match l with
  | b :: t => if Byte.eqb b x30 then Some ([b], t) else scan_digits l
  | [] => None
  end.

Definition scan_frac (l : list byte) : option (list byte * list byte) :=
  match l with
  | b :: t =>
      if Byte.eqb b x2e then '(d, r) ← scan_digits t; Some (b :: d, r) else Some ([], l)
  | [] => Some ([], [])
  end.

Definition scan_exp (l : list byte) : option (list byte * list byte) :=
  match l with
  | b :: t =>
      if Byte.eqb b x65 || Byte.eqb b x45 then
        match t with
        | s :: t' =>
            if Byte.eqb s x2b || Byte.eqb s x2d
            then '(d, r) ← scan_digits t'; Some (b :: s :: d, r)
            else '(d, r) ← scan_digits t; Some (b :: d, r)
        | [] => None
        end
      else Some ([], l)
  | [] => Some ([], [])
  end.

(** The text of a number. *)
Definition scan_number (l : list byte) : option (list byte * list byte) :=
  let '(sign, l) := match l with
                    | b :: t => if Byte.eqb b x2d then ([b], t) else ([], l)
                    | [] => ([], [])
                    end in
  '(i, l) ← scan_int l;
  '(f, l) ← scan_frac l;
  '(e, l) ← scan_exp l;
  Some (sign ++ i ++ f ++ e, l).

#[warnings="-register-all"]
Inductive json :=
  | J_null
  | J_bool (b : bool)
  | J_number (lit : list byte)
  | J_string (raw : list byte)
  | J_array (vs : list json)
  | J_object (ms : list (list byte * json)).

Definition strip_prefix (p l : list byte) : option (list byte) :=
  if bool_decide (take (length p) l = p) then Some (drop (length p) l) else None.

(** A value at the head of the input, and the input after it. [n] is fuel for the
    recursion; [d] is the nesting still allowed, of which each bracket takes one. *)
Fixpoint parse_value (n d : nat) (l : list byte) : option (json * list byte) :=
  match n with
  | O => None
  | S n =>
      match skip_space l with
      | [] => None
      | b :: t =>
          if Byte.eqb b x7b then
            match d with
            | O => None
            | S d =>
                match skip_space t with
                | [] => None
                | c :: t' =>
                    if Byte.eqb c x7d then Some (J_object [], t') else
                    '(ms, r) ← parse_members n d t; Some (J_object ms, r)
                end
            end
          else if Byte.eqb b x5b then
            match d with
            | O => None
            | S d =>
                match skip_space t with
                | [] => None
                | c :: t' =>
                    if Byte.eqb c x5d then Some (J_array [], t') else
                    '(vs, r) ← parse_elements n d t; Some (J_array vs, r)
                end
            end
          else if Byte.eqb b x22 then '(raw, r) ← scan_string t; Some (J_string raw, r)
          else if Byte.eqb b x6e then r ← strip_prefix (bytes_of "ull") t; Some (J_null, r)
          else if Byte.eqb b x74 then r ← strip_prefix (bytes_of "rue") t; Some (J_bool true, r)
          else if Byte.eqb b x66 then r ← strip_prefix (bytes_of "alse") t; Some (J_bool false, r)
          else '(lit, r) ← scan_number (b :: t); Some (J_number lit, r)
      end
  end
with parse_members (n d : nat) (l : list byte) : option (list (list byte * json) * list byte) :=
  match n with
  | O => None
  | S n =>
      match skip_space l with
      | q :: t =>
          if Byte.eqb q x22 then
            '(k, t) ← scan_string t;
            match skip_space t with
            | c :: t =>
                if Byte.eqb c x3a then
                  '(v, t) ← parse_value n d t;
                  match skip_space t with
                  | c :: t =>
                      if Byte.eqb c x2c then '(ms, r) ← parse_members n d t; Some ((k, v) :: ms, r)
                      else if Byte.eqb c x7d then Some ([(k, v)], t)
                      else None
                  | [] => None
                  end
                else None
            | [] => None
            end
          else None
      | [] => None
      end
  end
with parse_elements (n d : nat) (l : list byte) : option (list json * list byte) :=
  match n with
  | O => None
  | S n =>
      '(v, t) ← parse_value n d l;
      match skip_space t with
      | c :: t =>
          if Byte.eqb c x2c then '(vs, r) ← parse_elements n d t; Some (v :: vs, r)
          else if Byte.eqb c x5d then Some ([v], t)
          else None
      | [] => None
      end
  end.

Definition maxNestingDepth : nat := Z.to_nat 10000.

(** A whole document, with fuel [n]; twice its length is enough
    ([unmarshal_terminates]). *)
Definition parse_document (n : nat) (l : list byte) : option json :=
  '(v, r) ← parse_value n maxNestingDepth l;
  match skip_space r with [] => Some v | _ => None end.

Definition parse_json (l : list byte) : option json := parse_document (2 * length l + 2) l.

(** ** Reading: strings, numbers and records *)

(** The four hexadecimal digits after [\u]. *)
Definition hex4 (a b c d : byte) : Z :=
  let h x := default 0 (hex_value x) in 4096 * h a + 256 * h b + 16 * h c + h d.

Definition unescape_char (e : byte) : byte :=
  if Byte.eqb e x62 then x08 else if Byte.eqb e x66 then x0c else if Byte.eqb e x6e then x0a
  else if Byte.eqb e x72 then x0d else if Byte.eqb e x74 then x09 else e.

(** The string a scanned literal stands for; the next [n] bytes are the rest of a
    UTF-8 sequence. *)
Fixpoint unquote (n : nat) (l : list byte) : list byte :=
  match l with
  | [] => []
  | b :: t =>
      match n with
      | S n => b :: unquote n t
      | O =>
          if Byte.eqb b x5c then
            match t with
            | [] => []
            | e :: t =>
                if Byte.eqb e x75 then
                  match t with
                  | h1 :: h2 :: h3 :: h4 :: t =>
                      let rr := hex4 h1 h2 h3 h4 in
                      if (0xD800 <=? rr) && (rr <? 0xE000) then
                        match t with
                        | b' :: u' :: g1 :: g2 :: g3 :: g4 :: t' =>
                            let rr1 := hex4 g1 g2 g3 g4 in
                            if Byte.eqb b' x5c && Byte.eqb u' x75 && (rr <? 0xDC00) &&
                               (0xDC00 <=? rr1) && (rr1 <? 0xE000)
                            then utf8_encode (0x10000 + (rr - 0xD800) * 1024 + (rr1 - 0xDC00)) ++
                                 unquote 0 t'
                            else replacement_char ++ unquote 0 t
                        | _ => replacement_char ++ unquote 0 t
                        end
                      else utf8_encode rr ++ unquote 0 t
                  | _ => []
                  end
                else unescape_char e :: unquote 0 t
            end
          else if byte_to_Z b <? 0x80 then b :: unquote 0 t
          else match utf8_size l with
               | O => replacement_char ++ unquote 0 t
               | S n => b :: unquote n t
               end
      end
  end.

(** [strconv.ParseUint] and [ParseInt] in base 10, and the check that the value fits
    the field. *)
Definition digits_value (l : list byte) : Z :=
  foldl (λ acc b, acc * 10 + (byte_to_Z b - 48)) 0 l.

Definition read_uint (bits : Z) (lit : list byte) : option Z :=
  if forallb is_digit lit && negb (Nat.eqb (length lit) 0) then
    let z := digits_value lit in if z <? 2 ^ bits then Some z else None
  else None.

Definition read_int64 (lit : list byte) : option Z :=
  match lit with
  | b :: t =>
      if Byte.eqb b x2d then
        z ← read_uint 64 t; if z <=? 2 ^ 63 then Some (- z) else None
      else read_uint 63 lit
  | [] => None
  end.

Inductive field :=
  | F_PaymentID | F_SettlementTxHash | F_SatID | F_Amount | F_AssetID | F_Wallet | F_PacketCHex
  | F_BlockNumber | F_TsMs | F_DispatchStatus.

Definition fields : list (string * field) :=
  [("payment_id", F_PaymentID); ("settlement_tx_hash", F_SettlementTxHash); ("sat_id", F_SatID);
   ("amount", F_Amount); ("asset_id", F_AssetID); ("wallet", F_Wallet);
   ("packet_c_hex", F_PacketCHex); ("block_number", F_BlockNumber); ("ts_ms", F_TsMs);
   ("dispatch_status", F_DispatchStatus)]%string.

(** [foldName]: upper case; beyond ASCII only the long s and the Kelvin sign fold to
    letters of a field name. *)
Fixpoint fold_name (l : list byte) : list byte :=
  match l with
  | [] => []
  | b :: t =>
      if in_range 97 122 b then byte_of_Z (byte_to_Z b - 32) :: fold_name t else
      match b, t with
      | xc5, xbf :: t => x53 :: fold_name t
      | xe2, x84 :: xaa :: t => x4b :: fold_name t
      | _, _ => b :: fold_name t
      end
  end.

Definition find_field (key : list byte) : option field :=
  snd <$> (snd <$> list_find (λ f, fold_name (bytes_of f.1) = fold_name key) fields).

Definition string_value (raw : list byte) : string := String.string_of_list_byte (unquote 0 raw).

(** Store a value into a field; [None] is an [UnmarshalTypeError]. *)
Definition set_field (f : field) (v : json) (r : Receipt) : option Receipt :=
  let upd p h s a i w c b t d :=
    {| PaymentID := p; SettlementTxHash := h; RecSatID := s; RecAmount := a; RecAssetID := i;
       RecWallet := w; PacketCHex := c; RecBlockNumber := b; TsMs := t; DispatchStatus := d |} in
  let '(Build_Receipt p h s a i w c b t d) := r in
  match f, v with
  | _, J_null => Some r
  | F_PaymentID, J_string x => Some (upd (string_value x) h s a i w c b t d)
  | F_SettlementTxHash, J_string x => Some (upd p (string_value x) s a i w c b t d)
  | F_SatID, J_number x => z ← read_uint 32 x; Some (upd p h z a i w c b t d)
  | F_Amount, J_string x => Some (upd p h s (string_value x) i w c b t d)
  | F_AssetID, J_number x => z ← read_uint 16 x; Some (upd p h s a z w c b t d)
  | F_Wallet, J_string x => Some (upd p h s a i (string_value x) c b t d)
  | F_PacketCHex, J_string x => Some (upd p h s a i w (string_value x) b t d)
  | F_BlockNumber, J_number x => z ← read_uint 64 x; Some (upd p h s a i w c z t d)
  | F_TsMs, J_number x => z ← read_int64 x; Some (upd p h s a i w c b z d)
  | F_DispatchStatus, J_string x => Some (upd p h s a i w c b t (string_value x))
  | _, _ => None
  end.

Fixpoint set_members (ms : list (list byte * json)) (r : Receipt) : option Receipt :=
  match ms with
  | [] => Some r
  | (k, v) :: ms =>
      r ← match find_field (unquote 0 k) with Some f => set_field f v r | None => Some r end;
      set_members ms r
  end.

Definition zero_record : Receipt :=
  {| PaymentID := ""; SettlementTxHash := ""; RecSatID := 0; RecAmount := ""; RecAssetID := 0;
     RecWallet := ""; PacketCHex := ""; RecBlockNumber := 0; TsMs := 0; DispatchStatus := "" |}.

Definition unmarshal_value (v : option json) : option Receipt :=
  match v with
  | Some (J_object ms) => set_members ms zero_record
  | Some J_null => Some zero_record
  | _ => None
  end.

Definition UnmarshalRecord (l : list byte) : option Receipt := unmarshal_value (parse_json l).

(** ** The codec *)
Definition ascii_string (s : string) : Prop := Forall (λ b, byte_to_Z b < 0x80) (bytes_of s).

(** The records it represents: of the widths of the struct, in ASCII, and short
    enough for a line. *)
Definition json_ok (r : Receipt) : Prop :=
  Forall ascii_string [PaymentID r; SettlementTxHash r; RecAmount r; RecWallet r; PacketCHex r;
                       DispatchStatus r] ∧
  in_u 32 (RecSatID r) ∧ in_u 16 (RecAssetID r) ∧ in_u 64 (RecBlockNumber r) ∧ in_s 64 (TsMs r) ∧
  Z.of_nat (String.length (PaymentID r) + String.length (SettlementTxHash r) +
            String.length (RecAmount r) + String.length (RecWallet r) +
            String.length (PacketCHex r)) <= 100000 ∧
  Z.of_nat (String.length (DispatchStatus r)) <= 100.

Definition json_codec : RecordCodec := {|
  Marshal r := Some (MarshalRecord r);
  Unmarshal := UnmarshalRecord;
  codec_ok := json_ok;
|}.

#[export] Instance ascii_string_dec s : Decision (ascii_string s).
Proof. unfold ascii_string. apply _. Defined.
#[export] Instance json_ok_dec r : Decision (json_ok r).
Proof. unfold json_ok, in_u, in_s. apply _. Defined.

(** Examples are written with apostrophes for the quotes. *)
Definition quoted (s : string) : list byte :=
  (λ b, if Byte.eqb b x27 then x22 else b) <$> bytes_of s.

(** A line from before [dispatch_status] existed, edited by hand. *)
Example legacy_line :
  UnmarshalRecord (quoted "{ 'payment_id': '7', 'settlement_tx_hash':'0x\u0061b',
    'Sat_ID':3405691582, 'amount':null, 'extra':[1,{'a':-0.5e+3}], 'ts_ms':-1 }") =
  Some {| PaymentID := "7"; SettlementTxHash := "0xab"; RecSatID := 3405691582; RecAmount := "";
          RecAssetID := 0; RecWallet := ""; PacketCHex := ""; RecBlockNumber := 0; TsMs := -1;
          DispatchStatus := "" |}.
Proof. vm_compute. reflexivity. Qed.

Example unmarshal_errors :
  UnmarshalRecord <$>
    [quoted "{'sat_id':4294967296}"; quoted "{'sat_id':'7'}"; quoted "{'amount':7}";
     quoted "{'ts_ms':1.0}"; quoted "{'sat_id':07}"; quoted "{'amount':'7'"; quoted "[]"; []] =
  replicate 8 None.
Proof. vm_compute. reflexivity. Qed.

(** ** More input after a value changes nothing *)
Lemma skip_space_app l x :
  skip_space l ≠ [] → skip_space (l ++ x) = skip_space l ++ x.
Proof.
  induction l as [|b t IH]; [done|]. cbn [skip_space app]. by destruct (is_space b).
Qed.

Lemma scan_string_app l x raw r :
  scan_string l = Some (raw, r) → scan_string (l ++ x) = Some (raw, r ++ x).
Proof.
  revert raw r. induction l as [l IH] using list_length_ind. intros raw r.
  destruct l as [|b t]; [done|]. cbn [scan_string app].
  assert (∀ p t' raw r, (length t' < length (b :: t))%nat →
    ('(raw, r) ← scan_string t'; Some (p ++ raw, r)) = Some (raw, r) →
    ('(raw, r) ← scan_string (t' ++ x); Some (p ++ raw, r)) = Some (raw, r ++ x)) as Hpush.
  { intros p t' raw' r' Hl. destruct (scan_string t') as [[raw1 r1]|] eqn:E; [|done].
    cbn [mbind option_bind]. intros [= <- <-]. by rewrite (IH t' Hl _ _ E). }
  destruct (Byte.eqb b x22); [by intros [= <- <-]|].
  destruct (Byte.eqb b x5c).
  - destruct t as [|e t]; [done|]. cbn [app].
    destruct (existsb _ _); [apply (Hpush [x5c; e]); cbn; lia|].
    destruct (Byte.eqb e x75); [|done].
    destruct t as [|h1 [|h2 [|h3 [|h4 t]]]]; try done. cbn [app].
    destruct (forallb _ _); [|done].
    apply (Hpush [x5c; x75; h1; h2; h3; h4]). cbn. lia.
  - destruct (in_range 0 31 b); [done|]. apply (Hpush [b]). cbn. lia.
Qed.

Lemma span_digits_app l x d r :
  span_digits l = (d, r) → r ≠ [] → span_digits (l ++ x) = (d, r ++ x).
Proof.
  revert d. induction l as [|b t IH]; intros d; cbn [span_digits app]; [by intros [= <- <-]|].
  destruct (is_digit b); [|by intros [= <- <-]].
  destruct (span_digits t) as [d' r']. intros [= <- <-] Hr. by rewrite (IH d').
Qed.

Lemma scan_digits_app l x d r :
  scan_digits l = Some (d, r) → r ≠ [] → scan_digits (l ++ x) = Some (d, r ++ x).
Proof.
  unfold scan_digits. destruct (span_digits l) as [d' r'] eqn:E. intros Hd Hr.
  destruct d' as [|b d']; [done|]. injection Hd as <- <-.
  by rewrite (span_digits_app _ _ _ _ E Hr).
Qed.

Lemma scan_int_app l x d r :
  scan_int l = Some (d, r) → r ≠ [] → scan_int (l ++ x) = Some (d, r ++ x).
Proof.
  destruct l as [|b t]; [done|]. cbn [scan_int app].
  destruct (Byte.eqb b x30); [by intros [= <- <-]|]. apply (scan_digits_app (b :: t)).
Qed.

Lemma scan_frac_app l x d r :
  scan_frac l = Some (d, r) → r ≠ [] → scan_frac (l ++ x) = Some (d, r ++ x).
Proof.
  destruct l as [|b t]; [by intros [= <- <-]|]. cbn [scan_frac app].
  destruct (Byte.eqb b x2e); [|by intros [= <- <-]].
  destruct (scan_digits t) as [[d' r']|] eqn:E; [|done]. cbn [mbind option_bind].
  intros [= <- <-] Hr. by rewrite (scan_digits_app _ _ _ _ E Hr).
Qed.

Lemma scan_exp_app l x d r :
  scan_exp l = Some (d, r) → r ≠ [] → scan_exp (l ++ x) = Some (d, r ++ x).
Proof.
  destruct l as [|b t]; [by intros [= <- <-]|]. cbn [scan_exp app].
  destruct (Byte.eqb b x65 || Byte.eqb b x45); [|by intros [= <- <-]].
  destruct t as [|s t]; [done|]. cbn [app]. destruct (Byte.eqb s x2b || Byte.eqb s x2d).
  - destruct (scan_digits t) as [[d' r']|] eqn:E; [|done]. cbn [mbind option_bind].
    intros [= <- <-] Hr. by rewrite (scan_digits_app _ _ _ _ E Hr).
  - destruct (scan_digits (s :: t)) as [[d' r']|] eqn:E; [|done]. cbn [mbind option_bind].
    intros [= <- <-] Hr. pose proof (scan_digits_app _ x _ _ E Hr) as Ha. cbn [app] in Ha.
    by rewrite Ha.
Qed.

(** A part of a number that leaves nothing has nothing after it either. *)
Lemma scan_frac_nil l d r : scan_frac l = Some (d, r) → r ≠ [] → l ≠ [].
Proof. intros E Hr ->. by injection E as <- <-. Qed.
Lemma scan_exp_nil l d r : scan_exp l = Some (d, r) → r ≠ [] → l ≠ [].
Proof. intros E Hr ->. by injection E as <- <-. Qed.

Lemma scan_number_app l x lit r :
  scan_number l = Some (lit, r) → r ≠ [] → scan_number (l ++ x) = Some (lit, r ++ x).
Proof.
  destruct l as [|b t]; [done|]. unfold scan_number. cbn [app].
  set (sl := if Byte.eqb b x2d then ([b], t) else ([], b :: t)).
  assert ((if Byte.eqb b x2d then ([b], t ++ x) else ([], b :: t ++ x)) = (sl.1, sl.2 ++ x)) as ->
    by (unfold sl; by destruct (Byte.eqb b x2d)).
  destruct sl as [sign l]. cbn [fst snd].
  destruct (scan_int l) as [[i l1]|] eqn:Ei; [|done]. cbn [mbind option_bind].
  destruct (scan_frac l1) as [[f l2]|] eqn:Ef; [|done]. cbn [mbind option_bind].
  destruct (scan_exp l2) as [[e l3]|] eqn:Ee; [|done]. cbn [mbind option_bind].
  intros [= <- <-] Hr.
  pose proof (scan_exp_nil _ _ _ Ee Hr) as H2. pose proof (scan_frac_nil _ _ _ Ef H2) as H1.
  rewrite (scan_int_app _ _ _ _ Ei H1). cbn [mbind option_bind].
  rewrite (scan_frac_app _ _ _ _ Ef H2). cbn [mbind option_bind].
  by rewrite (scan_exp_app _ _ _ _ Ee Hr).
Qed.

Lemma strip_prefix_app p l x r : strip_prefix p l = Some r → strip_prefix p (l ++ x) = Some (r ++ x).
Proof.
  unfold strip_prefix. case_bool_decide as Hp; [|done]. intros [= <-].
  assert (length p ≤ length l)%nat as Hl.
  { apply (f_equal length) in Hp. rewrite length_take in Hp. lia. }
  by rewrite bool_decide_eq_true_2; rewrite ?take_app_le, ?drop_app_le by done.
Qed.

Definition is_number (v : json) : bool := match v with J_number _ => true | _ => false end.

(** What a successful parse of the head of [l] says about longer inputs. *)
Definition stable {A} (p : list byte → option (A * list byte)) (num : A → bool) : Prop :=
  ∀ l x a r, p l = Some (a, r) → r ≠ [] ∨ num a = false → p (l ++ x) = Some (a, r ++ x).

Lemma bracket_app {A} (p : list byte → option (A * list byte)) close empty (mk : A → json) t x a r :
  let read t := match skip_space t with
                | [] => None
                | c :: t' => if Byte.eqb c close then Some (empty, t')
                             else '(ms, r) ← p t; Some (mk ms, r)
                end in
  stable p (λ _, false) → read t = Some (a, r) → read (t ++ x) = Some (a, r ++ x).
Proof.
  cbn beta zeta. intros Hp. destruct (skip_space t) as [|c t'] eqn:Et; [done|].
  rewrite skip_space_app, Et by (by rewrite Et). cbn [app].
  destruct (Byte.eqb c close); [by intros [= <- <-]|].
  destruct (p t) as [[ms r']|] eqn:Em; [|done]. cbn [mbind option_bind].
  intros [= <- <-]. by rewrite (Hp _ x _ _ Em) by by right.
Qed.

Lemma literal_app p (v : json) t x a r :
  (r ← strip_prefix p t; Some (v, r)) = Some (a, r) →
  (r ← strip_prefix p (t ++ x); Some (v, r)) = Some (a, r ++ x).
Proof.
  destruct (strip_prefix p t) as [r'|] eqn:Es; [|done]. intros [= <- <-].
  by rewrite (strip_prefix_app _ _ _ _ Es).
Qed.

Lemma parse_value_app n d :
  (∀ d, stable (parse_members n d) (λ _, false)) →
  (∀ d, stable (parse_elements n d) (λ _, false)) → stable (parse_value (S n) d) is_number.
Proof.
  intros Hm He l x a r. cbn [parse_value]. destruct (skip_space l) as [|b t] eqn:El; [done|].
  rewrite skip_space_app, El by (by rewrite El). cbn [app].
  destruct (Byte.eqb b x7b).
  { destruct d as [|d]; [done|]. intros E _. by apply bracket_app. }
  destruct (Byte.eqb b x5b).
  { destruct d as [|d]; [done|]. intros E _. by apply bracket_app. }
  destruct (Byte.eqb b x22).
  { destruct (scan_string t) as [[raw r']|] eqn:Es; [|done]. intros [= <- <-] _.
    by rewrite (scan_string_app _ _ _ _ Es). }
  destruct (Byte.eqb b x6e); [intros E _; by apply literal_app|].
  destruct (Byte.eqb b x74); [intros E _; by apply literal_app|].
  destruct (Byte.eqb b x66); [intros E _; by apply literal_app|].
  destruct (scan_number (b :: t)) as [[lit r']|] eqn:Es; [|done]. cbn [mbind option_bind].
  intros [= <- <-] [Hr|]; [|done].
  pose proof (scan_number_app _ x _ _ Es Hr) as Hs. cbn [app] in Hs. by rewrite Hs.
Qed.

Lemma parse_members_app n d :
  stable (parse_value n d) is_number → stable (parse_members n d) (λ _, false) →
  stable (parse_members (S n) d) (λ _, false).
Proof.
  intros Hv Hm l x a r. cbn [parse_members]. destruct (skip_space l) as [|q t] eqn:El; [done|].
  rewrite skip_space_app, El by (by rewrite El). cbn [app].
  destruct (Byte.eqb q x22); [|done].
  destruct (scan_string t) as [[k t1]|] eqn:Es; [|done]. cbn [mbind option_bind].
  rewrite (scan_string_app _ x _ _ Es). cbn [mbind option_bind].
  destruct (skip_space t1) as [|c t2] eqn:E1; [done|].
  rewrite skip_space_app, E1 by (by rewrite E1). cbn [app].
  destruct (Byte.eqb c x3a); [|done].
  destruct (parse_value n d t2) as [[v t3]|] eqn:Ev; [|done]. cbn [mbind option_bind].
  destruct (skip_space t3) as [|c' t4] eqn:E3; [done|].
  rewrite (Hv _ x _ _ Ev) by (left; by intros ->). cbn [mbind option_bind].
  rewrite skip_space_app, E3 by (by rewrite E3). cbn [app].
  destruct (Byte.eqb c' x2c).
  - destruct (parse_members n d t4) as [[ms r']|] eqn:Em; [|done]. cbn [mbind option_bind].
    intros [= <- <-] _. by rewrite (Hm _ x _ _ Em) by by right.
  - destruct (Byte.eqb c' x7d); [|done]. by intros [= <- <-].
Qed.

Lemma parse_elements_app n d :
  stable (parse_value n d) is_number → stable (parse_elements n d) (λ _, false) →
  stable (parse_elements (S n) d) (λ _, false).
Proof.
  intros Hv He l x a r. cbn [parse_elements].
  destruct (parse_value n d l) as [[v t]|] eqn:Ev; [|done]. cbn [mbind option_bind].
  destruct (skip_space t) as [|c t'] eqn:Et; [done|].
  rewrite (Hv _ x _ _ Ev) by (left; by intros ->). cbn [mbind option_bind].
  rewrite skip_space_app, Et by (by rewrite Et). cbn [app].
  destruct (Byte.eqb c x2c).
  - destruct (parse_elements n d t') as [[vs r']|] eqn:Em; [|done]. cbn [mbind option_bind].
    intros [= <- <-] _. by rewrite (He _ x _ _ Em) by by right.
  - destruct (Byte.eqb c x5d); [|done]. by intros [= <- <-].
Qed.

Lemma parse_app n : ∀ d,
  stable (parse_value n d) is_number ∧ stable (parse_members n d) (λ _, false) ∧
  stable (parse_elements n d) (λ _, false).
Proof.
  induction n as [|n IH]; intros d; [split_and!; intros l x a r E; done|]. split_and!.
  - apply parse_value_app; intros d'; apply IH.
  - apply parse_members_app; apply IH.
  - apply parse_elements_app; apply IH.
Qed.

(** ** The fuel is enough *)
Lemma skip_space_length l : (length (skip_space l) ≤ length l)%nat.
Proof.
  induction l as [|b t IH]; [done|]. cbn [skip_space]. destruct (is_space b); cbn [length]; lia.
Qed.

Lemma scan_string_length l raw r : scan_string l = Some (raw, r) → (length r < length l)%nat.
Proof.
  revert raw r. induction l as [l IH] using list_length_ind. intros raw r.
  destruct l as [|b t]; [done|]. cbn [scan_string].
  assert (∀ p t' raw r, (length t' < length (b :: t))%nat →
    ('(raw, r) ← scan_string t'; Some (p ++ raw, r)) = Some (raw, r) →
    (length r < length (b :: t))%nat) as Hpush.
  { intros p t' raw' r' Hl. destruct (scan_string t') as [[raw1 r1]|] eqn:E; [|done].
    cbn [mbind option_bind]. intros [= _ <-]. specialize (IH t' Hl _ _ E). lia. }
  destruct (Byte.eqb b x22); [intros [= _ <-]; cbn; lia|].
  destruct (Byte.eqb b x5c).
  - destruct t as [|e t]; [done|].
    destruct (existsb _ _); [apply (Hpush [x5c; e]); cbn; lia|].
    destruct (Byte.eqb e x75); [|done].
    destruct t as [|h1 [|h2 [|h3 [|h4 t]]]]; try done.
    destruct (forallb _ _); [|done]. apply (Hpush [x5c; x75; h1; h2; h3; h4]). cbn. lia.
  - destruct (in_range 0 31 b); [done|]. apply (Hpush [b]). cbn. lia.
Qed.

Lemma scan_digits_length l d r : scan_digits l = Some (d, r) → (length r < length l)%nat.
Proof.
  unfold scan_digits. destruct (span_digits l) as [d' r'] eqn:E.
  assert (length l = length d' + length r')%nat as Hl.
  { revert d' E. induction l as [|b t IH]; intros d'; cbn [span_digits]; [by intros [= <- <-]|].
    destruct (is_digit b); [|by intros [= <- <-]]. destruct (span_digits t) as [d1 r1].
    intros [= <- <-]. cbn [length]. by rewrite (IH d1). }
  destruct d' as [|b d']; [done|]. intros [= _ <-]. cbn [length] in Hl. lia.
Qed.

Lemma scan_number_length l lit r : scan_number l = Some (lit, r) → (length r < length l)%nat.
Proof.
  unfold scan_number. destruct (match l with [] => _ | _ => _ end) as [sign l0] eqn:E0.
  assert (length l0 ≤ length l)%nat as H0.
  { destruct l as [|b t]; [by injection E0 as <- <-|].
    destruct (Byte.eqb b x2d); injection E0 as <- <-; cbn; lia. }
  destruct (scan_int l0) as [[i l1]|] eqn:Ei; [|done]. cbn [mbind option_bind].
  assert (length l1 < length l0)%nat as H1.
  { destruct l0 as [|b t]; [done|]. cbn [scan_int] in Ei.
    destruct (Byte.eqb b x30); [injection Ei as _ <-; cbn; lia|by apply scan_digits_length in Ei]. }
  destruct (scan_frac l1) as [[f l2]|] eqn:Ef; [|done]. cbn [mbind option_bind].
  assert (length l2 ≤ length l1)%nat as H2.
  { destruct l1 as [|b t]; [by injection Ef as <- <-|]. cbn [scan_frac] in Ef.
    destruct (Byte.eqb b x2e); [|by injection Ef as <- <-].
    destruct (scan_digits t) as [[d' r']|] eqn:E; [|done]. injection Ef as <- <-.
    apply scan_digits_length in E. cbn. lia. }
  destruct (scan_exp l2) as [[e l3]|] eqn:Ee; [|done]. cbn [mbind option_bind].
  assert (length l3 ≤ length l2)%nat as H3.
  { destruct l2 as [|b t]; [by injection Ee as <- <-|]. cbn [scan_exp] in Ee.
    destruct (_ || _); [|by injection Ee as <- <-].
    destruct t as [|c t]; [done|].
    destruct (_ || _); [destruct (scan_digits t) as [[d' r']|] eqn:E|
      destruct (scan_digits (c :: t)) as [[d' r']|] eqn:E]; try done; injection Ee as <- <-;
      apply scan_digits_length in E; cbn in *; lia. }
  intros [= _ <-]. lia.
Qed.

(** Two parsers that agree up to inputs of a length, with less left over. *)
Definition agree {A} (p q : list byte → option (A * list byte)) (len : nat) : Prop :=
  ∀ l, (length l ≤ len)%nat → p l = q l ∧ ∀ a r, p l = Some (a, r) → (length r < length l)%nat.

Lemma bracket_fuel {A} (p q : list byte → option (A * list byte)) close empty (mk : A → json) t :
  let read (p : list byte → option (A * list byte)) :=
    match skip_space t with
    | [] => None
    | c :: t' => if Byte.eqb c close then Some (empty, t') else '(ms, r) ← p t; Some (mk ms, r)
    end in
  agree p q (length t) →
  read p = read q ∧ ∀ a r, read p = Some (a, r) → (length r ≤ length t)%nat.
Proof.
  cbn beta zeta. intros Hpq. pose proof (skip_space_length t) as Ht.
  destruct (skip_space t) as [|c t']; [done|]. cbn [length] in Ht.
  destruct (Byte.eqb c close); [split; [done|intros a r [= _ <-]; lia]|].
  destruct (Hpq t) as [-> Hr]; [done|]. split; [done|]. intros a r.
  destruct (q t) as [[ms r']|]; [|done]. intros [= _ <-]. specialize (Hr _ _ eq_refl). lia.
Qed.

Lemma literal_fuel p (v : json) t a r :
  (r ← strip_prefix p t; Some (v, r)) = Some (a, r) → (length r ≤ length t)%nat.
Proof.
  unfold strip_prefix. case_bool_decide; [|done]. intros [= _ <-]. rewrite length_drop. lia.
Qed.

Lemma parse_value_fuel n m d len :
  (∀ d len', (len' < len)%nat → agree (parse_members n d) (parse_members m d) len') →
  (∀ d len', (len' < len)%nat → agree (parse_elements n d) (parse_elements m d) len') →
  agree (parse_value (S n) d) (parse_value (S m) d) len.
Proof.
  intros Hm He l Hl. cbn [parse_value]. pose proof (skip_space_length l) as Hs.
  destruct (skip_space l) as [|b t]; [done|]. cbn [length] in Hs.
  destruct (Byte.eqb b x7b).
  { destruct d as [|d]; [done|].
    destruct (bracket_fuel (parse_members n d) (parse_members m d) x7d (J_object []) J_object t)
      as [-> Hr]; [apply Hm; lia|]. split; [done|]. intros a r E. apply Hr in E. lia. }
  destruct (Byte.eqb b x5b).
  { destruct d as [|d]; [done|].
    destruct (bracket_fuel (parse_elements n d) (parse_elements m d) x5d (J_array []) J_array t)
      as [-> Hr]; [apply He; lia|]. split; [done|]. intros a r E. apply Hr in E. lia. }
  split; [done|]. intros a r.
  destruct (Byte.eqb b x22).
  { destruct (scan_string t) as [[raw r']|] eqn:E; [|done]. intros [= _ <-].
    apply scan_string_length in E. lia. }
  destruct (Byte.eqb b x6e); [intros E%literal_fuel; lia|].
  destruct (Byte.eqb b x74); [intros E%literal_fuel; lia|].
  destruct (Byte.eqb b x66); [intros E%literal_fuel; lia|].
  destruct (scan_number (b :: t)) as [[lit r']|] eqn:E; [|done]. intros [= _ <-].
  apply scan_number_length in E. cbn [length] in E. lia.
Qed.

Lemma parse_members_fuel n m d len :
  (∀ len', (len' < len)%nat → agree (parse_value n d) (parse_value m d) len') →
  (∀ len', (len' < len)%nat → agree (parse_members n d) (parse_members m d) len') →
  agree (parse_members (S n) d) (parse_members (S m) d) len.
Proof.
  intros Hv Hm l Hl. cbn [parse_members]. pose proof (skip_space_length l) as Hs.
  destruct (skip_space l) as [|q t]; [done|]. cbn [length] in Hs.
  destruct (Byte.eqb q x22); [|done].
  destruct (scan_string t) as [[k t1]|] eqn:Es; [|done]. cbn [mbind option_bind].
  apply scan_string_length in Es. pose proof (skip_space_length t1) as H1.
  destruct (skip_space t1) as [|c t2]; [done|]. cbn [length] in H1.
  destruct (Byte.eqb c x3a); [|done].
  destruct (Hv (length t2) ltac:(lia) t2 ltac:(lia)) as [-> Hr].
  destruct (parse_value m d t2) as [[v t3]|]; [|done]. cbn [mbind option_bind].
  specialize (Hr _ _ eq_refl). pose proof (skip_space_length t3) as H3.
  destruct (skip_space t3) as [|c' t4]; [done|]. cbn [length] in H3.
  destruct (Byte.eqb c' x2c).
  - destruct (Hm (length t4) ltac:(lia) t4 ltac:(lia)) as [-> Hr']. split; [done|].
    intros a r. destruct (parse_members m d t4) as [[ms r']|]; [|done]. intros [= _ <-].
    specialize (Hr' _ _ eq_refl). lia.
  - destruct (Byte.eqb c' x7d); [|done]. split; [done|]. intros a r [= _ <-]. lia.
Qed.

Lemma parse_elements_fuel n m d len :
  agree (parse_value n d) (parse_value m d) len →
  (∀ len', (len' < len)%nat → agree (parse_elements n d) (parse_elements m d) len') →
  agree (parse_elements (S n) d) (parse_elements (S m) d) len.
Proof.
  intros Hv He l Hl. cbn [parse_elements].
  destruct (Hv l Hl) as [-> Hr].
  destruct (parse_value m d l) as [[v t]|]; [|done]. cbn [mbind option_bind].
  specialize (Hr _ _ eq_refl). pose proof (skip_space_length t) as Ht.
  destruct (skip_space t) as [|c t']; [done|]. cbn [length] in Ht.
  destruct (Byte.eqb c x2c).
  - destruct (He (length t') ltac:(lia) t' ltac:(lia)) as [-> Hr']. split; [done|].
    intros a r. destruct (parse_elements m d t') as [[vs r']|]; [|done]. intros [= _ <-].
    specialize (Hr' _ _ eq_refl). lia.
  - destruct (Byte.eqb c x5d); [|done]. split; [done|]. intros a r [= _ <-]. lia.
Qed.

(** Each call consumes input, except that of an element's value: twice the length is
    enough, and more fuel changes nothing. *)
Lemma parse_fuel n : ∀ m d len,
  ((2 * len < n)%nat → (2 * len < m)%nat → agree (parse_value n d) (parse_value m d) len) ∧
  ((2 * len < n)%nat → (2 * len < m)%nat → agree (parse_members n d) (parse_members m d) len) ∧
  ((2 * len + 1 < n)%nat → (2 * len + 1 < m)%nat →
    agree (parse_elements n d) (parse_elements m d) len).
Proof.
  induction n as [|n IH]; intros m d len; [split_and!; lia|].
  destruct m as [|m]; [split_and!; lia|]. split_and!; intros Hn Hm.
  - apply parse_value_fuel; intros d' len' Hlt; apply IH; lia.
  - apply parse_members_fuel; intros len' Hlt; apply IH; lia.
  - apply parse_elements_fuel; [apply IH; lia|]. intros len' Hlt. apply IH; lia.
Qed.

(** ** No proper prefix of an object is a value *)
Lemma skip_space_nil_app l x : skip_space (l ++ x) = [] → skip_space x = [].
Proof.
  induction l as [|b t IH]; [done|]. cbn [app skip_space]. by destruct (is_space b).
Qed.

Lemma skip_space_snoc l b : is_space b = false → skip_space (l ++ [b]) ≠ [].
Proof.
  intros Hb E. apply skip_space_nil_app in E. cbn [skip_space] in E. by rewrite Hb in E.
Qed.

Lemma parse_json_prefix body k :
  let l := [x7b] ++ body ++ [x7d] in
  is_Some (parse_json l) → (k < length l)%nat → parse_json (take k l) = None.
Proof.
  intros l Hl Hk. destruct k as [|k]; [done|].
  destruct (parse_json (take (S k) l)) as [v'|] eqn:E; [|done]. exfalso.
  unfold parse_json, parse_document in E, Hl. set (n' := (2 * length (take (S k) l) + 2)%nat) in E.
  set (n := (2 * length l + 2)%nat) in Hl.
  destruct (parse_value n' maxNestingDepth (take (S k) l)) as [[v r]|] eqn:Ev; [|done].
  cbn [mbind option_bind] in E. destruct (skip_space r) as [|? ?] eqn:Er; [|done].
  assert (is_number v = false) as Hv.
  { unfold l in Ev. cbn [app take] in Ev. unfold n' in Ev. rewrite Nat.add_comm in Ev.
    cbn [Nat.add parse_value skip_space] in Ev. change (is_space x7b) with false in Ev. cbn iota in Ev.
    change (Byte.eqb x7b x7b) with true in Ev. cbn iota in Ev.
    destruct maxNestingDepth as [|d]; [done|].
    destruct (skip_space _) as [|c t]; [done|].
    destruct (Byte.eqb c x7d); [by injection Ev as <- <-|].
    destruct (parse_members _ _ _) as [[ms r1]|]; [|done]. by injection Ev as <- <-. }
  assert (parse_value n maxNestingDepth (take (S k) l) = Some (v, r)) as Ev'.
  { rewrite <- Ev. symmetry.
    apply (proj1 (parse_fuel n' n maxNestingDepth (length (take (S k) l)))); [| |done];
      unfold n', n; rewrite ?length_take; lia. }
  destruct (parse_app n maxNestingDepth) as (Happ & _).
  apply (Happ _ (drop (S k) l)) in Ev'; [|by right].
  rewrite take_drop in Ev'. rewrite Ev' in Hl. cbn [mbind option_bind] in Hl.
  assert (drop (S k) l = drop k body ++ [x7d]) as Hd.
  { unfold l. cbn [app drop]. rewrite drop_app_le; [done|].
    unfold l in Hk. cbn [app length] in Hk. rewrite length_app in Hk. cbn in Hk. lia. }
  rewrite Hd, app_assoc in Hl. destruct (skip_space ((r ++ _) ++ _)) as [|] eqn:Es; [|by destruct Hl].
  by apply skip_space_snoc in Es.
Qed.

Lemma byte_eqb_spec b c : reflect (b = c) (Byte.eqb b c).
Proof.
  destruct (Byte.eqb b c) eqn:E; constructor; [by apply Byte.byte_dec_bl|].
  intros Hbc%Byte.byte_dec_lb. congruence.
Qed.

(** ** Strings *)
Lemma escape_ascii_spec b t :
  byte_to_Z b < 0x80 →
  scan_string (escape_ascii b ++ t) =
    ('(raw, r) ← scan_string t; Some (escape_ascii b ++ raw, r)) ∧
  unquote 0 (escape_ascii b ++ t) = b :: unquote 0 t ∧
  (newline ∉ escape_ascii b) ∧ (length (escape_ascii b) ≤ 6)%nat.
Proof.
  intros Hb. assert (bool_decide (newline ∈ escape_ascii b) = false ∧
    (length (escape_ascii b) <=? 6)%nat = true) as [Hn Hl].
  { destruct b; split; vm_compute; reflexivity. }
  apply bool_decide_eq_false in Hn. apply Nat.leb_le in Hl.
  split; [|split; [|done]].
  - destruct b; try reflexivity; exfalso; revert Hb; vm_compute; discriminate.
  - destruct b; try reflexivity; exfalso; revert Hb; vm_compute; discriminate.
Qed.

Definition ascii_bytes (l : list byte) : Prop := Forall (λ b, byte_to_Z b < 0x80) l.

Lemma escape_cons b l :
  byte_to_Z b < 0x80 → escape 0 true (b :: l) = escape_ascii b ++ escape 0 true l.
Proof. intros Hb. cbn [escape]. by rewrite (proj2 (Z.ltb_lt _ _) Hb). Qed.

Lemma scan_escape l rest :
  ascii_bytes l → scan_string (escape 0 true l ++ x22 :: rest) = Some (escape 0 true l, rest).
Proof.
  induction 1 as [|b l Hb _ IH]; [done|]. rewrite escape_cons, <- app_assoc by done.
  rewrite (proj1 (escape_ascii_spec b _ Hb)), IH. done.
Qed.

Lemma unquote_escape l : ascii_bytes l → unquote 0 (escape 0 true l) = l.
Proof.
  induction 1 as [|b l Hb _ IH]; [done|]. rewrite escape_cons by done.
  destruct (escape_ascii_spec b (escape 0 true l) Hb) as (_ & -> & _). by rewrite IH.
Qed.

Lemma escape_line l :
  ascii_bytes l → (newline ∉ escape 0 true l) ∧ (length (escape 0 true l) ≤ 6 * length l)%nat.
Proof.
  induction 1 as [|b l Hb _ [IHn IHl]]; [split; [apply not_elem_of_nil|done]|].
  rewrite escape_cons by done. destruct (escape_ascii_spec b [] Hb) as (_ & _ & Hn & Hl).
  rewrite length_app, not_elem_of_app. cbn [length]. split; [done|lia].
Qed.

Lemma string_value_escape s : ascii_string s → string_value (escape 0 true (bytes_of s)) = s.
Proof.
  intros Hs. unfold string_value. rewrite unquote_escape by done.
  apply String.string_of_list_byte_of_string.
Qed.

(** ** Numbers *)
Lemma digit_byte z :
  0 <= z < 10 → is_digit (byte_of_Z (48 + z)) = true ∧ byte_to_Z (byte_of_Z (48 + z)) = 48 + z.
Proof.
  intros Hz. assert (byte_to_Z (byte_of_Z (48 + z)) = 48 + z) as Hb.
  { rewrite byte_to_of_Z. apply Z.mod_small. lia. }
  unfold is_digit, in_range. rewrite Hb. split; [|done].
  apply andb_true_iff. split; apply Z.leb_le; lia.
Qed.

Lemma digits_low_spec n z :
  0 <= z < 10 ^ Z.of_nat n →
  Forall (λ b, is_digit b = true) (digits_low n z) ∧
  digits_value (reverse (digits_low n z)) = z ∧
  (z ≠ 0 → list.last (digits_low n z) ≠ Some x30) ∧
  ((0 < n)%nat → digits_low n z ≠ []).
Proof.
  revert z. induction n as [|n IH]; intros z Hz; [cbn in *; split_and!; try done; lia|].
  cbn [digits_low]. destruct (Z.ltb_spec z 10) as [Hlt|Hge].
  - destruct (digit_byte z ltac:(lia)) as [Hd Hb]. split_and!.
    + by constructor.
    + unfold digits_value. cbn [reverse rev_append foldl]. change (reverse [?b]) with [b].
      cbn [foldl]. rewrite Hb. lia.
    + intros Hne. cbn [list.last]. intros [= E]. rewrite E in Hb. change (byte_to_Z x30) with 48 in Hb. lia.
    + done.
  - pose proof (Z.mod_pos_bound z 10 ltac:(lia)). pose proof (Z.div_mod z 10 ltac:(lia)).
    destruct (digit_byte (z mod 10) ltac:(lia)) as [Hd Hb].
    assert (0 <= z / 10 < 10 ^ Z.of_nat n) as Hq.
    { rewrite Nat2Z.inj_succ, Z.pow_succ_r in Hz by lia.
      split; [apply Z.div_pos; lia|apply Z.div_lt_upper_bound; lia]. }
    destruct (IH _ Hq) as (Hf & Hv & Hlast & Hne).
    assert (z / 10 ≠ 0) as Hq0 by (intros E; rewrite E in *; lia).
    split_and!.
    + by constructor.
    + unfold digits_value in *. rewrite reverse_cons, foldl_app, Hv. cbn [foldl]. rewrite Hb. lia.
    + intros _. specialize (Hlast Hq0). destruct (digits_low n (z / 10)) as [|b l] eqn:E; [|done].
      destruct n as [|n]; [cbn in Hq; lia|]. by destruct (Hne ltac:(lia)).
    + done.
Qed.

Definition ends_value (c : byte) : Prop := c = x2c ∨ c = x7d.

Lemma span_digits_all l c rest :
  Forall (λ b, is_digit b = true) l → is_digit c = false →
  span_digits (l ++ c :: rest) = (l, c :: rest).
Proof.
  intros Hl Hc. induction Hl as [|b l Hb _ IH]; cbn [app span_digits]; [by rewrite Hc|].
  by rewrite Hb, IH.
Qed.

(** The digits of an unsigned integer, and their text inside a value. *)
Lemma digits_text z c rest :
  0 <= z < 2 ^ 64 → ends_value c →
  let l := reverse (digits_low 20 z) in
  scan_int (l ++ c :: rest) = Some (l, c :: rest) ∧ forallb is_digit l = true ∧ l ≠ [] ∧
  digits_value l = z.
Proof.
  intros Hz Hc l. destruct (digits_low_spec 20 z) as (Hf & Hv & Hlast & Hne); [cbn; lia|].
  specialize (Hne ltac:(lia)).
  assert (Forall (λ b, is_digit b = true) l) as Hl by by apply Forall_reverse.
  assert (l ≠ []) as Hl0.
  { intros E. apply Hne. apply (f_equal reverse) in E. unfold l in E. by rewrite reverse_involutive in E. }
  split_and!; [| |done|done].
  2:{ clear -Hl. induction Hl as [|b t Hb _ IH]; [done|]. cbn [forallb]. by rewrite Hb. }
  assert (is_digit c = false) as Hcd by by destruct Hc as [-> | ->].
  destruct l as [|b t] eqn:El; [done|]. cbn [app scan_int].
  destruct (byte_eqb_spec b x30) as [->|Hb].
  - destruct (Z.eq_dec z 0) as [->|Hz0].
    + assert (l = [x30]) as El' by reflexivity. rewrite El in El'. by injection El' as ->.
    + destruct (Hlast Hz0). rewrite <- head_reverse. fold l. by rewrite El.
  - unfold scan_digits. change (b :: t ++ c :: rest) with ((b :: t) ++ c :: rest).
    by rewrite span_digits_all.
Qed.

Lemma scan_number_int z c rest :
  - 2 ^ 63 <= z < 2 ^ 64 → ends_value c →
  scan_number (write_int z ++ c :: rest) = Some (write_int z, c :: rest).
Proof.
  intros Hz Hc.
  assert (scan_frac (c :: rest) = Some ([], c :: rest) ∧ scan_exp (c :: rest) = Some ([], c :: rest))
    as [Hf He] by by destruct Hc as [-> | ->].
  unfold write_int. destruct (Z.ltb_spec z 0) as [Hneg|Hpos]; unfold scan_number.
  - cbn [app]. change (Byte.eqb x2d x2d) with true. cbn iota.
    destruct (digits_text (- z) c rest ltac:(lia) Hc) as (-> & _). cbn [mbind option_bind].
    rewrite Hf. cbn [mbind option_bind]. rewrite He. cbn [mbind option_bind]. by rewrite !app_nil_r.
  - destruct (digits_text z c rest ltac:(lia) Hc) as (Hi & Hd & Hne & _).
    set (l := reverse (digits_low 20 z)) in *. destruct l as [|b t] eqn:El; [done|].
    cbn [app]. cbn [forallb] in Hd. apply andb_true_iff in Hd as [Hd _].
    destruct (byte_eqb_spec b x2d) as [->|]; [done|].
    change (b :: t ++ c :: rest) with ((b :: t) ++ c :: rest). rewrite Hi. cbn [mbind option_bind].
    rewrite Hf. cbn [mbind option_bind]. rewrite He. cbn [mbind option_bind]. by rewrite app_nil_r.
Qed.

Lemma read_uint_digits bits z :
  0 <= z < 2 ^ bits → z < 2 ^ 64 → read_uint bits (reverse (digits_low 20 z)) = Some z.
Proof.
  intros Hz Hw. destruct (digits_text z x2c [] ltac:(lia) ltac:(by left)) as (_ & Hd & Hne & Hv).
  unfold read_uint. rewrite Hd, Hv. cbn [andb].
  destruct (Nat.eqb_spec (length (reverse (digits_low 20 z))) 0) as [E|_].
  { by apply nil_length_inv in E. }
  cbn [negb]. cbv zeta. by rewrite (proj2 (Z.ltb_lt z _)) by lia.
Qed.

Lemma read_uint_int bits z : 0 <= z < 2 ^ bits → z < 2 ^ 64 → read_uint bits (write_int z) = Some z.
Proof.
  intros Hz Hw. unfold write_int. rewrite (proj2 (Z.ltb_ge z 0)) by lia. by apply read_uint_digits.
Qed.

Lemma read_int64_int z : in_s 64 z → read_int64 (write_int z) = Some z.
Proof.
  unfold in_s. intros Hz. unfold write_int. destruct (Z.ltb_spec z 0) as [Hneg|Hpos].
  - cbn [app read_int64]. change (Byte.eqb x2d x2d) with true. cbn iota.
    rewrite read_uint_digits by lia. cbn [mbind option_bind].
    rewrite (proj2 (Z.leb_le (- z) _)) by lia. f_equal. lia.
  - pose proof (read_uint_digits 63 z ltac:(lia) ltac:(lia)) as Hr.
    destruct (digits_text z x2c [] ltac:(lia) ltac:(by left)) as (_ & Hd & Hne & _).
    destruct (reverse (digits_low 20 z)) as [|b t] eqn:E; [done|]. cbn [read_int64].
    cbn [forallb] in Hd. apply andb_true_iff in Hd as [Hd _].
    by destruct (byte_eqb_spec b x2d) as [->|].
Qed.

Lemma write_int_line z :
  - 2 ^ 63 <= z < 2 ^ 64 → (newline ∉ write_int z) ∧ (length (write_int z) ≤ 21)%nat.
Proof.
  intros Hz.
  assert (∀ y, (length (digits_low 20 y) ≤ 20)%nat) as Hlen.
  { intros y. generalize 20%nat as n. intros n. revert y.
    induction n as [|n IH]; intros y; [done|]. cbn [digits_low].
    destruct (y <? 10); cbn [length]; [lia|]. specialize (IH (y / 10)). lia. }
  assert (∀ y, 0 <= y < 2 ^ 64 → newline ∉ reverse (digits_low 20 y)) as Hn.
  { intros y Hy. destruct (digits_low_spec 20 y) as (Hf & _); [cbn; lia|].
    rewrite elem_of_reverse. intros Hin. by eapply list.Forall_forall in Hf; [|exact Hin]. }
  unfold write_int. destruct (Z.ltb_spec z 0).
  - rewrite not_elem_of_app, length_app, length_reverse. split.
    + split; [by rewrite list_elem_of_singleton|]. apply Hn. lia.
    + specialize (Hlen (- z)). cbn [length]. lia.
  - rewrite length_reverse. split; [apply Hn; lia|]. specialize (Hlen z). lia.
Qed.

(** ** Members *)

(** [v] is the text of the value [j] wherever a value can stand in an object. *)
Definition value_text (v : list byte) (j : json) : Prop :=
  ∀ n d c rest, ends_value c → parse_value (S n) d (v ++ c :: rest) = Some (j, c :: rest).

Lemma value_text_string s :
  ascii_string s → value_text (write_string s) (J_string (escape 0 true (bytes_of s))).
Proof.
  intros Hs n d c rest Hc. unfold write_string. rewrite <- !app_assoc. cbn [app parse_value skip_space].
  change (is_space x22) with false. cbn iota.
  change (Byte.eqb x22 x7b) with false. change (Byte.eqb x22 x5b) with false.
  change (Byte.eqb x22 x22) with true. cbn iota.
  by rewrite scan_escape.
Qed.

(** A byte that starts a number starts nothing else. *)
Lemma number_start b :
  is_digit b = true ∨ b = x2d →
  is_space b = false ∧ Byte.eqb b x7b = false ∧ Byte.eqb b x5b = false ∧ Byte.eqb b x22 = false ∧
  Byte.eqb b x6e = false ∧ Byte.eqb b x74 = false ∧ Byte.eqb b x66 = false.
Proof. intros Hb. destruct b; destruct Hb; try discriminate; by vm_compute. Qed.

Lemma value_text_int z :
  - 2 ^ 63 <= z < 2 ^ 64 → value_text (write_int z) (J_number (write_int z)).
Proof.
  intros Hz n d c rest Hc.
  assert (∃ b t, write_int z = b :: t ∧ (is_digit b = true ∨ b = x2d)) as (b & t & Ew & Hb).
  { unfold write_int. destruct (Z.ltb_spec z 0); [eexists _, _; split; [done|by right]|].
    destruct (digits_text z x2c [] ltac:(lia) ltac:(by left)) as (_ & Hd & Hne & _).
    destruct (reverse (digits_low 20 z)) as [|b t]; [done|]. exists b, t. split; [done|left].
    cbn [forallb] in Hd. by apply andb_true_iff in Hd as [Hd _]. }
  pose proof (scan_number_int z c rest Hz Hc) as Hs. rewrite Ew in *. cbn [app] in *.
  destruct (number_start b Hb) as (H1 & H2 & H3 & H4 & H5 & H6 & H7).
  cbn [parse_value skip_space]. rewrite H1, H2, H3, H4, H5, H6, H7, Hs. done.
Qed.

(** A key without special characters. *)
Definition plain_key (k : string) : Prop :=
  ∀ rest, scan_string (bytes_of k ++ x22 :: rest) = Some (bytes_of k, rest).

Definition member_text (m : string * list byte) (j : list byte * json) : Prop :=
  plain_key m.1 ∧ j.1 = bytes_of m.1 ∧ value_text m.2 j.2.

Lemma parse_write_members ms js n d rest :
  Forall2 member_text ms js → ms ≠ [] → (length ms < n)%nat →
  parse_members n d (write_members ms ++ rest) = Some (js, rest).
Proof.
  intros Hms. revert n. induction Hms as [|[k v] [k' j] ms js (Hk & Hk' & Hv) Hms IH]; intros n Hne Hn;
    [done|].
  destruct n as [|[|n]]; [cbn in Hn; lia..|]. cbn [fst snd] in *. subst k'.
  assert (∃ c tl, write_members ((k, v) :: ms) = write_member k v ++ c :: tl ∧ ends_value c ∧
    (ms = [] ∧ c = x7d ∧ tl = [] ∨ ms ≠ [] ∧ c = x2c ∧ tl = write_members ms))
    as (c & tl & Ew & Hc & Hcase).
  { destruct ms as [|m ms]; [exists x7d, []|exists x2c, (write_members (m :: ms))];
      (split; [done|]); (split; [by (left + right)|by (left + right)]). }
  rewrite Ew. unfold write_member. rewrite <- !app_assoc. cbn [app].
  change (parse_members (S (S n)) d (x22 :: ?l)) with
    ('(k, t) ← scan_string l;
     match skip_space t with
     | c :: t => if Byte.eqb c x3a then
         '(v, t) ← parse_value (S n) d t;
         match skip_space t with
         | c :: t => if Byte.eqb c x2c then '(ms, r) ← parse_members (S n) d t; Some ((k, v) :: ms, r)
                     else if Byte.eqb c x7d then Some ([(k, v)], t) else None
         | [] => None
         end else None
     | [] => None
     end).
  rewrite Hk. cbn [mbind option_bind skip_space]. change (is_space x3a) with false. cbn iota.
  change (Byte.eqb x3a x3a) with true. cbn iota. rewrite (Hv n d c (tl ++ rest)) by done.
  cbn [mbind option_bind skip_space].
  destruct Hcase as [(-> & -> & ->) | (Hms0 & -> & ->)].
  - inversion Hms; subst. change (is_space x7d) with false. cbn iota.
    change (Byte.eqb x7d x2c) with false. change (Byte.eqb x7d x7d) with true. done.
  - change (is_space x2c) with false. cbn iota. change (Byte.eqb x2c x2c) with true. cbn iota.
    rewrite IH by (done || (cbn in Hn; lia)). done.
Qed.

Lemma length_write_members ms :
  (length ms ≤ length (write_members ms))%nat ∧ ∃ body, write_members ms = body ++ [x7d].
Proof.
  induction ms as [|[k v] ms [IH (body & Hb)]]; [split; [cbn; lia|by exists []]|].
  destruct ms as [|m ms].
  - split; [cbn; lia|by eexists].
  - cbn [write_members]. cbn [write_members] in IH, Hb. split.
    + rewrite !length_app. cbn [length] in *. lia.
    + rewrite Hb. eexists (write_member k v ++ [x2c] ++ body). by rewrite <- !app_assoc.
Qed.

Lemma parse_write_object ms js :
  Forall2 member_text ms js → ms ≠ [] →
  parse_json ([x7b] ++ write_members ms) = Some (J_object js).
Proof.
  intros Hms Hne. unfold parse_json, parse_document. destruct (length_write_members ms) as [Hlen _].
  assert (∃ n, 2 * length ([x7b] ++ write_members ms) + 2 = S n ∧ length ms < n)%nat as (n & -> & Hn).
  { eexists (2 * length ([x7b] ++ write_members ms) + 1)%nat. rewrite length_app. cbn [length]. lia. }
  assert (∃ d, maxNestingDepth = S d) as [d ->].
  { exists (Z.to_nat 9999). unfold maxNestingDepth. lia. }
  cbn [app parse_value skip_space]. change (is_space x7b) with false. cbn iota.
  change (Byte.eqb x7b x7b) with true. cbn iota.
  assert (∃ t, write_members ms = x22 :: t) as [t Et].
  { destruct ms as [|[k v] [|m ms]]; [done|by eexists..]. }
  pose proof (parse_write_members ms js n d [] Hms Hne Hn) as Hp. rewrite app_nil_r in Hp.
  rewrite Et in *. cbn [skip_space]. change (is_space x22) with false. cbn iota.
  change (Byte.eqb x22 x7d) with false. cbn iota. rewrite Hp. done.
Qed.

(** ** Records *)
Definition record_values (r : Receipt) : list (list byte * json) :=
  let str k s := (bytes_of k, J_string (escape 0 true (bytes_of s))) in
  let int k z := (bytes_of k, J_number (write_int z)) in
  [str "payment_id" (PaymentID r); str "settlement_tx_hash" (SettlementTxHash r);
   int "sat_id" (RecSatID r); str "amount" (RecAmount r); int "asset_id" (RecAssetID r);
   str "wallet" (RecWallet r); str "packet_c_hex" (PacketCHex r);
   int "block_number" (RecBlockNumber r); int "ts_ms" (TsMs r)]%string ++
  (if String.eqb (DispatchStatus r) "" then []
   else [str "dispatch_status" (DispatchStatus r)])%string.

Lemma record_members_text r :
  json_ok r → Forall2 member_text (record_members r) (record_values r).
Proof.
  intros (Hstr & Hs & Ha & Hb & Ht & _). unfold in_u, in_s in *.
  rewrite !list.Forall_cons in Hstr. destruct Hstr as (H1 & H2 & H3 & H4 & H5 & H6 & _).
  unfold record_members, record_values. apply Forall2_app.
  - repeat (constructor;
      [split; [intros rest; reflexivity|split; [reflexivity|]];
       first [by apply value_text_string|apply value_text_int; lia]|]). constructor.
  - destruct (String.eqb _ _); [constructor|]. constructor; [|constructor].
    split; [intros rest; reflexivity|]. split; [reflexivity|by apply value_text_string].
Qed.

Lemma set_record_values r : json_ok r → set_members (record_values r) zero_record = Some r.
Proof.
  intros (Hstr & Hs & Ha & Hb & Ht & _). unfold in_u, in_s in *.
  rewrite !list.Forall_cons in Hstr. destruct Hstr as (H1 & H2 & H3 & H4 & H5 & H6 & _).
  assert (∀ k f, In (k, f) fields → find_field (unquote 0 (bytes_of k)) = Some f) as Hk.
  { intros k f Hin. repeat (destruct Hin as [[= <- <-] | Hin]; [vm_compute; reflexivity|]). done. }
  unfold record_values. destruct r as [p h s a i w c b t d].
  cbn [PaymentID SettlementTxHash RecSatID RecAmount RecAssetID RecWallet PacketCHex RecBlockNumber
       TsMs DispatchStatus] in *.
  cbn [app set_members].
  rewrite (Hk "payment_id" F_PaymentID)%string, (Hk "settlement_tx_hash" F_SettlementTxHash)%string,
    (Hk "sat_id" F_SatID)%string, (Hk "amount" F_Amount)%string, (Hk "asset_id" F_AssetID)%string,
    (Hk "wallet" F_Wallet)%string, (Hk "packet_c_hex" F_PacketCHex)%string,
    (Hk "block_number" F_BlockNumber)%string, (Hk "ts_ms" F_TsMs)%string by (cbn; auto 20).
  cbn [set_field zero_record mbind option_bind].
  repeat (first [rewrite string_value_escape by done|rewrite read_uint_int by lia
                |rewrite read_int64_int by done]; cbn [set_field mbind option_bind]).
  destruct (String.eqb_spec d "") as [->|Hd]; [done|]. cbn [set_members].
  rewrite (Hk "dispatch_status" F_DispatchStatus)%string by (cbn; auto 20). cbn [set_field mbind option_bind].
  by rewrite string_value_escape.
Qed.

Lemma write_member_line k v n :
  (newline ∉ bytes_of k) → (newline ∉ v) → (length (bytes_of k) ≤ 20)%nat → (length v ≤ n)%nat →
  (newline ∉ write_member k v) ∧ (length (write_member k v) ≤ n + 23)%nat.
Proof.
  intros Hk Hv Hlk Hlv. unfold write_member. rewrite !not_elem_of_app, !length_app. cbn [length].
  split; [|lia]. split_and!; try done; rewrite ?not_elem_of_cons; split_and?; try done;
    apply not_elem_of_nil.
Qed.

Lemma write_members_line ms total :
  Forall (λ m, newline ∉ write_member m.1 m.2) ms →
  (sum_list ((λ m, length (write_member m.1 m.2)) <$> ms) ≤ total)%nat →
  (newline ∉ write_members ms) ∧ (length (write_members ms) ≤ total + length ms + 1)%nat.
Proof.
  intros Hms. revert total. induction Hms as [|[k v] ms Hm Hms IH]; intros total Htot.
  { cbn. split; [by rewrite list_elem_of_singleton|lia]. }
  cbn [fmap list_fmap fst snd sum_list] in *. unfold id in *.
  destruct ms as [|m ms].
  - cbn [write_members]. rewrite not_elem_of_app, length_app.
    cbn [length sum_list fmap list_fmap] in *.
    split; [split; [done|by rewrite list_elem_of_singleton]|lia].
  - change (write_members ((k, v) :: m :: ms)) with
      (write_member k v ++ [x2c] ++ write_members (m :: ms)).
    destruct (IH (total - length (write_member k v))%nat ltac:(lia)) as [Hn Hl].
    rewrite !not_elem_of_app, !length_app. cbn [length] in *.
    split; [split; [done|split; [by rewrite list_elem_of_singleton|done]]|lia].
Qed.

Lemma write_string_line s :
  ascii_string s →
  (newline ∉ write_string s) ∧ (length (write_string s) ≤ 6 * String.length s + 2)%nat.
Proof.
  intros Hs. destruct (escape_line _ Hs) as [Hn Hl].
  assert (length (bytes_of s) = String.length s) as Hlen.
  { unfold bytes_of, String.list_byte_of_string. rewrite length_map.
    clear. induction s as [|c s IH]; [done|]. cbn. by rewrite IH. }
  unfold write_string. rewrite !not_elem_of_app, !length_app. cbn [length].
  split; [|lia]. split_and!; [by rewrite list_elem_of_singleton|done|by rewrite list_elem_of_singleton].
Qed.

Lemma record_members_line r :
  json_ok r →
  (newline ∉ MarshalRecord r) ∧ Z.of_nat (length (MarshalRecord r)) <= 700000.
Proof.
  intros (Hstr & Hs & Ha & Hb & Ht & Hlen & Hst). unfold in_u, in_s in *.
  rewrite !list.Forall_cons in Hstr. destruct Hstr as (H1 & H2 & H3 & H4 & H5 & H6 & _).
  apply write_string_line in H1 as [N1 L1], H2 as [N2 L2], H3 as [N3 L3], H4 as [N4 L4],
    H5 as [N5 L5], H6 as [N6 L6].
  destruct (write_int_line (RecSatID r) ltac:(lia)) as [N7 L7].
  destruct (write_int_line (RecAssetID r) ltac:(lia)) as [N8 L8].
  destruct (write_int_line (RecBlockNumber r) ltac:(lia)) as [N9 L9].
  destruct (write_int_line (TsMs r) ltac:(lia)) as [N10 L10].
  assert (∀ k v n, In k (fst <$> fields) → (newline ∉ v) → (length v ≤ n)%nat →
    (newline ∉ write_member k v) ∧ (length (write_member k v) ≤ n + 23)%nat) as Hm.
  { intros k v n Hin Hv Hl.
    assert ((newline ∉ bytes_of k) ∧ (length (bytes_of k) ≤ 20)%nat) as [Hk Hkl].
    { apply (bool_decide_unpack _).
      repeat (destruct Hin as [<- | Hin]; [vm_compute; exact I|]). done. }
    by apply write_member_line. }
  destruct (Hm "payment_id" _ _ ltac:(cbn; auto 20) N1 L1)%string as [M1 K1].
  destruct (Hm "settlement_tx_hash" _ _ ltac:(cbn; auto 20) N2 L2)%string as [M2 K2].
  destruct (Hm "amount" _ _ ltac:(cbn; auto 20) N3 L3)%string as [M3 K3].
  destruct (Hm "wallet" _ _ ltac:(cbn; auto 20) N4 L4)%string as [M4 K4].
  destruct (Hm "packet_c_hex" _ _ ltac:(cbn; auto 20) N5 L5)%string as [M5 K5].
  destruct (Hm "dispatch_status" _ _ ltac:(cbn; auto 20) N6 L6)%string as [M6 K6].
  destruct (Hm "sat_id" _ _ ltac:(cbn; auto 20) N7 L7)%string as [M7 K7].
  destruct (Hm "asset_id" _ _ ltac:(cbn; auto 20) N8 L8)%string as [M8 K8].
  destruct (Hm "block_number" _ _ ltac:(cbn; auto 20) N9 L9)%string as [M9 K9].
  destruct (Hm "ts_ms" _ _ ltac:(cbn; auto 20) N10 L10)%string as [M10 K10].
  destruct (write_members_line (record_members r)
    (sum_list ((λ m, length (write_member m.1 m.2)) <$> record_members r))) as [Hn Hl].
  { unfold record_members. rewrite list.Forall_app, !list.Forall_cons.
    split; [exact (conj M1 (conj M2 (conj M7 (conj M3 (conj M8 (conj M4 (conj M5 (conj M9
      (conj M10 (Forall_nil _))))))))))|].
    destruct (String.eqb _ _); [constructor|]. apply list.Forall_singleton. exact M6. }
  { reflexivity. }
  unfold MarshalRecord. rewrite not_elem_of_app, length_app. cbn [length].
  split; [split; [by rewrite list_elem_of_singleton|done]|].
  revert Hl. unfold record_members at 2 3.
  destruct (String.eqb _ _); cbn [app fmap list_fmap sum_list fst snd length]; unfold id; lia.
Qed.

Lemma MarshalRecord_shape r : ∃ body, MarshalRecord r = [x7b] ++ body ++ [x7d].
Proof.
  unfold MarshalRecord. destruct (length_write_members (record_members r)) as [_ [body ->]].
  by exists body.
Qed.

Lemma parse_MarshalRecord r : json_ok r → parse_json (MarshalRecord r) = Some (J_object (record_values r)).
Proof. intros Hr. apply parse_write_object; [by apply record_members_text|done]. Qed.

Lemma UnmarshalRecord_MarshalRecord r : json_ok r → UnmarshalRecord (MarshalRecord r) = Some r.
Proof.
  intros Hr. unfold UnmarshalRecord. rewrite parse_MarshalRecord by done. by apply set_record_values.
Qed.

Lemma UnmarshalRecord_prefix r k :
  json_ok r → (k < length (MarshalRecord r))%nat → UnmarshalRecord (take k (MarshalRecord r)) = None.
Proof.
  intros Hr Hk. pose proof (parse_MarshalRecord r Hr) as Hp.
  destruct (MarshalRecord_shape r) as [body E]. rewrite E in *.
  unfold UnmarshalRecord. by rewrite parse_json_prefix.
Qed.

Lemma json_ok_status r s :
  json_ok r → ascii_string s → Z.of_nat (String.length s) <= 100 → json_ok (set_DispatchStatus s r).
Proof.
  intros (Hstr & Hs & Ha & Hb & Ht & Hlen & Hst) Hasc Hl.
  rewrite !list.Forall_cons in Hstr. destruct Hstr as (H1 & H2 & H3 & H4 & H5 & H6 & _).
  split; [|by split_and!]. rewrite !list.Forall_cons. split_and!; done || by apply list.Forall_nil.
Qed.

Lemma json_codec_laws : RecordCodecLaws (H := json_codec).
Proof.
  split; cbn [codec_ok Marshal Unmarshal json_codec].
  - intros r Hr. exists (MarshalRecord r). split; [done|].
    split; [by apply UnmarshalRecord_MarshalRecord|].
    destruct (record_members_line r Hr) as [Hn Hl]. split; [done|]. split.
    + destruct (MarshalRecord_shape r) as [body ->]. by rewrite app_assoc, last_snoc.
    + assert (Z.of_nat max_token = 2 ^ 20) as Hmax by (unfold max_token; by rewrite Nat2Z.inj_pow).
      lia.
  - intros r Hr. apply json_ok_status; [done| |done]. apply (bool_decide_unpack _). vm_compute. exact I.
  - intros r Hr. apply json_ok_status; [done| |done]. apply (bool_decide_unpack _). vm_compute. exact I.
  - intros r l k Hr [= <-] Hk. by apply UnmarshalRecord_prefix.
Qed.

(** C30. Lines survive the file: for every record of the widths of the struct whose
    strings are ASCII and not longer than 100000 bytes together, [json.Unmarshal] of
    [json.Marshal] is that record; the text has no newline and fits the buffer of the
    scanner; and no proper prefix of it unmarshals, so a torn line is noticed. *)
Theorem json_roundtrip r :
  json_ok r →
  UnmarshalRecord (MarshalRecord r) = Some r ∧ (newline ∉ MarshalRecord r) ∧
  Z.of_nat (length (MarshalRecord r)) < 2 ^ 20 ∧
  ∀ k, (k < length (MarshalRecord r))%nat → UnmarshalRecord (take k (MarshalRecord r)) = None.
Proof.
  intros Hr. destruct (record_members_line r Hr) as [Hn Hl].
  split; [by apply UnmarshalRecord_MarshalRecord|]. split; [done|]. split; [lia|].
  intros k. by apply UnmarshalRecord_prefix.
Qed.

(** The parser terminates on every input with the fuel it is given: the recursion
    never runs out, so a line that is refused is not a JSON record, and more fuel
    changes no answer. *)
Theorem unmarshal_terminates l n :
  (2 * length l + 2 ≤ n)%nat → unmarshal_value (parse_document n l) = UnmarshalRecord l.
Proof.
  intros Hn. unfold UnmarshalRecord, parse_json, parse_document. do 2 f_equal.
  apply (proj1 (parse_fuel n (2 * length l + 2) maxNestingDepth (length l))); lia.
Qed.

(** ** Strings the gateway puts in a record *)
Lemma hex_digit_ascii z : byte_to_Z (Ascii.byte_of_ascii (hex_digit z)) < 0x80.
Proof.
  unfold hex_digit. generalize (Z.to_nat z). intros n.
  do 16 (destruct n as [|n]; [reflexivity|]). reflexivity.
Qed.

Lemma hex_encode_ascii l :
  ascii_string (hex_encode l) ∧ String.length (hex_encode l) = (2 * length l)%nat.
Proof.
  induction l as [|b l [IH1 IH2]]; [by split; [constructor|]|]. cbn [hex_encode]. split.
  - constructor; [apply hex_digit_ascii|]. constructor; [apply hex_digit_ascii|done].
  - cbn [String.length length]. rewrite IH2. lia.
Qed.

Lemma pretty_N_go_ascii n x s :
  (x < 10 ^ N.of_nat n)%N → ascii_string s →
  ascii_string (pretty_N_go x s) ∧ (String.length (pretty_N_go x s) ≤ n + String.length s)%nat.
Proof.
  revert x s. induction n as [|n IH]; intros x s Hx Hs.
  { assert (x = 0)%N as -> by (cbn in Hx; lia). by rewrite pretty_N_go_0. }
  destruct (decide (x = 0)%N) as [->|Hx0]; [rewrite pretty_N_go_0; split; [done|lia]|].
  rewrite pretty_N_go_step by lia.
  destruct (IH (x `div` 10)%N (String (pretty_N_char (x `mod` 10)) s)) as [H1 H2].
  - rewrite Nat2N.inj_succ, N.pow_succ_r' in Hx. apply N.Div0.div_lt_upper_bound. lia.
  - constructor; [|done]. unfold pretty_N_char. by repeat case_match.
  - split; [done|]. cbn [String.length] in H2. lia.
Qed.

Lemma pretty_Z_ascii z n :
  0 <= z < 10 ^ Z.of_nat n → ascii_string (pretty z) ∧ (String.length (pretty z) ≤ n + 1)%nat.
Proof.
  intros Hz. unfold pretty, pretty_Z. destruct z as [|x|x]; [|..|lia].
  - split; [by repeat constructor|cbn; lia].
  - unfold pretty_positive, pretty, pretty_N. rewrite decide_False by lia.
    destruct (pretty_N_go_ascii n (N.pos x) "") as [H1 H2]; [|constructor|].
    + apply N2Z.inj_lt. rewrite N2Z.inj_pow, nat_N_Z. cbn. lia.
    + split; [done|]. cbn [String.length] in H2. lia.
Qed.

(** ** Witnesses *)
Definition demo_receipt (id status : string) : Receipt :=
  {| PaymentID := id; SettlementTxHash := "0xaa"; RecSatID := 0xCAFEBABE; RecAmount := "420";
     RecAssetID := 1; RecWallet := "0xbb"; PacketCHex := ""; RecBlockNumber := 7;
     TsMs := 1000; DispatchStatus := status |}.

Lemma json_roundtrip_witness :
  let l := MarshalRecord (demo_receipt "1" StatusDispatched) in
  l = quoted "{'payment_id':'1','settlement_tx_hash':'0xaa','sat_id':3405691582,'amount':'420','asset_id':1,'wallet':'0xbb','packet_c_hex':'','block_number':7,'ts_ms':1000,'dispatch_status':'DISPATCHED'}" ∧
  UnmarshalRecord l = Some (demo_receipt "1" StatusDispatched) ∧ UnmarshalRecord (take 100 l) = None.
Proof.
  intros l. destruct (json_roundtrip (demo_receipt "1" StatusDispatched)) as (Hr & _ & _ & Hp).
  - apply (bool_decide_unpack _). vm_compute. exact I.
  - split; [vm_compute; reflexivity|]. split; [exact Hr|]. apply Hp.
    apply Nat.ltb_lt. vm_compute. reflexivity.
Defined.

Lemma unmarshal_terminates_witness :
  unmarshal_value (parse_document 100 (quoted "{'a':[{}],'amount':'7'}")) =
    UnmarshalRecord (quoted "{'a':[{}],'amount':'7'}") ∧
  RecAmount <$> UnmarshalRecord (quoted "{'a':[{}],'amount':'7'}") = Some "7"%string.
Proof.
  split; [|vm_compute; reflexivity].
  apply unmarshal_terminates. apply Nat.leb_le. vm_compute. reflexivity.
Defined.
