(* ===== verification/Store.v ===== *)
(** * The receipt store

    Models [gateway/internal/core/receipt/store.go]: the append-only JSONL file
    and its in-memory index. The file is a byte sequence that survives the
    process; [NewStore] rebuilds the index from it.

    [encoding/json] applied to a [Record] is the interface [RecordCodec], which
    [Json] implements. What
    the operating system does to a write is an argument of the operations that
    write ([io]): it may fail after any number of bytes, and the sync may fail
    after a complete write. *)
From stdpp Require Export gmap strings.
From S2P Require Export Json.
#[local] Open Scope string_scope.
#[local] Open Scope Z_scope.
#[local] Open Scope list_scope.

(** ** Data *)
Definition dedupKey (paymentID txHash : string) : string := paymentID +:+ "|" +:+ txHash.
Definition key_of (r : Receipt) : string := dedupKey (PaymentID r) (SettlementTxHash r).

Inductive store_error :=
  | ErrDuplicate
  | ErrUnknown
  | OpenError
  | MalformedJSONL (line : nat)
  | ScanTooLong
  | MarshalError
  | WriteError
  | SyncError.

(** [file] is [s.file != nil]. *)
Record Store := {
  file : bool;
  records : gmap string Receipt;
  order : list string;
}.

(** ** [bufio.Scanner] with [ScanLines] *)

(** The tokens of a byte sequence, before the size limit: the parts between
    newlines, and a last unterminated one if it is not empty. *)
Fixpoint split_lines (acc l : list byte) : list (list byte) :=
  match l with
  | [] => match acc with [] => [] | _ :: _ => [reverse acc] end
  | b :: t =>
      if bool_decide (b = newline) then reverse acc :: split_lines [] t
      else split_lines (b :: acc) t
  end.

Definition dropCR (l : list byte) : list byte :=
  match list.last l with
  | Some c => if bool_decide (c = carriage_return) then removelast l else l
  | None => l
  end.

(** The tokens up to the first that does not fit the buffer, and whether one did
    not ([scanner.Err()]). *)
Fixpoint scan_tokens (ls : list (list byte)) : list (list byte) * bool :=
  match ls with
  | [] => ([], false)
  | l :: t =>
      if Nat.leb max_token (length l) then ([], true)
      else let '(ts, e) := scan_tokens t in (dropCR l :: ts, e)
  end.

Section Operations.
Context `{RecordCodec}.

(** What the operating system does to one line: [None] writes it all, [Some n]
    fails after [n] bytes; then whether [Sync] succeeds. *)
Record io := { io_write : option nat; io_sync : bool }.

(** The loop body of [loadRecords]. *)
Definition load_record (rec : Receipt) (s : Store) : Store :=
  let rec := default_pending rec in
  let key := dedupKey (PaymentID rec) (SettlementTxHash rec) in
  let s := match records s !! key with
           | None => {| file := file s; records := records s; order := order s ++ [key] |}
           | Some _ => s
           end in
  {| file := file s; records := <[key := rec]> (records s); order := order s |}.

Fixpoint load_lines (lineNo : nat) (ls : list (list byte)) (s : Store) : result store_error Store :=
  match ls with
  | [] => Ok s
  | l :: t =>
      match Unmarshal l with
      | None => Err (MalformedJSONL (S lineNo))
      | Some rec => load_lines (S lineNo) t (load_record rec s)
      end
  end.

Definition loadRecords (disk : list byte) (s : Store) : result store_error Store :=
  let '(tokens, tooLong) := scan_tokens (split_lines [] disk) in
  match load_lines 0 tokens s with
  | Err e => Err e
  | Ok s => if tooLong then Err ScanTooLong else Ok s
  end.

(** [can_open]: whether [os.OpenFile] succeeds (it creates a missing file). *)
Definition NewStore (can_open : bool) (disk : list byte) : result store_error Store :=
  if negb can_open then Err OpenError else
  loadRecords disk {| file := true; records := ∅; order := [] |}.

Definition Has (paymentID txHash : string) (s : Store) : bool :=
  bool_decide (is_Some (records s !! dedupKey paymentID txHash)).

Definition Count (s : Store) : nat := size (records s).

(** The error and the file after writing one line; a closed file refuses. *)
Definition writeLineLocked (plan : io) (rec : Receipt) (s : Store) (disk : list byte)
    : result store_error unit * list byte :=
  match Marshal rec with
  | None => (Err MarshalError, disk)
  | Some m =>
      let line := m ++ [newline] in
      if negb (file s) then (Err WriteError, disk) else
      match io_write plan with
      | Some n => (Err WriteError, disk ++ take n line)
      | None => (if io_sync plan then Ok tt else Err SyncError, disk ++ line)
      end
  end.

Definition store_op : Type := Store * list byte → result store_error unit * (Store * list byte).

Definition Append (plan : io) (rec : Receipt) : store_op := λ '(s, disk),
  let key := dedupKey (PaymentID rec) (SettlementTxHash rec) in
  match records s !! key with
  | Some _ => (Err ErrDuplicate, (s, disk))
  | None =>
      let rec := default_pending rec in
      match writeLineLocked plan rec s disk with
      | (Err e, disk) => (Err e, (s, disk))
      | (Ok _, disk) =>
          (Ok tt, ({| file := file s; records := <[key := rec]> (records s);
                      order := order s ++ [key] |}, disk))
      end
  end.

Definition MarkDispatched (plan : io) (paymentID txHash : string) : store_op := λ '(s, disk),
  let key := dedupKey paymentID txHash in
  match records s !! key with
  | None => (Err ErrUnknown, (s, disk))
  | Some rec =>
      if String.eqb (DispatchStatus rec) StatusDispatched then (Ok tt, (s, disk)) else
      let rec := set_DispatchStatus StatusDispatched rec in
      match writeLineLocked plan rec s disk with
      | (Err e, disk) => (Err e, (s, disk))
      | (Ok _, disk) =>
          (Ok tt, ({| file := file s; records := <[key := rec]> (records s);
                      order := order s |}, disk))
      end
  end.

(** The loop over [s.order], with the [limit - len(out)] still to take. *)
Fixpoint pending_loop (limit : nat) (keys : list string) (recs : gmap string Receipt)
    : list Receipt :=
  match keys with
  | [] => []
  | key :: t =>
      match recs !! key with
      | None => pending_loop limit t recs
      | Some rec =>
          if negb (String.eqb (DispatchStatus rec) StatusPending) then pending_loop limit t recs
          else
            match limit with
            | O | S O => [rec]
            | S limit => rec :: pending_loop limit t recs
            end
      end
  end.

(** A nil slice and an empty one are both []. *)
Definition PendingRecords (limit : Z) (s : Store) : list Receipt :=
  if limit <=? 0 then [] else pending_loop (Z.to_nat limit) (order s) (records s).

(** Closing a closed store does nothing; [close_ok] is what [file.Close] returns. *)
Definition Close (close_ok : bool) (s : Store) : bool * Store :=
  if negb (file s) then (true, s)
  else (close_ok, {| file := false; records := records s; order := order s |}).
End Operations.

(** ** Lines *)
Section Lines.

Definition terminated (ls : list (list byte)) : list byte :=
  concat ((λ l, l ++ [newline]) <$> ls).

Definition line_ok (l : list byte) : Prop :=
  (newline ∉ l) ∧ (list.last l ≠ Some carriage_return) ∧ (length l < max_token)%nat.

Lemma split_lines_app acc l t :
  newline ∉ l → split_lines acc (l ++ t) = split_lines (reverse l ++ acc) t.
Proof.
  revert acc. induction l as [|b l IH]; intros acc Hl; [done|].
  apply not_elem_of_cons in Hl as [Hb Hl]. cbn [app split_lines].
  rewrite bool_decide_eq_false_2 by done. rewrite IH by done.
  by rewrite reverse_cons, <- app_assoc.
Qed.

Lemma split_lines_terminated ls tl :
  Forall (λ l, newline ∉ l) ls →
  split_lines [] (terminated ls ++ tl) = ls ++ split_lines [] tl.
Proof.
  induction 1 as [|l ls Hl _ IH]; [done|]. unfold terminated in *. cbn [fmap list_fmap concat].
  rewrite <- !app_assoc, split_lines_app by done. cbn [app split_lines].
  rewrite bool_decide_eq_true_2 by done.
  by rewrite app_nil_r, reverse_involutive, IH.
Qed.

Lemma scan_tokens_ok ls tl :
  Forall line_ok ls →
  scan_tokens (ls ++ tl) = (ls ++ (scan_tokens tl).1, (scan_tokens tl).2).
Proof.
  induction 1 as [|l ls (_ & Hcr & Hlen) _ IH]; [apply surjective_pairing|].
  cbn [app scan_tokens].
  destruct (Nat.leb_spec max_token (length l)); [lia|]. rewrite IH.
  do 2 f_equal. unfold dropCR. destruct (list.last l) as [c|]; [|done].
  rewrite bool_decide_eq_false_2; [done|congruence].
Qed.

(** An unterminated last line is a token of its own. *)
Lemma split_lines_partial l : newline ∉ l → l ≠ [] → split_lines [] l = [l].
Proof.
  intros Hl Hne. rewrite <- (app_nil_r l) at 1. rewrite split_lines_app, app_nil_r by done.
  cbn [split_lines]. destruct (reverse l) eqn:E.
  - by apply (f_equal reverse) in E; rewrite reverse_involutive in E.
  - by rewrite <- E, reverse_involutive.
Qed.
End Lines.

(** ** The index *)
Section Index.
Context `{RecordCodec}.

Definition empty_store : Store := {| file := true; records := ∅; order := [] |}.

Definition replay (rs : list Receipt) : Store := foldl (λ s r, load_record r s) empty_store rs.

(** The index agrees with its order list and with the keys of its records. *)
Record store_wf (s : Store) : Prop := {
  wf_nodup : NoDup (order s);
  wf_dom k : k ∈ order s ↔ is_Some (records s !! k);
  wf_key k r : records s !! k = Some r → key_of r = k;
  wf_status k r : records s !! k = Some r → DispatchStatus r ≠ ""%string;
}.

(** The abstract content: the receipts in the order they were first recorded. *)
Definition contents (s : Store) : list Receipt := omap (λ k, records s !! k) (order s).

Lemma default_pending_status r : DispatchStatus (default_pending r) ≠ ""%string.
Proof. unfold default_pending. by destruct (String.eqb_spec (DispatchStatus r) ""). Qed.

Lemma default_pending_key r : key_of (default_pending r) = key_of r.
Proof. unfold default_pending. by destruct (String.eqb (DispatchStatus r) ""). Qed.

Lemma default_pending_idem r : default_pending (default_pending r) = default_pending r.
Proof.
  unfold default_pending at 1.
  by destruct (String.eqb_spec (DispatchStatus (default_pending r)) "") as [E%default_pending_status|].
Qed.

Lemma default_pending_id r : DispatchStatus r ≠ ""%string → default_pending r = r.
Proof. intros. unfold default_pending. by destruct (String.eqb_spec (DispatchStatus r) ""). Qed.

(** Adding a record under a new key, and replacing one under its key. *)
Definition insert_new (r : Receipt) (s : Store) : Store :=
  {| file := file s; records := <[key_of r := r]> (records s); order := order s ++ [key_of r] |}.
Definition replace (r : Receipt) (s : Store) : Store :=
  {| file := file s; records := <[key_of r := r]> (records s); order := order s |}.

Lemma load_record_eq r s :
  load_record r s =
  match records s !! key_of r with
  | None => insert_new (default_pending r) s
  | Some _ => replace (default_pending r) s
  end.
Proof.
  unfold load_record. fold (key_of (default_pending r)). rewrite default_pending_key.
  unfold insert_new, replace. rewrite default_pending_key.
  by destruct (records s !! key_of r).
Qed.

Lemma insert_new_wf r s :
  store_wf s → records s !! key_of r = None → DispatchStatus r ≠ ""%string →
  store_wf (insert_new r s) ∧ contents (insert_new r s) = contents s ++ [r].
Proof.
  intros [W1 W2 W3 W4] Hk Hst.
  assert (key_of r ∉ order s) as Hnin by (rewrite W2, Hk; by intros []).
  split; [split; cbn|].
  - apply list.NoDup_app. split_and!; [done| |apply NoDup_singleton].
    intros k Hin ->%list_elem_of_singleton. done.
  - intros k. rewrite elem_of_app, list_elem_of_singleton, W2.
    destruct (decide (k = key_of r)) as [->|Hne].
    + rewrite lookup_insert_eq. split; [eauto|]. by right.
    + rewrite lookup_insert_ne by done. naive_solver.
  - intros k r'. destruct (decide (k = key_of r)) as [->|Hne].
    + rewrite lookup_insert_eq. congruence.
    + rewrite lookup_insert_ne by done. apply W3.
  - intros k r'. destruct (decide (k = key_of r)) as [->|Hne].
    + rewrite lookup_insert_eq. congruence.
    + rewrite lookup_insert_ne by done. apply W4.
  - unfold contents. cbn. rewrite omap_app. cbn. rewrite lookup_insert_eq. f_equal.
    apply list_omap_ext, Forall_Forall2_diag, list.Forall_forall. intros k Hin.
    rewrite lookup_insert_ne; [done|]. by intros <-.
Qed.

Lemma replace_wf r s :
  store_wf s → is_Some (records s !! key_of r) → DispatchStatus r ≠ ""%string →
  store_wf (replace r s) ∧
  contents (replace r s) = (λ x, if decide (key_of x = key_of r) then r else x) <$> contents s.
Proof.
  intros [W1 W2 W3 W4] Hk Hst. split; [split; cbn|].
  - done.
  - intros k. rewrite W2. destruct (decide (k = key_of r)) as [->|Hne].
    + rewrite lookup_insert_eq. split; eauto.
    + by rewrite lookup_insert_ne.
  - intros k r'. destruct (decide (k = key_of r)) as [->|Hne].
    + rewrite lookup_insert_eq. congruence.
    + rewrite lookup_insert_ne by done. apply W3.
  - intros k r'. destruct (decide (k = key_of r)) as [->|Hne].
    + rewrite lookup_insert_eq. congruence.
    + rewrite lookup_insert_ne by done. apply W4.
  - unfold contents. cbn. clear W1 W2.
    assert (∀ k x, records s !! k = Some x → key_of x = k) as W3' by done.
    induction (order s) as [|k ks IH]; [done|]. cbn.
    destruct (decide (k = key_of r)) as [->|Hne].
    + rewrite lookup_insert_eq. destruct Hk as [x Hx]. rewrite Hx. cbn.
      rewrite decide_True by by apply W3'. by f_equal.
    + rewrite lookup_insert_ne by done. destruct (records s !! k) as [x|] eqn:Hx; [|done]. cbn.
      rewrite decide_False by (by rewrite (W3' k x)). by f_equal.
Qed.

Lemma load_record_wf r s : store_wf s → store_wf (load_record r s).
Proof.
  intros Hwf. rewrite load_record_eq. destruct (records s !! key_of r) as [x|] eqn:E.
  - apply replace_wf; [done|rewrite default_pending_key, E; by eexists|apply default_pending_status].
  - apply insert_new_wf; [done|by rewrite default_pending_key|apply default_pending_status].
Qed.

Lemma replay_snoc rs r : replay (rs ++ [r]) = load_record r (replay rs).
Proof. unfold replay. by rewrite foldl_app. Qed.

Lemma replay_wf rs : store_wf (replay rs).
Proof.
  induction rs as [|r rs IH] using rev_ind.
  - split; cbn; [constructor| |done|done]. intros k. rewrite lookup_empty.
    split; [by intros ?%elem_of_nil|by intros []].
  - rewrite replay_snoc. by apply load_record_wf.
Qed.

Lemma replay_file rs : file (replay rs) = true.
Proof.
  induction rs as [|r rs IH] using rev_ind; [done|].
  rewrite replay_snoc, load_record_eq. by destruct (_ !! _).
Qed.
End Index.

(** ** The file *)
Section File.
Context `{RecordCodecLaws}.

(** The file holds exactly the lines of the receipts [rs]. *)
Definition file_of (rs : list Receipt) (disk : list byte) : Prop :=
  Forall codec_ok rs ∧
  ∃ ls, Forall2 (λ r l, Marshal r = Some l) rs ls ∧ disk = terminated ls.

Lemma file_of_nil : file_of [] [].
Proof. split; [constructor|]. exists []. split; [constructor|done]. Qed.

(** The index is the one the file rebuilds. *)
Definition synced (s : Store) (disk : list byte) : Prop :=
  ∃ rs, file_of rs disk ∧ records s = records (replay rs) ∧ order s = order (replay rs).

Lemma Marshal_ok r : codec_ok r →
  ∃ l, Marshal r = Some l ∧ Unmarshal l = Some r ∧ line_ok l.
Proof.
  intros (l & Hm & Hu & Hnl & Hcr & Hlen)%codec_roundtrip. exists l.
  split; [done|]. split; [done|]. by split_and!.
Qed.

Lemma file_of_lines rs ls :
  Forall codec_ok rs → Forall2 (λ r l, Marshal r = Some l) rs ls →
  Forall line_ok ls ∧ Forall2 (λ r l, Unmarshal l = Some r) rs ls.
Proof.
  intros Hok Hls. induction Hls as [|r l rs ls Hl Hls IH]; [done|].
  inversion Hok as [|? ? Hr Hrs]; subst. destruct (IH Hrs) as [IH1 IH2].
  destruct (Marshal_ok r Hr) as (l' & Hm & Hu & Hlo). rewrite Hl in Hm. injection Hm as <-.
  by split; constructor.
Qed.

Lemma load_lines_replay rs ls tl n s :
  Forall2 (λ r l, Unmarshal l = Some r) rs ls →
  load_lines n (ls ++ tl) s =
  load_lines (n + length rs) tl (foldl (λ s r, load_record r s) s rs).
Proof.
  intros Hls. revert n s. induction Hls as [|r l rs ls Hl _ IH]; intros n s.
  - by rewrite Nat.add_0_r.
  - cbn [app load_lines length foldl]. rewrite Hl, IH.
    by rewrite <- Nat.add_succ_comm.
Qed.

(** Loading a file followed by an unterminated tail [tl]. *)
Lemma NewStore_file_tail rs disk tl :
  file_of rs disk → newline ∉ tl → tl ≠ [] → (length tl < max_token)%nat →
  NewStore true (disk ++ tl) =
  match Unmarshal (dropCR tl) with
  | None => Err (MalformedJSONL (S (length rs)))
  | Some r => Ok (load_record r (replay rs))
  end.
Proof.
  intros (Hok & ls & Hls & ->) Hnl Hne Hlen. destruct (file_of_lines rs ls Hok Hls) as [Hlo Hu].
  unfold NewStore, loadRecords. cbn [negb].
  rewrite split_lines_terminated, split_lines_partial, scan_tokens_ok; try done.
  2:{ eapply list.Forall_impl; [exact Hlo|]. by intros l (? & _). }
  cbn [scan_tokens]. destruct (Nat.leb_spec max_token (length tl)); [lia|]. cbn [fst snd].
  rewrite load_lines_replay with (rs := rs) by done. fold empty_store. fold (replay rs).
  cbn [load_lines]. rewrite Nat.add_0_l. by destruct (Unmarshal (dropCR tl)).
Qed.

Lemma NewStore_file rs disk : file_of rs disk → NewStore true disk = Ok (replay rs).
Proof.
  intros (Hok & ls & Hls & ->). destruct (file_of_lines rs ls Hok Hls) as [Hlo Hu].
  unfold NewStore, loadRecords. cbn [negb].
  rewrite <- (app_nil_r (terminated ls)), split_lines_terminated.
  2:{ eapply list.Forall_impl; [exact Hlo|]. by intros l (? & _). }
  cbn [split_lines]. rewrite scan_tokens_ok by done. cbn [scan_tokens fst snd].
  by rewrite load_lines_replay with (rs := rs).
Qed.

Lemma file_of_snoc rs disk r l :
  file_of rs disk → codec_ok r → Marshal r = Some l →
  file_of (rs ++ [r]) (disk ++ l ++ [newline]).
Proof.
  intros (Hok & ls & Hls & ->) Hr Hl. split; [by apply Forall_app; split; [|constructor]|].
  exists (ls ++ [l]). split; [by apply Forall2_app; [|constructor]|].
  unfold terminated. by rewrite fmap_app, concat_app; cbn; rewrite app_nil_r.
Qed.

Lemma default_pending_ok r : codec_ok r → codec_ok (default_pending r).
Proof. intros. unfold default_pending. destruct (String.eqb _ _); auto using codec_pending. Qed.

Lemma synced_wf s disk : synced s disk → store_wf s.
Proof.
  intros (rs & _ & Hr & Ho). destruct (replay_wf rs) as [W1 W2 W3 W4].
  split; rewrite ?Ho, ?Hr; done.
Qed.

Lemma replay_codec_ok rs k r :
  Forall codec_ok rs → records (replay rs) !! k = Some r → codec_ok r.
Proof.
  revert k r. induction rs as [|x rs IH] using rev_ind; intros k r Hok.
  { cbn. by rewrite lookup_empty. }
  apply Forall_app in Hok as [Hrs Hx]. rewrite list.Forall_singleton in Hx.
  assert (∀ s', records s' = <[key_of (default_pending x) := default_pending x]> (records (replay rs)) →
            records s' !! k = Some r → codec_ok r) as Hins.
  { intros s' ->. destruct (decide (k = key_of (default_pending x))) as [->|Hne].
    - rewrite lookup_insert_eq. intros [= <-]. by apply default_pending_ok.
    - rewrite lookup_insert_ne by done. by apply IH. }
  rewrite replay_snoc, load_record_eq. destruct (records (replay rs) !! key_of x); by apply Hins.
Qed.

Lemma synced_codec_ok s disk k r : synced s disk → records s !! k = Some r → codec_ok r.
Proof.
  intros (rs & (Hok & _) & Hr & _). rewrite Hr. by apply replay_codec_ok.
Qed.

(** *** The effect of writing a record *)

Lemma write_ok plan r s disk :
  codec_ok r → file s = true → io_write plan = None →
  ∃ l, Marshal r = Some l ∧
    writeLineLocked plan r s disk =
      (if io_sync plan then Ok tt else Err SyncError, disk ++ l ++ [newline]).
Proof.
  intros Hr Hf Hw. destruct (Marshal_ok r Hr) as (l & Hm & _). exists l. split; [done|].
  unfold writeLineLocked. by rewrite Hm, Hf, Hw.
Qed.

Lemma write_closed plan r s disk :
  file s = false → ∃ e, writeLineLocked plan r s disk = (Err e, disk).
Proof.
  intros Hf. unfold writeLineLocked. rewrite Hf. destruct (Marshal r); by eexists.
Qed.

(** What [Append] puts in the index and on the line, for a new key. *)
Lemma synced_insert s disk rs r l f :
  file_of rs disk → records s = records (replay rs) → order s = order (replay rs) →
  codec_ok r → DispatchStatus r ≠ ""%string → records s !! key_of r = None → Marshal r = Some l →
  synced {| file := f; records := <[key_of r := r]> (records s); order := order s ++ [key_of r] |}
    (disk ++ l ++ [newline]) ∧
  load_record r (replay rs) = insert_new r (replay rs).
Proof.
  intros Hf Hr Ho Hok Hst Hk Hl.
  assert (load_record r (replay rs) = insert_new r (replay rs)) as Hload.
  { rewrite load_record_eq, <- Hr, Hk. by rewrite default_pending_id. }
  split; [|done]. exists (rs ++ [r]). split; [by apply file_of_snoc|].
  rewrite replay_snoc, Hload. cbn. by rewrite Hr, Ho.
Qed.

Lemma synced_replace s disk rs r l f :
  file_of rs disk → records s = records (replay rs) → order s = order (replay rs) →
  codec_ok r → DispatchStatus r ≠ ""%string → is_Some (records s !! key_of r) → Marshal r = Some l →
  synced {| file := f; records := <[key_of r := r]> (records s); order := order s |}
    (disk ++ l ++ [newline]) ∧
  load_record r (replay rs) = replace r (replay rs).
Proof.
  intros Hf Hr Ho Hok Hst [x Hk] Hl.
  assert (load_record r (replay rs) = replace r (replay rs)) as Hload.
  { rewrite load_record_eq, <- Hr, Hk. by rewrite default_pending_id. }
  split; [|done]. exists (rs ++ [r]). split; [by apply file_of_snoc|].
  rewrite replay_snoc, Hload. cbn. by rewrite Hr, Ho.
Qed.
End File.

(** ** Properties *)
Section Properties.
Context `{RecordCodecLaws}.

(** Commands on an open store; [io] is what the operating system does. *)
Inductive store_cmd :=
  | C_Append (plan : io) (rec : Receipt)
  | C_MarkDispatched (plan : io) (paymentID txHash : string)
  | C_Close (close_ok : bool).

Definition run_cmd (c : store_cmd) (st : Store * list byte) : Store * list byte :=
  match c with
  | C_Append plan rec => (Append plan rec st).2
  | C_MarkDispatched plan pid tx => (MarkDispatched plan pid tx st).2
  | C_Close ok => ((Close ok st.1).2, st.2)
  end.

(** A write that is complete and synced, and one that is or fails before its first
    byte. *)
Definition good_io (plan : io) : Prop := io_write plan = None ∧ io_sync plan = true.
Definition clean_io (plan : io) : Prop := io_write plan = Some O ∨ good_io plan.

(** The records are representable and the writes clean. *)
Definition cmd_ok (c : store_cmd) : Prop :=
  match c with
  | C_Append plan rec => codec_ok rec ∧ clean_io plan
  | C_MarkDispatched plan _ _ => clean_io plan
  | C_Close _ => True
  end.

Lemma write_nothing plan r s disk :
  io_write plan = Some O → ∃ e, writeLineLocked plan r s disk = (Err e, disk).
Proof.
  intros Hw. unfold writeLineLocked. destruct (Marshal r); [|by eexists].
  destruct (file s); cbn [negb]; [|by eexists]. rewrite Hw, take_0, app_nil_r. by eexists.
Qed.

Lemma Append_synced plan rec s disk :
  synced s disk → cmd_ok (C_Append plan rec) →
  synced (Append plan rec (s, disk)).2.1 (Append plan rec (s, disk)).2.2.
Proof.
  intros Hs [Hok Hplan]. unfold Append. fold (key_of rec).
  destruct (records s !! key_of rec) as [x|] eqn:Hk; [done|].
  assert (∃ e, writeLineLocked plan (default_pending rec) s disk = (Err e, disk) ∨
    file s = true ∧ io_write plan = None ∧ io_sync plan = true) as [e [Hw|(Hf & Hw & Hsy)]].
  { destruct Hplan as [Hw|[Hw Hsy]].
    - destruct (write_nothing plan (default_pending rec) s disk Hw) as [e He]. exists e. by left.
    - destruct (file s) eqn:Hf; [exists WriteError; by right|].
      destruct (write_closed plan (default_pending rec) s disk Hf) as [e He]. exists e. by left. }
  { by rewrite Hw. }
  destruct Hs as (rs & Hfile & Hr & Ho).
  destruct (write_ok plan (default_pending rec) s disk) as (l & Hl & ->);
    [by apply default_pending_ok|done|done|]. rewrite Hsy. cbn.
  rewrite <- (default_pending_key rec) in *.
  by eapply synced_insert; eauto using default_pending_ok, default_pending_status.
Qed.

(** A good write succeeds. *)
Lemma Append_good plan rec s disk :
  file s = true → codec_ok rec → good_io plan → records s !! key_of rec = None →
  (Append plan rec (s, disk)).1 = Ok tt.
Proof.
  intros Hf Hok [Hw Hsy] Hk. unfold Append. fold (key_of rec). rewrite Hk.
  destruct (write_ok plan (default_pending rec) s disk) as (l & _ & ->);
    [by apply default_pending_ok|done|done|]. by rewrite Hsy.
Qed.

Lemma MarkDispatched_good plan pid tx s disk :
  synced s disk → file s = true → good_io plan → is_Some (records s !! dedupKey pid tx) →
  (MarkDispatched plan pid tx (s, disk)).1 = Ok tt.
Proof.
  intros Hs Hf [Hw Hsy] [x Hk]. unfold MarkDispatched. rewrite Hk.
  destruct (String.eqb _ _); [done|].
  destruct (write_ok plan (set_DispatchStatus StatusDispatched x) s disk) as (l & _ & ->);
    [by apply codec_dispatched; eapply synced_codec_ok|done|done|]. by rewrite Hsy.
Qed.

Lemma MarkDispatched_synced plan pid tx s disk :
  synced s disk → cmd_ok (C_MarkDispatched plan pid tx) →
  synced (MarkDispatched plan pid tx (s, disk)).2.1 (MarkDispatched plan pid tx (s, disk)).2.2.
Proof.
  intros Hs Hplan. unfold MarkDispatched.
  destruct (records s !! dedupKey pid tx) as [x|] eqn:Hk; [|done].
  destruct (String.eqb (DispatchStatus x) StatusDispatched); [done|].
  set (x' := set_DispatchStatus StatusDispatched x).
  assert (∃ e, writeLineLocked plan x' s disk = (Err e, disk) ∨
    file s = true ∧ io_write plan = None ∧ io_sync plan = true) as [e [Hw|(Hf & Hw & Hsy)]].
  { destruct Hplan as [Hw|[Hw Hsy]].
    - destruct (write_nothing plan x' s disk Hw) as [e He]. exists e. by left.
    - destruct (file s) eqn:Hf; [exists WriteError; by right|].
      destruct (write_closed plan x' s disk Hf) as [e He]. exists e. by left. }
  { by rewrite Hw. }
  assert (codec_ok x') as Hx' by (by apply codec_dispatched; eapply synced_codec_ok).
  assert (key_of x' = dedupKey pid tx) as Hkx by exact (wf_key s (synced_wf s disk Hs) _ x Hk).
  destruct Hs as (rs & Hfile & Hr & Ho).
  destruct (write_ok plan x' s disk) as (l & Hl & ->); [done..|]. rewrite Hsy. cbn.
  rewrite <- Hkx in *. by eapply synced_replace; eauto.
Qed.

Lemma run_cmd_synced c s disk :
  synced s disk → cmd_ok c → synced (run_cmd c (s, disk)).1 (run_cmd c (s, disk)).2.
Proof.
  intros Hs Hc. destruct c as [plan rec|plan pid tx|ok]; cbn [run_cmd].
  - by apply Append_synced.
  - by apply MarkDispatched_synced.
  - cbn. unfold Close. by destruct (file s).
Qed.

(** C31. A restart loses and invents nothing: from a file that loads, after any
    sequence of appends, dispatch marks and closes (each write complete, or failed
    before its first byte), opening the file again rebuilds the same records in
    the same order, so the same receipts are pending. *)
Theorem Store_reload disk s0 cmds rs :
  file_of rs disk → NewStore true disk = Ok s0 → Forall cmd_ok cmds →
  let '(s, disk') := foldl (λ st c, run_cmd c st) (s0, disk) cmds in
  ∃ s', NewStore true disk' = Ok s' ∧ records s' = records s ∧ order s' = order s ∧
    ∀ limit, PendingRecords limit s' = PendingRecords limit s.
Proof.
  intros Hfile Hnew Hcmds. rewrite (NewStore_file rs disk Hfile) in Hnew. injection Hnew as <-.
  assert (synced (replay rs) disk) as Hs by by exists rs.
  revert Hs. generalize (replay rs) as s. clear Hfile. revert disk.
  induction Hcmds as [|c cmds Hc _ IH]; intros disk s Hs; cbn [foldl].
  - destruct Hs as (rs' & Hf & Hr & Ho). exists (replay rs').
    rewrite (NewStore_file rs' disk Hf). split_and!; try done.
    intros limit. unfold PendingRecords. by rewrite Hr, Ho.
  - pose proof (run_cmd_synced c s disk Hs Hc) as Hs'.
    destruct (run_cmd c (s, disk)) as [s1 disk1]. by apply IH.
Qed.

(** The file is append-only, whatever the operating system does: every command
    leaves it an extension of what it was, by nothing or by (part of) one line. *)
Theorem Store_append_only c s disk :
  ∃ tl, (run_cmd c (s, disk)).2 = disk ++ tl ∧
    (tl = [] ∨ ∃ r l, Marshal r = Some l ∧ tl `prefix_of` l ++ [newline]).
Proof.
  assert (∀ plan r, ∃ tl, (writeLineLocked plan r s disk).2 = disk ++ tl ∧
    (tl = [] ∨ ∃ r l, Marshal r = Some l ∧ tl `prefix_of` l ++ [newline])) as Hwrite.
  { intros plan r. unfold writeLineLocked. destruct (Marshal r) as [l|] eqn:Hl.
    2:{ exists []. rewrite app_nil_r. auto. }
    destruct (file s); cbn [negb]; [|exists []; rewrite app_nil_r; auto].
    destruct (io_write plan) as [n|].
    - eexists. split; [done|]. right. exists r, l. split; [done|]. apply prefix_take.
    - eexists. split; [done|]. right. by exists r, l. }
  destruct c as [plan rec|plan pid tx|ok]; cbn [run_cmd].
  - unfold Append. destruct (records s !! _); [exists []; rewrite app_nil_r; auto|].
    specialize (Hwrite plan (default_pending rec)).
    by destruct (writeLineLocked plan (default_pending rec) s disk) as [[[]|e] d].
  - unfold MarkDispatched. destruct (records s !! _) as [x|]; [|exists []; rewrite app_nil_r; auto].
    destruct (String.eqb _ _); [exists []; rewrite app_nil_r; auto|].
    specialize (Hwrite plan (set_DispatchStatus StatusDispatched x)).
    by destruct (writeLineLocked plan (set_DispatchStatus StatusDispatched x) s disk) as [[[]|e] d].
  - exists []. rewrite app_nil_r. auto.
Qed.

(** C38. A crash in the middle of a line bricks the store: when an append fails
    after some but not all bytes of the JSON text, the call reports the error, but
    the next [NewStore] refuses the file at that line. *)
Theorem Store_torn_write plan rec n l s disk rs :
  file_of rs disk → records s = records (replay rs) → file s = true → codec_ok rec →
  records s !! key_of rec = None → Marshal (default_pending rec) = Some l →
  io_write plan = Some n → (0 < n < length l)%nat →
  list.last (take n l) ≠ Some carriage_return →
  ∃ disk', Append plan rec (s, disk) = (Err WriteError, (s, disk')) ∧
    NewStore true disk' = Err (MalformedJSONL (S (length rs))).
Proof.
  intros Hf Hr Hfile Hok Hk Hl Hw Hn Hcr.
  destruct (Marshal_ok (default_pending rec)) as (l' & Hl' & Hu & Hlo);
    [by apply default_pending_ok|]. rewrite Hl in Hl'. injection Hl' as <-.
  exists (disk ++ take n l). split.
  - unfold Append. fold (key_of rec). rewrite Hk. unfold writeLineLocked.
    rewrite Hl, Hfile, Hw. cbn [negb]. by rewrite take_app_le by lia.
  - destruct Hlo as (Hnl & _ & Hlen).
    assert (dropCR (take n l) = take n l) as Hdrop.
    { unfold dropCR. destruct (list.last (take n l)); [|done].
      rewrite bool_decide_eq_false_2; [done|congruence]. }
    rewrite (NewStore_file_tail rs); [|done| | |].
    + rewrite Hdrop. rewrite (codec_prefix (default_pending rec) l n); [done| |done|lia].
      by apply default_pending_ok.
    + intros Hin. apply Hnl. apply elem_of_take in Hin as (i & Hin & _).
      by apply list_elem_of_lookup_2 in Hin.
    + intros E. apply (f_equal length) in E. rewrite length_take in E. cbn in E. lia.
    + rewrite length_take. lia.
Qed.

(** C39. A failed sync is not a failed write: [Append] returns the error and the
    running store does not know the receipt, but a restart finds it. *)
Theorem Store_sync_failure plan rec s disk :
  synced s disk → file s = true → codec_ok rec → records s !! key_of rec = None →
  io_write plan = None → io_sync plan = false →
  ∃ disk' s', Append plan rec (s, disk) = (Err SyncError, (s, disk')) ∧
    NewStore true disk' = Ok s' ∧ contents s' = contents s ++ [default_pending rec].
Proof.
  intros (rs & Hf & Hr & Ho) Hfile Hok Hk Hw Hsy.
  destruct (write_ok plan (default_pending rec) s disk) as (l & Hl & Hwl);
    [by apply default_pending_ok|done|done|]. rewrite Hsy in Hwl.
  rewrite <- (default_pending_key rec) in Hk.
  destruct (synced_insert s disk rs (default_pending rec) l true) as [(rs' & Hf' & _ & _) Hload];
    [done..|by apply default_pending_ok|apply default_pending_status|done|done|].
  exists (disk ++ l ++ [newline]), (replay (rs ++ [default_pending rec])). split_and!.
  - unfold Append. fold (key_of rec). rewrite <- (default_pending_key rec), Hk. by rewrite Hwl.
  - apply NewStore_file. apply file_of_snoc; [done|by apply default_pending_ok|done].
  - rewrite replay_snoc, Hload.
    destruct (insert_new_wf (default_pending rec) (replay rs)) as [_ ->];
      [apply replay_wf|by rewrite <- Hr|apply default_pending_status|].
    unfold contents. by rewrite Hr, Ho.
Qed.
End Properties.

(** ** The store implements a log of receipts *)
Section Specification.
Context `{RecordCodec}.

(** The abstract log: receipts with distinct keys, in the order of their first
    recording, and the operations on it. *)
Definition log_keys (log : list Receipt) : list string := key_of <$> log.

Definition log_append (r : Receipt) (log : list Receipt) : list Receipt :=
  log ++ [default_pending r].

Definition log_dispatch (key : string) (log : list Receipt) : list Receipt :=
  (λ x, if decide (key_of x = key) then set_DispatchStatus StatusDispatched x else x) <$> log.

Definition log_pending (log : list Receipt) : list Receipt :=
  filter (λ x, DispatchStatus x = StatusPending) log.

Lemma contents_elem s x : store_wf s → x ∈ contents s ↔ records s !! key_of x = Some x.
Proof.
  intros [W1 W2 W3 W4]. unfold contents. rewrite list_elem_of_omap. split.
  - intros (k & _ & Hk). by rewrite (W3 k x Hk).
  - intros Hx. exists (key_of x). split; [|done]. apply W2. by eexists.
Qed.

Lemma log_keys_elem s k : store_wf s → k ∈ log_keys (contents s) ↔ is_Some (records s !! k).
Proof.
  intros Hwf. unfold log_keys. rewrite list_elem_of_fmap. split.
  - intros (x & -> & Hx%contents_elem); [by eexists|done].
  - intros [x Hx]. pose proof (wf_key s Hwf k x Hx) as <-. exists x. split; [done|].
    by apply contents_elem.
Qed.

Lemma log_keys_order s : store_wf s → log_keys (contents s) = order s.
Proof.
  intros [W1 W2 W3 W4]. unfold log_keys, contents.
  assert (∀ ks, (∀ k, k ∈ ks → is_Some (records s !! k)) →
    key_of <$> (omap (λ k, records s !! k) ks : list Receipt) = ks) as Hks.
  { induction ks as [|k ks IH]; intros Hdom; [done|]. cbn.
    destruct (Hdom k) as [x Hx]; [set_solver|]. rewrite Hx. cbn. rewrite (W3 k x Hx).
    f_equal. apply IH. set_solver. }
  apply Hks. intros k. by apply W2.
Qed.

Lemma pending_loop_spec limit keys recs :
  (0 < limit)%nat →
  pending_loop limit keys recs = take limit (log_pending (omap (λ k, recs !! k) keys)).
Proof.
  revert limit. induction keys as [|k keys IH]; intros limit Hl; [by destruct limit|].
  cbn [pending_loop omap list_omap]. destruct (recs !! k) as [r|]; [|by apply IH].
  unfold log_pending in *. cbv beta iota. rewrite list.filter_cons.
  destruct (String.eqb_spec (DispatchStatus r) StatusPending) as [E|E]; cbn [negb].
  - rewrite decide_True by done. destruct limit as [|[|limit]]; [lia|done|].
    cbn [take]. rewrite IH by lia. done.
  - rewrite decide_False by done. by apply IH.
Qed.

Lemma PendingRecords_spec limit s :
  PendingRecords limit s = take (Z.to_nat limit) (log_pending (contents s)).
Proof.
  unfold PendingRecords. destruct (Z.leb_spec limit 0).
  - by replace (Z.to_nat limit) with O by lia.
  - apply pending_loop_spec. lia.
Qed.

Lemma replace_dispatch s x :
  store_wf s → records s !! key_of x = Some x →
  contents (replace (set_DispatchStatus StatusDispatched x) s) = log_dispatch (key_of x) (contents s).
Proof.
  intros Hwf Hx. destruct (replace_wf (set_DispatchStatus StatusDispatched x) s) as [_ ->];
    [done|by eexists|done|].
  unfold log_dispatch. apply list_fmap_ext. intros i y Hy%list_elem_of_lookup_2.
  change (key_of (set_DispatchStatus StatusDispatched x)) with (key_of x).
  destruct (decide (key_of y = key_of x)) as [E|]; [|done].
  apply contents_elem in Hy; [|done]. rewrite E in Hy. by simplify_eq.
Qed.

Lemma log_dispatch_id s x k :
  store_wf s → records s !! k = Some x → DispatchStatus x = StatusDispatched →
  log_dispatch k (contents s) = contents s.
Proof.
  intros Hwf Hx Hst. unfold log_dispatch. rewrite <- (list_fmap_id (contents s)) at 2.
  apply list_fmap_ext. intros i y Hy%list_elem_of_lookup_2.
  destruct (decide (key_of y = k)) as [E|]; [|done].
  apply contents_elem in Hy; [|done]. rewrite E, Hx in Hy. injection Hy as <-.
  destruct x; cbn in *. by rewrite <- Hst.
Qed.

Lemma write_error_kind plan r s disk e d :
  writeLineLocked plan r s disk = (Err e, d) → e ≠ ErrDuplicate ∧ e ≠ ErrUnknown.
Proof. unfold writeLineLocked. by repeat case_match; intros [= <- _]. Qed.

Lemma Append_log plan rec s disk :
  store_wf s →
  let '(r, (s', disk')) := Append plan rec (s, disk) in
  store_wf s' ∧ file s' = file s ∧
  (key_of rec ∈ log_keys (contents s) ↔ r = Err ErrDuplicate) ∧
  (r = Err ErrDuplicate → disk' = disk) ∧
  contents s' = (if is_ok r then log_append rec (contents s) else contents s).
Proof.
  intros Hwf. unfold Append. fold (key_of rec).
  destruct (records s !! key_of rec) as [x|] eqn:Hk.
  { do 2 (split; [done|]). split; [|done]. split; [done|]. intros _. apply log_keys_elem; [done|].
    by eexists. }
  assert (key_of rec ∉ log_keys (contents s)) as Hnin.
  { rewrite log_keys_elem, Hk by done. by intros []. }
  destruct (writeLineLocked plan (default_pending rec) s disk) as [[[]|e] d] eqn:Hw.
  - destruct (insert_new_wf (default_pending rec) s) as [Hwf' Hc];
      [done|by rewrite default_pending_key|apply default_pending_status|].
    unfold insert_new in *. rewrite default_pending_key in *. done.
  - destruct (write_error_kind _ _ _ _ _ _ Hw). do 2 (split; [done|]).
    split; [|split; [congruence|done]]. split; [done|congruence].
Qed.

Lemma MarkDispatched_log plan pid tx s disk :
  store_wf s →
  let '(r, (s', disk')) := MarkDispatched plan pid tx (s, disk) in
  store_wf s' ∧ file s' = file s ∧
  (dedupKey pid tx ∉ log_keys (contents s) ↔ r = Err ErrUnknown) ∧
  contents s' = (if is_ok r then log_dispatch (dedupKey pid tx) (contents s) else contents s).
Proof.
  intros Hwf. unfold MarkDispatched.
  destruct (records s !! dedupKey pid tx) as [x|] eqn:Hk.
  2:{ do 2 (split; [done|]). split; [|done]. split; [done|]. intros _.
      rewrite log_keys_elem, Hk by done. by intros []. }
  assert (dedupKey pid tx ∈ log_keys (contents s)) as Hin.
  { rewrite log_keys_elem, Hk by done. by eexists. }
  pose proof (wf_key s Hwf _ _ Hk) as Hkey.
  destruct (String.eqb_spec (DispatchStatus x) StatusDispatched) as [Hst|Hst].
  { do 2 (split; [done|]). split; [done|]. cbn [is_ok]. by erewrite log_dispatch_id. }
  set (x' := set_DispatchStatus StatusDispatched x).
  destruct (writeLineLocked plan x' s disk) as [[[]|e] d] eqn:Hw.
  - rewrite <- Hkey in *. change (key_of x) with (key_of x').
    split; [by apply replace_wf; [|by eexists|]|]. do 2 (split; [done|]).
    exact (replace_dispatch s x Hwf Hk).
  - destruct (write_error_kind _ _ _ _ _ _ Hw). do 2 (split; [done|]). split; [|done].
    split; [done|congruence].
Qed.

Lemma Has_log pid tx s :
  store_wf s → Has pid tx s = bool_decide (dedupKey pid tx ∈ log_keys (contents s)).
Proof. intros Hwf. unfold Has. apply bool_decide_ext. by rewrite log_keys_elem. Qed.

Lemma log_keys_nodup s : store_wf s → NoDup (log_keys (contents s)).
Proof. intros Hwf. rewrite log_keys_order by done. apply (wf_nodup s Hwf). Qed.

Lemma log_keys_dispatch k log : log_keys (log_dispatch k log) = log_keys log.
Proof.
  unfold log_keys, log_dispatch. rewrite <- list_fmap_compose. apply list_fmap_ext.
  intros i x _. cbn. by destruct (decide (key_of x = k)).
Qed.

(** C20. The store refines a log of receipts with distinct keys. An append under a
    recorded key is refused and changes nothing; otherwise it extends the log. A
    dispatch mark under an unknown key is refused; otherwise it marks that receipt
    and only it, and marking twice is the same as marking once. A call that
    returns an error leaves the log as it was. Pending receipts are the unmarked
    ones, oldest first, and the other queries read the log. *)
Theorem Store_refines_log s disk :
  store_wf s →
  NoDup (log_keys (contents s)) ∧
  (∀ plan rec,
    let '(r, (s', disk')) := Append plan rec (s, disk) in
    store_wf s' ∧ file s' = file s ∧
    (key_of rec ∈ log_keys (contents s) ↔ r = Err ErrDuplicate) ∧
    (r = Err ErrDuplicate → disk' = disk) ∧
    contents s' = (if is_ok r then log_append rec (contents s) else contents s)) ∧
  (∀ plan pid tx,
    let '(r, (s', disk')) := MarkDispatched plan pid tx (s, disk) in
    store_wf s' ∧ file s' = file s ∧
    (dedupKey pid tx ∉ log_keys (contents s) ↔ r = Err ErrUnknown) ∧
    contents s' = (if is_ok r then log_dispatch (dedupKey pid tx) (contents s) else contents s)) ∧
  (∀ limit, PendingRecords limit s = take (Z.to_nat limit) (log_pending (contents s))) ∧
  (∀ pid tx, Has pid tx s = bool_decide (dedupKey pid tx ∈ log_keys (contents s))) ∧
  Count s = length (contents s).
Proof.
  intros Hwf. split_and!.
  - by apply log_keys_nodup.
  - intros. by apply Append_log.
  - intros. by apply MarkDispatched_log.
  - intros limit. apply PendingRecords_spec.
  - intros pid tx. by apply Has_log.
  - unfold Count. transitivity (length (log_keys (contents s))); [|apply length_fmap].
    rewrite (log_keys_order s Hwf).
    destruct Hwf as [W1 W2 _ _].
    assert (dom (records s) = list_to_set (order s)) as Hdom.
    { apply set_eq. intros k. by rewrite elem_of_dom, elem_of_list_to_set, W2. }
    by rewrite <- size_dom, Hdom, size_list_to_set.
Qed.

(** The dedup key identifies the pair it is made of, when the payment id has no
    separator in it. *)
Lemma dedupKey_inj pid tx pid' tx' :
  "|"%char ∉ String.list_ascii_of_string pid → "|"%char ∉ String.list_ascii_of_string pid' →
  dedupKey pid tx = dedupKey pid' tx' → pid = pid' ∧ tx = tx'.
Proof.
  unfold dedupKey. revert pid'. induction pid as [|c pid IH]; intros [|c' pid'] H1 H2; cbn in *.
  - intros [= E]. cbn in E. by subst.
  - intros [= <- _]. by destruct H2; apply elem_of_cons; left.
  - intros [= -> _]. by destruct H1; apply elem_of_cons; left.
  - intros [= -> E]. apply not_elem_of_cons in H1 as [_ H1]. apply not_elem_of_cons in H2 as [_ H2].
    by destruct (IH pid' H1 H2 E) as [-> ->].
Qed.
End Specification.

(** ** Witnesses: the store with its JSON lines *)
#[local] Existing Instance json_codec.
#[local] Existing Instance json_codec_laws.

Definition io_good : io := {| io_write := None; io_sync := true |}.

Lemma demo_receipt_ok : codec_ok (demo_receipt "1" StatusPending).
Proof. change (json_ok (demo_receipt "1" StatusPending)). apply (bool_decide_unpack _). vm_compute. exact I. Qed.

Lemma Store_reload_witness :
  ∃ s disk s',
    foldl (λ st c, run_cmd c st) (empty_store, [])
      [C_Append io_good (demo_receipt "1" StatusPending);
       C_MarkDispatched io_good "1" "0xaa"; C_Close true] = (s, disk) ∧
    NewStore true disk = Ok s' ∧ order s' = order s ∧ PendingRecords 10 s' = [].
Proof.
  pose proof (Store_reload [] empty_store
    [C_Append io_good (demo_receipt "1" StatusPending);
     C_MarkDispatched io_good "1" "0xaa"; C_Close true] [] file_of_nil eq_refl) as H.
  destruct (foldl _ _ _) as [s disk] eqn:E. destruct H as (s' & Hnew & _ & Ho & Hp).
  - constructor; [split; [exact demo_receipt_ok|right; split; reflexivity]|].
    constructor; [right; split; reflexivity|]. constructor; [exact I|constructor].
  - exists s, disk, s'. split; [reflexivity|]. split; [exact Hnew|]. split; [exact Ho|].
    rewrite Hp. vm_compute in E. injection E as <- <-. vm_compute. reflexivity.
Defined.

Lemma Store_append_only_witness :
  ∃ tl, (run_cmd (C_Append {| io_write := Some 2%nat; io_sync := true |}
                  (demo_receipt "1" StatusPending)) (empty_store, [x41])).2 = [x41] ++ tl.
Proof.
  destruct (Store_append_only (C_Append {| io_write := Some 2%nat; io_sync := true |}
    (demo_receipt "1" StatusPending)) empty_store [x41]) as (tl & Htl & _).
  exists tl. exact Htl.
Defined.

Lemma Store_torn_write_witness :
  ∃ disk', Append {| io_write := Some 1%nat; io_sync := true |} (demo_receipt "1" StatusPending)
      (empty_store, []) = (Err WriteError, (empty_store, disk')) ∧
    NewStore true disk' = Err (MalformedJSONL 1).
Proof.
  apply (Store_torn_write {| io_write := Some 1%nat; io_sync := true |}
    (demo_receipt "1" StatusPending) 1 (MarshalRecord (demo_receipt "1" StatusPending)) empty_store [] []).
  - exact file_of_nil.
  - reflexivity.
  - reflexivity.
  - exact demo_receipt_ok.
  - reflexivity.
  - reflexivity.
  - reflexivity.
  - split; [lia|]. apply Nat.ltb_lt. vm_compute. reflexivity.
  - apply (bool_decide_unpack _). vm_compute. exact I.
Defined.

Lemma Store_sync_failure_witness :
  ∃ disk' s', Append {| io_write := None; io_sync := false |} (demo_receipt "1" StatusPending)
      (empty_store, []) = (Err SyncError, (empty_store, disk')) ∧
    NewStore true disk' = Ok s' ∧ contents s' = [demo_receipt "1" StatusPending].
Proof.
  apply (Store_sync_failure {| io_write := None; io_sync := false |}
    (demo_receipt "1" StatusPending) empty_store []).
  - exists []. split; [exact file_of_nil|]. split; reflexivity.
  - reflexivity.
  - exact demo_receipt_ok.
  - reflexivity.
  - reflexivity.
  - reflexivity.
Defined.

Lemma Store_refines_log_witness :
  let s := replay [demo_receipt "1" StatusPending] in
  contents s = [demo_receipt "1" StatusPending] ∧
  (Append io_good (demo_receipt "1" StatusDispatched) (s, [])).1 = Err ErrDuplicate.
Proof.
  pose proof (replay_wf [demo_receipt "1" StatusPending]) as Hwf.
  destruct (Store_refines_log _ [] Hwf) as (_ & Ha & _).
  specialize (Ha io_good (demo_receipt "1" StatusDispatched)).
  split; [vm_compute; reflexivity|].
  destruct (Append _ _ _) as [r [s' disk']]. destruct Ha as (_ & _ & Hd & _).
  apply Hd. vm_compute. apply elem_of_cons. left. reflexivity.
Defined.
