(* ===== verification/Watcher.v ===== *)
(** * The settlement watcher

    Models [gateway/internal/core/chain/watcher.go]: decoding of
    [SettlementCreated] logs, one polling round ([Poll]) and the polling loop
    ([Run]).

    The chain client is the interface [EventFilterer] the code declares;
    [EventFiltererLaws] states the behaviour of a chain without
    reorganisations: blocks are only added, a query up to the head returns the
    matching logs of its blocks in order, and any call may fail. *)
From stdpp Require Import sets.
From S2P Require Export Intent.
#[local] Open Scope Z_scope.
#[local] Open Scope go_scope.

Definition DefaultWatchInterval : Z := 2 * 10 ^ 9.

Section Types.
Context `{EthCommon}.

(** [types.Log], the fields the watcher reads. *)
Record Log := {
  Topics : list Hash;
  Data : list byte;
  Log_BlockNumber : Z;
  Log_TxHash : Hash;
  Log_Index : Z;
}.

(** [ethereum.FilterQuery] *)
Record FilterQuery := {
  FromBlock : Z;
  ToBlock : Z;
  Addresses : list Address;
  Query_Topics : list (list Hash);
}.

Record SettlementEvent := {
  Ev_SatID : Z;
  Ev_Amount : Z;
  Ev_TxNonce : Z;
  Ev_Wallet : Address;
  Ev_TxHash : Hash;
  Ev_BlockNumber : Z;
  Ev_BlockTimeSec : Z;
}.

Definition set_BlockTimeSec (t : Z) (ev : SettlementEvent) : SettlementEvent :=
  {| Ev_SatID := Ev_SatID ev; Ev_Amount := Ev_Amount ev; Ev_TxNonce := Ev_TxNonce ev;
     Ev_Wallet := Ev_Wallet ev; Ev_TxHash := Ev_TxHash ev;
     Ev_BlockNumber := Ev_BlockNumber ev; Ev_BlockTimeSec := t |}.

Record Watcher := {
  w_contract : Address;
  w_interval : Z;
  eventTopic : Hash;
  nextBlock : Z;
}.

Definition NextBlock `{EthCommon} (w : Watcher) : Z := nextBlock w.

Inductive decode_error :=
  | WrongTopicCount (got : nat)
  | WrongDataLength (got : nat).

Inductive watch_error :=
  | BlockNumberError
  | FilterLogsError
  | DecodeError (index : Z) (e : decode_error)
  | HeaderError (block : Z)
  | ContextDone.

(** [EscrowABI.Events["SettlementCreated"]] is the argument [event_id]; the code
    returns an error when the ABI lacks the event. *)
Definition NewWatcher (contractAddr : Address) (fromBlock ivl : Z) (event_id : option Hash)
    : option Watcher :=
  let ivl := if ivl <=? 0 then DefaultWatchInterval else ivl in
  match event_id with
  | None => None
  | Some id => Some {| w_contract := contractAddr; w_interval := ivl; eventTopic := id;
                       nextBlock := fromBlock |}
  end.

(** [new(big.Int).SetBytes] is [be_uint]. *)
Definition decodeSettlementCreated (l : Log) : result decode_error SettlementEvent :=
  match Topics l with
  | [_; satTopic; nonceTopic; walletTopic] =>
      let satID := be_uint (drop (32 - 4) (Hash_Bytes satTopic)) in
      let txNonce := be_uint (Hash_Bytes nonceTopic) in
      let wallet := BytesToAddress (Hash_Bytes walletTopic) in
      if negb (Nat.eqb (length (Data l)) 32) then Err (WrongDataLength (length (Data l))) else
      let amount := be_uint (Data l) in
      Ok {| Ev_SatID := satID; Ev_Amount := amount; Ev_TxNonce := txNonce; Ev_Wallet := wallet;
            Ev_TxHash := Log_TxHash l; Ev_BlockNumber := Log_BlockNumber l;
            Ev_BlockTimeSec := 0 |}
  | ts => Err (WrongTopicCount (length ts))
  end.

Class EventFilterer (K : Type) := {
  FilterLogs : FilterQuery → K → option (list Log) * K;
  HeaderByNumber : Z → K → option Z * K;
  BlockNumber : K → option Z * K;
}.
End Types.

(** ** Polling *)
Section Poll.
Context `{EthCommon} {K : Type} `{!EventFilterer K}.

(** The loop over the logs: the events so far, the highest block seen, the error
    if there was one, and the client. *)
Fixpoint poll_loop (from : Z) (logs : list Log) (events : list SettlementEvent) (highest : Z)
    (client : K) : list SettlementEvent * Z * option watch_error * K :=
  match logs with
  | [] => (events, highest, None, client)
  | l :: logs =>
      match decodeSettlementCreated l with
      | Err e => (events, highest, Some (DecodeError (Log_Index l) e), client)
      | Ok ev =>
          let '(stamped, client) :=
            if from <=? Ev_BlockNumber ev then
              let '(hdr, client) := HeaderByNumber (Ev_BlockNumber ev) client in
              match hdr with
              | None => (None, client)
              | Some t => (Some (set_BlockTimeSec t ev), client)
              end
            else (Some ev, client) in
          match stamped with
          | None => (events, highest, Some (HeaderError (Ev_BlockNumber ev)), client)
          | Some ev =>
              poll_loop from logs (events ++ [ev])
                (if highest <? Ev_BlockNumber ev then Ev_BlockNumber ev else highest) client
          end
      end
  end.

(** The events and the error returned, and the new cursor and client. *)
Definition Poll (w : Watcher) (client : K)
    : list SettlementEvent * option watch_error * Watcher * K :=
  let '(head, client) := BlockNumber client in
  match head with
  | None => ([], Some BlockNumberError, w, client)
  | Some head =>
      if head <? nextBlock w then ([], None, w, client) else
      let q := {| FromBlock := nextBlock w; ToBlock := head; Addresses := [w_contract w];
                  Query_Topics := [[eventTopic w]] |} in
      let '(logs, client) := FilterLogs q client in
      match logs with
      | None => ([], Some FilterLogsError, w, client)
      | Some [] => ([], None, w, client)
      | Some logs =>
          let '(events, highest, err, client) := poll_loop (nextBlock w) logs [] (nextBlock w) client in
          match err with
          | Some e => (events, Some e, w, client)
          | None =>
              (events, None,
               {| w_contract := w_contract w; w_interval := w_interval w;
                  eventTopic := eventTopic w; nextBlock := u64 (highest + 1) |}, client)
          end
      end
  end.

(** [Run], up to the first error or cancellation. [ticks] is what the [select] does
    after each round: [true] for the next tick, [false] for a cancelled context; a
    run that is still going when the list ends returns no error yet. *)
Fixpoint Run {S : Type} (handler : SettlementEvent → S → S) (ticks : list bool)
    (w : Watcher) (client : K) (s : S) : option watch_error * Watcher * K * S :=
  let '(events, err, w, client) := Poll w client in
  match err with
  | Some e => (Some e, w, client, s)
  | None =>
      let s := foldl (λ s ev, handler ev s) s events in
      match ticks with
      | [] => (None, w, client, s)
      | false :: _ => (Some ContextDone, w, client, s)
      | true :: ticks => Run handler ticks w client s
      end
  end.
End Poll.

(** ** The chain *)
Class EventFiltererLaws `{EthCommon} (K : Type) `{!EventFilterer K} := {
  (** The [SettlementCreated] logs of a contract in a block, and the timestamp. *)
  block_logs : Address → Hash → Z → list Log;
  block_time : Z → Z;
  head_of : K → Z;
  head_range k : 0 <= head_of k < 2 ^ 64 - 1;
  logs_number a t b l : l ∈ block_logs a t b → Log_BlockNumber l = b;
  BlockNumber_law k : (BlockNumber k).1 = None ∨ (BlockNumber k).1 = Some (head_of k);
  BlockNumber_head k : head_of k <= head_of (BlockNumber k).2;
  FilterLogs_head q k : head_of k <= head_of (FilterLogs q k).2;
  HeaderByNumber_head n k : head_of k <= head_of (HeaderByNumber n k).2;
  FilterLogs_law a t from to k :
    0 <= from <= to → to <= head_of k →
    let q := {| FromBlock := from; ToBlock := to; Addresses := [a]; Query_Topics := [[t]] |} in
    (FilterLogs q k).1 = None ∨
    (FilterLogs q k).1 = Some (concat (block_logs a t <$> seqZ from (to - from + 1)));
  HeaderByNumber_law n k : n <= head_of k →
    (HeaderByNumber n k).1 = None ∨ (HeaderByNumber n k).1 = Some (block_time n);
}.

(** ** Exactly-once emission *)
Section Emission.
Context `{EthCommon} {K : Type} `{!EventFilterer K} `{!EventFiltererLaws K}.
Implicit Types (w : Watcher) (client : K).

(** The logs of the watched event in the blocks [from] to [to]. *)
Definition logs_between w (from to : Z) : list Log :=
  concat (block_logs (w_contract w) (eventTopic w) <$> seqZ from (to - from + 1)).

(** The event a log announces, with the timestamp of its block. *)
Definition decoded_log (l : Log) : option SettlementEvent :=
  match decodeSettlementCreated l with
  | Ok ev => Some (set_BlockTimeSec (block_time (Log_BlockNumber l)) ev)
  | Err _ => None
  end.

Lemma decode_block l ev : decodeSettlementCreated l = Ok ev → Ev_BlockNumber ev = Log_BlockNumber l.
Proof.
  unfold decodeSettlementCreated. destruct (Topics l) as [|? [|? [|? [|? []]]]]; try done.
  destruct (negb _); [done|]. by intros [= <-].
Qed.

Lemma logs_between_elem w from to l :
  l ∈ logs_between w from to → from <= Log_BlockNumber l <= to.
Proof.
  unfold logs_between. intros (ls & Hl & (b & -> & Hb)%list_elem_of_fmap)%list_elem_of_concat.
  apply elem_of_seqZ in Hb. apply logs_number in Hl. lia.
Qed.

Lemma logs_between_split w from mid to :
  from <= mid + 1 → mid <= to →
  logs_between w from to = logs_between w from mid ++ logs_between w (mid + 1) to.
Proof.
  intros H1 H2. unfold logs_between.
  replace (to - from + 1) with ((mid - from + 1) + (to - (mid + 1) + 1)) by lia.
  rewrite seqZ_app by lia. rewrite fmap_app, concat_app. do 4 f_equal. lia.
Qed.

Lemma logs_between_empty w from to : to < from → logs_between w from to = [].
Proof. intros. unfold logs_between. by rewrite seqZ_nil by lia. Qed.

(** The events announced by a list of logs, in order. *)
Definition announces (logs : list Log) (evs : list SettlementEvent) : Prop :=
  Forall2 (λ l ev, decoded_log l = Some ev) logs evs.

Lemma poll_loop_spec from logs events highest client :
  (∀ l, l ∈ logs → from <= Log_BlockNumber l <= head_of client) →
  let '(events', highest', err, client') := poll_loop from logs events highest client in
  head_of client <= head_of client' ∧
  match err with
  | None => ∃ evs, announces logs evs ∧ events' = events ++ evs ∧
      highest <= highest' ∧
      (highest' = highest ∨ ∃ l, l ∈ logs ∧ highest' = Log_BlockNumber l) ∧
      ∀ l, l ∈ logs → Log_BlockNumber l <= highest'
  | Some e => ∃ logs1 l logs2 evs, logs = logs1 ++ l :: logs2 ∧
      announces logs1 evs ∧ events' = events ++ evs ∧
      (e = HeaderError (Log_BlockNumber l) ∨
       ∃ de, decodeSettlementCreated l = Err de ∧ e = DecodeError (Log_Index l) de)
  end.
Proof.
  revert events highest client. induction logs as [|l logs IH]; intros events highest client Hl.
  - cbn. split; [lia|]. exists []. rewrite app_nil_r. split_and!; auto; [constructor|lia|].
    by intros ? ?%elem_of_nil.
  - cbn [poll_loop]. destruct (decodeSettlementCreated l) as [ev|de] eqn:Hd.
    2:{ split; [lia|]. exists [], l, logs, []. rewrite app_nil_r.
        split_and!; [done|constructor|done|eauto]. }
    pose proof (decode_block l ev Hd) as Hblk.
    destruct (Hl l) as [Hlo Hhi]; [by left|].
    destruct (Z.leb_spec from (Ev_BlockNumber ev)); [|lia].
    pose proof (HeaderByNumber_head (Ev_BlockNumber ev) client) as Hh.
    destruct (HeaderByNumber_law (Ev_BlockNumber ev) client) as [Hn|Hn]; [lia| |];
      destruct (HeaderByNumber (Ev_BlockNumber ev) client) as [hdr client1]; cbn [fst snd] in *;
      subst hdr.
    { split; [lia|]. exists [], l, logs, []. rewrite app_nil_r, Hblk.
      split_and!; [done|constructor|done|by left]. }
    set (ev' := set_BlockTimeSec _ ev).
    assert (decoded_log l = Some ev') as Hdl by (unfold decoded_log; by rewrite Hd, <- Hblk).
    set (hi := if highest <? Ev_BlockNumber ev' then Ev_BlockNumber ev' else highest).
    assert (highest <= hi ∧ Log_BlockNumber l <= hi ∧ (hi = highest ∨ hi = Log_BlockNumber l))
      as (Hhi1 & Hhi2 & Hhi3).
    { unfold hi. change (Ev_BlockNumber ev') with (Ev_BlockNumber ev). rewrite Hblk.
      destruct (Z.ltb_spec highest (Log_BlockNumber l)); lia. }
    specialize (IH (events ++ [ev']) hi client1).
    destruct (poll_loop from logs _ _ client1) as [[[events' highest'] err] client2].
    destruct IH as [Hc IH].
    { intros l' Hl'. specialize (Hl l' ltac:(by right)). lia. }
    split; [lia|]. destruct err as [e|].
    + destruct IH as (logs1 & l' & logs2 & evs & -> & Hevs & -> & He).
      exists (l :: logs1), l', logs2, (ev' :: evs). rewrite <- app_assoc.
      split_and!; [done|by constructor|done|done].
    + destruct IH as (evs & Hevs & -> & Hle & Hmax & Hall).
      exists (ev' :: evs). rewrite <- app_assoc.
      split_and!; [by constructor|done|lia| |].
      * destruct Hmax as [-> | (l' & Hl' & ->)]; [|right; exists l'; split; [by right|done]].
        destruct Hhi3 as [-> | ->]; [by left|right; exists l; split; [by left|done]].
      * intros l' [-> | Hl']%elem_of_cons; [lia|by apply Hall].
Qed.

(** Nothing is left after the highest block of the logs. *)
Lemma logs_between_after w from highest upto :
  from <= highest <= upto →
  (∀ l, l ∈ logs_between w from upto → Log_BlockNumber l <= highest) →
  logs_between w (highest + 1) upto = [].
Proof.
  intros Hr Hall. destruct (logs_between w (highest + 1) upto) as [|l ls] eqn:E; [done|].
  assert (l ∈ logs_between w (highest + 1) upto) as Hl by (rewrite E; by left).
  pose proof (logs_between_elem _ _ _ _ Hl) as Hb.
  assert (l ∈ logs_between w from upto) as Hl'.
  { rewrite (logs_between_split w _ highest) by lia. apply elem_of_app. by right. }
  apply Hall in Hl'. lia.
Qed.

(** One round: the cursor only moves past logs that were returned. *)
Lemma Poll_spec w client :
  0 <= nextBlock w →
  let '(events, err, w', client') := Poll w client in
  head_of client <= head_of client' ∧
  w_contract w' = w_contract w ∧ eventTopic w' = eventTopic w ∧ w_interval w' = w_interval w ∧
  match err with
  | None => nextBlock w <= nextBlock w' ∧
      announces (logs_between w (nextBlock w) (nextBlock w' - 1)) events ∧
      logs_between w (nextBlock w') (head_of client) = [] ∧
      nextBlock w' <= Z.max (nextBlock w) (head_of client + 1)
  | Some e => w' = w ∧
      (e = BlockNumberError ∨ e = FilterLogsError ∨ (∃ b, e = HeaderError b) ∨
       ∃ l de h, l ∈ logs_between w (nextBlock w) h ∧ decodeSettlementCreated l = Err de ∧
         e = DecodeError (Log_Index l) de)
  end.
Proof.
  intros Hnext. unfold Poll.
  pose proof (BlockNumber_head client) as Hh1. pose proof (head_range client) as Hrange.
  destruct (BlockNumber_law client) as [Hb|Hb];
    destruct (BlockNumber client) as [head client1]; cbn [fst snd] in *; subst head.
  { split_and!; first [done|lia|by auto]. }
  assert (announces (logs_between w (nextBlock w) (nextBlock w - 1)) []) as Hnone.
  { rewrite logs_between_empty by lia. constructor. }
  destruct (Z.ltb_spec (head_of client) (nextBlock w)).
  { split_and!; first [done|lia|by rewrite logs_between_empty by lia]. }
  set (q := {| FromBlock := nextBlock w |}).
  pose proof (FilterLogs_head q client1) as Hh2.
  assert (0 <= nextBlock w <= head_of client) as Hft by lia.
  pose proof (FilterLogs_law (w_contract w) (eventTopic w) _ _ client1 Hft Hh1) as Hf.
  cbn zeta in Hf. fold q in Hf.
  destruct Hf as [Hf|Hf]; destruct (FilterLogs q client1) as [logs client2]; cbn [fst snd] in *;
    subst logs.
  { split_and!; first [done|lia|by auto]. }
  fold (logs_between w (nextBlock w) (head_of client)).
  destruct (logs_between w (nextBlock w) (head_of client)) as [|l0 logs0] eqn:Hlogs.
  { split_and!; first [done|lia|by auto]. }
  rewrite <- Hlogs.
  pose proof (poll_loop_spec (nextBlock w) (logs_between w (nextBlock w) (head_of client)) []
    (nextBlock w) client2) as Hloop.
  destruct (poll_loop _ _ _ _ client2) as [[[events highest] err] client3].
  destruct Hloop as [Hc Hloop].
  { intros l Hl%logs_between_elem. lia. }
  destruct err as [e|]; cbn [w_contract eventTopic w_interval nextBlock].
  - split; [lia|]. do 4 (split; [done|]). destruct Hloop as (logs1 & l & logs2 & evs & Hsplit & _ & _ & He).
    destruct He as [-> | (de & Hde & ->)]; [eauto|]. right; right; right.
    exists l, de, (head_of client). split; [|done]. rewrite Hsplit. set_solver.
  - destruct Hloop as (evs & Hevs & -> & Hle & Hmax & Hall).
    assert (nextBlock w <= highest <= head_of client) as Hhi.
    { split; [done|]. destruct Hmax as [-> | (l & Hl%logs_between_elem & ->)]; lia. }
    unfold u64. rewrite Z.mod_small by lia.
    assert (logs_between w (highest + 1) (head_of client) = []) as Hrest
      by by apply (logs_between_after w (nextBlock w)).
    split; [lia|]. do 3 (split; [done|]). split; [lia|]. split; [|split; [exact Hrest|lia]].
    rewrite (logs_between_split w _ highest), Hrest, app_nil_r in Hevs by lia.
    by replace (highest + 1 - 1) with highest by lia.
Qed.
End Emission.

(** ** A concrete chain

    One contract and one event; block 3 holds a settlement, block 6 a log with a
    missing topic. The client's head moves by one with every [BlockNumber] call, up
    to block 9. *)
Definition demo_escrow : list byte := replicate 20 x55.
Definition demo_event_id : list byte := replicate 32 xee.

Definition demo_log : Log := {|
  Topics := [demo_event_id; put_be 32 0xCAFEBABE;
             put_be 32 (DeriveTxNonce 0xCAFEBABE 1710000100000);
             replicate 12 x00 ++ replicate 20 x11];
  Data := put_be 32 500;
  Log_BlockNumber := 3;
  Log_TxHash := replicate 32 xab;
  Log_Index := 0;
|}.

Definition demo_bad_log : Log := {|
  Topics := [demo_event_id]; Data := []; Log_BlockNumber := 6;
  Log_TxHash := replicate 32 xcd; Log_Index := 0;
|}.

Definition demo_blocks (a : list byte) (t : list byte) (b : Z) : list Log :=
  if bool_decide (a = demo_escrow ∧ t = demo_event_id) then
    if b =? 3 then [demo_log] else if b =? 6 then [demo_bad_log] else []
  else [].

Record DemoClient := { calls : nat }.

Definition demo_head (k : DemoClient) : Z := Z.of_nat (Nat.min (calls k) 9).

#[export] Instance demo_filterer : EventFilterer DemoClient := {
  FilterLogs q k :=
    (match Addresses q, Query_Topics q with
     | [a], [[t]] =>
         Some (concat (demo_blocks a t <$> seqZ (FromBlock q) (ToBlock q - FromBlock q + 1)))
     | _, _ => None
     end, k);
  HeaderByNumber n k := (Some (1710000000 + 2 * n), k);
  BlockNumber k := (Some (demo_head k), {| calls := S (calls k) |});
}.

#[export, refine] Instance demo_filterer_laws : EventFiltererLaws DemoClient := {
  block_logs := demo_blocks;
  block_time n := 1710000000 + 2 * n;
  head_of := demo_head;
}.
Proof.
  - intros k. unfold demo_head. lia.
  - intros a t b l. unfold demo_blocks. case_bool_decide; [|by intros ?%elem_of_nil].
    destruct (Z.eqb_spec b 3) as [-> |]; [by intros ->%list_elem_of_singleton|].
    destruct (Z.eqb_spec b 6) as [-> |]; [by intros ->%list_elem_of_singleton|].
    by intros ?%elem_of_nil.
  - intros k. by right.
  - intros k. cbn. unfold demo_head. cbn [calls]. lia.
  - intros q k. cbn. lia.
  - intros n k. cbn. lia.
  - intros a t from to k _ _. by right.
  - intros n k _. by right.
Defined.

Definition demo_watcher (from : Z) : Watcher :=
  {| w_contract := demo_escrow; w_interval := DefaultWatchInterval;
     eventTopic := demo_event_id; nextBlock := from |}.

(** Two rounds collect the settlement of block 3; the round that reaches block 6
    fails. *)
Example demo_run :
  let '(err, w, _, evs) :=
    Run (λ ev evs, evs ++ [(Ev_SatID ev, Ev_Amount ev, Ev_BlockTimeSec ev)]) [true; true; true]
      (demo_watcher 0) {| calls := 3 |} [] in
  err = Some (DecodeError 0 (WrongTopicCount 1)) ∧ nextBlock w = 4 ∧
  evs = [(0xCAFEBABE, 500, 1710000006)].
Proof. vm_compute. auto. Qed.

(** ** Properties *)
Section Properties.
Context `{EthCommon} {K : Type} `{!EventFilterer K} `{!EventFiltererLaws K}.
Implicit Types (w : Watcher) (client : K).

Lemma logs_between_same w w' from to :
  w_contract w' = w_contract w → eventTopic w' = eventTopic w →
  logs_between w' from to = logs_between w from to.
Proof. intros E1 E2. unfold logs_between. by rewrite E1, E2. Qed.

Lemma Run_spec {S} (handler : SettlementEvent → S → S) ticks w client s :
  0 <= nextBlock w →
  let '(err, w', _, s') := Run handler ticks w client s in
  ∃ evs, announces (logs_between w (nextBlock w) (nextBlock w' - 1)) evs ∧
    s' = foldl (λ s ev, handler ev s) s evs ∧ nextBlock w <= nextBlock w' ∧
    (err = None ∨ err = Some ContextDone → logs_between w (nextBlock w') (head_of client) = []).
Proof.
  revert w client s. induction ticks as [|tick ticks IH]; intros w client s Hn;
    cbn [Run]; pose proof (Poll_spec w client Hn) as Hp;
    destruct (Poll w client) as [[[events err] w1] client1];
    destruct Hp as (Hh & Hc1 & Ht1 & _ & Hp).
  - destruct err as [e|].
    + destruct Hp as [-> He]. exists []. rewrite logs_between_empty by lia.
      split_and!; [constructor|done|done|]. intros [[=]|[= ->]]. naive_solver.
    + destruct Hp as (Hle & Hann & Hrest & _). by exists events.
  - destruct err as [e|].
    { destruct Hp as [-> He]. exists []. rewrite logs_between_empty by lia.
      split_and!; [constructor|done|done|]. intros [[=]|[= ->]]. naive_solver. }
    destruct Hp as (Hle & Hann & Hrest & _). destruct tick; [|by exists events].
    specialize (IH w1 client1 (foldl (λ s ev, handler ev s) s events) ltac:(lia)).
    destruct (Run handler ticks w1 client1 _) as [[[err w2] client2] s2].
    destruct IH as (evs & Hann2 & -> & Hle2 & Hrest2).
    rewrite (logs_between_same w w1) in Hann2, Hrest2 by done.
    exists (events ++ evs). rewrite foldl_app. split_and!; [|done|lia|].
    + rewrite (logs_between_split w _ (nextBlock w1 - 1)) by lia.
      replace (nextBlock w1 - 1 + 1) with (nextBlock w1) by lia.
      by apply Forall2_app.
    + intros Herr. apply Hrest2 in Herr.
      destruct (Z.le_gt_cases (nextBlock w2) (head_of client)); [|by apply logs_between_empty; lia].
      rewrite (logs_between_split w _ (head_of client)) in Herr by lia.
      by apply app_eq_nil in Herr as [Herr _].
Qed.

(** C29. The watcher hands every settlement to its handler exactly once and in chain
    order: whatever rounds the loop goes through and however it ends, the events
    handled are those of the logs between the starting cursor and the final one,
    one per log; on an error the cursor stays at the failed round, so a new run
    from it continues without loss or repetition; and a loop that ends without an
    RPC or decoding error has handled everything up to the head it started at. *)
Theorem Run_exactly_once {S} (handler : SettlementEvent → S → S) ticks w client s :
  0 <= nextBlock w →
  let '(err, w', _, s') := Run handler ticks w client s in
  ∃ evs, announces (logs_between w (nextBlock w) (nextBlock w' - 1)) evs ∧
    s' = foldl (λ s ev, handler ev s) s evs ∧ nextBlock w <= nextBlock w' ∧
    (err = None ∨ err = Some ContextDone → logs_between w (nextBlock w') (head_of client) = []).
Proof. apply Run_spec. Qed.

Lemma decode_log_fields l sig t1 t2 t3 satID txNonce amount addr :
  Topics l = [sig; t1; t2; t3] → in_u 32 satID → in_u 256 txNonce → in_u 256 amount →
  Hash_Bytes t1 = put_be 32 satID → Hash_Bytes t2 = put_be 32 txNonce →
  Hash_Bytes t3 = replicate 12 x00 ++ addr → Data l = put_be 32 amount →
  decodeSettlementCreated l =
    Ok {| Ev_SatID := satID; Ev_Amount := amount; Ev_TxNonce := txNonce;
          Ev_Wallet := BytesToAddress (replicate 12 x00 ++ addr); Ev_TxHash := Log_TxHash l;
          Ev_BlockNumber := Log_BlockNumber l; Ev_BlockTimeSec := 0 |}.
Proof.
  unfold decodeSettlementCreated. intros -> Hs Hn Ha H1 H2 H3 Hd.
  rewrite H1, H2, H3, Hd, length_put_be. cbn [Nat.eqb negb].
  rewrite !be_uint_put_be_small by done. do 2 f_equal.
  assert (put_be 32 satID = replicate 28 x00 ++ put_be 4 satID) as ->.
  { apply be_uint_inj; [by rewrite length_app, !length_put_be|].
    rewrite be_uint_zeros_app, !be_uint_put_be_small; [done|done|].
    unfold in_u in *. change (8 * Z.of_nat 32) with 256. lia. }
  rewrite drop_app_exact by done. by apply be_uint_put_be_small.
Qed.

(** Decoding inverts the event encoding of the contract, and refuses exactly
    the logs with another number of topics or another data length. *)
Theorem decodeSettlementCreated_correct l :
  ((∃ e, decodeSettlementCreated l = Err e) ↔
    length (Topics l) ≠ 4%nat ∨ length (Data l) ≠ 32%nat) ∧
  ∀ sig t1 t2 t3 satID txNonce amount addr,
    Topics l = [sig; t1; t2; t3] → in_u 32 satID → in_u 256 txNonce → in_u 256 amount →
    Hash_Bytes t1 = put_be 32 satID → Hash_Bytes t2 = put_be 32 txNonce →
    Hash_Bytes t3 = replicate 12 x00 ++ addr → Data l = put_be 32 amount →
    decodeSettlementCreated l =
      Ok {| Ev_SatID := satID; Ev_Amount := amount; Ev_TxNonce := txNonce;
            Ev_Wallet := BytesToAddress (replicate 12 x00 ++ addr); Ev_TxHash := Log_TxHash l;
            Ev_BlockNumber := Log_BlockNumber l; Ev_BlockTimeSec := 0 |}.
Proof.
  split; [|intros; by eapply decode_log_fields].
  unfold decodeSettlementCreated.
  destruct (Topics l) as [|t0 [|t1 [|t2 [|t3 [|t4 ts]]]]]; cbn [length];
    try (split; [left; lia|eauto]).
  destruct (Nat.eqb_spec (length (Data l)) 32) as [E|E]; cbn [negb].
  - split; [by intros [e [=]]|intros [Hx|Hx]; by destruct Hx].
  - split; [by right|eauto].
Qed.

(** C37. A log that does not decode stops the watcher for good: as long as it is in
    the range ahead of the cursor, every round returns an error and the cursor
    does not move. *)
Theorem Poll_poisoned w client l e :
  0 <= nextBlock w → l ∈ logs_between w (nextBlock w) (head_of client) →
  decodeSettlementCreated l = Err e →
  let '(_, err, w', _) := Poll w client in err ≠ None ∧ w' = w.
Proof.
  intros Hn Hl He. pose proof (Poll_spec w client Hn) as Hp.
  destruct (Poll w client) as [[[events err] w'] client'].
  destruct Hp as (_ & _ & _ & _ & Hp). destruct err as [e'|]; [by destruct Hp|].
  destruct Hp as (Hle & Hann & Hrest & _). exfalso.
  destruct (Z.le_gt_cases (head_of client) (nextBlock w' - 1)) as [Hhd|Hhd].
  - assert (l ∈ logs_between w (nextBlock w) (nextBlock w' - 1)) as Hin.
    { apply logs_between_elem in Hl as Hb.
      rewrite (logs_between_split w _ (head_of client)) by lia. apply elem_of_app. by left. }
    apply list_elem_of_lookup in Hin as [i Hi].
    destruct (Forall2_lookup_l _ _ _ _ _ Hann Hi) as (ev & _ & Hev).
    unfold decoded_log in Hev. by rewrite He in Hev.
  - rewrite (logs_between_split w _ (nextBlock w' - 1)) in Hl by lia.
    replace (nextBlock w' - 1 + 1) with (nextBlock w') in Hl by lia.
    rewrite Hrest, app_nil_r in Hl.
    apply list_elem_of_lookup in Hl as [i Hi].
    destruct (Forall2_lookup_l _ _ _ _ _ Hann Hi) as (ev & _ & Hev).
    unfold decoded_log in Hev. by rewrite He in Hev.
Qed.
End Properties.

Lemma Run_exactly_once_witness :
  ∃ evs, announces (logs_between (demo_watcher 0) 0 3) evs ∧
    [(0xCAFEBABE, 500)] = foldl (λ l ev, l ++ [(Ev_SatID ev, Ev_Amount ev)]) [] evs.
Proof.
  pose proof (Run_exactly_once (λ ev l, l ++ [(Ev_SatID ev, Ev_Amount ev)]) [true; false]
    (demo_watcher 0) {| calls := 3 |} [] ltac:(cbn; lia)) as H.
  assert ((λ r : option watch_error * Watcher * DemoClient * list (Z * Z), (nextBlock r.1.1.2, r.2))
    (Run (λ ev l, l ++ [(Ev_SatID ev, Ev_Amount ev)]) [true; false] (demo_watcher 0)
      {| calls := 3 |} []) = (4, [(0xCAFEBABE, 500)])) as E by (vm_compute; reflexivity).
  destruct (Run _ [true; false] _ _ _) as [[[err w'] k'] s']. cbn [fst snd] in E.
  injection E as Hn Hs. destruct H as (evs & Hevs & Hs' & _). rewrite Hn in Hevs.
  exists evs. split; [exact Hevs|]. rewrite <- Hs. exact Hs'.
Defined.

Lemma decodeSettlementCreated_correct_witness :
  decodeSettlementCreated demo_log =
    Ok {| Ev_SatID := 0xCAFEBABE; Ev_Amount := 500;
          Ev_TxNonce := DeriveTxNonce 0xCAFEBABE 1710000100000;
          Ev_Wallet := BytesToAddress (replicate 12 x00 ++ replicate 20 x11);
          Ev_TxHash := replicate 32 xab; Ev_BlockNumber := 3; Ev_BlockTimeSec := 0 |}.
Proof.
  apply (proj2 (decodeSettlementCreated_correct demo_log) demo_event_id (put_be 32 0xCAFEBABE)
    (put_be 32 (DeriveTxNonce 0xCAFEBABE 1710000100000)) (replicate 12 x00 ++ replicate 20 x11)
    0xCAFEBABE (DeriveTxNonce 0xCAFEBABE 1710000100000) 500 (replicate 20 x11));
    first [reflexivity | vm_compute; split; discriminate || reflexivity | vm_compute; auto].
Defined.

Lemma Poll_poisoned_witness :
  let '(_, err, w', _) := Poll (demo_watcher 4) {| calls := 6 |} in
  err ≠ None ∧ w' = demo_watcher 4.
Proof.
  refine (Poll_poisoned (demo_watcher 4) {| calls := 6 |} demo_bad_log (WrongTopicCount 1) _ _ _).
  - cbn. lia.
  - replace (logs_between (demo_watcher 4) (nextBlock (demo_watcher 4)) (head_of {| calls := 6 |}))
      with [demo_bad_log] by (vm_compute; reflexivity).
    left.
  - reflexivity.
Defined.
