(* ===== verification/Escrow.v ===== *)
(** * The Escrow contract and its client

    Models [contracts/src/Escrow.sol] ([settleBatch], its storage and its event) and
    [EscrowClient] of [gateway/internal/core/chain/client.go].

    Storage is a finite map from nonces to settlements; a slot that was never
    written reads as status NONE. A revert undoes the transaction, so the loop
    returns the new storage and the events only if it reaches its end. *)
From stdpp Require Export gmap.
From S2P Require Export Submitter.
#[local] Open Scope Z_scope.
#[local] Open Scope go_scope.

Definition USDC_ASSET_ID : Z := 1.
Definition MAX_BATCH : Z := 10.

(** ** The contract *)
Section Contract.
Context `{EthCommon}.

Inductive Status := NONE | PENDING.

Record Settlement := {
  S_satId : Z;
  S_amount : Z;
  S_assetId : Z;
  S_txNonce : Z;
  S_wallet : Address;
  S_status : Status;
}.

Record SettlementCreated := {
  SC_satId : Z;
  SC_amount : Z;
  SC_txNonce : Z;
  SC_wallet : Address;
}.

Inductive escrow_error :=
  | BatchEmpty
  | BatchTooLarge (size : Z)
  | InvalidAsset (assetId : Z)
  | DuplicateNonce (txNonce : Z)
  | EmptyWallet.

(** [address(0)] *)
Definition zero_address : Address := BytesToAddress [].

Definition status_at (settlements : gmap Z Settlement) (nonce : Z) : Status :=
  match settlements !! nonce with Some s => S_status s | None => NONE end.

#[global] Instance Status_eq_dec : EqDecision Status.
Proof. solve_decision. Defined.

(** The body of the loop. *)
Definition settle_item (item : SettlementIntent) (settlements : gmap Z Settlement)
    : result escrow_error (gmap Z Settlement * SettlementCreated) :=
  if negb (SI_AssetId item =? USDC_ASSET_ID) then Err (InvalidAsset (SI_AssetId item)) else
  if bool_decide (SI_Wallet item = zero_address) then Err EmptyWallet else
  if negb (bool_decide (status_at settlements (SI_TxNonce item) = NONE))
  then Err (DuplicateNonce (SI_TxNonce item)) else
  Ok (<[SI_TxNonce item :=
         {| S_satId := SI_SatId item; S_amount := SI_Amount item; S_assetId := SI_AssetId item;
            S_txNonce := SI_TxNonce item; S_wallet := SI_Wallet item; S_status := PENDING |}]>
        settlements,
      {| SC_satId := SI_SatId item; SC_amount := SI_Amount item; SC_txNonce := SI_TxNonce item;
         SC_wallet := SI_Wallet item |}).

Fixpoint settle_loop (intents : list SettlementIntent) (settlements : gmap Z Settlement)
    (events : list SettlementCreated) : result escrow_error (gmap Z Settlement * list SettlementCreated) :=
  match intents with
  | [] => Ok (settlements, events)
  | item :: intents =>
      let* (settlements, ev) := settle_item item settlements in
      settle_loop intents settlements (events ++ [ev])
  end.

Definition settleBatch (intents : list SettlementIntent) (settlements : gmap Z Settlement)
    : result escrow_error (gmap Z Settlement * list SettlementCreated) :=
  let n := Z.of_nat (length intents) in
  if n =? 0 then Err BatchEmpty else
  if MAX_BATCH <? n then Err (BatchTooLarge n) else
  settle_loop intents settlements [].

(** A transaction: a revert leaves the storage and announces nothing. *)
Definition execute (intents : list SettlementIntent) (settlements : gmap Z Settlement)
    : gmap Z Settlement * list SettlementCreated :=
  match settleBatch intents settlements with
  | Ok r => r
  | Err _ => (settlements, [])
  end.

Fixpoint execute_all (batches : list (list SettlementIntent)) (settlements : gmap Z Settlement)
    : gmap Z Settlement * list SettlementCreated :=
  match batches with
  | [] => (settlements, [])
  | b :: batches =>
      let '(settlements, evs) := execute b settlements in
      let '(settlements, evs') := execute_all batches settlements in
      (settlements, evs ++ evs')
  end.
End Contract.

(** ** The client *)
Section Client.
Context `{EthCommon}.

Inductive client_error := EmptyIntentBatch | TransactError.

(** [bind.BoundContract.Transact("settleBatch", intents)]: the transaction hash. *)
Class BoundContract (K : Type) :=
  Transact : list SettlementIntent → K → option Hash * K.

Definition EscrowClient_SettleBatch {K} `{BoundContract K} (intents : list SettlementIntent)
    (client : K) : result client_error Hash * K :=
  if Nat.eqb (length intents) 0 then (Err EmptyIntentBatch, client) else
  match Transact intents client with
  | (None, client) => (Err TransactError, client)
  | (Some h, client) => (Ok h, client)
  end.

(** The client is an [IntentSubmitter] ([submitter.go]). *)
#[global] Instance EscrowClient_IntentSubmitter {K} `{BoundContract K} : IntentSubmitter K :=
  λ intents client,
    match EscrowClient_SettleBatch intents client with
    | (Ok h, client) => (Ok h, client)
    | (Err _, client) => (Err tt, client)
    end.

(** An automining node and its deployed contract. A call that would revert is
    refused when its gas is estimated. Any other call may fail before it is sent;
    or be executed, and then the answer may still be lost on the way back. *)
Class BoundContractLaws (K : Type) `{BoundContract K} := {
  storage : K → gmap Z Settlement;
  Transact_revert intents k e : settleBatch intents (storage k) = Err e →
    (Transact intents k).1 = None ∧ storage (Transact intents k).2 = storage k;
  Transact_executes intents k st evs : settleBatch intents (storage k) = Ok (st, evs) →
    storage (Transact intents k).2 = st ∨
    (Transact intents k).1 = None ∧ storage (Transact intents k).2 = storage k;
}.
End Client.

(** ** What a batch does *)
Section Spec.
Context `{EthCommon}.
Implicit Types (st : gmap Z Settlement) (intents : list SettlementIntent).

Definition settlement_of (i : SettlementIntent) : Settlement :=
  {| S_satId := SI_SatId i; S_amount := SI_Amount i; S_assetId := SI_AssetId i;
     S_txNonce := SI_TxNonce i; S_wallet := SI_Wallet i; S_status := PENDING |}.

Definition created_of (i : SettlementIntent) : SettlementCreated :=
  {| SC_satId := SI_SatId i; SC_amount := SI_Amount i; SC_txNonce := SI_TxNonce i;
     SC_wallet := SI_Wallet i |}.

(** Storage after recording a batch. *)
Definition record_all intents st : gmap Z Settlement :=
  foldl (λ st i, <[SI_TxNonce i := settlement_of i]> st) st intents.

Definition payable (i : SettlementIntent) : Prop :=
  SI_AssetId i = USDC_ASSET_ID ∧ SI_Wallet i ≠ zero_address.

(** Every slot that is in the map was written by the loop. *)
Definition storage_wf st : Prop :=
  ∀ n s, st !! n = Some s → S_txNonce s = n ∧ S_status s = PENDING.

Lemma status_fresh st n : storage_wf st → status_at st n = NONE ↔ st !! n = None.
Proof.
  intros Hwf. unfold status_at. destruct (st !! n) as [s|] eqn:E; [|done].
  apply Hwf in E as [_ ->]. done.
Qed.

Lemma storage_wf_insert st i : storage_wf st → storage_wf (<[SI_TxNonce i := settlement_of i]> st).
Proof.
  intros Hwf n s. destruct (decide (n = SI_TxNonce i)) as [->|Hne].
  - rewrite lookup_insert_eq. by intros [= <-].
  - rewrite lookup_insert_ne by done. apply Hwf.
Qed.

Lemma storage_wf_record intents st : storage_wf st → storage_wf (record_all intents st).
Proof.
  unfold record_all. revert st. induction intents as [|i intents IH]; intros st Hwf; [done|].
  cbn [foldl]. apply IH. by apply storage_wf_insert.
Qed.

Lemma settle_item_ok i st r :
  storage_wf st →
  settle_item i st = Ok r ↔
  payable i ∧ st !! SI_TxNonce i = None ∧
  r = (<[SI_TxNonce i := settlement_of i]> st, created_of i).
Proof.
  intros Hwf. unfold settle_item, payable.
  destruct (Z.eqb_spec (SI_AssetId i) USDC_ASSET_ID); cbn [negb]; [|naive_solver].
  case_bool_decide; [naive_solver|].
  case_bool_decide as Hs; cbn [negb]; rewrite (status_fresh st _ Hwf) in Hs; [|naive_solver].
  split; [intros [= <-]; done|by intros (_ & _ & ->)].
Qed.

Lemma lookup_record_all intents st n :
  (∀ i, i ∈ intents → SI_TxNonce i ≠ n) → record_all intents st !! n = st !! n.
Proof.
  unfold record_all. revert st. induction intents as [|i intents IH]; intros st Hn; [done|].
  cbn [foldl]. rewrite IH by set_solver. apply lookup_insert_ne. apply Hn. by left.
Qed.

Lemma lookup_record_in intents st i :
  NoDup (SI_TxNonce <$> intents) → i ∈ intents →
  record_all intents st !! SI_TxNonce i = Some (settlement_of i).
Proof.
  unfold record_all. revert st. induction intents as [|j intents IH]; intros st Hnd Hi.
  { by apply elem_of_nil in Hi. }
  cbn [fmap list_fmap] in Hnd. apply list.NoDup_cons in Hnd as [Hj Hnd]. cbn [foldl].
  apply elem_of_cons in Hi as [-> |Hi]; [|by apply IH].
  fold (record_all intents (<[SI_TxNonce j := settlement_of j]> st)).
  rewrite lookup_record_all; [apply lookup_insert_eq|].
  intros i Hi E. apply Hj. rewrite <- E. by apply list_elem_of_fmap_2.
Qed.

Lemma settle_loop_ok intents st evs r :
  storage_wf st →
  settle_loop intents st evs = Ok r ↔
  Forall payable intents ∧ NoDup (SI_TxNonce <$> intents) ∧
  Forall (λ i, st !! SI_TxNonce i = None) intents ∧
  r = (record_all intents st, evs ++ (created_of <$> intents)).
Proof.
  revert st evs. induction intents as [|i intents IH]; intros st evs Hwf.
  { cbn [settle_loop fmap list_fmap]. rewrite app_nil_r. unfold record_all. cbn.
    split; [intros [= <-]; by repeat constructor|by intros (_ & _ & _ & ->)]. }
  cbn [settle_loop fmap list_fmap]. rewrite list.NoDup_cons, !list.Forall_cons.
  destruct (settle_item i st) as [[st' ev]|e] eqn:Hi; cbn [result_bind].
  - apply settle_item_ok in Hi as (Hp & Hf & [= -> ->]); [|done].
    rewrite IH by by apply storage_wf_insert.
    rewrite <- app_assoc. change (record_all (i :: intents) st) with
      (record_all intents (<[SI_TxNonce i := settlement_of i]> st)).
    assert (Forall (λ j, <[SI_TxNonce i := settlement_of i]> st !! SI_TxNonce j = None) intents ↔
      (SI_TxNonce i ∉ SI_TxNonce <$> intents) ∧ Forall (λ j, st !! SI_TxNonce j = None) intents) as ->.
    { rewrite list_elem_of_fmap, !list.Forall_forall. split.
      - intros Hall. split.
        + intros (j & E & Hj). specialize (Hall j Hj). by rewrite E, lookup_insert_eq in Hall.
        + intros j Hj. specialize (Hall j Hj). destruct (decide (SI_TxNonce i = SI_TxNonce j)) as [E|E].
          * by rewrite E, lookup_insert_eq in Hall.
          * by rewrite lookup_insert_ne in Hall.
      - intros [Hn Hall] j Hj. rewrite lookup_insert_ne by (intros E; apply Hn; eauto). by apply Hall. }
    naive_solver.
  - split; [done|]. intros ((Hp & _) & _ & (Hf & _) & _).
    assert (settle_item i st = Ok (<[SI_TxNonce i := settlement_of i]> st, created_of i)) as E.
    { by apply settle_item_ok. }
    congruence.
Qed.

Lemma settleBatch_ok intents st r :
  storage_wf st →
  settleBatch intents st = Ok r ↔
  1 <= Z.of_nat (length intents) <= 10 ∧ Forall payable intents ∧
  NoDup (SI_TxNonce <$> intents) ∧ Forall (λ i, st !! SI_TxNonce i = None) intents ∧
  r = (record_all intents st, created_of <$> intents).
Proof.
  intros Hwf. unfold settleBatch, MAX_BATCH.
  destruct (Z.eqb_spec (Z.of_nat (length intents)) 0); [split; [done|lia]|].
  destruct (Z.ltb_spec 10 (Z.of_nat (length intents))); [split; [done|lia]|].
  rewrite settle_loop_ok by done. cbn [app]. intuition lia.
Qed.
End Spec.

(** ** Properties *)
Section Properties.
Context `{EthCommon}.
Implicit Types (st : gmap Z Settlement) (intents : list SettlementIntent).

Lemma settleBatch_wf intents st st' evs :
  storage_wf st → settleBatch intents st = Ok (st', evs) → storage_wf st'.
Proof.
  intros Hwf Hs. apply settleBatch_ok in Hs as (_ & _ & _ & _ & [= -> _]); [|done].
  by apply storage_wf_record.
Qed.

(** [settleBatch] is all or nothing. It succeeds exactly on one to ten intents, all
    in the accepted asset and with a wallet, whose nonces are distinct and were never
    settled; then every intent is recorded under its nonce, no other slot changes,
    and one event per intent is emitted, in order. *)
Theorem settleBatch_correct intents st :
  storage_wf st →
  (is_ok (settleBatch intents st) = true ↔
    1 <= Z.of_nat (length intents) <= 10 ∧
    (∀ i, i ∈ intents → SI_AssetId i = 1 ∧ SI_Wallet i ≠ zero_address ∧ st !! SI_TxNonce i = None) ∧
    NoDup (SI_TxNonce <$> intents)) ∧
  ∀ st' evs, settleBatch intents st = Ok (st', evs) →
    storage_wf st' ∧
    (∀ i, i ∈ intents → st' !! SI_TxNonce i =
       Some {| S_satId := SI_SatId i; S_amount := SI_Amount i; S_assetId := SI_AssetId i;
               S_txNonce := SI_TxNonce i; S_wallet := SI_Wallet i; S_status := PENDING |}) ∧
    (∀ n, (n ∉ SI_TxNonce <$> intents) → st' !! n = st !! n) ∧
    evs = (λ i, {| SC_satId := SI_SatId i; SC_amount := SI_Amount i; SC_txNonce := SI_TxNonce i;
                   SC_wallet := SI_Wallet i |}) <$> intents.
Proof.
  intros Hwf. split.
  - assert (is_ok (settleBatch intents st) = true ↔ ∃ r, settleBatch intents st = Ok r) as ->.
    { destruct (settleBatch intents st); naive_solver. }
    split.
    + intros (r & (Hn & Hp & Hnd & Hf & _)%settleBatch_ok); [|done].
      rewrite !list.Forall_forall in Hp, Hf. split; [done|]. split; [|done].
      intros i Hi. destruct (Hp i Hi). auto.
    + intros (Hn & Hi & Hnd). eexists. apply settleBatch_ok; [done|].
      rewrite !list.Forall_forall. split; [done|]. split; [intros i ?%Hi; by split; apply H0|].
      split; [done|]. split; [|done]. intros i ?%Hi. tauto.
  - intros st' evs Hs. split; [by eapply settleBatch_wf|].
    apply settleBatch_ok in Hs as (_ & _ & Hnd & _ & [= -> ->]); [|done]. split_and!; [|intros n Hn|done].
    + intros i Hi. by apply lookup_record_in.
    + apply lookup_record_all. intros i Hi <-. apply Hn. by apply list_elem_of_fmap_2.
Qed.

(** A refused batch names its first offending intent: the ones before it would have
    been recorded, and of the checks on it the first that fails decides. *)
Theorem settleBatch_errors intents st e :
  settleBatch intents st = Err e →
  (e = BatchEmpty ∧ intents = []) ∨
  (e = BatchTooLarge (Z.of_nat (length intents)) ∧ 10 < Z.of_nat (length intents)) ∨
  ∃ pre item post st' evs, intents = pre ++ item :: post ∧ settle_loop pre st [] = Ok (st', evs) ∧
    ((e = InvalidAsset (SI_AssetId item) ∧ SI_AssetId item ≠ 1) ∨
     (e = EmptyWallet ∧ SI_AssetId item = 1 ∧ SI_Wallet item = zero_address) ∨
     (e = DuplicateNonce (SI_TxNonce item) ∧ SI_AssetId item = 1 ∧
      SI_Wallet item ≠ zero_address ∧ status_at st' (SI_TxNonce item) ≠ NONE)).
Proof.
  unfold settleBatch, MAX_BATCH.
  destruct (Z.eqb_spec (Z.of_nat (length intents)) 0) as [H0|H0].
  { intros [= <-]. left. split; [done|]. apply nil_length_inv. lia. }
  destruct (Z.ltb_spec 10 (Z.of_nat (length intents))) as [Hl|_].
  { intros [= <-]. right; left. by split. }
  intros Hs. right; right. clear H0. generalize dependent st. generalize (@nil SettlementCreated).
  induction intents as [|i intents IH]; intros evs st; [done|]. cbn [settle_loop].
  destruct (settle_item i st) as [[st1 ev]|e1] eqn:Hi; cbn [result_bind].
  - intros (pre & item & post & st' & evs' & -> & Hpre & He)%IH.
    exists (i :: pre), item, post, st', evs'. split; [done|]. split; [|done].
    cbn [settle_loop]. by rewrite Hi.
  - intros [= <-]. exists [], i, intents, st, evs. split; [done|]. split; [done|].
    unfold settle_item, USDC_ASSET_ID in Hi.
    destruct (Z.eqb_spec (SI_AssetId i) 1); cbn [negb] in Hi; [|injection Hi as <-; by left].
    case_bool_decide; [injection Hi as <-; by right; left|].
    case_bool_decide; cbn [negb] in Hi; [done|]. injection Hi as <-. by right; right.
Qed.

(** The record an event announces. *)
Definition announced (ev : SettlementCreated) : Settlement :=
  {| S_satId := SC_satId ev; S_amount := SC_amount ev; S_assetId := 1;
     S_txNonce := SC_txNonce ev; S_wallet := SC_wallet ev; S_status := PENDING |}.

(** The effect of transactions: new slots, each announced by one event. *)
Record effect_of st st' (evs : list SettlementCreated) : Prop := {
  eff_wf : storage_wf st';
  eff_keep : st ⊆ st';
  eff_nodup : NoDup (SC_txNonce <$> evs);
  eff_fresh ev : ev ∈ evs → st !! SC_txNonce ev = None ∧ st' !! SC_txNonce ev = Some (announced ev);
  eff_new n s : st' !! n = Some s → st !! n = Some s ∨ ∃ ev, ev ∈ evs ∧ SC_txNonce ev = n ∧ s = announced ev;
}.

Lemma effect_none st : storage_wf st → effect_of st st [].
Proof.
  intros Hwf. split; [done|done|constructor| |by left]. by intros ev ?%elem_of_nil.
Qed.

Lemma effect_trans st st1 st2 evs1 evs2 :
  effect_of st st1 evs1 → effect_of st1 st2 evs2 → effect_of st st2 (evs1 ++ evs2).
Proof.
  intros [W1 K1 N1 F1 X1] [W2 K2 N2 F2 X2]. split; [done|by etrans| | |].
  - rewrite fmap_app. apply list.NoDup_app. split_and!; [done| |done].
    intros n (ev & -> & Hev)%list_elem_of_fmap (ev' & E & Hev')%list_elem_of_fmap.
    destruct (F1 ev Hev) as [_ Hs]. destruct (F2 ev' Hev') as [Hf _]. congruence.
  - intros ev [Hev|Hev]%elem_of_app.
    + destruct (F1 ev Hev). split; [done|]. by eapply lookup_weaken.
    + destruct (F2 ev Hev). split; [|done]. by eapply lookup_weaken_None.
  - intros n s [Hs|(ev & Hev & Hn & ->)]%X2.
    + destruct (X1 n s Hs) as [?|(ev & Hev & ?)]; [by left|right]. exists ev. split; [set_solver|done].
    + right. exists ev. split; [set_solver|done].
Qed.

Lemma announced_created i : payable i → announced (created_of i) = settlement_of i.
Proof. intros [Ha _]. unfold announced, settlement_of. by rewrite Ha. Qed.

Lemma settleBatch_effect intents st st' evs :
  storage_wf st → settleBatch intents st = Ok (st', evs) → effect_of st st' evs.
Proof.
  intros Hwf Hs. pose proof (settleBatch_wf _ _ _ _ Hwf Hs) as Hwf'.
  apply settleBatch_ok in Hs as (_ & Hp & Hnd & Hf & [= -> ->]); [|done].
  rewrite list.Forall_forall in Hp, Hf.
  assert (∀ n, (n ∉ SI_TxNonce <$> intents) → record_all intents st !! n = st !! n) as Hother.
  { intros n Hn. apply lookup_record_all. intros i Hi <-. apply Hn. by apply list_elem_of_fmap_2. }
  split; [done| | | |].
  - apply map_subseteq_spec. intros n s Hn. rewrite Hother; [done|].
    intros (i & -> & Hi)%list_elem_of_fmap. by rewrite Hf in Hn.
  - by rewrite <- list_fmap_compose.
  - intros ev (i & -> & Hi)%list_elem_of_fmap. rewrite announced_created by by apply Hp.
    split; [by apply Hf|by apply lookup_record_in].
  - intros n s Hs. destruct (decide (n ∈ SI_TxNonce <$> intents)) as [Hin|Hin].
    + right. apply list_elem_of_fmap in Hin as (i & -> & Hi). exists (created_of i).
      rewrite announced_created by by apply Hp. rewrite lookup_record_in in Hs by done.
      injection Hs as <-. split; [|done]. by apply list_elem_of_fmap_2.
    + left. by rewrite Hother in Hs.
Qed.

Lemma execute_effect intents st :
  storage_wf st → effect_of st (execute intents st).1 (execute intents st).2.
Proof.
  intros Hwf. unfold execute. destruct (settleBatch intents st) as [[st' evs]|e] eqn:E.
  - by eapply settleBatch_effect.
  - by apply effect_none.
Qed.

Lemma execute_all_effect batches st :
  storage_wf st → effect_of st (execute_all batches st).1 (execute_all batches st).2.
Proof.
  revert st. induction batches as [|b batches IH]; intros st Hwf; [by apply effect_none|].
  cbn [execute_all]. pose proof (execute_effect b st Hwf) as H1.
  destruct (execute b st) as [st1 evs1]. cbn [fst snd] in H1.
  specialize (IH st1 (eff_wf _ _ _ H1)). destruct (execute_all batches st1) as [st2 evs2].
  by eapply effect_trans.
Qed.

(** C26. A payment settles at most once: over any sequence of transactions on a fresh
    contract, replays and refused batches included, no nonce is announced twice; a
    nonce is recorded exactly if it was announced, with the announced values; and a
    recorded settlement never changes. *)
Theorem escrow_exactly_once (batches : list (list SettlementIntent)) :
  let '(st, evs) := execute_all batches ∅ in
  NoDup (SC_txNonce <$> evs) ∧
  (∀ n s, st !! n = Some s ↔ ∃ ev, ev ∈ evs ∧ SC_txNonce ev = n ∧ s = announced ev) ∧
  ∀ more, st ⊆ (execute_all more st).1.
Proof.
  pose proof (execute_all_effect batches ∅ ltac:(intros n s; by rewrite lookup_empty)) as He.
  destruct (execute_all batches ∅) as [st evs]. destruct He as [W K N F X]. cbn [fst snd] in *.
  split; [done|]. split.
  - intros n s. split.
    + intros [Hn|?]%X; [by rewrite lookup_empty in Hn|done].
    + intros (ev & Hev & <- & ->). by apply F.
  - intros more. by apply execute_all_effect.
Qed.

(** ** The client and the submitter on the chain *)
Context {K : Type} `{!BoundContract K} `{!BoundContractLaws K}.

Lemma replay_reverts intents st i :
  storage_wf st → i ∈ intents → is_Some (st !! SI_TxNonce i) →
  ∃ e, settleBatch intents st = Err e.
Proof.
  intros Hwf Hi [s Hs]. destruct (settleBatch intents st) as [r|e] eqn:E; [|by eexists].
  apply settleBatch_ok in E as (_ & _ & _ & Hf & _); [|done].
  rewrite list.Forall_forall in Hf. by rewrite Hf in Hs.
Qed.

Lemma SettleBatch_cases intents (k : K) :
  storage_wf (storage k) →
  let '(r, k') := SettleBatch intents k in
  (storage k' = storage k ∧ is_ok r = false) ∨
  ∃ evs, settleBatch intents (storage k) = Ok (storage k', evs).
Proof.
  intros Hwf. unfold SettleBatch, EscrowClient_IntentSubmitter, EscrowClient_SettleBatch.
  destruct (Nat.eqb_spec (length intents) 0); [by left|].
  destruct (settleBatch intents (storage k)) as [[st evs]|e] eqn:E.
  - destruct (Transact_executes intents k st evs E) as [Hst|[Hn Hst]];
      destruct (Transact intents k) as [[h|] k']; cbn [fst snd] in *; try done;
      first [right; exists evs; by rewrite Hst | by left].
  - destruct (Transact_revert intents k e E) as [Hn Hst].
    destruct (Transact intents k) as [[h|] k']; cbn [fst snd] in *; [done|by left].
Qed.

Lemma replay_refused batch st st' evs r :
  storage_wf st → settleBatch batch st = Ok (st', evs) → settleBatch batch st' ≠ Ok r.
Proof.
  intros Hwf Hs. pose proof (settleBatch_wf _ _ _ _ Hwf Hs) as Hwf'.
  apply settleBatch_ok in Hs as (Hn & _ & Hnd & _ & [= -> _]); [|done].
  destruct batch as [|i batch]; [cbn in Hn; lia|].
  destruct (replay_reverts (i :: batch) (record_all (i :: batch) st) i) as [e ->]; [done|by left| |done].
  exists (settlement_of i). apply (lookup_record_in (i :: batch)); [done|by left].
Qed.

Lemma submit_cases batch (k : K) :
  storage_wf (storage k) →
  let k' := submit batch k in
  storage k' = storage k ∨ ∃ evs, settleBatch batch (storage k) = Ok (storage k', evs).
Proof.
  intros Hwf. unfold submit. destruct (Nat.eqb_spec (length batch) 0) as [|Hne]; [by left|].
  unfold submitRetries. cbn [submit_attempts].
  pose proof (SettleBatch_cases batch k Hwf) as H1.
  destruct (SettleBatch batch k) as [r1 k1]. destruct (is_ok r1); [naive_solver|].
  assert (storage_wf (storage k1)) as Hwf1.
  { destruct H1 as [[-> _]|[evs Hs]]; [done|]. by eapply settleBatch_wf. }
  pose proof (SettleBatch_cases batch k1 Hwf1) as H2.
  destruct (SettleBatch batch k1) as [r2 k2].
  assert (∀ (b : bool), storage (if b then k2 else k2) = storage k2) as Hb by by intros [].
  rewrite Hb. clear Hb.
  destruct H1 as [[E1 _]|[evs1 Hs1]]; rewrite ?E1 in H2.
  { destruct H2 as [[E2 _]|H2]; [by left|by right]. }
  destruct H2 as [[E2 _]|[evs2 Hs2]]; [right; exists evs1; by rewrite E2|exfalso].
  by destruct (replay_refused _ _ _ _ _ Hwf Hs1 Hs2).
Qed.

(** Nodes that stay in [I] and let a batch that they [admit] through at the second
    attempt at the latest. *)
Definition gets_through (admits : list SettlementIntent → K → Prop) (I : K → Prop) : Prop :=
  ∀ batch (k : K), I k →
  let k1 := (SettleBatch batch k).2 in
  I k1 ∧ ∀ st evs, admits batch k → settleBatch batch (storage k) = Ok (st, evs) →
    storage k1 = st ∨ storage (SettleBatch batch k1).2 = st.

Lemma submit_stays admits (I : K → Prop) batch (k : K) :
  gets_through admits I → I k → I (submit batch k).
Proof.
  intros Hthru Hk. unfold submit. destruct (Nat.eqb _ _); [done|].
  unfold submitRetries. cbn [submit_attempts].
  destruct (Hthru batch k Hk) as [Hk1 _]. destruct (SettleBatch batch k) as [r1 k1]. cbn [snd] in Hk1.
  destruct (is_ok r1); [done|].
  destruct (Hthru batch k1 Hk1) as [Hk2 _]. destruct (SettleBatch batch k1) as [r2 k2].
  by destruct (is_ok r2).
Qed.

Lemma submit_settles admits (I : K → Prop) batch (k : K) st evs :
  gets_through admits I → I k → admits batch k → storage_wf (storage k) →
  settleBatch batch (storage k) = Ok (st, evs) →
  storage (submit batch k) = st.
Proof.
  intros Hthru HI Henc Hwf Hs. destruct (Hthru batch k HI) as [_ Ht]. specialize (Ht st evs Henc Hs).
  cbn zeta in Ht.
  unfold submit. destruct (Nat.eqb_spec (length batch) 0) as [E|_].
  { apply settleBatch_ok in Hs as ([] & _); [lia|done]. }
  unfold submitRetries. cbn [submit_attempts].
  pose proof (SettleBatch_cases batch k Hwf) as H1.
  destruct (SettleBatch batch k) as [r1 k1]. cbn [snd] in Ht.
  assert (∀ b : bool, is_ok r1 = b → b = true → storage k1 = st) as Hok.
  { intros b <- Hr. destruct H1 as [[_ Hf]|[evs1 Hs1]]; [congruence|]. congruence. }
  destruct (is_ok r1); [by eapply Hok|].
  assert (storage k1 = st → storage (SettleBatch batch k1).2 = st) as Hagain.
  { intros E. assert (storage_wf (storage k1)) as Hwf1 by (rewrite E; by eapply settleBatch_wf).
    pose proof (SettleBatch_cases batch k1 Hwf1) as H2.
    destruct (SettleBatch batch k1) as [r2 k2]. cbn [snd].
    destruct H2 as [[-> _]|[evs2 Hs2]]; [done|]. rewrite E in Hs2.
    by destruct (replay_refused _ _ _ _ _ Hwf Hs Hs2). }
  assert (storage (SettleBatch batch k1).2 = st) as Hfin by (destruct Ht; auto).
  destruct (SettleBatch batch k1) as [r2 k2]. by destruct (is_ok r2).
Qed.

(** Batches of payable intents with fresh and distinct nonces all settle. *)
Lemma submit_all_settles encodes (I : K → Prop) batches (k : K) :
  gets_through (λ b _, Forall encodes b) I → I k → Forall encodes (concat batches) → storage_wf (storage k) →
  Forall (λ b, 1 <= Z.of_nat (length b) <= 10) batches → Forall payable (concat batches) →
  NoDup (SI_TxNonce <$> concat batches) →
  Forall (λ i, storage k !! SI_TxNonce i = None) (concat batches) →
  storage (foldl (λ k b, submit b k) k batches) = record_all (concat batches) (storage k).
Proof.
  intros Hthru. revert k.
  induction batches as [|b batches IH]; intros k HI Henc Hwf Hlen Hpay Hnd Hfresh; [done|].
  cbn [concat foldl] in *. rewrite list.Forall_cons in Hlen. destruct Hlen as [Hl Hlen].
  rewrite fmap_app in Hnd. apply list.NoDup_app in Hnd as (Hnb & Hdisj & Hnd).
  apply list.Forall_app in Henc as [Heb Henc], Hpay as [Hpb Hpay], Hfresh as [Hfb Hfresh].
  assert (settleBatch b (storage k) = Ok (record_all b (storage k), created_of <$> b)) as Hs
    by by apply settleBatch_ok.
  pose proof (submit_settles _ I b k _ _ Hthru HI Heb Hwf Hs) as Hk.
  rewrite IH; rewrite ?Hk; [|by eapply submit_stays|done|by apply storage_wf_record|done..|].
  - unfold record_all. by rewrite foldl_app.
  - rewrite list.Forall_forall in *. intros i Hi. rewrite lookup_record_all; [by apply Hfresh|].
    intros j Hj E. apply (Hdisj (SI_TxNonce j)); [by apply list_elem_of_fmap_2|].
    rewrite E. by apply list_elem_of_fmap_2.
Qed.

(** The retry is safe: whatever the node does, including executing a batch and
    losing the answer, submitting a batch changes the contract by nothing or by that
    batch once. *)
Theorem submit_settles_at_most_once batch (k : K) :
  storage_wf (storage k) →
  let k' := submit batch k in
  storage k' = storage k ∨ ∃ evs, settleBatch batch (storage k) = Ok (storage k', evs).
Proof. apply submit_cases. Qed.

(** C34. One replayed payment takes its whole batch down: if an intent of a batch was
    settled before, or two intents have the same nonce, every attempt is refused and
    none of the payments batched with it is ever recorded. *)
Theorem replay_drops_batch batch (k : K) :
  storage_wf (storage k) →
  (∃ i, i ∈ batch ∧ is_Some (storage k !! SI_TxNonce i)) ∨ ¬ NoDup (SI_TxNonce <$> batch) →
  (SettleBatch batch k).1 = Err tt ∧ storage (submit batch k) = storage k.
Proof.
  intros Hwf Hbad.
  assert (∀ k', storage k' = storage k →
    (SettleBatch batch k').1 = Err tt ∧ storage (SettleBatch batch k').2 = storage k) as Hfail.
  { intros k' E.
    assert (∃ e, settleBatch batch (storage k') = Err e) as [e He].
    { rewrite E. destruct Hbad as [(i & Hi & Hs)|Hnd]; [by eapply replay_reverts|].
      destruct (settleBatch batch (storage k)) as [r|e] eqn:Es; [|by eexists].
      apply settleBatch_ok in Es; [|done]. tauto. }
    rewrite <- E in Hwf. pose proof (SettleBatch_cases batch k' Hwf) as Hc.
    destruct (SettleBatch batch k') as [r k1]. rewrite He in Hc. cbn [fst snd].
    destruct Hc as [[Hk Hr]|[evs Hs]]; [|done]. rewrite Hk. destruct r as [h|[]]; done. }
  split; [by apply Hfail|]. unfold submit. destruct (Nat.eqb (length batch) 0); [done|].
  unfold submitRetries. cbn [submit_attempts].
  destruct (Hfail k eq_refl) as [Hr Hk]. destruct (SettleBatch batch k) as [r k1].
  cbn [fst snd] in *. subst r. cbn [is_ok].
  destruct (Hfail k1 Hk) as [Hr Hk2]. destruct (SettleBatch batch k1) as [r k2].
  cbn [fst snd] in *. by subst r.
Qed.
End Properties.

(** ** A concrete node

    [faults] says what happens to each call that would succeed. *)
Inductive fault := Not_sent | Answer_lost.

Record DemoNode := { node_storage : gmap Z Settlement; faults : list (option fault) }.

#[export] Instance demo_node : BoundContract DemoNode := λ intents k,
  match settleBatch intents (node_storage k) with
  | Err _ => (None, k)
  | Ok (st, _) =>
      match faults k with
      | [] | None :: _ => (Some (replicate 32 xab), {| node_storage := st; faults := drop 1 (faults k) |})
      | Some Not_sent :: t => (None, {| node_storage := node_storage k; faults := t |})
      | Some Answer_lost :: t => (None, {| node_storage := st; faults := t |})
      end
  end.

#[export, refine] Instance demo_node_laws : BoundContractLaws DemoNode :=
  {| storage := node_storage |}.
Proof.
  - intros intents k e He. unfold Transact, demo_node. by rewrite He.
  - intros intents k st evs He. unfold Transact, demo_node. rewrite He.
    destruct (faults k) as [|[[]|] t]; auto.
Defined.

Definition fresh_node (fs : list (option fault)) : DemoNode := {| node_storage := ∅; faults := fs |}.

Lemma fresh_node_wf fs : storage_wf (storage (fresh_node fs)).
Proof.
  intros n s Hs. change ((∅ : gmap Z Settlement) !! n = Some s) in Hs.
  by rewrite lookup_empty in Hs.
Qed.

(** A node without faults takes every batch it is sent. *)
Lemma faultless_gets_through : gets_through (λ b _, Forall (λ _, True) b) (λ k : DemoNode, faults k = []).
Proof.
  intros batch k Hk. unfold SettleBatch, EscrowClient_IntentSubmitter, EscrowClient_SettleBatch.
  destruct (Nat.eqb_spec (length batch) 0) as [Hz|_].
  { split; [done|]. intros st evs _ Hs. apply nil_length_inv in Hz as ->. discriminate Hs. }
  unfold Transact, demo_node. change (storage k) with (node_storage k).
  destruct (settleBatch batch (node_storage k)) as [[st evs]|e]; [|by split].
  rewrite Hk. split; [done|]. intros st' evs' _ [= <- _]. by left.
Qed.

(** ** Witnesses *)
Lemma settleBatch_correct_witness :
  ∃ st evs, settleBatch [demo_intent 1; demo_intent 2] ∅ = Ok (st, evs) ∧
    S_amount <$> st !! SI_TxNonce (demo_intent 2) = Some 420 ∧ length evs = 2%nat ∧
    is_ok (settleBatch [demo_intent 1; demo_intent 1] ∅) = false.
Proof.
  destruct (settleBatch_correct [demo_intent 1; demo_intent 2] ∅ (fresh_node_wf [])) as [_ Hok].
  assert (is_ok (settleBatch [demo_intent 1; demo_intent 2] ∅) = true) as E by (vm_compute; reflexivity).
  destruct (settleBatch [demo_intent 1; demo_intent 2] ∅) as [[st evs]|e]; [|discriminate E].
  destruct (Hok st evs eq_refl) as (_ & Hs & _ & Hevs). exists st, evs. split; [reflexivity|].
  split; [rewrite Hs; [reflexivity|right; left]|]. split; [rewrite Hevs; reflexivity|].
  destruct (settleBatch_correct [demo_intent 1; demo_intent 1] ∅ (fresh_node_wf [])) as [Hiff _].
  apply not_true_is_false. intros Hc. apply Hiff in Hc as (_ & _ & Hnd).
  apply list.NoDup_cons in Hnd as [Hnd _]. apply Hnd. left.
Defined.

Lemma settleBatch_errors_witness :
  ∃ pre item post, [demo_intent 1; demo_intent 1] = pre ++ item :: post ∧
    SI_TxNonce item = SI_TxNonce (demo_intent 1).
Proof.
  assert (settleBatch [demo_intent 1; demo_intent 1] ∅ = Err (DuplicateNonce (SI_TxNonce (demo_intent 1))))
    as E by (vm_compute; reflexivity).
  destruct (settleBatch_errors _ _ _ E) as [[Hd _]|[[Hd _]|(pre & item & post & st & evs & Hl & _ & Hc)]].
  - discriminate Hd.
  - discriminate Hd.
  - exists pre, item, post. split; [exact Hl|].
    destruct Hc as [[Hd _]|[[Hd _]|[Hd _]]]; [discriminate Hd|discriminate Hd|].
    injection Hd as Hd. symmetry. exact Hd.
Defined.

(** The first answer is lost; the retry is refused as a duplicate. *)
Lemma submit_settles_at_most_once_witness :
  let k := fresh_node [Some Answer_lost] in
  (storage (submit [demo_intent 1] k) = storage k ∨
   ∃ evs, settleBatch [demo_intent 1] (storage k) = Ok (storage (submit [demo_intent 1] k), evs)) ∧
  is_Some (storage (submit [demo_intent 1] k) !! SI_TxNonce (demo_intent 1)).
Proof.
  split; [exact (submit_settles_at_most_once [demo_intent 1] _ (fresh_node_wf _))|].
  vm_compute. eexists. reflexivity.
Defined.

(** A replay of payment 1 keeps payment 2 off the chain. *)
Lemma replay_drops_batch_witness :
  let k := {| node_storage := (execute [demo_intent 1] ∅).1; faults := [] |} in
  storage (submit [demo_intent 1; demo_intent 2] k) = storage k ∧
  is_ok (settleBatch [demo_intent 2] (storage k)) = true.
Proof.
  intros k. split; [|vm_compute; reflexivity].
  apply (replay_drops_batch [demo_intent 1; demo_intent 2] k).
  - exact (eff_wf _ _ _ (execute_effect [demo_intent 1] ∅ (fresh_node_wf []))).
  - left. exists (demo_intent 1). split; [left|]. vm_compute. eexists. reflexivity.
Defined.
