(* ===== verification/Processor.v ===== *)
(** * The receipt processor

    Models [gateway/internal/core/receipt/processor.go]: each settlement event
    becomes a signed receipt frame and one line of the store.

    [Handle] is split where the code releases a lock: the duplicate check (inside
    [Has]), the draw of a sequence number (under [p.mu]) and the append (under the
    lock of the store). [Handle] runs the three in a row; [Handle_step] runs one,
    for calls that interleave. *)
From stdpp Require Import pretty.
From S2P Require Export Builder Store Watcher.
#[local] Open Scope Z_scope.

Definition SellerAPID100 : Z := 100.
Definition AssetIDUSDC : Z := 1.

(** [big.Int]'s [String] and [Uint64], the low 64 bits of the magnitude. *)
Definition BigInt_String (z : Z) : string := pretty z.
Definition BigInt_Uint64 (z : Z) : Z := u64 (Z.abs z).

Record Processor := {
  sellerAPID : Z;
  seed : list byte;
  seqCount : Z;
}.

Inductive new_processor_error := StoreIsNil | SeedIsEmpty.

(** [store] is the pointer argument, [None] if nil. *)
Definition NewProcessor (store : option Store) (apid : Z) (sd : list byte)
    : result new_processor_error Processor :=
  match store with
  | None => Err StoreIsNil
  | Some _ =>
      if Nat.eqb (length sd) 0 then Err SeedIsEmpty
      else Ok {| sellerAPID := apid; seed := sd; seqCount := 0 |}
  end.

Inductive handle_error :=
  | BuildFailed (e : build_error)
  | AppendFailed (e : store_error).

Section Handle.
Context `{EthCommon} `{Ed25519} `{RecordCodec}.

Definition payment_id (ev : SettlementEvent) : string := BigInt_String (Ev_TxNonce ev).
Definition tx_hash_hex (ev : SettlementEvent) : string := Hash_Hex (Ev_TxHash ev).

(** [if p.store.Has(paymentID, txHashHex) { return nil }] *)
Definition already_recorded (ev : SettlementEvent) (s : Store) : bool :=
  Has (payment_id ev) (tx_hash_hex ev) s.

(** The critical section of [p.mu]. *)
Definition next_seq (p : Processor) : Z * Processor :=
  let seq := seqCount p in
  (seq, {| sellerAPID := sellerAPID p; seed := seed p;
           seqCount := Z.land (u16 (seqCount p + 1)) 0x3FFF |}).

Definition event_inputs (p : Processor) (ev : SettlementEvent) (seq : Z) : Inputs :=
  {| ExecTimeMs := u64 (Ev_BlockTimeSec ev * 1000);
     EncTxID := BigInt_Uint64 (Ev_TxNonce ev);
     EncStatus := 1;
     APID := sellerAPID p;
     SeqCount := seq;
     SeedEd25519 := seed p |}.

Definition event_record (ev : SettlementEvent) (packetC : list byte) : Receipt :=
  {| PaymentID := payment_id ev;
     SettlementTxHash := tx_hash_hex ev;
     RecSatID := Ev_SatID ev;
     RecAmount := BigInt_String (Ev_Amount ev);
     RecAssetID := AssetIDUSDC;
     RecWallet := Address_Hex (Ev_Wallet ev);
     PacketCHex := hex_encode packetC;
     RecBlockNumber := Ev_BlockNumber ev;
     TsMs := i64 (u64 (Ev_BlockTimeSec ev * 1000));
     DispatchStatus := "" |}.

(** From [Build] to the end; [None] is a panic. *)
Definition build_and_append (plan : io) (ev : SettlementEvent) (p : Processor) (seq : Z)
    (st : Store * list byte) : option (result handle_error unit * (Store * list byte)) :=
  built ← Build (event_inputs p ev seq);
  match built with
  | Err e => Some (Err (BuildFailed e), st)
  | Ok packetC =>
      match Append plan (event_record ev packetC) st with
      | (Ok _, st) => Some (Ok tt, st)
      | (Err ErrDuplicate, st) => Some (Ok tt, st)
      | (Err e, st) => Some (Err (AppendFailed e), st)
      end
  end.

Definition Handle (plan : io) (ev : SettlementEvent) (p : Processor) (st : Store * list byte)
    : option (result handle_error unit * Processor * (Store * list byte)) :=
  if already_recorded ev st.1 then Some (Ok tt, p, st) else
  let '(seq, p) := next_seq p in
  '(r, st) ← build_and_append plan ev p seq st;
  Some (r, p, st).

(** One of several calls in progress: where it is. *)
Inductive handle_pc :=
  | At_check
  | At_seq
  | At_build (seq : Z)
  | Finished (r : result handle_error unit).

(** The next atomic part of a call; [None] also when it has finished. *)
Definition Handle_step (plan : io) (ev : SettlementEvent) (pc : handle_pc) (p : Processor)
    (st : Store * list byte) : option (handle_pc * Processor * (Store * list byte)) :=
  match pc with
  | At_check => Some (if already_recorded ev st.1 then Finished (Ok tt) else At_seq, p, st)
  | At_seq => let '(seq, p) := next_seq p in Some (At_build seq, p, st)
  | At_build seq =>
      '(r, st) ← build_and_append plan ev p seq st;
      Some (Finished r, p, st)
  | Finished _ => None
  end.

Fixpoint Handle_run (n : nat) (plan : io) (ev : SettlementEvent) (pc : handle_pc) (p : Processor)
    (st : Store * list byte) : option (handle_pc * Processor * (Store * list byte)) :=
  match n, pc with
  | _, Finished _ => Some (pc, p, st)
  | O, _ => None
  | S n, _ => '(pc, p, st) ← Handle_step plan ev pc p st; Handle_run n plan ev pc p st
  end.

(** A call on its own is the sequence of its parts. *)
Lemma Handle_parts plan ev p st :
  Handle_run 3 plan ev At_check p st =
  ('(r, p, st) ← Handle plan ev p st; Some (Finished r, p, st)).
Proof.
  unfold Handle. cbn [Handle_run Handle_step mbind option_bind].
  destruct (already_recorded ev st.1); [done|]. cbn [Handle_run Handle_step next_seq mbind option_bind].
  by destruct (build_and_append plan ev _ _ st) as [[r [s disk]]|].
Qed.
End Handle.

(** ** The keys of events *)
Lemma pretty_N_go_no_bar x s :
  "|"%char ∉ String.list_ascii_of_string s → "|"%char ∉ String.list_ascii_of_string (pretty_N_go x s).
Proof.
  revert s. induction (N.lt_wf_0 x) as [x _ IH]. intros s Hs.
  destruct (decide (x = 0)%N) as [->|Hx]; [by rewrite pretty_N_go_0|].
  rewrite pretty_N_go_step by lia. apply IH; [by apply N.div_lt; lia|].
  cbn. apply not_elem_of_cons. split; [|done].
  unfold pretty_N_char. by repeat case_match.
Qed.

Lemma BigInt_String_no_bar z :
  0 <= z → "|"%char ∉ String.list_ascii_of_string (BigInt_String z).
Proof.
  intros Hz. unfold BigInt_String, pretty, pretty_Z. destruct z as [|x|x]; [|..|lia].
  - cbn. rewrite not_elem_of_cons. split; [done|]. apply not_elem_of_nil.
  - unfold pretty_positive, pretty, pretty_N. rewrite decide_False by lia.
    apply pretty_N_go_no_bar. cbn. apply not_elem_of_nil.
Qed.

Section Keys.
Context `{EthCommonLaws}.

Definition event_key (ev : SettlementEvent) : string := dedupKey (payment_id ev) (tx_hash_hex ev).

(** The ranges of the Go types. *)
Definition Event_wf (ev : SettlementEvent) : Prop :=
  0 <= Ev_TxNonce ev ∧ 0 <= Ev_Amount ev ∧ in_u 32 (Ev_SatID ev) ∧
  in_u 64 (Ev_BlockNumber ev) ∧ in_u 64 (Ev_BlockTimeSec ev).

(** Receipts of different settlements never collide: two events have the same
    key exactly if they agree on the nonce and on the transaction hash. *)
Theorem event_key_identifies ev ev' :
  Event_wf ev → Event_wf ev' →
  event_key ev = event_key ev' ↔ Ev_TxNonce ev = Ev_TxNonce ev' ∧ Ev_TxHash ev = Ev_TxHash ev'.
Proof.
  intros [H1 _] [H2 _]. unfold event_key, payment_id, tx_hash_hex. split; [|by intros [-> ->]].
  intros [E1 E2]%dedupKey_inj; [|by apply BigInt_String_no_bar..].
  split; [by apply (inj BigInt_String)|by apply (inj Hash_Hex)].
Qed.
End Keys.

(** ** One call *)
Section Properties.
Context {St : Type} `{KaitaiStreamLaws St} `{Ed25519Laws} `{EthCommonLaws}.
Context `{RecordCodec}.
Implicit Types (ev : SettlementEvent) (p : Processor) (s : Store) (disk : list byte).

Definition Processor_wf p : Prop :=
  in_u 16 (sellerAPID p) ∧ in_u 14 (seqCount p) ∧ length (seed p) = SeedSize.

(** The processor after a draw. *)
Definition drawn p : Processor :=
  {| sellerAPID := sellerAPID p; seed := seed p; seqCount := (seqCount p + 1) mod 2 ^ 14 |}.

(** What the log gains for an event and its frame. *)
Definition pending_receipt ev (raw : list byte) : Receipt :=
  set_DispatchStatus StatusPending (event_record ev raw).

Lemma key_pending_receipt ev raw : key_of (pending_receipt ev raw) = event_key ev.
Proof. done. Qed.

Lemma next_seq_spec p : Processor_wf p → next_seq p = (seqCount p, drawn p) ∧ Processor_wf (drawn p).
Proof.
  intros (Ha & Hs & Hl). unfold next_seq, drawn, Processor_wf.
  assert (Z.land (u16 (seqCount p + 1)) 0x3FFF = (seqCount p + 1) mod 2 ^ 14) as ->.
  { rewrite (land_mask _ 14) by lia. unfold in_u in Hs. rewrite u16_small by lia. done. }
  split; [done|]. cbn [sellerAPID seqCount seed]. split_and!; [done| |done].
  apply Z.mod_pos_bound. lia.
Qed.

Lemma event_inputs_wf p ev seq :
  Processor_wf p → in_u 14 seq → Inputs_wf (event_inputs p ev seq).
Proof.
  intros (Ha & _ & _) Hq. unfold Inputs_wf, event_inputs, BigInt_Uint64, u64.
  cbn [ExecTimeMs EncTxID EncStatus APID SeqCount]. unfold in_u in *.
  pose proof (Z.mod_pos_bound (Ev_BlockTimeSec ev * 1000) (2 ^ 64)).
  pose proof (Z.mod_pos_bound (Z.abs (Ev_TxNonce ev)) (2 ^ 64)). lia.
Qed.

Lemma already_recorded_spec ev s :
  store_wf s → already_recorded ev s = bool_decide (event_key ev ∈ log_keys (contents s)).
Proof. apply Has_log. Qed.

(** Building never fails, so the call ends as its append does. *)
Lemma build_and_append_spec plan ev p seq st :
  Processor_wf p → in_u 14 seq →
  ∃ raw, Build (event_inputs p ev seq) = Some (Ok raw) ∧
    is_receipt (St := St) (event_inputs p ev seq) raw ∧
    build_and_append plan ev p seq st =
      Some (match (Append plan (event_record ev raw) st).1 with
            | Ok _ | Err ErrDuplicate => Ok tt
            | Err e => Err (AppendFailed e)
            end, (Append plan (event_record ev raw) st).2).
Proof.
  intros Hp Hq.
  destruct (Build_spec (St := St) _ (event_inputs_wf p ev seq Hp Hq)) as (raw & Hb & Hraw);
    [by destruct Hp as (_ & _ & ?)|].
  exists raw. split; [done|]. split; [done|]. unfold build_and_append. rewrite Hb. cbn [mbind option_bind].
  by destruct (Append plan _ st) as [[[]|[]] st'].
Qed.

(** The append of a whole call or of one that others overtook. *)
Lemma append_log_cases plan ev raw s disk :
  store_wf s →
  let '(r, (s', disk')) := Append plan (event_record ev raw) (s, disk) in
  store_wf s' ∧ file s' = file s ∧
  (event_key ev ∈ log_keys (contents s) ↔ r = Err ErrDuplicate) ∧
  contents s' = (if is_ok r then contents s ++ [pending_receipt ev raw] else contents s).
Proof.
  intros Hwf. pose proof (Append_log plan (event_record ev raw) s disk Hwf) as Ha.
  destruct (Append plan _ _) as [r [s' disk']]. by destruct Ha as (? & ? & ? & _ & ?).
Qed.

Lemma Handle_fresh plan ev p s disk :
  Processor_wf p → store_wf s → event_key ev ∉ log_keys (contents s) →
  ∃ raw,
    Build (event_inputs p ev (seqCount p)) = Some (Ok raw) ∧
    is_receipt (St := St) (event_inputs p ev (seqCount p)) raw ∧
    let '(a, (s', disk')) := Append plan (event_record ev raw) (s, disk) in
    a ≠ Err ErrDuplicate ∧
    Handle plan ev p (s, disk) =
      Some (match a with Ok _ => Ok tt | Err e => Err (AppendFailed e) end, drawn p, (s', disk')) ∧
    store_wf s' ∧ file s' = file s ∧
    contents s' = (if is_ok a then contents s ++ [pending_receipt ev raw] else contents s).
Proof.
  intros Hp Hwf Hnew. destruct (next_seq_spec p Hp) as [Hseq Hp'].
  destruct (build_and_append_spec plan ev (drawn p) (seqCount p) (s, disk) Hp') as (raw & Hb & Hraw & Happ).
  { by destruct Hp as (_ & ? & _). }
  exists raw. split; [done|]. split; [done|].
  pose proof (append_log_cases plan ev raw s disk Hwf) as Hlog.
  unfold Handle. cbn [fst]. rewrite already_recorded_spec, bool_decide_eq_false_2, Hseq by done.
  rewrite Happ. cbn [mbind option_bind].
  destruct (Append plan _ _) as [a [s' disk']]. cbn [fst snd] in *.
  destruct Hlog as (Hwf' & Hf & Hdup & Hc). assert (a ≠ Err ErrDuplicate) by tauto.
  split_and!; try done. destruct a as [|[]]; done.
Qed.

Lemma Handle_known plan ev p s disk :
  store_wf s → event_key ev ∈ log_keys (contents s) →
  Handle plan ev p (s, disk) = Some (Ok tt, p, (s, disk)).
Proof.
  intros Hwf Hin. unfold Handle. cbn [fst]. by rewrite already_recorded_spec, bool_decide_eq_true_2.
Qed.
End Properties.

(** ** A stream of events *)
Section Stream.
Context {St : Type} `{KaitaiStreamLaws St} `{Ed25519Laws} `{EthCommonLaws}.
Context `{RecordCodecLaws}.
Implicit Types (ev : SettlementEvent) (p : Processor) (s : Store) (disk : list byte).

(** The callback of [cmd/server/main.go]: an error is logged and the stream goes on. *)
Definition handle_logged (plan : io) (ev : SettlementEvent)
    (x : option (Processor * (Store * list byte))) : option (Processor * (Store * list byte)) :=
  '(p, st) ← x;
  '(_, p, st) ← Handle plan ev p st;
  Some (p, st).

Definition handle_stream (evs : list (io * SettlementEvent))
    (x : option (Processor * (Store * list byte))) : option (Processor * (Store * list byte)) :=
  foldl (λ x c, handle_logged c.1 c.2 x) x evs.

(** The records of an event are ones the codec represents. *)
Definition representable ev : Prop :=
  ∀ raw, length raw = PacketCFrameLen → codec_ok (event_record ev raw).

Record stream_state p s disk : Prop := {
  ss_processor : Processor_wf p;
  ss_synced : synced s disk;
  ss_open : file s = true;
}.

(** One event on a clean disk: at most one more receipt, which is that of the event,
    and none missing if the write is good. *)
Lemma handle_logged_spec plan ev p s disk :
  stream_state p s disk → clean_io plan → representable ev →
  ∃ p' s' disk',
    handle_logged plan ev (Some (p, (s, disk))) = Some (p', (s', disk')) ∧
    stream_state p' s' disk' ∧
    (∃ recs, contents s' = contents s ++ recs ∧
      (recs = [] ∨ ∃ rec, recs = [rec] ∧ key_of rec = event_key ev)) ∧
    (good_io plan → event_key ev ∈ log_keys (contents s')).
Proof.
  intros [Hp Hs Hf] Hplan Hev. pose proof (synced_wf s disk Hs) as Hwf.
  unfold handle_logged. cbn [mbind option_bind].
  destruct (decide (event_key ev ∈ log_keys (contents s))) as [Hin|Hin].
  { rewrite Handle_known by done. cbn [mbind option_bind]. exists p, s, disk.
    split_and!; [done..| |done]. exists []. rewrite app_nil_r. auto. }
  destruct (Handle_fresh (St := St) plan ev p s disk Hp Hwf Hin) as (raw & Hb & Hraw & Happ).
  assert (codec_ok (event_record ev raw)) as Hok.
  { apply Hev. by destruct Hraw as (? & ? & ? & ? & _). }
  pose proof (Append_synced plan (event_record ev raw) s disk Hs (conj Hok Hplan)) as Hs'.
  assert (good_io plan → (Append plan (event_record ev raw) (s, disk)).1 = Ok tt) as Hgood.
  { intros Hg. apply Append_good; [done..|].
    apply eq_None_not_Some. by rewrite <- log_keys_elem. }
  destruct (next_seq_spec p Hp) as [_ Hp'].
  destruct (Append plan _ _) as [a [s' disk']]. cbn [fst snd] in *.
  destruct Happ as (_ & -> & _ & Hf' & Hc). cbn [mbind option_bind].
  exists (drawn p), s', disk'. split; [done|]. split; [by split; [done|done|rewrite Hf']|]. split.
  - destruct (is_ok a); [|exists []; rewrite app_nil_r; auto].
    exists [pending_receipt ev raw]. eauto.
  - intros Hg. rewrite Hc, (Hgood Hg). cbn [is_ok]. unfold log_keys. rewrite fmap_app.
    apply elem_of_app. right. cbn. by left.
Qed.

Lemma handle_stream_spec evs p s disk :
  stream_state p s disk → Forall (λ c, clean_io c.1 ∧ representable c.2) evs →
  ∃ p' s' disk',
    handle_stream evs (Some (p, (s, disk))) = Some (p', (s', disk')) ∧
    stream_state p' s' disk' ∧
    (∃ recs, contents s' = contents s ++ recs ∧
      ∀ rec, rec ∈ recs → ∃ c, c ∈ evs ∧ key_of rec = event_key c.2) ∧
    (∀ c, c ∈ evs → good_io c.1 → event_key c.2 ∈ log_keys (contents s')).
Proof.
  unfold handle_stream. intros Hst Hevs. revert p s disk Hst.
  induction Hevs as [|[plan ev] evs [Hplan Hev] _ IH]; intros p s disk Hst; cbn [foldl fst snd].
  { exists p, s, disk. split_and!; [done..| |by intros ? ?%elem_of_nil].
    exists []. rewrite app_nil_r. split; [done|]. by intros ? ?%elem_of_nil. }
  destruct (handle_logged_spec plan ev p s disk Hst Hplan Hev)
    as (p1 & s1 & disk1 & -> & Hst1 & (recs1 & Hc1 & Hrecs1) & Hgood1).
  destruct (IH p1 s1 disk1 Hst1) as (p' & s' & disk' & -> & Hst' & (recs & Hc & Hrecs) & Hgood).
  exists p', s', disk'. split_and!; [done|done| |].
  - exists (recs1 ++ recs). rewrite Hc, Hc1, app_assoc. split; [done|].
    intros rec [Hr|Hr]%elem_of_app.
    + exists (plan, ev). split; [by left|]. destruct Hrecs1 as [-> | (r & -> & Hk)].
      * by apply elem_of_nil in Hr.
      * by apply list_elem_of_singleton in Hr as ->.
    + destruct (Hrecs rec Hr) as (c & Hin & Hk). exists c. split; [by right|done].
  - intros c [-> | Hin]%elem_of_cons Hg; [|by apply Hgood].
    rewrite Hc. unfold log_keys. rewrite fmap_app. apply elem_of_app. left. by apply Hgood1.
Qed.

(** A run of the gateway on a receipt file, as [startReceiptWatcher] sets it up:
    open the store, make a fresh processor, handle the events. *)
Definition receipt_session (sd : list byte) (disk : list byte) (evs : list (io * SettlementEvent))
    : option (list byte) :=
  match NewStore true disk with
  | Err _ => None
  | Ok s =>
      match NewProcessor (Some s) SellerAPID100 sd with
      | Err _ => None
      | Ok p =>
          '(_, (_, disk)) ← handle_stream evs (Some (p, (s, disk)));
          Some disk
      end
  end.

Fixpoint receipt_sessions (sd : list byte) (disk : list byte)
    (runs : list (list (io * SettlementEvent))) : option (list byte) :=
  match runs with
  | [] => Some disk
  | evs :: runs => disk ← receipt_session sd disk evs; receipt_sessions sd disk runs
  end.

Lemma receipt_session_spec sd disk evs rs :
  length sd = SeedSize → file_of rs disk →
  Forall (λ c, clean_io c.1 ∧ representable c.2) evs →
  ∃ disk' rs' recs, receipt_session sd disk evs = Some disk' ∧ file_of rs' disk' ∧
    contents (replay rs') = contents (replay rs) ++ recs ∧
    (∀ rec, rec ∈ recs → ∃ c, c ∈ evs ∧ key_of rec = event_key c.2) ∧
    (∀ c, c ∈ evs → good_io c.1 → event_key c.2 ∈ log_keys (contents (replay rs'))).
Proof.
  intros Hsd Hfile Hevs. unfold receipt_session. rewrite (NewStore_file rs disk Hfile).
  unfold NewProcessor. rewrite Hsd. cbn [Nat.eqb SeedSize].
  destruct (handle_stream_spec evs {| sellerAPID := SellerAPID100; seed := sd; seqCount := 0 |}
    (replay rs) disk) as (p' & s' & disk' & -> & [_ (rs' & Hf' & Hr' & Ho') _] & (recs & Hc & Hrecs) & Hgood).
  { split; [|by exists rs|apply replay_file]. unfold Processor_wf, in_u, SellerAPID100.
    cbn [sellerAPID seqCount seed]. split_and!; [lia|lia|lia|lia|done]. }
  { done. }
  cbn [mbind option_bind]. exists disk', rs', recs.
  assert (contents (replay rs') = contents s') as -> by (unfold contents; by rewrite Hr', Ho').
  done.
Qed.

Lemma receipt_sessions_spec sd disk runs rs :
  length sd = SeedSize → file_of rs disk →
  Forall (Forall (λ c, clean_io c.1 ∧ representable c.2)) runs →
  ∃ disk' rs' recs, receipt_sessions sd disk runs = Some disk' ∧ file_of rs' disk' ∧
    contents (replay rs') = contents (replay rs) ++ recs ∧
    (∀ rec, rec ∈ recs → ∃ c, c ∈ concat runs ∧ key_of rec = event_key c.2) ∧
    (∀ c, c ∈ concat runs → good_io c.1 → event_key c.2 ∈ log_keys (contents (replay rs'))).
Proof.
  intros Hsd Hfile Hruns. revert disk rs Hfile.
  induction Hruns as [|evs runs Hevs _ IH]; intros disk rs Hfile; cbn [receipt_sessions concat].
  { exists disk, rs, []. rewrite app_nil_r.
    split_and!; [done..| |]; by intros ? ?%elem_of_nil. }
  destruct (receipt_session_spec sd disk evs rs Hsd Hfile Hevs)
    as (disk1 & rs1 & recs1 & -> & Hf1 & Hc1 & Hrecs1 & Hgood1). cbn [mbind option_bind].
  destruct (IH disk1 rs1 Hf1) as (disk' & rs' & recs & Hrun & Hf' & Hc' & Hrecs & Hgood).
  exists disk', rs', (recs1 ++ recs). split_and!; [done|done| | |].
  - by rewrite Hc', Hc1, app_assoc.
  - intros rec [Hr|Hr]%elem_of_app.
    + destruct (Hrecs1 rec Hr) as (c & Hc & Hk). exists c. split; [|done]. apply elem_of_app. by left.
    + destruct (Hrecs rec Hr) as (c & Hc & Hk). exists c. split; [|done]. apply elem_of_app. by right.
  - intros c [Hc|Hc]%elem_of_app Hg; [|by apply Hgood].
    rewrite Hc'. unfold log_keys. rewrite fmap_app. apply elem_of_app. left. by apply Hgood1.
Qed.
End Stream.

(** ** Concurrent calls

    [calls] are the calls in progress; a configuration is where each of them is,
    and the shared processor, store and file. Between their parts the egress
    handlers may acknowledge receipts of the same store. *)
Section Interleaving.
Context {St : Type} `{KaitaiStreamLaws St} `{Ed25519Laws} `{EthCommonLaws}.
Context `{RecordCodec}.
Variable calls : list (io * SettlementEvent).

Record conf := { pcs : list handle_pc; proc : Processor; shared : Store * list byte }.

Inductive conf_step (c : conf) : conf → Prop :=
  | Conf_step i plan ev pc pc' p' st' :
      calls !! i = Some (plan, ev) → pcs c !! i = Some pc →
      Handle_step plan ev pc (proc c) (shared c) = Some (pc', p', st') →
      conf_step c {| pcs := <[i := pc']> (pcs c); proc := p'; shared := st' |}
  | Conf_ack plan pid tx :
      conf_step c {| pcs := pcs c; proc := proc c;
                     shared := (MarkDispatched plan pid tx (shared c)).2 |}.

Definition start_conf p st : conf :=
  {| pcs := replicate (length calls) At_check; proc := p; shared := st |}.

(** An executable scheduler: which call moves next, or what is acknowledged. *)
Inductive move := Call (i : nat) | Ack (plan : io) (pid tx : string).

Definition run_move (m : move) (c : conf) : option conf :=
  match m with
  | Call i =>
      '(plan, ev) ← calls !! i;
      pc ← pcs c !! i;
      '(pc', p', st') ← Handle_step plan ev pc (proc c) (shared c);
      Some {| pcs := <[i := pc']> (pcs c); proc := p'; shared := st' |}
  | Ack plan pid tx =>
      Some {| pcs := pcs c; proc := proc c; shared := (MarkDispatched plan pid tx (shared c)).2 |}
  end.

Definition run_schedule (sched : list move) (c : conf) : option conf :=
  foldl (λ c m, c ← c; run_move m c) (Some c) sched.

Lemma run_move_step m c c' : run_move m c = Some c' → conf_step c c'.
Proof.
  destruct m as [i|plan pid tx]; cbn [run_move]; [|intros [= <-]; apply Conf_ack].
  destruct (calls !! i) as [[plan ev]|] eqn:Hc; [|done]. cbn [mbind option_bind].
  destruct (pcs c !! i) as [pc|] eqn:Hp; [|done]. cbn [mbind option_bind].
  destruct (Handle_step plan ev pc (proc c) (shared c)) as [[[pc' p'] st']|] eqn:Hs; [|done].
  intros [= <-]. by eapply Conf_step.
Qed.

Lemma run_schedule_steps sched c c' : run_schedule sched c = Some c' → rtc conf_step c c'.
Proof.
  revert c. unfold run_schedule. induction sched as [|m sched IH]; intros c; cbn [foldl].
  { by intros [= ->]. }
  cbn [mbind option_bind]. destruct (run_move m c) as [c1|] eqn:Hm.
  - intros Hrun%IH. eapply rtc_l; [by apply run_move_step in Hm|done].
  - clear. intros Hrun. exfalso. by induction sched.
Qed.

Definition log_of (c : conf) : list Receipt := contents (shared c).1.

(** The [k]-th sequence number drawn. *)
Definition seq_at (p : Processor) (k : nat) : Z := (seqCount p + Z.of_nat k) mod 2 ^ 14.

(** [rec] is the receipt of the [i]-th call, made with the [k]-th number. *)
Definition receipt_of_call p (rec : Receipt) (i k : nat) : Prop :=
  ∃ plan ev raw, calls !! i = Some (plan, ev) ∧
    Build (event_inputs p ev (seq_at p k)) = Some (Ok raw) ∧ rec = pending_receipt ev raw.

Definition past_draw (pc : handle_pc) : Prop :=
  match pc with At_build _ | Finished _ => True | _ => False end.

(** Receipts that may have been acknowledged meanwhile. *)
Definition advances : list Receipt → list Receipt → Prop :=
  Forall2 (λ x y, y = x ∨ y = set_DispatchStatus StatusDispatched x).

Lemma advances_refl log : advances log log.
Proof. apply list.Forall2_same_length_lookup_2; [done|]. intros i x y Hx Hy. left. congruence. Qed.

Lemma advances_trans l1 l2 l3 : advances l1 l2 → advances l2 l3 → advances l1 l3.
Proof.
  unfold advances. intros H12. revert l3. induction H12 as [|x y l1 l2 Hxy _ IH]; intros l3 H23.
  { done. }
  apply Forall2_cons_inv_l in H23 as (z & l3' & Hyz & H23 & ->). constructor; [|by apply IH].
  destruct Hxy as [-> | ->], Hyz as [-> | ->]; auto.
Qed.

Lemma advances_dispatch k log : advances log (log_dispatch k log).
Proof.
  unfold advances, log_dispatch. induction log as [|x log IH]; cbn; constructor; [|done].
  destruct (decide (key_of x = k)); auto.
Qed.

(** An acknowledgement on the running store. *)
Lemma ack_advances plan pid tx (st : Store * list byte) :
  store_wf st.1 →
  let st' := (MarkDispatched plan pid tx st).2 in
  store_wf st'.1 ∧ advances (contents st.1) (contents st'.1) ∧
  log_keys (contents st'.1) = log_keys (contents st.1).
Proof.
  destruct st as [s disk]. cbn [fst]. intros Hwf.
  pose proof (MarkDispatched_log plan pid tx s disk Hwf) as Hlog.
  destruct (MarkDispatched plan pid tx (s, disk)) as [r [s' disk']]. cbn [fst snd].
  destruct Hlog as (Hwf' & _ & _ & ->). split; [done|].
  destruct (is_ok r); [by split; [apply advances_dispatch|apply log_keys_dispatch]|].
  by split; [apply advances_refl|].
Qed.

(** [draws] are the calls in the order of their draws, [recs] the receipts added
    and [owners] their calls. *)
Record conf_inv p (log0 : list Receipt) (c : conf) (draws owners : list nat)
    (recs : list Receipt) : Prop := {
  ci_length : length (pcs c) = length calls;
  ci_proc : proc c = {| sellerAPID := sellerAPID p; seed := seed p;
                        seqCount := seq_at p (length draws) |};
  ci_store : store_wf (shared c).1;
  ci_log : advances (log0 ++ recs) (log_of c);
  ci_draws : NoDup draws;
  ci_past i : i ∈ draws → ∃ pc, pcs c !! i = Some pc ∧ past_draw pc;
  ci_build i q : pcs c !! i = Some (At_build q) → ∃ k, draws !! k = Some i ∧ q = seq_at p k;
  ci_owners : NoDup owners;
  ci_done i : i ∈ owners → ∃ r, pcs c !! i = Some (Finished r);
  ci_recs : Forall2 (λ rec i, ∃ k, draws !! k = Some i ∧ receipt_of_call p rec i k) recs owners;
  ci_ok i plan ev : calls !! i = Some (plan, ev) → pcs c !! i = Some (Finished (Ok tt)) →
    event_key ev ∈ log_keys (log_of c);
}.

Lemma conf_inv_start p s disk :
  Processor_wf p → store_wf s →
  conf_inv p (contents s) (start_conf p (s, disk)) [] [] [].
Proof.
  intros Hp Hwf. split; cbn.
  - apply length_replicate.
  - unfold seq_at. cbn [length Z.of_nat]. destruct Hp as (_ & Hs & _). unfold in_u in Hs.
    rewrite Z.add_0_r, Z.mod_small by done. by destruct p.
  - done.
  - rewrite app_nil_r. apply advances_refl.
  - constructor.
  - by intros i ?%elem_of_nil.
  - intros i q [Hq _]%lookup_replicate. done.
  - constructor.
  - by intros i ?%elem_of_nil.
  - constructor.
  - intros i plan ev _ [Hq _]%lookup_replicate. done.
Qed.

Lemma seq_at_range p k : in_u 14 (seq_at p k).
Proof. unfold in_u, seq_at. apply Z.mod_pos_bound. lia. Qed.

(** Up to [2^14] draws the numbers are distinct. *)
Lemma seq_at_inj p k k' :
  Z.of_nat k < 2 ^ 14 → Z.of_nat k' < 2 ^ 14 → seq_at p k = seq_at p k' → k = k'.
Proof.
  unfold seq_at. intros Hk Hk' E.
  assert ((seqCount p + Z.of_nat k - (seqCount p + Z.of_nat k')) mod 2 ^ 14 = 0) as Hd.
  { by rewrite Zminus_mod, E, Z.sub_diag. }
  apply Z.mod_divide in Hd as [d Hd]; [|lia]. nia.
Qed.

Lemma Processor_wf_seq p q :
  Processor_wf p → in_u 14 q →
  Processor_wf {| sellerAPID := sellerAPID p; seed := seed p; seqCount := q |}.
Proof. by intros (Ha & _ & Hl) Hq. Qed.

Lemma conf_inv_not_drawn p log0 c draws owners recs i pc :
  conf_inv p log0 c draws owners recs → pcs c !! i = Some pc → ¬ past_draw pc → i ∉ draws.
Proof. intros Hinv Hi Hpast (pc' & Hpc & ?)%(ci_past _ _ _ _ _ _ Hinv). by simplify_eq. Qed.

Lemma conf_inv_not_owner p log0 c draws owners recs i pc :
  conf_inv p log0 c draws owners recs → pcs c !! i = Some pc → (∀ r, pc ≠ Finished r) → i ∉ owners.
Proof.
  intros Hinv Hi Hfin (r & Hr)%(ci_done _ _ _ _ _ _ Hinv). simplify_eq. by destruct (Hfin r).
Qed.

(** What call [j] is at when [i] moved. *)
#[local] Ltac at_call j i :=
  destruct (decide (j = i)) as [->|?];
    [rewrite list_lookup_insert_eq by (by eapply lookup_lt_Some)
    |rewrite list_lookup_insert_ne by done].

(** Moving a call that has drawn nothing. *)
Lemma conf_inv_move p log0 c draws owners recs i pc pc' :
  conf_inv p log0 c draws owners recs →
  pcs c !! i = Some pc → ¬ past_draw pc → (∀ q, pc' ≠ At_build q) →
  (∀ plan ev, calls !! i = Some (plan, ev) → pc' = Finished (Ok tt) →
     event_key ev ∈ log_keys (log_of c)) →
  conf_inv p log0 {| pcs := <[i := pc']> (pcs c); proc := proc c; shared := shared c |}
    draws owners recs.
Proof.
  intros Hinv Hi Hpast Hnb Hok.
  pose proof (conf_inv_not_drawn _ _ _ _ _ _ _ _ Hinv Hi Hpast) as Hnd.
  assert (i ∉ owners) as Hno.
  { intros (r & Hr)%(ci_done _ _ _ _ _ _ Hinv). simplify_eq. by destruct Hpast. }
  destruct Hinv. split; cbn [pcs proc shared]; try done.
  - by rewrite length_insert.
  - intros j Hj. rewrite list_lookup_insert_ne by (by intros ->). by apply ci_past0.
  - intros j q. at_call j i; [|apply ci_build0]. intros [= E]. by destruct (Hnb q).
  - intros j Hj. rewrite list_lookup_insert_ne by (by intros ->). by apply ci_done0.
  - intros j plan ev Hc. at_call j i; [|by apply (ci_ok0 j plan ev)].
    intros [= E]. by apply (Hok plan ev).
Qed.

(** Drawing a number. *)
Lemma conf_inv_draw p log0 c draws owners recs i :
  Processor_wf p →
  conf_inv p log0 c draws owners recs → pcs c !! i = Some At_seq →
  next_seq (proc c) = (seq_at p (length draws),
    {| sellerAPID := sellerAPID p; seed := seed p; seqCount := seq_at p (S (length draws)) |}) ∧
  conf_inv p log0 {| pcs := <[i := At_build (seq_at p (length draws))]> (pcs c);
      proc := {| sellerAPID := sellerAPID p; seed := seed p; seqCount := seq_at p (S (length draws)) |};
      shared := shared c |} (draws ++ [i]) owners recs.
Proof.
  intros Hp Hinv Hi.
  pose proof (conf_inv_not_drawn _ _ _ _ _ _ _ _ Hinv Hi (λ F, F)) as Hnd.
  assert (i ∉ owners) as Hno by by eapply conf_inv_not_owner.
  destruct Hinv. split.
  - rewrite ci_proc0. rewrite (proj1 (next_seq_spec _ (Processor_wf_seq p _ Hp (seq_at_range p _)))).
    unfold drawn. cbn [sellerAPID seed seqCount]. do 3 f_equal. unfold seq_at.
    rewrite Zplus_mod_idemp_l. f_equal. lia.
  - assert (∀ k j, draws !! k = Some j → (draws ++ [i]) !! k = Some j) as Hext.
    { intros k j Hk. rewrite lookup_app_l; [done|]. by eapply lookup_lt_Some. }
    split; cbn [pcs proc shared]; try done.
    + by rewrite length_insert.
    + by rewrite length_app, Nat.add_1_r.
    + apply list.NoDup_app. split_and!; [done| |apply NoDup_singleton].
      by intros j Hj ->%list_elem_of_singleton.
    + intros j [Hj|Hj%list_elem_of_singleton]%elem_of_app; at_call j i;
        first [done | by apply ci_past0 | by eexists].
    + intros j q. at_call j i.
      * intros [= <-]. exists (length draws). by rewrite lookup_app_r, Nat.sub_diag by lia.
      * intros (k & Hk & ->)%ci_build0. eauto.
    + intros j Hj. rewrite list_lookup_insert_ne by (by intros ->). by apply ci_done0.
    + eapply list.Forall2_impl; [exact ci_recs0|]. intros rec j (k & Hk & Hr). eauto.
    + intros j plan ev Hc. at_call j i; [done|by apply (ci_ok0 j plan ev)].
Qed.

Lemma log_keys_app k l1 l2 : k ∈ log_keys (l1 ++ l2) ↔ k ∈ log_keys l1 ∨ k ∈ log_keys l2.
Proof. unfold log_keys. by rewrite fmap_app, elem_of_app. Qed.

(** Building and appending. *)
Lemma conf_inv_append p log0 c draws owners recs i plan ev q :
  Processor_wf p →
  conf_inv p log0 c draws owners recs → calls !! i = Some (plan, ev) →
  pcs c !! i = Some (At_build q) →
  ∃ r st', build_and_append plan ev (proc c) q (shared c) = Some (r, st') ∧
    ∃ owners' recs',
      conf_inv p log0 {| pcs := <[i := Finished r]> (pcs c); proc := proc c; shared := st' |}
        draws owners' recs'.
Proof.
  intros Hp Hinv Hcall Hi.
  assert (i ∉ owners) as Hno by by eapply conf_inv_not_owner.
  destruct Hinv. destruct (ci_build0 i q Hi) as (k & Hk & ->).
  assert (Processor_wf (proc c)) as Hpc.
  { rewrite ci_proc0. apply Processor_wf_seq; [done|apply seq_at_range]. }
  destruct (build_and_append_spec (St := St) plan ev (proc c) (seq_at p k) (shared c) Hpc
    (seq_at_range p k)) as (raw & Hb & _ & ->).
  destruct c as [pcs0 proc0 [s disk]]. cbn [pcs proc shared fst snd] in *. unfold log_of in *.
  cbn [shared fst] in *.
  pose proof (append_log_cases plan ev raw s disk ci_store0) as Happ.
  destruct (Append plan (event_record ev raw) (s, disk)) as [a [s' disk']]. cbn [fst snd].
  destruct Happ as (Hwf' & _ & Hdup & Hlog).
  set (r := match a with Ok _ | Err ErrDuplicate => Ok tt | Err e => Err (AppendFailed e) end).
  exists r, (s', disk'). split; [done|].
  exists (if is_ok a then owners ++ [i] else owners),
    (if is_ok a then recs ++ [pending_receipt ev raw] else recs).
  assert (∀ x, x ∈ log_keys (contents s) → x ∈ log_keys (contents s')) as Hmono.
  { intros x Hx. rewrite Hlog. destruct (is_ok a); [|done]. apply log_keys_app. by left. }
  split; cbn [pcs proc shared]; unfold log_of; cbn [shared fst]; try done.
  - by rewrite length_insert.
  - rewrite Hlog. destruct (is_ok a); [|done]. rewrite app_assoc.
    apply Forall2_app; [done|]. apply advances_refl.
  - intros j Hj. at_call j i; [by eexists|by apply ci_past0].
  - intros j q'. at_call j i; [done|apply ci_build0].
  - destruct (is_ok a); [|done]. apply list.NoDup_app. split_and!; [done| |apply NoDup_singleton].
    by intros j Hj ->%list_elem_of_singleton.
  - intros j Hj. at_call j i; [eauto|]. apply ci_done0.
    destruct (is_ok a); [|done]. by apply elem_of_app in Hj as [?|?%list_elem_of_singleton].
  - destruct (is_ok a); [|done]. apply Forall2_app; [done|]. constructor; [|constructor].
    exists k. split; [done|]. exists plan, ev, raw. split; [done|]. split; [|done].
    by rewrite ci_proc0 in Hb.
  - intros j plan' ev' Hc. at_call j i.
    + intros [= Hr]. rewrite Hcall in Hc. injection Hc as <- <-.
      destruct a as [[]|e].
      * rewrite Hlog. apply log_keys_app. right. by left.
      * apply Hmono, Hdup. unfold r in Hr. by destruct e.
    + intros Hf. by apply Hmono, (ci_ok0 j plan' ev').
Qed.

(** An acknowledgement. *)
Lemma conf_inv_ack p log0 c draws owners recs plan pid tx :
  conf_inv p log0 c draws owners recs →
  conf_inv p log0 {| pcs := pcs c; proc := proc c;
    shared := (MarkDispatched plan pid tx (shared c)).2 |} draws owners recs.
Proof.
  intros []. destruct (ack_advances plan pid tx (shared c) ci_store0) as (Hwf & Hadv & Hkeys).
  split; cbn [pcs proc shared]; unfold log_of in *; cbn [shared]; try done.
  - by eapply advances_trans.
  - rewrite Hkeys. done.
Qed.

(** A call that has not finished can move, and every move keeps the invariant. *)
Lemma conf_inv_step p log0 c draws owners recs c' :
  Processor_wf p → conf_inv p log0 c draws owners recs → conf_step c c' →
  ∃ draws' owners' recs', conf_inv p log0 c' draws' owners' recs'.
Proof.
  intros Hp Hinv [i plan ev pc pc' p' st' Hcall Hi Hstep|plan pid tx].
  2:{ exists draws, owners, recs. by apply conf_inv_ack. }
  destruct pc as [| |q|r]; cbn [Handle_step] in Hstep; [| | |done].
  - injection Hstep as <- <- <-. exists draws, owners, recs.
    apply (conf_inv_move _ _ _ _ _ _ _ _ _ Hinv Hi); [by intros []| |].
    + intros q. by destruct (already_recorded _ _).
    + intros plan' ev' Hc E. rewrite Hcall in Hc. injection Hc as <- <-.
      rewrite already_recorded_spec in E by apply Hinv.
      by case_bool_decide.
  - destruct (conf_inv_draw p log0 c draws owners recs i Hp Hinv Hi) as [Hseq Hinv'].
    rewrite Hseq in Hstep. injection Hstep as <- <- <-. eauto.
  - destruct (conf_inv_append p log0 c draws owners recs i plan ev q Hp Hinv Hcall Hi)
      as (r & st1 & Hb & Hinv'). rewrite Hb in Hstep. cbn in Hstep. injection Hstep as <- <- <-. by exists draws.
Qed.

Lemma conf_inv_progress p log0 c draws owners recs i plan ev pc :
  Processor_wf p → conf_inv p log0 c draws owners recs →
  calls !! i = Some (plan, ev) → pcs c !! i = Some pc →
  (∃ r, pc = Finished r) ∨ is_Some (Handle_step plan ev pc (proc c) (shared c)).
Proof.
  intros Hp Hinv Hcall Hi. destruct pc as [| |q|r]; cbn [Handle_step]; [| | |by left; eexists]; right.
  - by eexists.
  - destruct (next_seq (proc c)). by eexists.
  - destruct (conf_inv_append p log0 c draws owners recs i plan ev q Hp Hinv Hcall Hi)
      as (r & st1 & -> & _). by eexists.
Qed.

(** The log only grows, and receipts only advance. *)
Lemma conf_step_advances c c' :
  store_wf (shared c).1 → conf_step c c' →
  store_wf (shared c').1 ∧ ∃ more, advances (log_of c ++ more) (log_of c').
Proof.
  intros Hwf [i plan ev pc pc' p' st' _ _ Hstep|plan pid tx]; unfold log_of; cbn [shared].
  2:{ destruct (ack_advances plan pid tx (shared c) Hwf) as (Hwf' & Hadv & _).
      split; [done|]. exists []. by rewrite app_nil_r. }
  assert (∀ st, st = shared c → store_wf st.1 ∧
    ∃ more, advances (contents (shared c).1 ++ more) (contents st.1)) as Hsame.
  { intros st ->. split; [done|]. exists []. rewrite app_nil_r. apply advances_refl. }
  destruct pc as [| |q|r]; cbn [Handle_step] in Hstep; [| | |done].
  - injection Hstep as _ _ <-. by apply Hsame.
  - destruct (next_seq (proc c)). injection Hstep as _ _ <-. by apply Hsame.
  - unfold build_and_append in Hstep.
    destruct (Build _) as [[raw|e]|]; [|injection Hstep as _ _ <-; by apply Hsame|done].
    cbn [mbind option_bind] in Hstep. destruct (shared c) as [s disk]. cbn [fst] in Hwf.
    pose proof (Append_log plan (event_record ev raw) s disk Hwf) as Happ.
    destruct (Append plan (event_record ev raw) (s, disk)) as [a [s' disk']].
    destruct Happ as (Hwf' & _ & _ & _ & Hlog).
    assert (st' = (s', disk')) as -> by (destruct a as [[]|[]]; by injection Hstep).
    split; [done|]. cbn [fst]. rewrite Hlog.
    destruct (is_ok a); [|apply (Hsame (s, disk) eq_refl)].
    eexists. apply advances_refl.
Qed.

Lemma rtc_advances c c' :
  store_wf (shared c).1 → rtc conf_step c c' → ∃ more, advances (log_of c ++ more) (log_of c').
Proof.
  intros Hwf Hsteps. induction Hsteps as [c|c c1 c2 Hstep _ IH].
  { exists []. rewrite app_nil_r. apply advances_refl. }
  destruct (conf_step_advances c c1 Hwf Hstep) as (Hwf1 & more & Hm).
  destruct (IH Hwf1) as (more' & Hm'). exists (more ++ more'). rewrite app_assoc.
  eapply advances_trans; [|exact Hm']. apply Forall2_app; [done|apply advances_refl].
Qed.

(** The receipts gained, their calls and their distinct numbers. *)
Lemma call_numbers p (log log0 recs : list Receipt) (draws owners : list nat) :
  advances (log0 ++ recs) log → NoDup owners →
  Forall2 (λ rec i, ∃ k, draws !! k = Some i ∧ receipt_of_call p rec i k) recs owners →
  (∀ k i, draws !! k = Some i → Z.of_nat k < 2 ^ 14) →
  ∃ recs owners ks, advances (log0 ++ recs) log ∧ NoDup owners ∧ NoDup (seq_at p <$> ks) ∧
    Forall2 (λ rec x, receipt_of_call p rec x.1 x.2) recs (zip owners ks) ∧
    length owners = length ks.
Proof.
  intros Hlog Hown Hrecs Hk.
  assert (∃ ks, Forall2 (λ i k, draws !! k = Some i) owners ks ∧
    Forall2 (λ rec x, receipt_of_call p rec x.1 x.2) recs (zip owners ks)) as (ks & Hks & Hr).
  { clear Hlog Hown. induction Hrecs as [|rec i recs owners (k & Hki & Hrec) _ (ks & IH1 & IH2)].
    - exists []. by split; constructor.
    - exists (k :: ks). by split; constructor. }
  exists recs, owners, ks. split_and!; [done|done| |done|by apply Forall2_length in Hks].
  assert (NoDup ks) as Hnd.
  { apply NoDup_alt. intros a b k Ha Hb.
    destruct (Forall2_lookup_r _ _ _ _ _ Hks Ha) as (i & Hia & Hi).
    destruct (Forall2_lookup_r _ _ _ _ _ Hks Hb) as (j & Hjb & Hj).
    rewrite Hi in Hj. injection Hj as <-. by eapply NoDup_lookup. }
  apply NoDup_fmap_2_strong; [|done]. intros k k' [a Ha]%list_elem_of_lookup [b Hb]%list_elem_of_lookup.
  destruct (Forall2_lookup_r _ _ _ _ _ Hks Ha) as (i & _ & Hi).
  destruct (Forall2_lookup_r _ _ _ _ _ Hks Hb) as (j & _ & Hj).
  apply seq_at_inj; by eapply Hk.
Qed.

(** C28. Calls of [Handle] may run at the same time, and while receipts are being
    acknowledged. However the steps of up to [2^14] calls and any acknowledgements
    interleave: no call gets stuck or panics; the log stays free of duplicates; what
    it gained are receipts of distinct calls, and no two of them carry the same
    sequence number; nothing else changes in it but the status of receipts to
    dispatched, and not back; no two calls hold the same number; and a call that
    returned without an error has its event in the log, also when another call won
    the race to append it. *)
Theorem Handle_interleaved p s disk c :
  Processor_wf p → store_wf s → Z.of_nat (length calls) <= 2 ^ 14 →
  rtc conf_step (start_conf p (s, disk)) c →
  NoDup (log_keys (log_of c)) ∧
  (∃ recs owners ks, advances (contents s ++ recs) (log_of c) ∧ NoDup owners ∧
    NoDup (seq_at p <$> ks) ∧ Forall2 (λ rec x, receipt_of_call p rec x.1 x.2) recs (zip owners ks) ∧
    length owners = length ks) ∧
  (∀ c', rtc conf_step c c' → ∃ more, advances (log_of c ++ more) (log_of c')) ∧
  (∀ i j q, pcs c !! i = Some (At_build q) → pcs c !! j = Some (At_build q) → i = j) ∧
  (∀ i plan ev pc, calls !! i = Some (plan, ev) → pcs c !! i = Some pc →
    (pc = Finished (Ok tt) → event_key ev ∈ log_keys (log_of c)) ∧
    ((∃ r, pc = Finished r) ∨ is_Some (Handle_step plan ev pc (proc c) (shared c)))).
Proof.
  intros Hp Hwf Hn Hsteps.
  assert (∃ draws owners recs, conf_inv p (contents s) c draws owners recs) as (draws & owners & recs & Hinv).
  { assert (∃ draws owners recs,
      conf_inv p (contents s) (start_conf p (s, disk)) draws owners recs) as Hinv0.
    { exists [], [], []. by apply conf_inv_start. }
    revert Hinv0. induction Hsteps as [|c c1 c2 Hstep _ IH]; [done|].
    intros (draws & owners & recs & Hinv). apply IH. by eapply conf_inv_step. }
  assert (∀ k i, draws !! k = Some i → Z.of_nat k < 2 ^ 14) as Hk.
  { intros k i Hki%lookup_lt_Some. apply (Z.lt_le_trans _ (Z.of_nat (length draws))); [lia|].
    etransitivity; [|exact Hn]. apply Nat2Z.inj_le. rewrite <- (length_seq (length calls) 0).
    apply submseteq_length, NoDup_submseteq; [apply Hinv|].
    intros x Hx. destruct (ci_past _ _ _ _ _ _ Hinv x Hx) as (pc & Hpc%lookup_lt_Some & _).
    rewrite (ci_length _ _ _ _ _ _ Hinv) in Hpc. apply elem_of_seq. lia. }
  assert (∀ k k' i i', draws !! k = Some i → draws !! k' = Some i' → seq_at p k = seq_at p k' → i = i')
    as Hinj.
  { intros k k' i i' Hi Hi' E. apply seq_at_inj in E as ->; [congruence|by eapply Hk..]. }
  split_and!.
  - exact (log_keys_nodup _ (ci_store _ _ _ _ _ _ Hinv)).
  - destruct Hinv. by apply (call_numbers p _ _ recs draws owners).
  - intros c'. apply rtc_advances, Hinv.
  - intros i j q Hi Hj.
    destruct (ci_build _ _ _ _ _ _ Hinv i q Hi) as (k & Hki & ->).
    destruct (ci_build _ _ _ _ _ _ Hinv j _ Hj) as (k' & Hkj & E). by eapply Hinj.
  - intros i plan ev pc Hcall Hi. split.
    + intros ->. by eapply (ci_ok _ _ _ _ _ _ Hinv).
    + exact (conf_inv_progress _ _ _ _ _ _ i plan ev pc Hp Hinv Hcall Hi).
Qed.
End Interleaving.

(** ** Properties *)
Section Claims.
Context {St : Type} `{KaitaiStreamLaws St} `{Ed25519Laws} `{EthCommonLaws}.
Implicit Types (ev : SettlementEvent) (p : Processor) (s : Store) (disk : list byte).

(** One event, one receipt. A recorded event changes nothing at all. A new one
    draws a sequence number and appends one pending receipt whose fields are those
    of the event and whose packet parses and verifies, carrying the low half of the
    nonce as transaction id and the block time in milliseconds; if the append fails
    the call says so and the log is as it was. *)
Theorem Handle_correct `{RecordCodec} plan ev p s disk :
  Processor_wf p → Event_wf ev → Ev_BlockTimeSec ev * 1000 < 2 ^ 63 → store_wf s →
  ∃ r p' s' disk', Handle plan ev p (s, disk) = Some (r, p', (s', disk')) ∧
    Processor_wf p' ∧ store_wf s' ∧
    (event_key ev ∈ log_keys (contents s) → r = Ok tt ∧ p' = p ∧ s' = s ∧ disk' = disk) ∧
    (event_key ev ∉ log_keys (contents s) →
      seqCount p' = (seqCount p + 1) mod 2 ^ 14 ∧
      match r with
      | Err e => contents s' = contents s ∧ ∃ se, e = AppendFailed se
      | Ok _ => ∃ raw, contents s' = contents s ++
          [{| PaymentID := BigInt_String (Ev_TxNonce ev); SettlementTxHash := Hash_Hex (Ev_TxHash ev);
              RecSatID := Ev_SatID ev; RecAmount := BigInt_String (Ev_Amount ev); RecAssetID := 1;
              RecWallet := Address_Hex (Ev_Wallet ev); PacketCHex := hex_encode raw;
              RecBlockNumber := Ev_BlockNumber ev; TsMs := Ev_BlockTimeSec ev * 1000;
              DispatchStatus := StatusPending |}] ∧
          is_receipt (St := St)
            {| ExecTimeMs := Ev_BlockTimeSec ev * 1000; EncTxID := Ev_TxNonce ev mod 2 ^ 64;
               EncStatus := 1; APID := sellerAPID p; SeqCount := seqCount p;
               SeedEd25519 := seed p |} raw
      end).
Proof.
  intros Hp (Hn & _ & _ & _ & Ht) Hms Hwf. unfold in_u in Ht.
  destruct (decide (event_key ev ∈ log_keys (contents s))) as [Hin|Hin].
  { exists (Ok tt), p, s, disk. by rewrite Handle_known. }
  destruct (Handle_fresh (St := St) plan ev p s disk Hp Hwf Hin) as (raw & Hb & Hraw & Happ).
  destruct (Append plan _ _) as [a [s' disk']]. destruct Happ as (_ & Hh & Hwf' & _ & Hc).
  assert (event_inputs p ev (seqCount p) =
    {| ExecTimeMs := Ev_BlockTimeSec ev * 1000; EncTxID := Ev_TxNonce ev mod 2 ^ 64;
       EncStatus := 1; APID := sellerAPID p; SeqCount := seqCount p; SeedEd25519 := seed p |}) as Hi.
  { unfold event_inputs, BigInt_Uint64. by rewrite u64_small, Z.abs_eq by lia. }
  assert (TsMs (event_record ev raw) = Ev_BlockTimeSec ev * 1000) as Hts.
  { cbn [event_record TsMs]. rewrite u64_small by lia. unfold i64. rewrite Z.mod_small; lia. }
  eexists _, (drawn p), s', disk'. split; [exact Hh|].
  split; [by apply next_seq_spec|]. split; [done|]. split; [done|]. intros _. split; [done|].
  destruct a as [|e]; [|split; [done|by eexists]]. cbn [is_ok] in Hc.
  exists raw. rewrite <- Hi. split; [|done]. rewrite Hc. do 2 f_equal.
  unfold pending_receipt, set_DispatchStatus. by rewrite Hts.
Qed.

(** A call never panics, whatever the seed, and leaves the log as it was when it
    returns an error. A seed of the wrong size, which [NewProcessor] accepts, makes
    every new event fail while still using up a sequence number. *)
Theorem Handle_errors `{RecordCodec} plan ev p s disk :
  store_wf s →
  ∃ r p' s' disk', Handle plan ev p (s, disk) = Some (r, p', (s', disk')) ∧
    (∀ e, r = Err e → contents s' = contents s) ∧
    (length (seed p) ≠ SeedSize → event_key ev ∉ log_keys (contents s) →
      r = Err (BuildFailed (SeedSizeError (length (seed p)))) ∧ s' = s ∧ disk' = disk ∧
      p' = (next_seq p).2 ∧
      (seed p ≠ [] → NewProcessor (Some s) (sellerAPID p) (seed p) =
         Ok {| sellerAPID := sellerAPID p; seed := seed p; seqCount := 0 |})).
Proof.
  intros Hwf. unfold Handle. cbn [fst]. rewrite already_recorded_spec by done.
  case_bool_decide as Hin; [by exists (Ok tt), p, s, disk|].
  unfold build_and_append. destruct (next_seq p) as [q p'] eqn:Hq.
  assert (seed p' = seed p) as Hseed by (unfold next_seq in Hq; injection Hq as _ <-; done).
  unfold Build. cbn [event_inputs SeedEd25519]. rewrite Hseed.
  destruct (Nat.eqb_spec (length (seed p)) SeedSize) as [Hl|Hl]; cbn [negb].
  - destruct (NewKeyFromSeed_ok _ Hl) as (-> & _ & _ & Hsign). cbn [mbind option_bind].
    rewrite Hsign. cbn [mbind option_bind]. cbv zeta.
    match goal with |- context [event_record ev ?raw] =>
      pose proof (append_log_cases plan ev raw s disk Hwf) as Happ;
      destruct (Append plan (event_record ev raw) (s, disk)) as [a [s' disk']] end.
    destruct Happ as (_ & _ & _ & Hc).
    destruct a as [u|[]]; cbn [mbind option_bind is_ok] in *; eexists _, _, _, _;
      (split; [reflexivity|]); (split; [|done]); congruence.
  - cbn [mbind option_bind]. eexists _, _, _, _. split; [reflexivity|]. split; [done|].
    intros _ _. split_and!; try done. intros Hne. unfold NewProcessor.
    by destruct (seed p).
Qed.

(** Receipts are recorded exactly once, across restarts. However the event
    stream is cut into runs of the gateway, with events replayed in and between
    runs, and writes that are complete or fail before their first byte: every run
    starts, the final file loads, no key is recorded twice, everything recorded was
    in the file before or comes from an event, and every event handled at least
    once with a working disk is recorded. *)
Theorem receipts_exactly_once `{RecordCodecLaws} sd disk runs rs :
  length sd = SeedSize → file_of rs disk →
  Forall (Forall (λ c, clean_io c.1 ∧ representable c.2)) runs →
  ∃ disk' s, receipt_sessions sd disk runs = Some disk' ∧ NewStore true disk' = Ok s ∧
    NoDup (log_keys (contents s)) ∧
    (∀ k, k ∈ log_keys (contents s) →
      k ∈ log_keys (contents (replay rs)) ∨ ∃ c, c ∈ concat runs ∧ k = event_key c.2) ∧
    (∀ k, k ∈ log_keys (contents (replay rs)) → k ∈ log_keys (contents s)) ∧
    (∀ c, c ∈ concat runs → good_io c.1 → event_key c.2 ∈ log_keys (contents s)).
Proof.
  intros Hsd Hfile Hruns.
  destruct (receipt_sessions_spec (St := St) sd disk runs rs Hsd Hfile Hruns)
    as (disk' & rs' & recs & -> & Hf' & Hc & Hrecs & Hgood).
  exists disk', (replay rs'). split; [done|]. split; [by apply NewStore_file|].
  split; [apply log_keys_nodup, replay_wf|]. split_and!; [| |done].
  - intros k. rewrite Hc. unfold log_keys. rewrite fmap_app.
    intros [Hk|(rec & -> & Hr)%list_elem_of_fmap]%elem_of_app; [by left|right].
    destruct (Hrecs rec Hr) as (c & Hin & Hk). eauto.
  - intros k Hk. rewrite Hc. unfold log_keys. rewrite fmap_app. apply elem_of_app. by left.
Qed.
End Claims.

(** ** With the JSON lines *)
Section Json.
Context `{EthCommon}.
#[local] Existing Instance json_codec.

(** What go-ethereum prints for a hash and an address: short ASCII strings. *)
Definition hex_forms_ok (ev : SettlementEvent) : Prop :=
  ascii_string (tx_hash_hex ev) ∧ ascii_string (Address_Hex (Ev_Wallet ev)) ∧
  (String.length (tx_hash_hex ev) ≤ 100)%nat ∧ (String.length (Address_Hex (Ev_Wallet ev)) ≤ 100)%nat.

Lemma json_event_ok ev :
  Event_wf ev → Ev_TxNonce ev < 2 ^ 256 ∧ Ev_Amount ev < 2 ^ 256 → hex_forms_ok ev →
  representable ev.
Proof.
  intros (Hn0 & Ha0 & Hs & Hb & _) [Hn Ha] (Hh & Hw & Hhl & Hwl) raw Hraw.
  assert (2 ^ 256 <= 10 ^ Z.of_nat 80) as Hpow by (vm_compute; discriminate).
  destruct (pretty_Z_ascii (Ev_TxNonce ev) 80 ltac:(lia)) as [Hp Hpl].
  destruct (pretty_Z_ascii (Ev_Amount ev) 80 ltac:(lia)) as [Hq Hql].
  destruct (hex_encode_ascii raw) as [Hx Hxl]. rewrite Hraw in Hxl.
  change (json_ok (event_record ev raw)). unfold json_ok, event_record, payment_id, BigInt_String.
  cbn [PaymentID SettlementTxHash RecSatID RecAmount RecAssetID RecWallet PacketCHex RecBlockNumber
    TsMs DispatchStatus]. rewrite Hxl. cbn [String.length]. unfold PacketCFrameLen.
  rewrite !list.Forall_cons. split_and!; try done; try apply list.Forall_nil; try lia;
    unfold i64, in_s; pose proof (Z.mod_pos_bound (u64 (Ev_BlockTimeSec ev * 1000) + 2 ^ 63) (2 ^ 64));
    lia.
Qed.
End Json.

(** ** Witnesses *)
Definition demo_event (epoch : Z) : SettlementEvent :=
  {| Ev_SatID := 0xCAFEBABE; Ev_Amount := 500; Ev_TxNonce := DeriveTxNonce 0xCAFEBABE epoch;
     Ev_Wallet := replicate 20 x11; Ev_TxHash := replicate 32 xab; Ev_BlockNumber := 3;
     Ev_BlockTimeSec := 1710000006 |}.

Lemma demo_event_wf : Event_wf (demo_event 1710000100000).
Proof. apply (bool_decide_unpack _). vm_compute. exact I. Qed.

Lemma demo_event_wf2 : Event_wf (demo_event 1710000200000).
Proof. apply (bool_decide_unpack _). vm_compute. exact I. Qed.

Definition demo_events : list SettlementEvent :=
  [demo_event 1710000100000; demo_event 1710000200000].

#[local] Existing Instance json_codec.
#[local] Existing Instance json_codec_laws.

Lemma demo_representable ev : ev ∈ demo_events → representable ev.
Proof.
  assert (∀ epoch, epoch ∈ [1710000100000; 1710000200000] → representable (demo_event epoch)) as H.
  { intros epoch He. apply json_event_ok.
    - repeat (apply elem_of_cons in He as [-> | He]; [apply (bool_decide_unpack _); vm_compute; exact I|]).
      by apply list.elem_of_nil in He.
    - repeat (apply elem_of_cons in He as [-> | He]; [apply (bool_decide_unpack _); vm_compute; exact I|]).
      by apply list.elem_of_nil in He.
    - apply (bool_decide_unpack _). vm_compute. exact I. }
  intros Hev. unfold demo_events in Hev.
  repeat (apply elem_of_cons in Hev as [-> | Hev]; [apply H; set_solver|]). by apply list.elem_of_nil in Hev.
Qed.

Definition demo_processor (sd : list byte) : Processor :=
  {| sellerAPID := SellerAPID100; seed := sd; seqCount := 16383 |}.

Lemma demo_processor_wf : Processor_wf (demo_processor demo_seed).
Proof. unfold Processor_wf, in_u, demo_processor, SellerAPID100. cbn. split_and!; (lia || reflexivity). Qed.

Lemma empty_store_wf : store_wf empty_store.
Proof. exact (replay_wf []). Qed.

Lemma event_key_identifies_witness :
  event_key (demo_event 1710000100000) ≠ event_key (demo_event 1710000200000).
Proof.
  intros E. destruct (proj1 (event_key_identifies _ _ demo_event_wf demo_event_wf2) E) as [Hn _].
  vm_compute in Hn. discriminate Hn.
Defined.

Lemma Handle_correct_witness :
  ∃ p' s' disk' raw,
    Handle io_good (demo_event 1710000100000) (demo_processor demo_seed) (empty_store, []) =
      Some (Ok tt, p', (s', disk')) ∧ seqCount p' = 0 ∧
    is_receipt (St := ListStream)
      {| ExecTimeMs := 1710000006000; EncTxID := 1710000100000; EncStatus := 1; APID := 100;
         SeqCount := 16383; SeedEd25519 := demo_seed |} raw.
Proof.
  destruct (Handle_correct (St := ListStream) io_good (demo_event 1710000100000)
    (demo_processor demo_seed) empty_store [] demo_processor_wf demo_event_wf eq_refl empty_store_wf)
    as (r & p' & s' & disk' & Hh & _ & _ & _ & Hnew).
  destruct Hnew as [Hseq Hr]; [apply not_elem_of_nil|].
  destruct r as [[]|e].
  - destruct Hr as (raw & _ & Hraw). exists p', s', disk', raw. split; [exact Hh|].
    split; [exact Hseq|]. exact Hraw.
  - exfalso. assert (match Handle io_good (demo_event 1710000100000) (demo_processor demo_seed)
      (empty_store, []) with Some (Ok _, _, _) => True | _ => False end) as Hok
      by (vm_compute; exact I).
    rewrite Hh in Hok. exact Hok.
Defined.

Lemma Handle_errors_witness :
  ∃ p' s' disk',
    Handle io_good (demo_event 1710000100000) (demo_processor [x00]) (empty_store, []) =
      Some (Err (BuildFailed (SeedSizeError 1)), p', (s', disk')).
Proof.
  destruct (Handle_errors io_good (demo_event 1710000100000) (demo_processor [x00]) empty_store []
    empty_store_wf) as (r & p' & s' & disk' & Hh & _ & Hseed).
  destruct Hseed as (Hr & _); [discriminate|apply not_elem_of_nil|].
  exists p', s', disk'. rewrite Hh, Hr. reflexivity.
Defined.

(** Two runs: the first records one event, the second sees it again and another. *)
Definition demo_runs : list (list (io * SettlementEvent)) :=
  [[(io_good, demo_event 1710000100000)];
   [(io_good, demo_event 1710000100000); (io_good, demo_event 1710000200000)]].

Lemma demo_runs_ok : Forall (Forall (λ c, clean_io c.1 ∧ representable c.2)) demo_runs.
Proof.
  assert (clean_io io_good) as Hio by (right; split; reflexivity).
  assert (representable (demo_event 1710000100000)) as H1 by (apply demo_representable; left).
  assert (representable (demo_event 1710000200000)) as H2 by (apply demo_representable; right; left).
  by unfold demo_runs; rewrite !list.Forall_cons, !list.Forall_nil.
Qed.

Lemma receipts_exactly_once_witness :
  ∃ disk s, receipt_sessions demo_seed [] demo_runs = Some disk ∧ NewStore true disk = Ok s ∧
    NoDup (log_keys (contents s)) ∧ event_key (demo_event 1710000200000) ∈ log_keys (contents s).
Proof.
  destruct (receipts_exactly_once (St := ListStream) demo_seed [] demo_runs [] eq_refl file_of_nil
    demo_runs_ok) as (disk & s & Hrun & Hnew & Hnd & _ & _ & Hgood).
  exists disk, s. split; [exact Hrun|]. split; [exact Hnew|]. split; [exact Hnd|].
  apply (Hgood (io_good, demo_event 1710000200000)).
  - right. right. left.
  - split; reflexivity.
Defined.

(** Two calls for the same event, step by step in turn: both pass the check, both
    draw a number, one appends; its receipt is acknowledged before the other tries. *)
Definition demo_calls : list (io * SettlementEvent) :=
  [(io_good, demo_event 1710000100000); (io_good, demo_event 1710000100000)].

Definition demo_schedule : list move :=
  [Call 0; Call 1; Call 0; Call 1; Call 1;
   Ack io_good (payment_id (demo_event 1710000100000)) (tx_hash_hex (demo_event 1710000100000));
   Call 0].

Definition demo_race : option conf :=
  run_schedule demo_calls demo_schedule
    (start_conf demo_calls (demo_processor demo_seed) (empty_store, [])).

Lemma Handle_interleaved_witness :
  ∃ c, demo_race = Some c ∧
    NoDup (log_keys (log_of c)) ∧ (DispatchStatus <$> log_of c) = [StatusDispatched] ∧
    event_key (demo_event 1710000100000) ∈ log_keys (log_of c).
Proof.
  destruct demo_race as [c|] eqn:E.
  2:{ exfalso. vm_compute in E. discriminate E. }
  assert (Hsteps := run_schedule_steps _ _ _ _ E).
  destruct (Handle_interleaved (St := ListStream) demo_calls (demo_processor demo_seed) empty_store []
    c demo_processor_wf empty_store_wf ltac:(vm_compute; discriminate) Hsteps)
    as (Hnd & _ & _ & _ & Hok).
  exists c. split; [reflexivity|]. split; [exact Hnd|].
  assert ((λ c, (DispatchStatus <$> log_of c, match pcs c with
     | [_; Finished (Ok _)] => true | _ => false end)) <$> demo_race =
     Some ([StatusDispatched], true)) as Hc
    by (vm_compute; reflexivity).
  rewrite E in Hc. injection Hc as Hst Hpc. split; [exact Hst|].
  destruct (pcs c) as [|pc0 [|[| | |[[]|]] []]] eqn:Epcs; try discriminate Hpc.
  refine (proj1 (Hok 1%nat io_good (demo_event 1710000100000) _ eq_refl _) eq_refl).
  reflexivity.
Defined.
