(* ===== verification/Egress.v ===== *)
(** * The egress handlers

    Models [gateway/internal/api/handlers/egress.go]: the endpoint that serves
    pending receipts and the one that acknowledges their transmission.

    The package variable [EgressStore] is [eg_store] ([None] is nil), together with
    the file behind it. What [ShouldBindJSON] makes of the request body is an
    argument. *)
From S2P Require Export Gin Store.
#[local] Open Scope Z_scope.

Definition EgressPageSize : Z := 10.

(** The bodies the handlers answer with; an internal error is rendered from the
    error of the store. *)
Inductive egress_body :=
  | B_object (h : gin_H)
  | B_records (rs : list Receipt)
  | B_store_error (e : store_error).

Record ackRequest := { Ack_PaymentID : string; Ack_SettlementTxHash : string }.

Section Handlers.
Context `{RecordCodec} {C : Type} `{GinContext C egress_body}.

Record egress_state := { eg_ctx : C; eg_store : option (Store * list byte) }.

Definition eg_abort (code : Z) (body : egress_body) (s : egress_state) : egress_state :=
  {| eg_ctx := AbortWithStatusJSON code body (eg_ctx s); eg_store := eg_store s |}.
Definition eg_json (code : Z) (body : egress_body) (s : egress_state) : egress_state :=
  {| eg_ctx := JSON code body (eg_ctx s); eg_store := eg_store s |}.

Definition HandleEgressPending (s : egress_state) : egress_state :=
  match eg_store s with
  | None => eg_abort StatusServiceUnavailable (B_object (error_H "egress pipeline not configured")) s
  | Some (store, disk) =>
      let records := PendingRecords EgressPageSize store in
      eg_json StatusOK (B_records records) s
  end.

Definition HandleEgressAck (plan : io) (bound : option ackRequest) (s : egress_state) : egress_state :=
  match eg_store s with
  | None => eg_abort StatusServiceUnavailable (B_object (error_H "egress pipeline not configured")) s
  | Some st =>
      match bound with
      | None => eg_abort StatusBadRequest (B_object (error_H "invalid JSON")) s
      | Some req =>
          if String.eqb (Ack_PaymentID req) "" || String.eqb (Ack_SettlementTxHash req) "" then
            eg_abort StatusBadRequest
              (B_object (error_H "payment_id and settlement_tx_hash are required")) s
          else
            let '(r, st) := MarkDispatched plan (Ack_PaymentID req) (Ack_SettlementTxHash req) st in
            let s := {| eg_ctx := eg_ctx s; eg_store := Some st |} in
            match r with
            | Err ErrUnknown =>
                eg_abort StatusNotFound
                  (B_object (error_H "unknown payment_id + settlement_tx_hash")) s
            | Err e => eg_abort StatusInternalServerError (B_store_error e) s
            | Ok _ => eg_json StatusOK (B_object [("status"%string, V_string "dispatched")]) s
            end
      end
  end.
End Handlers.
Arguments egress_state C : clear implicits.
Arguments eg_ctx {C}. Arguments eg_store {C}. Arguments Build_egress_state {C}.

(** ** Pending receipts in the log *)
Section Log.
Context `{RecordCodec}.

Lemma log_pending_dispatch k log :
  log_pending (log_dispatch k log) = filter (λ x, key_of x ≠ k) (log_pending log).
Proof.
  unfold log_pending, log_dispatch. induction log as [|x log IH]; [done|].
  cbn [fmap list_fmap]. rewrite !list.filter_cons.
  destruct (decide (key_of x = k)) as [Hk|Hk].
  - rewrite decide_False by done. rewrite IH. destruct (decide (DispatchStatus x = StatusPending)).
    + by rewrite list.filter_cons, decide_False by tauto.
    + done.
  - rewrite IH. destruct (decide (DispatchStatus x = StatusPending)); [|done].
    by rewrite list.filter_cons, decide_True.
Qed.

Lemma log_pending_dispatch_head log r rest :
  NoDup (log_keys log) → log_pending log = r :: rest →
  log_pending (log_dispatch (key_of r) log) = rest.
Proof.
  intros Hnd Hp. rewrite log_pending_dispatch, Hp, list.filter_cons, decide_False by tauto.
  assert (NoDup (key_of <$> log_pending log)) as Hnd'.
  { eapply sublist_NoDup; [exact Hnd|]. apply fmap_sublist, sublist_filter. }
  rewrite Hp in Hnd'. cbn in Hnd'. apply list.NoDup_cons in Hnd' as [Hr _].
  apply filter_all. apply list.Forall_forall. intros x Hx E. apply Hr. rewrite <- E.
  by apply list_elem_of_fmap_2.
Qed.

Lemma log_pending_elem log x :
  x ∈ log_pending log ↔ DispatchStatus x = StatusPending ∧ x ∈ log.
Proof. unfold log_pending. by rewrite list_elem_of_filter. Qed.
End Log.

(** ** The drain loop

    A client that polls, transmits the page it gets, and acknowledges each receipt of
    it; every request has a fresh context. *)
Section Drain.
Context `{RecordCodecLaws} {C : Type} `{GinContextLaws C egress_body}.
Variable fresh : C.

Definition ack_of (r : Receipt) : ackRequest :=
  {| Ack_PaymentID := PaymentID r; Ack_SettlementTxHash := SettlementTxHash r |}.

Definition ack (plan : io) (r : Receipt) (store : option (Store * list byte))
    : option (Store * list byte) :=
  eg_store (HandleEgressAck plan (Some (ack_of r)) {| eg_ctx := fresh; eg_store := store |}).

Definition served (s : egress_state C) : list Receipt :=
  match eg_store s with
  | Some (store, _) => PendingRecords EgressPageSize store
  | None => []
  end.

Definition drain_round (plan : io) (store : option (Store * list byte))
    : list Receipt * option (Store * list byte) :=
  let page := served (HandleEgressPending {| eg_ctx := fresh; eg_store := store |}) in
  (page, foldl (λ st r, ack plan r st) store page).

Fixpoint drain (plan : io) (n : nat) (store : option (Store * list byte))
    : list Receipt * option (Store * list byte) :=
  match n with
  | O => ([], store)
  | S n =>
      let '(page, store) := drain_round plan store in
      let '(pages, store) := drain plan n store in
      (page ++ pages, store)
  end.

(** The receipt can be acknowledged: neither part of its key is empty. *)
Definition ackable (r : Receipt) : Prop := PaymentID r ≠ ""%string ∧ SettlementTxHash r ≠ ""%string.

Lemma ack_marks plan r s disk :
  ackable r →
  ack plan r (Some (s, disk)) = Some (MarkDispatched plan (PaymentID r) (SettlementTxHash r) (s, disk)).2.
Proof.
  intros [Hp Ht]. unfold ack, HandleEgressAck. cbn [eg_store eg_ctx ack_of Ack_PaymentID Ack_SettlementTxHash].
  destruct (String.eqb_spec (PaymentID r) ""); [done|].
  destruct (String.eqb_spec (SettlementTxHash r) ""); [done|]. cbn [orb].
  by destruct (MarkDispatched plan _ _ (s, disk)) as [[[]|[]] st].
Qed.

(** A synced open store whose receipts can be acknowledged. *)
Record drainable (s : Store) (disk : list byte) : Prop := {
  dr_synced : synced s disk;
  dr_open : file s = true;
  dr_ackable : Forall ackable (contents s);
}.

Lemma ack_head plan s disk r rest :
  drainable s disk → good_io plan → log_pending (contents s) = r :: rest →
  ∃ s' disk', ack plan r (Some (s, disk)) = Some (s', disk') ∧ drainable s' disk' ∧
    log_pending (contents s') = rest.
Proof.
  intros [Hs Hf Hall] Hplan Hp. pose proof (synced_wf s disk Hs) as Hwf.
  assert (r ∈ contents s) as Hr.
  { apply (proj2 (proj1 (log_pending_elem _ _) ltac:(rewrite Hp; by left))). }
  assert (is_Some (records s !! key_of r)) as Hk.
  { apply log_keys_elem; [done|]. by apply list_elem_of_fmap_2. }
  rewrite ack_marks by (rewrite list.Forall_forall in Hall; by apply Hall).
  pose proof (MarkDispatched_good plan (PaymentID r) (SettlementTxHash r) s disk Hs Hf Hplan Hk) as Hok.
  pose proof (MarkDispatched_synced plan (PaymentID r) (SettlementTxHash r) s disk Hs (or_intror Hplan)) as Hs'.
  pose proof (MarkDispatched_log plan (PaymentID r) (SettlementTxHash r) s disk Hwf) as Hlog.
  destruct (MarkDispatched plan _ _ (s, disk)) as [a [s' disk']]. cbn [fst snd] in *. subst a.
  destruct Hlog as (_ & Hf' & _ & Hc). cbn [is_ok] in Hc. fold (key_of r) in Hc.
  exists s', disk'. split; [done|]. split.
  - split; [done|congruence|]. rewrite Hc. unfold log_dispatch. apply Forall_fmap.
    eapply list.Forall_impl; [exact Hall|]. intros x Hx. cbn. by destruct (decide _).
  - rewrite Hc. apply log_pending_dispatch_head; [by apply log_keys_nodup|done].
Qed.

Lemma ack_page plan s disk page rest :
  drainable s disk → good_io plan → log_pending (contents s) = page ++ rest →
  ∃ s' disk', foldl (λ st r, ack plan r st) (Some (s, disk)) page = Some (s', disk') ∧
    drainable s' disk' ∧ log_pending (contents s') = rest.
Proof.
  intros Hd Hplan. revert s disk Hd. induction page as [|r page IH]; intros s disk Hd Hp; cbn [foldl].
  { by exists s, disk. }
  destruct (ack_head plan s disk r (page ++ rest) Hd Hplan Hp) as (s1 & disk1 & -> & Hd1 & Hp1).
  by apply IH.
Qed.

Lemma drain_spec plan n s disk :
  drainable s disk → good_io plan →
  ∃ s' disk', drain plan n (Some (s, disk)) =
      (take (10 * n) (log_pending (contents s)), Some (s', disk')) ∧
    drainable s' disk' ∧ log_pending (contents s') = drop (10 * n) (log_pending (contents s)).
Proof.
  intros Hd Hplan. revert s disk Hd. induction n as [|n IH]; intros s disk Hd.
  { exists s, disk. by rewrite Nat.mul_0_r, take_0, drop_0. }
  cbn [drain]. unfold drain_round, served. cbn [HandleEgressPending eg_store eg_json].
  rewrite PendingRecords_spec. change (Z.to_nat EgressPageSize) with 10%nat.
  destruct (ack_page plan s disk (take 10 (log_pending (contents s)))
    (drop 10 (log_pending (contents s))) Hd Hplan) as (s1 & disk1 & Hack & Hd1 & Hp1).
  { by rewrite take_drop. }
  rewrite Hack. destruct (IH s1 disk1 Hd1) as (s' & disk' & -> & Hd' & Hp').
  exists s', disk'. rewrite Hp1 in Hp' |- *. rewrite drop_drop in Hp'.
  replace (10 * S n)%nat with (10 + 10 * n)%nat by lia. split; [|by split].
  by rewrite <- (take_take_drop (log_pending (contents s)) 10).
Qed.
End Drain.

(** ** Properties *)
Section Properties.
Context `{RecordCodec} {C : Type} `{GinContextLaws C egress_body}.

(** A poll never changes the store and answers once: 503 without a store, else 200
    with the ten oldest receipts of the log that are still pending, or all of them if
    there are fewer. *)
Theorem HandleEgressPending_correct (s : egress_state C) :
  let s' := HandleEgressPending s in
  eg_store s' = eg_store s ∧
  match eg_store s with
  | None => responses (eg_ctx s') = responses (eg_ctx s) ++
      [(503, B_object (error_H "egress pipeline not configured"))]
  | Some (store, _) =>
      responses (eg_ctx s') = responses (eg_ctx s) ++
        [(200, B_records (take 10 (log_pending (contents store))))]
  end.
Proof.
  unfold HandleEgressPending.
  destruct (eg_store s) as [[store disk]|] eqn:Hst; cbn [eg_abort eg_json eg_ctx eg_store].
  - by rewrite JSON_responses, PendingRecords_spec.
  - by rewrite Abort_responses.
Qed.

(** An acknowledgement answers once, on every branch as specified, and touches the
    log only on success: 503 without a store, 400 for a body that does not bind or
    lacks a field, 404 for an unknown receipt, 500 with the error of a failed write,
    and 200 when the receipt is dispatched, also if it was before. *)
Theorem HandleEgressAck_correct plan bound (s : egress_state C) :
  (∀ st, eg_store s = Some st → store_wf st.1) →
  let s' := HandleEgressAck plan bound s in
  ∃ code body, responses (eg_ctx s') = responses (eg_ctx s) ++ [(code, body)] ∧
    match eg_store s, bound with
    | None, _ => code = 503 ∧ eg_store s' = None
    | Some st, None => code = 400 ∧ eg_store s' = Some st
    | Some (store, disk), Some req =>
        let key := dedupKey (Ack_PaymentID req) (Ack_SettlementTxHash req) in
        if String.eqb (Ack_PaymentID req) "" || String.eqb (Ack_SettlementTxHash req) ""
        then code = 400 ∧ eg_store s' = Some (store, disk)
        else ∃ store' disk', eg_store s' = Some (store', disk') ∧ store_wf store' ∧
          ((code = 404 ∧ (key ∉ log_keys (contents store)) ∧ contents store' = contents store) ∨
           (code = 500 ∧ (∃ e, body = B_store_error e) ∧ contents store' = contents store) ∨
           (code = 200 ∧ (key ∈ log_keys (contents store)) ∧
            contents store' = log_dispatch key (contents store)))
    end.
Proof.
  intros Hwf. unfold HandleEgressAck. cbn zeta.
  destruct (eg_store s) as [[store disk]|] eqn:Hst.
  2:{ eexists _, _. cbn [eg_abort eg_ctx eg_store]. rewrite Abort_responses. split; [reflexivity|by split]. }
  destruct bound as [req|].
  2:{ eexists _, _. cbn [eg_abort eg_ctx eg_store]. rewrite Abort_responses. split; [reflexivity|by split]. }
  destruct (_ || _).
  { eexists _, _. cbn [eg_abort eg_ctx eg_store]. rewrite Abort_responses. split; [reflexivity|by split]. }
  pose proof (MarkDispatched_log plan (Ack_PaymentID req) (Ack_SettlementTxHash req) store disk
    (Hwf _ eq_refl)) as Hlog.
  destruct (MarkDispatched plan _ _ (store, disk)) as [r [store' disk']].
  destruct Hlog as (Hwf' & _ & Hunk & Hc).
  destruct r as [[]|e]; cbn [is_ok] in Hc.
  - eexists _, _. cbn [eg_json eg_ctx eg_store]. rewrite JSON_responses. split; [done|].
    exists store', disk'. split_and!; [done|done|]. right; right. split_and!; [done| |done].
    apply dec_stable. intros Hn. by apply Hunk in Hn.
  - assert (e = ErrUnknown ∨ e ≠ ErrUnknown) as [-> |Hne] by (destruct e; auto).
    + eexists _, _. cbn [eg_abort eg_ctx eg_store]. rewrite Abort_responses. split; [done|].
      exists store', disk'. split_and!; [done|done|]. left. split_and!; [done| |done]. by apply Hunk.
    + exists 500, (B_store_error e). split.
      * destruct e; cbn [eg_abort eg_ctx eg_store]; rewrite Abort_responses; done.
      * exists store', disk'. split_and!; [by destruct e|done|]. right; left. eauto.
Qed.
End Properties.

Section Liveness.
Context `{RecordCodecLaws} {C : Type} `{GinContextLaws C egress_body}.

(** Draining works. A client that polls and acknowledges every receipt it gets is
    served, on a working disk, the pending receipts oldest first, ten per round and
    each exactly once; after enough rounds none is pending, and the file says so
    after a restart. *)
Theorem egress_drains (fresh : C) plan n s disk :
  synced s disk → file s = true → Forall ackable (contents s) → good_io plan →
  ∃ s' disk', drain fresh plan n (Some (s, disk)) =
      (take (10 * n) (log_pending (contents s)), Some (s', disk')) ∧
    log_pending (contents s') = drop (10 * n) (log_pending (contents s)) ∧
    ((length (log_pending (contents s)) ≤ 10 * n)%nat →
      log_pending (contents s') = [] ∧
      ∃ s'', NewStore true disk' = Ok s'' ∧ log_pending (contents s'') = []).
Proof.
  intros Hs Hf Hall Hplan.
  destruct (drain_spec fresh plan n s disk ltac:(by split) Hplan) as (s' & disk' & Hd & [Hs' _ _] & Hp).
  exists s', disk'. split; [done|]. split; [done|]. intros Hn.
  rewrite drop_ge in Hp by done. split; [done|].
  destruct Hs' as (rs & Hfile & Hr & Ho). exists (replay rs). split; [by apply NewStore_file|].
  rewrite <- Hp. unfold contents. by rewrite Hr, Ho.
Qed.

(** What may happen to a store between two polls, other than an acknowledgement of the
    receipt with key [k]. *)
Definition leaves (k : string) (c : store_cmd) : Prop :=
  match c with
  | C_MarkDispatched _ pid tx => dedupKey pid tx ≠ k
  | _ => True
  end.

Lemma run_cmd_pending c s disk r :
  store_wf s → leaves (key_of r) c → r ∈ log_pending (contents s) →
  store_wf (run_cmd c (s, disk)).1 ∧ r ∈ log_pending (contents (run_cmd c (s, disk)).1).
Proof.
  intros Hwf Hc Hr. destruct c as [plan rec|plan pid tx|ok]; cbn [run_cmd].
  - pose proof (Append_log plan rec s disk Hwf) as Hlog.
    destruct (Append plan rec (s, disk)) as [a [s' disk']]. cbn [fst snd] in *.
    destruct Hlog as (? & _ & _ & _ & Hl). split; [done|]. rewrite Hl. destruct (is_ok a); [|done].
    unfold log_append, log_pending. rewrite list.filter_app. apply elem_of_app. by left.
  - pose proof (MarkDispatched_log plan pid tx s disk Hwf) as Hlog.
    destruct (MarkDispatched plan pid tx (s, disk)) as [a [s' disk']]. cbn [fst snd] in *.
    destruct Hlog as (? & _ & _ & Hl). split; [done|]. rewrite Hl. destruct (is_ok a); [|done].
    rewrite log_pending_dispatch. apply list_elem_of_filter. split; [|done]. intros E. by apply Hc.
  - cbn. unfold Close. destruct (file s); cbn [negb snd]; [|done].
    split; [|exact Hr]. by destruct Hwf.
Qed.

Lemma run_cmds_pending cmds s disk r :
  store_wf s → Forall (leaves (key_of r)) cmds → r ∈ log_pending (contents s) →
  r ∈ log_pending (contents (foldl (λ st c, run_cmd c st) (s, disk) cmds).1).
Proof.
  intros Hwf Hl. revert s disk Hwf. induction Hl as [|c cmds Hc _ IH]; intros s disk Hwf Hr; cbn [foldl]; [done|].
  destruct (run_cmd_pending c s disk r Hwf Hc Hr) as [Hwf' Hr'].
  destruct (run_cmd c (s, disk)) as [s1 disk1]. by apply IH.
Qed.

Lemma run_cmds_synced cmds s disk :
  synced s disk → Forall cmd_ok cmds →
  let st := foldl (λ st c, run_cmd c st) (s, disk) cmds in synced st.1 st.2.
Proof.
  intros Hs Hok. revert s disk Hs. induction Hok as [|c cmds Hc _ IH]; intros s disk Hs; cbn [foldl]; [done|].
  pose proof (run_cmd_synced c s disk Hs Hc) as Hs'. destruct (run_cmd c (s, disk)) as [s1 disk1]. by apply IH.
Qed.

(** A process that is restarted: the commands of each of its lives, after which the file
    is opened again; or nothing, if it does not open. *)
Fixpoint lives (runs : list (list store_cmd)) (st : Store * list byte) : option (Store * list byte) :=
  match runs with
  | [] => Some st
  | cmds :: runs =>
      let '(_, disk) := foldl (λ st c, run_cmd c st) st cmds in
      match NewStore true disk with
      | Ok s => lives runs (s, disk)
      | Err _ => None
      end
  end.

(** A command of a life that ends with a restart. *)
Definition leaves_clean (k : string) (c : store_cmd) : Prop := leaves k c ∧ cmd_ok c.

Lemma lives_pending runs s disk r :
  synced s disk → Forall (Forall (leaves_clean (key_of r))) runs → r ∈ log_pending (contents s) →
  ∃ s' disk', lives runs (s, disk) = Some (s', disk') ∧ synced s' disk' ∧ r ∈ log_pending (contents s').
Proof.
  intros Hs Hruns. revert s disk Hs. induction Hruns as [|cmds runs Hcmds _ IH]; intros s disk Hs Hr; cbn [lives].
  - by exists s, disk.
  - apply list.Forall_and in Hcmds as [Hl Hok].
    pose proof (run_cmds_synced cmds s disk Hs Hok) as Hs'.
    pose proof (run_cmds_pending cmds s disk r (synced_wf s disk Hs) Hl Hr) as Hr'.
    destruct (foldl _ (s, disk) cmds) as [s1 disk1]. cbn [fst snd] in *.
    destruct Hs' as (rs & Hfile & Hrec & Ho). rewrite (NewStore_file rs disk1 Hfile).
    apply IH; [by exists rs|]. unfold contents in *. by rewrite <- Hrec, <- Ho.
Qed.

(** The receipt is pending, and if it is one of the ten oldest that are, on the page a
    poll returns. *)
Definition offered (r : Receipt) (s : Store) : Prop :=
  r ∈ log_pending (contents s) ∧
  ∀ i, log_pending (contents s) !! i = Some r → (i < 10)%nat → r ∈ PendingRecords EgressPageSize s.

(** C33. Delivery is at least once. A receipt that is pending is still pending after any
    appends, closes and acknowledgements of other receipts, and on the page of every
    poll once fewer than ten older ones are. While the gateway runs this holds
    whatever becomes of its writes (short, unsynced or failed). It holds through any
    number of restarts, and the store opens at each, if before the last of them each
    write was complete and synced or failed before its first byte, and the records
    appended were such as JSON reads back; other writes can make the file unreadable
    ([Store_torn_write]) or make it differ from what the store holds
    ([Store_sync_failure]). *)
Theorem egress_at_least_once s disk runs cmds r :
  synced s disk → r ∈ log_pending (contents s) →
  Forall (Forall (leaves_clean (key_of r))) runs → Forall (leaves (key_of r)) cmds →
  ∃ s' disk', lives runs (s, disk) = Some (s', disk') ∧
    offered r (foldl (λ st c, run_cmd c st) (s', disk') cmds).1.
Proof.
  intros Hs Hr Hruns Hcmds. destruct (lives_pending runs s disk r Hs Hruns Hr) as (s' & disk' & Hl & Hs' & Hr').
  exists s', disk'. split; [done|]. split.
  - apply run_cmds_pending; [by eapply synced_wf|done..].
  - intros i Hi Hlt. rewrite PendingRecords_spec. change (Z.to_nat EgressPageSize) with 10%nat.
    apply (list_elem_of_lookup_2 _ i). by rewrite lookup_take_lt.
Qed.
End Liveness.

(** ** Witnesses *)
#[local] Existing Instance json_codec.
#[local] Existing Instance json_codec_laws.

(** A store with two pending receipts, and its file. *)
Definition two_pending : Store * list byte :=
  foldl (λ st c, run_cmd c st) (empty_store, [])
    [C_Append io_good (demo_receipt "1" ""); C_Append io_good (demo_receipt "2" StatusPending)].

Definition demo_log : list Receipt := [demo_receipt "1" StatusPending; demo_receipt "2" StatusPending].

Lemma demo_receipt_representable id :
  id ∈ ["1"; "2"]%string → codec_ok (demo_receipt id StatusPending).
Proof.
  intros Hid. change (json_ok (demo_receipt id StatusPending)).
  repeat (apply elem_of_cons in Hid as [-> | Hid]; [apply (bool_decide_unpack _); vm_compute; exact I|]).
  by apply list.elem_of_nil in Hid.
Qed.

Lemma two_pending_replay :
  two_pending.1 = replay demo_log ∧ file_of demo_log two_pending.2.
Proof.
  split; [vm_compute; reflexivity|]. split.
  - constructor; [|constructor; [|constructor]]; apply demo_receipt_representable; set_solver.
  - exists (MarshalRecord <$> demo_log). split; [|vm_compute; reflexivity].
    constructor; [reflexivity|]. constructor; [reflexivity|constructor].
Qed.

Lemma two_pending_synced : synced two_pending.1 two_pending.2.
Proof. destruct two_pending_replay as [-> Hf]. by exists demo_log. Qed.

Definition egress (st : option (Store * list byte)) : egress_state (TraceContext egress_body) :=
  {| eg_ctx := new_context; eg_store := st |}.

Lemma HandleEgressAck_correct_witness :
  ∃ body s', HandleEgressAck io_good (Some (ack_of (demo_receipt "3" ""))) (egress (Some two_pending)) = s' ∧
    tc_responses (eg_ctx s') = [(404, body)].
Proof.
  destruct (HandleEgressAck_correct io_good (Some (ack_of (demo_receipt "3" "")))
    (egress (Some two_pending))) as (code & body & Hr & _).
  { intros st [= <-]. exact (synced_wf _ _ two_pending_synced). }
  exists body, (HandleEgressAck io_good (Some (ack_of (demo_receipt "3" ""))) (egress (Some two_pending))).
  split; [reflexivity|].
  assert (map fst (responses (eg_ctx (HandleEgressAck io_good (Some (ack_of (demo_receipt "3" "")))
    (egress (Some two_pending))))) = [404]) as E by (vm_compute; reflexivity).
  rewrite Hr in E. injection E as E. rewrite E in Hr. exact Hr.
Defined.

Lemma egress_drains_witness :
  ∃ s' disk', drain (new_context : TraceContext egress_body) io_good 1 (Some two_pending) =
      (demo_log, Some (s', disk')) ∧ log_pending (contents s') = [].
Proof.
  destruct (egress_drains (new_context : TraceContext egress_body) io_good 1 two_pending.1 two_pending.2
    two_pending_synced) as (s' & disk' & Hd & Hp & _).
  - reflexivity.
  - vm_compute. repeat constructor; discriminate.
  - split; reflexivity.
  - exists s', disk'. split; [exact Hd|]. rewrite Hp. vm_compute. reflexivity.
Defined.

(** After an acknowledgement of the first receipt, a restart and a torn write. *)
Lemma egress_at_least_once_witness :
  ∃ st, lives [[C_MarkDispatched io_good "1" "0xaa"]] two_pending = Some st ∧
    demo_receipt "2" StatusPending ∈ PendingRecords EgressPageSize
      (run_cmd (C_Append {| io_write := Some 5%nat; io_sync := true |} (demo_receipt "3" "")) st).1.
Proof.
  destruct (egress_at_least_once two_pending.1 two_pending.2 [[C_MarkDispatched io_good "1" "0xaa"]]
    [C_Append {| io_write := Some 5%nat; io_sync := true |} (demo_receipt "3" "")]
    (demo_receipt "2" StatusPending) two_pending_synced) as (s & disk & Hl & _ & Hp).
  - vm_compute. right. left.
  - constructor; [constructor; [split; [discriminate|right; split; reflexivity]|constructor]|constructor].
  - constructor; [exact I|constructor].
  - exists (s, disk). split; [exact Hl|].
    assert (lives [[C_MarkDispatched io_good "1" "0xaa"]] two_pending = Some (s, disk)) as E by exact Hl.
    vm_compute in E. injection E as <- <-. apply (Hp 0%nat); [vm_compute; reflexivity|lia].
Defined.
