(* ===== verification/Pipeline.v ===== *)
(** * From payment to receipt

    Composes the components the way [gateway/cmd/server/main.go] wires them: a
    payment frame becomes an intent ([Ingest]), the intent a settlement and a log
    ([Escrow]), the log an event ([Watcher]), the event a receipt ([Processor],
    [Store]). *)
From S2P Require Export Ingest Escrow Processor.
#[local] Open Scope Z_scope.

(** The log of an emitted [SettlementCreated] event: the signature hash and the
    indexed arguments as topics, each a 32-byte word, and the amount as data. *)
Definition event_log `{EthCommon} (event_id tx : Hash) (block index : Z) (ev : SettlementCreated)
    : Log :=
  {| Topics := [event_id; BytesToHash (put_be 32 (SC_satId ev));
                BytesToHash (put_be 32 (SC_txNonce ev));
                BytesToHash (replicate 12 x00 ++ Address_Bytes (SC_wallet ev))];
     Data := put_be 32 (SC_amount ev);
     Log_BlockNumber := block;
     Log_TxHash := tx;
     Log_Index := index |}.

(** ** A payment, step by step *)
Section Payment.
Context {St : Type} `{KaitaiStreamLaws St} `{Ed25519Laws} `{EthCommonLaws}.
Context {C E : Type} `{GinContextLaws C gin_H} `{!Enqueuer E}.

Lemma decode_event_log event_id tx block index ev :
  in_u 32 (SC_satId ev) → in_u 256 (SC_txNonce ev) → in_u 256 (SC_amount ev) →
  length (Address_Bytes (SC_wallet ev)) = 20%nat →
  decodeSettlementCreated (event_log event_id tx block index ev) =
    Ok {| Ev_SatID := SC_satId ev; Ev_Amount := SC_amount ev; Ev_TxNonce := SC_txNonce ev;
          Ev_Wallet := SC_wallet ev; Ev_TxHash := tx; Ev_BlockNumber := block;
          Ev_BlockTimeSec := 0 |}.
Proof.
  intros Hs Hn Ha Hw. etransitivity.
  - apply (decode_log_fields (event_log event_id tx block index ev) event_id _ _ _ (SC_satId ev) (SC_txNonce ev) (SC_amount ev)
      (Address_Bytes (SC_wallet ev)) eq_refl); try done; apply Hash_Bytes_of;
      [apply length_put_be..|]. by rewrite length_app, Hw.
  - by rewrite BytesToAddress_word.
Qed.

(** The intent of a payment body, with the wallet the registry has for its sender. *)
Definition intent_of (b : VoidProtocol_PacketBBody) (wallet : string) : SettlementIntent :=
  {| SI_SatId := PacketB_SatId b;
     SI_Amount := le_uint (gslice 48 56 (PacketB_EncPayload b));
     SI_AssetId := le_uint (gslice 56 58 (PacketB_EncPayload b));
     SI_TxNonce := DeriveTxNonce (PacketB_SatId b) (PacketB_EpochTs b);
     SI_Wallet := HexToAddress wallet |}.

Lemma le_uint_slice_bound lo hi w (l : list byte) :
  0 <= lo <= hi → w = 8 * (hi - lo) → in_u w (le_uint (gslice lo hi l)).
Proof.
  intros Hlo ->. pose proof (le_uint_range (gslice lo hi l)) as Hr. unfold in_u in *.
  split; [lia|]. eapply Z.lt_le_trans; [apply Hr|].
  apply Z.pow_le_mono_r; [lia|]. unfold gslice. rewrite length_take. lia.
Qed.

Lemma payment_intent_types db f i :
  frame_wf f → payment_intent db (fr_body f) = Some i →
  intent_wf i ∧ in_u 64 (SI_Amount i) ∧ in_u 96 (SI_TxNonce i) ∧
  SI_TxNonce i / 2 ^ 64 = SI_SatId i ∧
  ∃ rec, GetSat db (SI_SatId i) = Some rec ∧ Wallet rec ≠ ""%string ∧
    SI_Wallet i = HexToAddress (Wallet rec).
Proof.
  intros Hwf. destruct (fr_body f) as [[| | |v| | |]|] eqn:Hb; try done. cbn [payment_intent].
  assert (PacketBBody_wf v) as (_ & Hep & _ & _ & _ & Hsat & _).
  { destruct Hwf as (_ & _ & Hbo). rewrite Hb in Hbo. by destruct Hbo as (_ & ? & _). }
  destruct (GetSat db _) as [rec|] eqn:Hrec; [|done].
  destruct (String.eqb_spec (Wallet rec) ""); [done|]. intros [= <-].
  pose proof (length_HexToAddress (Wallet rec)) as Hlen.
  pose proof (le_uint_slice_bound 48 56 64 (PacketB_EncPayload v) ltac:(lia) ltac:(lia)) as Ham.
  pose proof (le_uint_slice_bound 56 58 16 (PacketB_EncPayload v) ltac:(lia) ltac:(lia)) as Has.
  unfold intent_wf. cbn [SI_SatId SI_Amount SI_AssetId SI_TxNonce SI_Wallet].
  rewrite DeriveTxNonce_sum by done. unfold in_u in *.
  rewrite Z.div_add_l, Z.div_small, Z.add_0_r by lia. split_and!; try done; try lia. by exists rec.
Qed.

(** C16. What is enqueued has the types of the contract. Whatever bytes a request
    carries, the handler leaves the submitter as it was or enqueues one intent whose
    fields are in the range of their ABI types (no conversion of the binding
    truncates one), whose amount fits the frame's 64 bits, whose nonce fits 96 bits
    and names the payer above bit 64, and whose wallet is the payer's. *)
Theorem enqueued_intents_typed db body (s s' : handler_state (C := C) (E := E)) q :
  IsAborted (h_ctx s) = false → h_submitter s = Some q →
  IngestPacket (St := St) db body s = Some (tt, s') →
  h_submitter s' = Some q ∨
  ∃ i, h_submitter s' = Some (Enqueue i q) ∧ intent_wf i ∧ in_u 64 (SI_Amount i) ∧
    in_u 96 (SI_TxNonce i) ∧ SI_TxNonce i / 2 ^ 64 = SI_SatId i ∧
    ∃ rec, GetSat db (SI_SatId i) = Some rec ∧ Wallet rec ≠ ""%string ∧
      SI_Wallet i = HexToAddress (Wallet rec).
Proof.
  intros Ha Hq Hrun.
  destruct (IngestPacket_cases (St := St) db body s Ha) as (s1 & Hrun' & Hcase).
  rewrite Hrun in Hrun'. injection Hrun' as <-.
  apply request_case_inv in Hcase as [->|[->|(f & tl & Hwf & _ & ->)]]; [by left..|].
  destruct (frame_verdict db f _); [|by left]. 
  destruct (payment_intent db (fr_body f)) as [i|] eqn:Hi; [|left; cbn; by rewrite Hq].
  right. exists i. split; [|by eapply payment_intent_types]. cbn. by rewrite Hq.
Qed.

(** C4. A payment leads to its receipt. Take a well-formed payment frame whose
    signature verifies and whose sender has a wallet, paying in the accepted asset a
    fresh nonce. The handler answers 200 and enqueues one intent; the contract
    records it and emits one event; the watcher decodes the log of that event; and
    the processor, when its append succeeds, adds one pending receipt that names the
    payment, its amount and its sender, with a packet that parses, is correctly
    signed, and quotes the time stamp of the payment as transaction id. *)
Theorem payment_to_receipt `{RecordCodec} db f b rec (s : handler_state (C := C) (E := E)) q settled
    event_id tx block index time p plan store disk :
  (* the payment *)
  frame_wf f → fr_body f = Some (Body_B b) → frame_verdict db f (frame_bytes f) = Accept →
  IsAborted (h_ctx s) = false → h_submitter s = Some q →
  GetSat db (PacketB_SatId b) = Some rec → Wallet rec ≠ ""%string →
  (* the chain *)
  let i := intent_of b (Wallet rec) in
  storage_wf settled → SI_AssetId i = 1 → SI_Wallet i ≠ zero_address →
  settled !! SI_TxNonce i = None →
  (* the receipt store *)
  in_u 64 block → 0 <= time → time * 1000 < 2 ^ 63 → Processor_wf p → store_wf store →
  ∃ s' settled' sc ev,
    IngestPacket (St := St) db (Ok (frame_bytes f)) s = Some (tt, s') ∧
    responses (h_ctx s') = responses (h_ctx s) ++ [(200, frame_success f)] ∧
    h_submitter s' = Some (Enqueue i q) ∧
    settleBatch [i] settled = Ok (settled', [sc]) ∧
    decodeSettlementCreated (event_log event_id tx block index sc) = Ok ev ∧
    let ev := set_BlockTimeSec time ev in
    (event_key ev ∉ log_keys (contents store)) →
    ∃ raw r p' store' disk',
      Handle plan ev p (store, disk) = Some (r, p', (store', disk')) ∧
      is_receipt (St := St)
        {| ExecTimeMs := time * 1000; EncTxID := PacketB_EpochTs b; EncStatus := 1;
           APID := sellerAPID p; SeqCount := seqCount p; SeedEd25519 := seed p |} raw ∧
      (r = Ok tt → contents store' = contents store ++
        [{| PaymentID := BigInt_String (PacketB_SatId b * 2 ^ 64 + PacketB_EpochTs b);
            SettlementTxHash := Hash_Hex tx; RecSatID := PacketB_SatId b;
            RecAmount := BigInt_String (le_uint (gslice 48 56 (PacketB_EncPayload b)));
            RecAssetID := 1; RecWallet := Address_Hex (HexToAddress (Wallet rec));
            PacketCHex := hex_encode raw; RecBlockNumber := block; TsMs := time * 1000;
            DispatchStatus := StatusPending |}]).
Proof.
  intros Hwf Hb Hv Ha Hq Hrec Hw i Hst Hasset Hwallet Hfresh Hblk Ht0 Htime Hp Hstore.
  assert (PacketBBody_wf b) as (_ & Hep & _ & Hpl & _ & Hsat & _).
  { destruct Hwf as (_ & _ & Hbo). rewrite Hb in Hbo. by destruct Hbo as (_ & ? & _). }
  pose proof (IngestPacket_frame (St := St) db f [] s Hwf Ha) as Hrun.
  rewrite app_nil_r, Hv in Hrun.
  assert (payment_intent db (fr_body f) = Some i) as Hi.
  { rewrite Hb. unfold payment_intent. rewrite Hrec.
    by destruct (String.eqb_spec (Wallet rec) ""). }
  rewrite Hi in Hrun. cbn [after_verdict] in Hrun.
  set (sc := created_of i).
  assert (in_u 64 (SC_amount sc)) as Hamt by (apply (le_uint_slice_bound 48 56); lia).
  pose proof (DeriveTxNonce_sum (PacketB_SatId b) (PacketB_EpochTs b) Hep) as Hn.
  assert (SC_txNonce sc = PacketB_SatId b * 2 ^ 64 + PacketB_EpochTs b) as Hnonce by done.
  pose proof (decode_event_log event_id tx block index sc) as Hdec.
  pose proof (length_HexToAddress (Wallet rec)) as Hlen.
  eexists _, (record_all [i] settled), sc, _. split; [exact Hrun|].
  split; [cbn [h_ctx]; by rewrite JSON_responses|].
  split; [cbn [h_submitter]; by rewrite Hq|]. split.
  { apply settleBatch_ok; [done|]. rewrite !list.Forall_singleton. cbn [length fmap list_fmap].
    split; [lia|]. split_and!; [by split|apply NoDup_singleton|done|done]. }
  unfold in_u in *. split.
  { apply Hdec; try done; rewrite ?Hnonce; unfold in_u; lia. }
  cbn zeta. intros Hkey.
  destruct (Handle_fresh (St := St) plan _ p store disk Hp Hstore Hkey)
    as (raw & _ & Hraw & Happ).
  destruct (Append plan _ _) as [a [store' disk']]. destruct Happ as (_ & Hh & _ & _ & Hc).
  exists raw. eexists _, (drawn p), store', disk'. split; [exact Hh|].
  unfold event_inputs, set_BlockTimeSec, BigInt_Uint64 in Hraw.
  cbn [Ev_BlockTimeSec Ev_TxNonce] in Hraw. rewrite Hnonce in Hraw.
  assert (u64 (Z.abs (PacketB_SatId b * 2 ^ 64 + PacketB_EpochTs b)) = PacketB_EpochTs b) as Hu.
  { rewrite Z.abs_eq by lia. unfold u64. rewrite Z.add_comm, Z.mod_add by lia. by apply Z.mod_small. }
  rewrite Hu, u64_small in Hraw by lia. split; [exact Hraw|].
  destruct a as [[]|e]; [intros _|done]. rewrite Hc. cbn [is_ok]. do 2 f_equal.
  unfold pending_receipt, event_record, set_DispatchStatus, set_BlockTimeSec, payment_id.
  cbn [Ev_TxNonce Ev_BlockTimeSec Ev_SatID Ev_Amount Ev_Wallet Ev_BlockNumber Ev_TxHash
    PaymentID SettlementTxHash RecSatID RecAmount RecAssetID RecWallet PacketCHex RecBlockNumber TsMs].
  rewrite Hnonce, u64_small by lia. unfold i64. rewrite Z.mod_small by lia.
  f_equal. lia.
Qed.
End Payment.

(** ** Receipts follow the chain

    [startReceiptWatcher] of [cmd/server/main.go]: the store on its file, a processor
    with the configured seed, and a watcher that starts at block 0. The file system
    and the ABI are arguments. *)
Definition demoSellerSeedHex : string :=
  "bc1df4fa6e3d7048992f14e655060cbb2190bded9002524c06e7cbb163df15fb".

Inductive start_error :=
  | MkdirFailed
  | StoreFailed (e : store_error)
  | SeedNotHexadecimal
  | ProcessorFailed (e : new_processor_error)
  | WatcherFailed.

Section Start.
Context `{EthCommon} `{RecordCodec}.

Definition startReceiptWatcher (mkdir_ok can_open : bool) (disk : list byte) (seed_env : string)
    (contract : Address) (event_id : option Hash)
    : result start_error (Store * Processor * Watcher) :=
  if negb mkdir_ok then Err MkdirFailed else
  match NewStore can_open disk with
  | Err e => Err (StoreFailed e)
  | Ok store =>
      let seedHex := if String.eqb seed_env "" then demoSellerSeedHex else seed_env in
      match hex_decode seedHex with
      | None => Err SeedNotHexadecimal
      | Some seed =>
          match NewProcessor (Some store) SellerAPID100 seed with
          | Err e => Err (ProcessorFailed e)
          | Ok proc =>
              match NewWatcher contract 0 DefaultWatchInterval event_id with
              | None => Err WatcherFailed
              | Some watcher => Ok (store, proc, watcher)
              end
          end
      end
  end.
End Start.

Section Follow.
Context {St : Type} `{KaitaiStreamLaws St} `{Ed25519Laws} `{EthCommonLaws}.
Context `{RecordCodecLaws} {K : Type} `{!EventFilterer K} `{!EventFiltererLaws K}.

(** The goroutine: the watcher's loop with the processor as its handler. *)
Definition receipt_loop (plan : io) (ticks : list bool) (w : Watcher) (client : K)
    (x : option (Processor * (Store * list byte))) :=
  Run (λ ev x, handle_logged plan ev x) ticks w client x.

Lemma foldl_handle_stream plan evs x :
  foldl (λ x ev, handle_logged plan ev x) x evs = handle_stream ((plan,.) <$> evs) x.
Proof.
  unfold handle_stream. revert x. induction evs as [|ev evs IH]; intros x; [done|].
  cbn [fmap list_fmap foldl fst snd]. apply IH.
Qed.

Lemma announces_elem logs evs ev :
  announces logs evs → ev ∈ evs → ∃ l, l ∈ logs ∧ decoded_log l = Some ev.
Proof.
  intros Ha [i Hi]%list_elem_of_lookup.
  destruct (Forall2_lookup_r _ _ _ _ _ Ha Hi) as (l & Hl & E). exists l.
  split; [by eapply list_elem_of_lookup_2|done].
Qed.

Lemma announces_elem_l logs evs l :
  announces logs evs → l ∈ logs → ∃ ev, ev ∈ evs ∧ decoded_log l = Some ev.
Proof.
  intros Ha [i Hi]%list_elem_of_lookup.
  destruct (Forall2_lookup_l _ _ _ _ _ Ha Hi) as (ev & Hev & E). exists ev.
  split; [by eapply list_elem_of_lookup_2|done].
Qed.

(** With any codec that represents the events of the chain. *)
Lemma receipts_follow_codec plan ticks sd seed_env rs disk contract event_id client :
  hex_decode (if String.eqb seed_env "" then demoSellerSeedHex else seed_env) = Some sd →
  length sd = SeedSize → file_of rs disk → good_io plan →
  (∀ b l ev, l ∈ block_logs contract event_id b → decoded_log l = Some ev → representable ev) →
  ∃ s p w, startReceiptWatcher true true disk seed_env contract (Some event_id) = Ok (s, p, w) ∧
    let '(err, w', _, x) := receipt_loop plan ticks w client (Some (p, (s, disk))) in
    ∃ p' s' disk' rs', x = Some (p', (s', disk')) ∧ file_of rs' disk' ∧
      contents (replay rs') = contents s' ∧ NoDup (log_keys (contents s')) ∧
      (∀ l, l ∈ logs_between w 0 (nextBlock w' - 1) →
         ∃ ev, decoded_log l = Some ev ∧ event_key ev ∈ log_keys (contents s')) ∧
      (err = None ∨ err = Some ContextDone → ∀ l, l ∈ logs_between w 0 (head_of client) →
         ∃ ev, decoded_log l = Some ev ∧ event_key ev ∈ log_keys (contents s')) ∧
      (∀ k, k ∈ log_keys (contents s') → k ∈ log_keys (contents s) ∨
         ∃ l ev, l ∈ logs_between w 0 (nextBlock w' - 1) ∧ decoded_log l = Some ev ∧ k = event_key ev).
Proof.
  intros Hseed Hsd Hfile Hplan Hrep. unfold startReceiptWatcher. cbn [negb].
  rewrite (NewStore_file rs disk Hfile), Hseed. unfold NewProcessor. rewrite Hsd.
  cbn [Nat.eqb SeedSize]. unfold NewWatcher.
  eexists _, _, _. split; [reflexivity|].
  set (p := {| sellerAPID := _ |}). set (w := {| w_contract := contract |}).
  pose proof (Run_spec (λ ev x, handle_logged plan ev x) ticks w client
    (Some (p, (replay rs, disk))) ltac:(cbn; lia)) as Hrun.
  unfold receipt_loop.
  destruct (Run (λ ev x, handle_logged plan ev x) ticks w client _) as [[[err w'] client'] x].
  destruct Hrun as (evs & Hann & -> & Hle & Hend). change (nextBlock w) with 0 in *.
  rewrite foldl_handle_stream.
  destruct (handle_stream_spec (St := St) ((plan,.) <$> evs) p (replay rs) disk)
    as (p' & s' & disk' & -> & [_ Hs' _] & (recs & Hc & Hrecs) & Hgood).
  { split; [|by exists rs|apply replay_file]. unfold Processor_wf, in_u, p, SellerAPID100.
    cbn [sellerAPID seqCount seed]. split_and!; [lia|lia|lia|lia|done]. }
  { apply Forall_fmap, list.Forall_forall. intros ev Hev. cbn. split; [by right|].
    destruct (announces_elem _ _ _ Hann Hev) as (l & Hl & Hd).
    apply list_elem_of_concat in Hl as (ls & Hl & (b & -> & _)%list_elem_of_fmap).
    by apply (Hrep b l). }
  assert (∀ l, l ∈ logs_between w 0 (nextBlock w' - 1) →
    ∃ ev, decoded_log l = Some ev ∧ event_key ev ∈ log_keys (contents s')) as Hall.
  { intros l Hl. destruct (announces_elem_l _ _ _ Hann Hl) as (ev & Hev & Hd). exists ev.
    split; [done|]. apply (Hgood (plan, ev)); [by apply list_elem_of_fmap_2|done]. }
  pose proof (synced_wf s' disk' Hs') as Hwf'. destruct Hs' as (rs' & Hf' & Hr' & Ho').
  exists p', s', disk', rs'. split_and!; [done|done| |by apply log_keys_nodup|exact Hall| |].
  - unfold contents. by rewrite Hr', Ho'.
  - intros Herr l Hl. apply Hall. apply Hend in Herr.
    destruct (Z.le_gt_cases (nextBlock w') (head_of client)) as [Hh|Hh].
    + rewrite (logs_between_split w 0 (nextBlock w' - 1)) in Hl by lia.
      replace (nextBlock w' - 1 + 1) with (nextBlock w') in Hl by lia.
      by rewrite Herr, app_nil_r in Hl.
    + assert (0 <= head_of client < 2 ^ 64 - 1) as Hr by apply head_range.
      rewrite (logs_between_split w 0 (head_of client)) by lia. apply elem_of_app. by left.
  - intros k. rewrite Hc. unfold log_keys. rewrite fmap_app.
    intros [Hk|(rec & -> & Hrec)%list_elem_of_fmap]%elem_of_app; [by left|right].
    destruct (Hrecs rec Hrec) as ([plan' ev] & (ev' & [= -> ->] & Hev)%list_elem_of_fmap & Hk).
    destruct (announces_elem _ _ _ Hann Hev) as (l & Hl & Hd). by exists l, ev'.
Qed.
End Follow.

(** *** With the JSON lines of the store *)
Section Lines.
Context {St : Type} `{KaitaiStreamLaws St} `{Ed25519Laws} `{EthCommonLaws}.
Context {K : Type} `{!EventFilterer K} `{!EventFiltererLaws K}.
#[local] Existing Instance json_codec.
#[local] Existing Instance json_codec_laws.

(** What a decoded log announces fits the types of the event. *)
Lemma decoded_log_wf l ev :
  decoded_log l = Some ev → in_u 64 (Log_BlockNumber l) → in_u 64 (block_time (Log_BlockNumber l)) →
  Event_wf ev ∧ Ev_TxNonce ev < 2 ^ 256 ∧ Ev_Amount ev < 2 ^ 256.
Proof.
  unfold decoded_log, decodeSettlementCreated.
  destruct (Topics l) as [|t0 [|t1 [|t2 [|t3 []]]]]; try done.
  destruct (Nat.eqb_spec (length (Data l)) 32) as [Hd|]; [|done]. cbn [negb].
  intros [= <-] Hb Ht. unfold Event_wf, set_BlockTimeSec.
  cbn [Ev_TxNonce Ev_Amount Ev_SatID Ev_BlockNumber Ev_BlockTimeSec].
  pose proof (be_uint_range (Hash_Bytes t2)) as Rn. rewrite length_Hash_Bytes in Rn.
  pose proof (be_uint_range (Data l)) as Ra. rewrite Hd in Ra.
  pose proof (be_uint_range (drop (32 - 4) (Hash_Bytes t1))) as Rs.
  rewrite length_drop, length_Hash_Bytes in Rs.
  change (8 * Z.of_nat 32) with 256 in *. change (8 * Z.of_nat (32 - (32 - 4))) with 32 in Rs.
  change (32 - 4)%nat with 28%nat in Rs. unfold in_u in *. split_and!; done || lia.
Qed.

(** C14. The receipt file follows the chain, across restarts. Started on a file it wrote
    before, the gateway reads the chain from block 0; whatever rounds its loop goes
    through and however it ends, on a working disk: it never panics; no receipt is
    recorded twice; every settlement up to the final cursor has its receipt, and if
    the loop did not end with an RPC or decoding error so has every settlement up to
    the head it started at; nothing is recorded that was not there or on the chain;
    and the file it leaves, JSON lines, is one the next start accepts. The blocks and
    times are 64-bit, and go-ethereum prints hashes and addresses in short ASCII. *)
Theorem receipts_follow_chain plan ticks sd seed_env rs disk contract event_id client :
  hex_decode (if String.eqb seed_env "" then demoSellerSeedHex else seed_env) = Some sd →
  length sd = SeedSize → file_of rs disk → good_io plan →
  (∀ b l, l ∈ block_logs contract event_id b → in_u 64 b ∧ in_u 64 (block_time b)) →
  (∀ b l ev, l ∈ block_logs contract event_id b → decoded_log l = Some ev → hex_forms_ok ev) →
  ∃ s p w, startReceiptWatcher true true disk seed_env contract (Some event_id) = Ok (s, p, w) ∧
    let '(err, w', _, x) := receipt_loop plan ticks w client (Some (p, (s, disk))) in
    ∃ p' s' disk' rs', x = Some (p', (s', disk')) ∧ file_of rs' disk' ∧
      contents (replay rs') = contents s' ∧ NoDup (log_keys (contents s')) ∧
      (∀ l, l ∈ logs_between w 0 (nextBlock w' - 1) →
         ∃ ev, decoded_log l = Some ev ∧ event_key ev ∈ log_keys (contents s')) ∧
      (err = None ∨ err = Some ContextDone → ∀ l, l ∈ logs_between w 0 (head_of client) →
         ∃ ev, decoded_log l = Some ev ∧ event_key ev ∈ log_keys (contents s')) ∧
      (∀ k, k ∈ log_keys (contents s') → k ∈ log_keys (contents s) ∨
         ∃ l ev, l ∈ logs_between w 0 (nextBlock w' - 1) ∧ decoded_log l = Some ev ∧ k = event_key ev).
Proof.
  intros Hseed Hsd Hfile Hplan Hblock Hhex.
  apply (receipts_follow_codec (St := St) plan ticks sd seed_env rs); [done..|]. intros b l ev Hl Hd.
  destruct (Hblock b l Hl) as [Hb Ht]. pose proof (logs_number _ _ _ _ Hl) as Hn.
  destruct (decoded_log_wf l ev Hd) as [Hwf Hlt]; [by rewrite Hn|by rewrite Hn|].
  by apply json_event_ok; [| |eapply Hhex].
Qed.
End Lines.

(** ** Witnesses *)
#[local] Existing Instance json_codec.
#[local] Existing Instance json_codec_laws.

Lemma enqueued_intents_typed_witness :
  ∃ s' i, IngestPacket (St := ListStream) demo_db (Ok demo_b) demo_state = Some (tt, s') ∧
    h_submitter s' = Some [i] ∧ intent_wf i ∧ SI_TxNonce i / 2 ^ 64 = SI_SatId i.
Proof.
  assert ((λ r, length <$> h_submitter r.2) <$>
    IngestPacket (St := ListStream) demo_db (Ok demo_b) demo_state = Some (Some 1%nat)) as Hlen
    by (vm_compute; reflexivity).
  destruct (IngestPacket (St := ListStream) demo_db (Ok demo_b) demo_state) as [[[] s']|] eqn:Hrun;
    [|discriminate Hlen].
  cbn [fmap option_fmap option_map snd] in Hlen.
  destruct (enqueued_intents_typed (St := ListStream) demo_db (Ok demo_b) demo_state s' []
    demo_fresh eq_refl Hrun) as [E|(i & E & Hwf & _ & _ & Hn & _)]; [rewrite E in Hlen; discriminate Hlen|].
  exists s', i. split; [reflexivity|]. split; [exact E|]. split; [exact Hwf|exact Hn].
Defined.

Lemma payment_to_receipt_witness :
  ∃ f b s' settled' sc ev raw,
    IngestPacket (St := ListStream) demo_db (Ok (frame_bytes f)) demo_state = Some (tt, s') ∧
    settleBatch [intent_of b FlatSatDemoWallet] ∅ = Ok (settled', [sc]) ∧
    decodeSettlementCreated (event_log demo_event_id (replicate 32 xab) 3 0 sc) = Ok ev ∧
    is_receipt (St := ListStream)
      {| ExecTimeMs := 1710000006000; EncTxID := PacketB_EpochTs b; EncStatus := 1; APID := 100;
         SeqCount := 16383; SeedEd25519 := demo_seed |} raw.
Proof.
  destruct (the_frame_ok demo_b) as [Hwf Hraw]; [vm_compute; eexists; reflexivity|].
  assert (∃ b, fr_body (the_frame demo_b) = Some (Body_B b) ∧
    GetSat demo_db (PacketB_SatId b) = demo_db !! 0xCAFEBABE ∧
    le_uint (gslice 56 58 (PacketB_EncPayload b)) = 1 ∧
    length (PacketB_EncPayload b) = 62%nat) as (b & Hb & Hsat & Hasset & _).
  { vm_compute. eexists. split; [reflexivity|]. split; [reflexivity|]. split; reflexivity. }
  assert (∃ rec, demo_db !! 0xCAFEBABE = Some rec ∧ Wallet rec = FlatSatDemoWallet) as (rec & Hrec & Hw).
  { vm_compute. eexists. split; reflexivity. }
  destruct (payment_to_receipt (St := ListStream) demo_db (the_frame demo_b) b rec demo_state []
    ∅ (demo_event_id : @Hash toy_eth) (replicate 32 xab) 3 0 1710000006 (demo_processor demo_seed) io_good empty_store [])
    as (s' & settled' & sc & ev & Hrun & _ & _ & Hset & Hdec & Hrest).
  - exact Hwf.
  - exact Hb.
  - rewrite <- Hraw. vm_compute. reflexivity.
  - exact demo_fresh.
  - reflexivity.
  - rewrite Hsat. exact Hrec.
  - rewrite Hw. discriminate.
  - exact (fresh_node_wf []).
  - exact Hasset.
  - rewrite Hw. discriminate.
  - apply lookup_empty.
  - split; reflexivity || discriminate.
  - discriminate.
  - reflexivity.
  - exact demo_processor_wf.
  - exact empty_store_wf.
  - destruct Hrest as (raw & r & p' & store' & disk' & _ & Hr & _); [apply not_elem_of_nil|].
    rewrite Hw in Hset. exists (the_frame demo_b), b, s', settled', sc, ev, raw.
    split; [exact Hrun|]. split; [exact Hset|]. split; [exact Hdec|exact Hr].
Defined.

Lemma demo_chain_logs contract event_id b l :
  l ∈ demo_blocks contract event_id b → (b = 3 ∧ l = demo_log) ∨ (b = 6 ∧ l = demo_bad_log).
Proof.
  unfold demo_blocks. case_bool_decide; [|by intros ?%elem_of_nil].
  destruct (Z.eqb_spec b 3); [|destruct (Z.eqb_spec b 6); [|by intros ?%elem_of_nil]];
    intros ->%list_elem_of_singleton; auto.
Qed.

Lemma demo_chain_wide contract event_id b l :
  l ∈ demo_blocks contract event_id b → in_u 64 b ∧ in_u 64 (1710000000 + 2 * b).
Proof. by intros [[-> _] | [-> _]]%demo_chain_logs. Qed.

Lemma demo_chain_hex contract event_id b l ev :
  l ∈ demo_blocks contract event_id b → decoded_log l = Some ev → hex_forms_ok ev.
Proof.
  intros [[-> ->] | [-> ->]]%demo_chain_logs; [|done]. intros Hd.
  assert (decoded_log demo_log = Some (demo_event 1710000100000)) as E by (vm_compute; reflexivity).
  rewrite Hd in E. injection E as ->. apply (bool_decide_unpack _). vm_compute. exact I.
Qed.

(** The settlement of block 3 is recorded; the malformed log of block 6 stops the loop. *)
Lemma receipts_follow_chain_witness :
  ∃ s p w, startReceiptWatcher true true [] (hex_encode demo_seed) demo_escrow (Some demo_event_id)
      = Ok (s, p, w) ∧
    let '(err, w', _, x) := receipt_loop io_good [true; true; true] w {| calls := 3 |}
      (Some (p, (s, []))) in
    ∃ p' s' disk', x = Some (p', (s', disk')) ∧ NoDup (log_keys (contents s')) ∧
      ∀ l, l ∈ logs_between w 0 (nextBlock w' - 1) →
        ∃ ev, decoded_log l = Some ev ∧ event_key ev ∈ log_keys (contents s').
Proof.
  destruct (receipts_follow_chain (St := ListStream) io_good [true; true; true] demo_seed
    (hex_encode demo_seed) [] [] (demo_escrow : @Address toy_eth) demo_event_id {| calls := 3 |})
    as (s & p & w & Hstart & Hrun).
  - vm_compute. reflexivity.
  - reflexivity.
  - exact file_of_nil.
  - split; reflexivity.
  - exact (demo_chain_wide demo_escrow demo_event_id).
  - exact (demo_chain_hex demo_escrow demo_event_id).
  - exists s, p, w. split; [exact Hstart|].
    destruct (receipt_loop _ _ _ _ _) as [[[err w'] client'] x].
    destruct Hrun as (p' & s' & disk' & rs' & Hx & _ & _ & Hnd & Hall & _).
    exists p', s', disk'. split; [exact Hx|]. split; [exact Hnd|exact Hall].
Defined.
