(* ===== verification/Client.v ===== *)
(** * The client of the contract, before and after its calls

    Models of [gateway/internal/core/chain/client.go] what is around the calls: [init],
    which reads the embedded files ([init_bytecode]), and [WaitForReceipt]. The parser
    of the ABI and the backend are go-ethereum's, and parameters. *)
From S2P Require Export Intent.
#[local] Open Scope Z_scope.

(** ** Strings *)

(** [strings.TrimPrefix] *)
Definition TrimPrefix (s prefix : string) : string :=
  if String.prefix prefix s
  then String.substring (String.length prefix) (String.length s - String.length prefix) s
  else s.

(** The runes [unicode.IsSpace] holds of, in UTF-8. No encoding is a part of another,
    so a string starts (ends) with such a rune if and only if its bytes do. *)
Definition space_runes : list (list byte) :=
  [[x09]; [x0a]; [x0b]; [x0c]; [x0d]; [x20]; [xc2; x85]; [xc2; xa0]; [xe1; x9a; x80]] ++
  ((λ b, [xe2; x80; b]) <$>
    [x80; x81; x82; x83; x84; x85; x86; x87; x88; x89; x8a; xa8; xa9; xaf]) ++
  [[xe2; x81; x9f]; [xe3; x80; x80]].

(** [l] after [r]. *)
Fixpoint strip (r l : list byte) : option (list byte) :=
  match r, l with
  | [], _ => Some l
  | x :: r, y :: l => if Byte.eqb x y then strip r l else None
  | _, [] => None
  end.

Fixpoint trim_front (fuel : nat) (runes : list (list byte)) (l : list byte) : list byte :=
  match fuel with
  | O => l
  | S fuel =>
      match head (omap (λ r, strip r l) runes) with
      | Some l => trim_front fuel runes l
      | None => l
      end
  end.

(** [strings.TrimSpace] *)
Definition trim_space (l : list byte) : list byte :=
  let l := trim_front (length l) space_runes l in
  reverse (trim_front (length l) (reverse <$> space_runes) (reverse l)).
Definition TrimSpace (s : string) : string :=
  String.string_of_list_byte (trim_space (String.list_byte_of_string s)).

(** ** The embedded files *)
Section Init.
Context {ABI : Type}.
(** [abi.JSON] *)
Variable abi_JSON : string → option ABI.

(** [EscrowABI] and [EscrowBytecode]; [None]: it panics. *)
Definition init (escrowABIJSON escrowBytecodeHex : string) : option (ABI * list byte) :=
  match abi_JSON escrowABIJSON with
  | None => None
  | Some parsed =>
      let clean := TrimSpace escrowBytecodeHex in
      let clean := TrimPrefix clean "0x" in
      match hex_decode clean with
      | None => None
      | Some raw => Some (parsed, raw)
      end
  end.
End Init.

(** [bind.DeployBackend], of which [WaitForReceipt] calls one method. *)
Class DeployBackend `{EthCommon} (K R : Type) :=
  TransactionReceipt : Hash → K → option R * K.

Definition WaitForReceipt `{DeployBackend K R} (txHash : Hash) (backend : K) : option R * K :=
  TransactionReceipt txHash backend.

(** ** What [init] reads *)
Definition ascii_spaces : list byte := [x09; x0a; x0b; x0c; x0d; x20].

(** Nothing to trim in front. *)
Definition trimmed (runes : list (list byte)) (l : list byte) : Prop :=
  head (omap (λ r, strip r l) runes) = None.

Lemma trim_front_done runes fuel l : trimmed runes l → trim_front fuel runes l = l.
Proof. intros Hl. destruct fuel; cbn; [done|]. by rewrite Hl. Qed.

Lemma trim_front_spaces runes w l fuel :
  runes = space_runes ∨ runes = reverse <$> space_runes →
  Forall (.∈ ascii_spaces) w → trimmed runes l → (length w ≤ fuel)%nat →
  trim_front fuel runes (w ++ l) = l.
Proof.
  intros Hr Hw Hl. revert fuel. induction Hw as [|x w Hx _ IH]; intros fuel Hf.
  { by apply trim_front_done. }
  destruct fuel as [|fuel]; cbn [length] in Hf; [lia|]. cbn [trim_front app].
  assert (head (omap (λ r, strip r (x :: w ++ l)) runes) = Some (w ++ l)) as ->.
  { unfold ascii_spaces in Hx. destruct Hr as [-> | ->];
      repeat (apply elem_of_cons in Hx as [-> |Hx]; [reflexivity|]); by apply elem_of_nil in Hx. }
  apply IH. lia.
Qed.

(** What is neither empty nor space at the front. *)
Lemma trimmed_cons runes x l :
  runes = space_runes ∨ runes = reverse <$> space_runes →
  x ∉ ascii_spaces → (Byte.to_N x < 128)%N → trimmed runes (x :: l).
Proof.
  intros Hr Hx Hlt. unfold trimmed.
  assert (Forall (λ r, match r with
                       | y :: _ => Is_true ((128 <=? Byte.to_N y)%N || bool_decide (y ∈ ascii_spaces))
                       | [] => False
                       end) runes) as Hall.
  { destruct Hr as [-> | ->]; repeat constructor. }
  clear Hr. induction Hall as [|r runes Hr _ IH]; [done|]. cbn [omap list_omap].
  destruct r as [|y r]; [done|]. cbn [strip].
  destruct (Byte.eqb y x) eqn:E; [|exact IH]. apply Byte.byte_dec_bl in E as ->.
  apply Is_true_true, orb_true_iff in Hr. rewrite N.leb_le, bool_decide_eq_true in Hr.
  destruct Hr; [lia|done].
Qed.

Lemma trim_space_spaces w w' l :
  Forall (.∈ ascii_spaces) w → Forall (.∈ ascii_spaces) w' →
  trimmed space_runes (l ++ w') → trimmed (reverse <$> space_runes) (reverse l) →
  trim_space (w ++ l ++ w') = l.
Proof.
  intros Hw Hw' Hl Hr. unfold trim_space.
  rewrite (trim_front_spaces space_runes w (l ++ w') _ (or_introl eq_refl) Hw Hl)
    by (rewrite length_app; lia).
  rewrite reverse_app.
  rewrite (trim_front_spaces (reverse <$> space_runes) (reverse w') (reverse l) _ (or_intror eq_refl));
    [apply reverse_involutive|by apply Forall_reverse|exact Hr|].
  rewrite length_reverse, length_app. lia.
Qed.

(** *** Hexadecimal text is not trimmed *)
Definition bytes_of_string : string → list byte := String.list_byte_of_string.

Lemma bytes_app s t : bytes_of_string (s ++ t)%string = bytes_of_string s ++ bytes_of_string t.
Proof.
  unfold bytes_of_string. induction s as [|c s IH]; [done|].
  change (String c s ++ t)%string with (String c (s ++ t)%string). cbn. by f_equal.
Qed.

Definition plain (x : byte) : Prop := (x ∉ ascii_spaces) ∧ (Byte.to_N x < 128)%N.

#[global] Instance plain_dec x : Decision (plain x).
Proof. unfold plain. apply _. Defined.

Lemma hex_digit_plain z : plain (Ascii.byte_of_ascii (hex_digit z)).
Proof.
  unfold hex_digit. generalize (Z.to_nat z). intros n.
  do 16 (destruct n as [|n]; [apply (bool_decide_unpack _); vm_compute; exact I|]).
  apply (bool_decide_unpack _). vm_compute. exact I.
Qed.

Lemma hex_encode_plain code : Forall plain (bytes_of_string (hex_encode code)).
Proof.
  induction code as [|b code IH]; [constructor|].
  constructor; [apply hex_digit_plain|]. constructor; [apply hex_digit_plain|exact IH].
Qed.

Lemma plain_trimmed runes l :
  runes = space_runes ∨ runes = reverse <$> space_runes → Forall plain l → trimmed runes l.
Proof.
  intros Hr [|x l' [Hx Hlt] _]; [|by apply trimmed_cons]. destruct Hr as [-> | ->]; reflexivity.
Qed.

Lemma trim_space_plain w l w' :
  Forall (.∈ ascii_spaces) w → Forall (.∈ ascii_spaces) w' → Forall plain l →
  trim_space (w ++ l ++ w') = l.
Proof.
  intros Hw Hw' Hl. destruct Hl as [|x l [Hx Hlt] Hl].
  - pose proof (trim_space_spaces (w ++ w') [] []) as Ht. rewrite !app_nil_r in Ht. apply Ht.
    + by apply list.Forall_app.
    + constructor.
    + reflexivity.
    + reflexivity.
  - apply trim_space_spaces; [done..| |].
    + by apply trimmed_cons; [left| |].
    + apply plain_trimmed; [by right|]. apply Forall_reverse. by constructor.
Qed.

Lemma hex_no_prefix code : String.prefix "0x" (hex_encode code) = false.
Proof.
  destruct code as [|b code]; [done|]. cbn [hex_encode String.prefix].
  assert (∀ z, hex_digit z ≠ "x"%char) as Hx.
  { intros z. unfold hex_digit. generalize (Z.to_nat z). intros n.
    do 16 (destruct n as [|n]; [discriminate|]). discriminate. }
  destruct (Ascii.ascii_dec _ _); [|done]. destruct (Ascii.ascii_dec _ _) as [E|]; [|done].
  by destruct (Hx _ (eq_sym E)).
Qed.

Lemma substring_all s : String.substring 0 (String.length s) s = s.
Proof. induction s as [|c s IH]; [done|]. cbn. by rewrite IH. Qed.

Lemma TrimPrefix_app s : TrimPrefix ("0x" ++ s) "0x" = s.
Proof.
  unfold TrimPrefix. change ("0x" ++ s)%string with (String "0" (String "x" s)).
  assert (String.prefix "0x" (String "0" (String "x" s)) = true) as -> by by destruct s.
  change (String.substring 0 (String.length s - 0) s = s). rewrite Nat.sub_0_r. apply substring_all.
Qed.

(** The bytecode file may start with [0x] and be surrounded by white space. *)
Lemma init_bytecode {ABI} (abi_JSON : string → option ABI) json parsed prefix code w w' :
  abi_JSON json = Some parsed → prefix = "0x"%string ∨ prefix = ""%string →
  Forall (.∈ ascii_spaces) (bytes_of_string w) → Forall (.∈ ascii_spaces) (bytes_of_string w') →
  init abi_JSON json (w ++ (prefix ++ hex_encode code) ++ w') = Some (parsed, code).
Proof.
  intros Hj Hp Hw Hw'. unfold init. rewrite Hj. unfold TrimSpace. fold bytes_of_string. rewrite !bytes_app.
  assert (Forall plain (bytes_of_string prefix)) as Hpre.
  { destruct Hp as [-> | ->]; [|constructor].
    repeat constructor; try (apply (bool_decide_unpack _); vm_compute; exact I). }
  assert (Forall plain (bytes_of_string prefix ++ bytes_of_string (hex_encode code))) as Hplain.
  { apply list.Forall_app. split; [done|apply hex_encode_plain]. }
  assert (trim_space (bytes_of_string w ++ (bytes_of_string prefix ++ bytes_of_string (hex_encode code)) ++
      bytes_of_string w') = bytes_of_string prefix ++ bytes_of_string (hex_encode code)) as ->.
  { apply trim_space_plain; done. }
  rewrite <- bytes_app, String.string_of_list_byte_of_string.
  assert (TrimPrefix (prefix ++ hex_encode code) "0x" = hex_encode code) as ->.
  { destruct Hp as [-> | ->]; [apply TrimPrefix_app|].
    change ("" ++ hex_encode code)%string with (hex_encode code). unfold TrimPrefix.
    by rewrite hex_no_prefix. }
  by rewrite hex_decode_encode.
Qed.
