(* ===== verification/Server.v ===== *)
(** * The server

    Models [gateway/cmd/server/main.go] and the constructor of the client of
    [gateway/internal/core/chain/client.go]: how [main] and [maybeInitChain] wire the
    components from the environment, and the routes that hand requests to them.

    The environment and the file system are functions; [ethclient], the key
    functions of go-ethereum and the gin router are interfaces. Requests are served
    one after another, between callbacks of the interval timer of the submitter; the
    finer interleavings inside the submitter, the processor and the store are those of
    their own files. *)
From S2P Require Export Client Pipeline Egress.
From S2P Require Import Golden.
#[local] Open Scope Z_scope.

(** ** Start-up *)
Definition defaultEthRPCURL : string := "http://127.0.0.1:8545".
Definition anvilAcct0Priv : string :=
  "ac0974bec39a17e36ba4a6b4d238ff944bacb478cbed5efcae784d7bf4f2ff80".
Definition defaultReceiptsPath : string := "gateway/data/receipts.json".

(** [os.Getenv] with a default for the empty string. *)
Definition Getenv_or (env : string → string) (name default : string) : string :=
  if String.eqb (env name) "" then default else env name.

Class EthClient (K : Type) := {
  PrivateKey : Type;
  TransactOpts : Type;
  DialContext : string → option K;
  ChainID : K → option Z * K;
  Client_Close : K → K;
  HexToECDSA : string → option PrivateKey;
  NewKeyedTransactorWithChainID : PrivateKey → Z → option TransactOpts;
}.

Inductive escrow_client_error := ParsePrivateKey | BuildTransactor.

(** The three failures of [maybeInitChain]; after the dial the client is closed. *)
Inductive chain_init_error (K : Type) :=
  | DialFailed
  | ChainIDFailed (closed : K)
  | EscrowClientFailed (e : escrow_client_error) (closed : K).
Arguments DialFailed {K}. Arguments ChainIDFailed {K}. Arguments EscrowClientFailed {K}.

Inductive fatal_error (K : Type) :=
  | DemoKeyLoadFailed (e : registry_error)
  | OnChainInitFailed (e : chain_init_error K)
  | ReceiptWatcherInitFailed (e : start_error).
Arguments DemoKeyLoadFailed {K}. Arguments OnChainInitFailed {K}.
Arguments ReceiptWatcherInitFailed {K}.

Section Boot.
Context `{Ed25519} `{EthCommon} `{RecordCodec} {K : Type} `{EthClient K}.

(** [ec_contract] is the bound contract, through which the client is used. *)
Record EscrowClient := {
  ec_contract : K;
  ec_address : Address;
  ec_transactor : TransactOpts;
}.

(** [Address] *)
Definition EscrowClient_Address (c : EscrowClient) : Address := ec_address c.

Definition NewEscrowClient (backend : K) (contractAddr : Address) (privKeyHex : string)
    (chainID : Z) : result escrow_client_error EscrowClient :=
  match HexToECDSA (TrimPrefix privKeyHex "0x") with
  | None => Err ParsePrivateKey
  | Some key =>
      match NewKeyedTransactorWithChainID key chainID with
      | None => Err BuildTransactor
      | Some auth =>
          Ok {| ec_contract := backend; ec_address := contractAddr; ec_transactor := auth |}
      end
  end.

(** The submitter with the timers it arms and the client it submits through. *)
Record chainDeps := {
  rpcURL : string;
  cd_chainID : Z;
  cd_addr : Address;
  privKey : string;
  cd_submitter : (BufferedSubmitter * timer_env) * K;
}.

Definition no_timers : timer_env := {| armed := ∅; next_timer := 0 |}.

(** [Ok None] is [(nil, func() {}, nil)]. *)
Definition maybeInitChain (env : string → string) : result (chain_init_error K) (option chainDeps) :=
  let addrHex := env "VOID_ESCROW_ADDRESS"%string in
  if String.eqb addrHex "" then Ok None else
  let rpcURL := Getenv_or env "VOID_ETH_RPC_URL" defaultEthRPCURL in
  let privKey := Getenv_or env "VOID_GATEWAY_PRIVATE_KEY" anvilAcct0Priv in
  match DialContext rpcURL with
  | None => Err DialFailed
  | Some client =>
      match ChainID client with
      | (None, client) => Err (ChainIDFailed (Client_Close client))
      | (Some chainID, client) =>
          let addr := HexToAddress addrHex in
          match NewEscrowClient client addr privKey chainID with
          | Err e => Err (EscrowClientFailed e (Client_Close client))
          | Ok escrow =>
              let submitter := NewBufferedSubmitter DefaultMaxBatch DefaultInterval in
              Ok (Some {| rpcURL := rpcURL; cd_chainID := chainID; cd_addr := addr;
                          privKey := privKey;
                          cd_submitter := ((submitter, no_timers), ec_contract escrow) |})
          end
      end
  end.

(** The package variables the handlers read, and the goroutine that was started. *)
Record gateway := {
  gw_db : MockDB;
  gw_submitter : option ((BufferedSubmitter * timer_env) * K);
  gw_egress : option (Store * list byte);
  gw_receipts : option (Processor * Watcher);
}.

(** [main] up to [router.Run]. [mkdir_ok] and [open_file] answer for the path of the
    receipts file: whether its directory can be made, and its content once opened for
    appending. [None] is a panic. *)
Definition boot (env : string → string) (mkdir_ok : string → bool)
    (open_file : string → option (list byte)) (event_id : option Hash) (db : MockDB)
    : option (result (fatal_error K) gateway) :=
  let db := Initialize db in
  '(err, db) ← LoadFlatSatDemoKey demoSellerSeedHex db;
  match err with
  | Err e => Some (Err (DemoKeyLoadFailed e))
  | Ok _ =>
      Some match maybeInitChain env with
      | Err e => Err (OnChainInitFailed e)
      | Ok None =>
          Ok {| gw_db := db; gw_submitter := None; gw_egress := None; gw_receipts := None |}
      | Ok (Some deps) =>
          let path := Getenv_or env "VOID_RECEIPTS_PATH" defaultReceiptsPath in
          let disk := default [] (open_file path) in
          match startReceiptWatcher (mkdir_ok path) (bool_decide (is_Some (open_file path))) disk
                  (env "VOID_RECEIPTS_SELLER_SEED"%string) (cd_addr deps) event_id with
          | Err e => Err (ReceiptWatcherInitFailed e)
          | Ok (store, proc, watcher) =>
              Ok {| gw_db := db; gw_submitter := Some (cd_submitter deps);
                    gw_egress := Some (store, disk); gw_receipts := Some (proc, watcher) |}
          end
      end
  end.
End Boot.
Arguments gateway {_} K.
Arguments chainDeps {_} K.

(** ** Requests *)
Inductive request :=
  | POST_ingest (body : result unit (list byte))
  | GET_pending
  | POST_ack (plan : io) (bound : option ackRequest).

(** The route table of [main]: method, path and handler. *)
Inductive route_handler := To_IngestPacket | To_HandleEgressPending | To_HandleEgressAck.

Definition routes : list (string * string * route_handler) :=
  let v1 := "/api/v1"%string in
  let egress := (v1 +:+ "/egress")%string in
  [ ("POST", v1 +:+ "/ingest", To_IngestPacket);
    ("GET", egress +:+ "/pending", To_HandleEgressPending);
    ("POST", egress +:+ "/ack", To_HandleEgressAck) ]%string.

Section Serve.
Context {St : Type} `{KaitaiStream St} `{Ed25519} `{EthCommon} `{RecordCodec}.
Context {C D : Type} `{!GinContext C gin_H} `{!GinContext D egress_body}.
Context {K : Type} `{!IntentSubmitter K}.
(** The contexts gin starts a request with. *)
Variables (c0 : C) (d0 : D).

Definition serve (r : request) (g : gateway K) : option ((C + D) * gateway K) :=
  let egress (s : egress_state D) :=
    Some (inr (eg_ctx s),
          {| gw_db := gw_db g; gw_submitter := gw_submitter g; gw_egress := eg_store s;
             gw_receipts := gw_receipts g |}) in
  let s0 := {| eg_ctx := d0; eg_store := gw_egress g |} in
  match r with
  | POST_ingest body =>
      '(_, s) ← IngestPacket (St := St) (gw_db g) body
                  {| h_ctx := c0; h_submitter := gw_submitter g |};
      Some (inl (h_ctx s),
            {| gw_db := gw_db g; gw_submitter := h_submitter s; gw_egress := gw_egress g;
               gw_receipts := gw_receipts g |})
  | GET_pending => egress (HandleEgressPending s0)
  | POST_ack plan bound => egress (HandleEgressAck plan bound s0)
  end.

(** An armed timer of the submitter fires and its callback runs to the end; a
    timer that is not armed does nothing. *)
Definition timer_fires (t : nat) (g : gateway K) : gateway K :=
  match gw_submitter g with
  | Some ((s, w), client) =>
      if decide (t ∈ armed w) then
        {| gw_db := gw_db g;
           gw_submitter := Some (run_call onTimer_locked
             ((s, {| armed := armed w ∖ {[t]}; next_timer := next_timer w |}), client));
           gw_egress := gw_egress g; gw_receipts := gw_receipts g |}
      else g
  | None => g
  end.

Inductive event := Request (r : request) | Timer (t : nat).

Fixpoint serve_all (events : list event) (g : gateway K) : option (list (C + D) * gateway K) :=
  match events with
  | [] => Some ([], g)
  | Timer t :: events => serve_all events (timer_fires t g)
  | Request r :: events =>
      '(reply, g) ← serve r g;
      '(replies, g) ← serve_all events g;
      Some (reply :: replies, g)
  end.
End Serve.

(** ** The submitter behind the handler *)
Section Submitter.
Context `{EthCommon} {K : Type} `{!IntentSubmitter K}.

(** What holds of the node once the batches [tk] were submitted: submitting one more
    keeps it. *)
Variable P : K → list (list SettlementIntent) → Prop.
Hypothesis P_submit : ∀ k tk b, P k tk → P (submit b k) (tk ++ [b]).

(** Between calls: the accepted intents are the batches submitted, in order,
    and the buffer. *)
Definition accounts (acc : list SettlementIntent)
    (st : (BufferedSubmitter * timer_env) * K) : Prop :=
  ∃ tk, buffer_inv st.1.1 st.1.2 [] acc tk ∧ closed st.1.1 = false ∧
    maxBatch st.1.1 = DefaultMaxBatch ∧ P st.2 tk.

Lemma accounts_new k0 :
  P k0 [] → accounts [] ((NewBufferedSubmitter DefaultMaxBatch DefaultInterval, no_timers), k0).
Proof.
  exists []. split; [|done]. by destruct (sys_inv_init DefaultMaxBatch DefaultInterval).
Qed.

Lemma accounts_section acc (m : locked (option (list SettlementIntent))) s w tk k :
  (∀ r s' w', m (s, w) = (r, (s', w')) →
    buffer_inv s' w' [] acc (match r with Some b => tk ++ [b] | None => tk end) ∧
    closed s' = closed s ∧ maxBatch s' = maxBatch s) →
  closed s = false → maxBatch s = DefaultMaxBatch → P k tk →
  accounts acc (run_call m ((s, w), k)).
Proof.
  intros Hm Hc Hmax Hk. unfold run_call. destruct (m (s, w)) as [r [s' w']].
  destruct (Hm r s' w' eq_refl) as (Hi & Hc' & Hm').
  destruct r as [b|]; [exists (tk ++ [b])|exists tk]; cbn [fst snd]; split_and!;
    try done; try congruence. by apply P_submit.
Qed.

Lemma accounts_Enqueue acc intent st :
  accounts acc st → accounts (acc ++ [intent]) (Enqueue intent st).
Proof.
  destruct st as [[s w] k]. intros (tk & Hi & Hc & Hmax & Hk). cbn [fst snd] in *.
  apply (accounts_section _ _ _ _ tk); [|done..]. intros r s' w' He.
  pose proof (Enqueue_inv _ _ _ _ _ _ _ _ _ Hi He) as Hi'. rewrite Hc in Hi'.
  split; [done|]. unfold Enqueue_locked in He. rewrite Hc in He. cbn in He.
  destruct (_ =? 1)%nat, (_ <? _); by injection He as <- <- <-.
Qed.

Lemma accounts_enqueue_opt acc i st :
  accounts acc st → accounts (acc ++ option_list i) (enqueue_opt i st).
Proof.
  destruct i; cbn; [apply accounts_Enqueue|by rewrite app_nil_r].
Qed.

Lemma accounts_onTimer acc t s w client :
  accounts acc ((s, w), client) →
  accounts acc (run_call onTimer_locked
    ((s, {| armed := armed w ∖ {[t]}; next_timer := next_timer w |}), client)).
Proof.
  intros (tk & Hi & Hc & Hmax & Hk). cbn [fst snd] in *.
  apply (accounts_section _ _ _ _ tk); [|done..]. intros r s' w' He.
  split; [exact (onTimer_inv _ _ _ [] _ _ _ _ _ (fire_inv _ _ _ t _ _ Hi) He)|].
  unfold onTimer_locked in He. destruct (_ || _); by injection He as <- <- <-.
Qed.

(** What a timer does to the submitter. *)
Definition timer_sub (t : nat) (st : (BufferedSubmitter * timer_env) * K)
    : (BufferedSubmitter * timer_env) * K :=
  let '((s, w), client) := st in
  if decide (t ∈ armed w)
  then run_call onTimer_locked ((s, {| armed := armed w ∖ {[t]}; next_timer := next_timer w |}), client)
  else st.

Lemma timer_fires_sub t (g : gateway K) :
  timer_fires t g = {| gw_db := gw_db g; gw_submitter := timer_sub t <$> gw_submitter g;
                       gw_egress := gw_egress g; gw_receipts := gw_receipts g |}.
Proof.
  destruct g as [db [[[s w] client]|] eg rc]; unfold timer_fires; cbn; [|done].
  by destruct (decide (t ∈ armed w)).
Qed.

Lemma accounts_timer acc t st : accounts acc st → accounts acc (timer_sub t st).
Proof.
  destruct st as [[s w] client]. intros Hacc. cbn. destruct (decide (t ∈ armed w)); [|done].
  by apply accounts_onTimer.
Qed.
End Submitter.

(** The node behind nothing but this submitter. *)
Definition only_batches `{EthCommon} {K} `{!IntentSubmitter K} (k0 : K) (k : K)
    (tk : list (list SettlementIntent)) : Prop :=
  k = foldl (λ k b, submit b k) k0 tk.

Lemma only_batches_submit `{EthCommon} {K} `{!IntentSubmitter K} (k0 k : K) tk b :
  only_batches k0 k tk → only_batches k0 (submit b k) (tk ++ [b]).
Proof. unfold only_batches. intros ->. by rewrite foldl_app. Qed.

(** ** Properties *)
Section Requests.
Context {St : Type} `{KaitaiStreamLaws St} `{Ed25519} `{EthCommon} `{RecordCodec}.
Context {C D : Type} `{GinContextLaws C gin_H} `{GinContextLaws D egress_body}.
Context {K : Type} `{!IntentSubmitter K}.
Variables (c0 : C) (d0 : D).
Hypothesis fresh_c0 : IsAborted c0 = false ∧ responses c0 = [].
Hypothesis fresh_d0 : responses d0 = [].

(** What a request pays for: the intent of the frame it starts with, if that is
    accepted. *)
Definition request_pays (db : MockDB) (body : result unit (list byte))
    (paid : option SettlementIntent) : Prop :=
  request_case body (paid = None) (paid = None)
    (λ f tl, paid = match frame_verdict db f (frame_bytes f ++ tl) with
                    | Accept => payment_intent db (fr_body f)
                    | Reject _ _ => None
                    end).

Definition answered (reply : C + D) : Prop :=
  match reply with
  | inl c => ∃ code obj, responses c = [(code, obj)]
  | inr d => ∃ code obj, responses d = [(code, obj)]
  end.

Definition bodies (events : list event) : list (result unit (list byte)) :=
  omap (λ e, match e with Request (POST_ingest body) => Some body | _ => None end) events.
Definition requests (events : list event) : nat :=
  length (omap (λ e, match e with Request r => Some r | Timer _ => None end) events).

Lemma request_case_mono body (P0 P1 Q0 Q1 : Prop) (P2 Q2 : frame → list byte → Prop) :
  (P0 → Q0) → (P1 → Q1) → (∀ f tl, P2 f tl → Q2 f tl) →
  request_case body P0 P1 P2 → request_case body Q0 Q1 Q2.
Proof.
  intros HP0 HP1 HP2. destruct body as [[|x raw]|e]; cbn; [done| |done].
  intros [[? ?]|(f & tl & ? & ? & ?)]; [left; auto|right]. exists f, tl. auto.
Qed.

Lemma ingest_pays db body (sub : option ((BufferedSubmitter * timer_env) * K)) :
  ∃ paid s', request_pays db body paid ∧
    IngestPacket (St := St) db body {| h_ctx := c0; h_submitter := sub |} = Some (tt, s') ∧
    h_submitter s' = enqueue_opt paid <$> sub ∧ answered (inl (h_ctx s')).
Proof.
  destruct (IngestPacket_cases (St := St) db body {| h_ctx := c0; h_submitter := sub |})
    as (s' & Hrun & Hcase); [apply fresh_c0|].
  assert (∃ paid v ok, request_pays db body paid ∧
    s' = after_verdict v (match v with Accept => paid | Reject _ _ => None end) ok
           {| h_ctx := c0; h_submitter := sub |} ∧ (∀ code msg, v = Reject code msg → paid = None))
    as (paid & v & ok & Hp & -> & Hv).
  { destruct body as [[|x raw]|e].
    - exists None, (Reject 400 "Missing binary payload"), []. by split_and!.
    - destruct Hcase as [[-> Hno]|(f & tl & Hwf & Hraw & ->)].
      + exists None, (Reject 400 "Invalid Void Protocol Frame"), [].
        split_and!; [|done|done]. by left.
      + exists (match frame_verdict db f (frame_bytes f ++ tl) with
                | Accept => payment_intent db (fr_body f) | Reject _ _ => None end),
          (frame_verdict db f (frame_bytes f ++ tl)), (frame_success f).
        split_and!.
        * right. by exists f, tl.
        * by destruct (frame_verdict _ _ _).
        * by intros code msg ->.
    - exists None, (Reject 400 "Missing binary payload"), []. by split_and!. }
  exists paid. eexists. split; [done|]. split; [exact Hrun|].
  destruct fresh_c0 as [_ Hr]. destruct v as [|code msg]; cbn [after_verdict h_submitter h_ctx answered].
  - split; [done|]. rewrite JSON_responses, Hr. by do 2 eexists.
  - rewrite (Hv code msg eq_refl). cbn. split; [by destruct sub|].
    rewrite Abort_responses, Hr. by do 2 eexists.
Qed.

Lemma egress_answered (s : egress_state D) :
  eg_ctx s = d0 → answered (inr (eg_ctx (HandleEgressPending s))).
Proof.
  intros Hd. unfold HandleEgressPending, eg_abort, eg_json.
  destruct (eg_store s) as [[store disk]|]; cbn [eg_ctx answered]; rewrite Hd.
  - rewrite JSON_responses, fresh_d0. by do 2 eexists.
  - rewrite Abort_responses, fresh_d0. by do 2 eexists.
Qed.

Lemma ack_answered plan bound (s : egress_state D) :
  eg_ctx s = d0 → answered (inr (eg_ctx (HandleEgressAck plan bound s))).
Proof.
  intros Hd. unfold HandleEgressAck, eg_abort, eg_json.
  repeat (case_match; simplify_eq/=); rewrite ?Hd, ?Abort_responses, ?JSON_responses, ?fresh_d0;
    by do 2 eexists.
Qed.

(** *** A sequence of requests *)
Lemma serve_spec r (g : gateway K) :
  ∃ reply g' paid, serve (St := St) c0 d0 r g = Some (reply, g') ∧ answered reply ∧
    gw_db g' = gw_db g ∧ gw_receipts g' = gw_receipts g ∧
    gw_submitter g' = enqueue_opt paid <$> gw_submitter g ∧
    match r with
    | POST_ingest body => request_pays (gw_db g) body paid ∧ gw_egress g' = gw_egress g
    | _ => paid = None ∧ (gw_egress g = None → gw_egress g' = None ∧
             ∃ d body, reply = inr d ∧ responses d = [(503, body)])
    end.
Proof.
  assert (∀ st : option ((BufferedSubmitter * timer_env) * K), enqueue_opt None <$> st = st)
    as Hid by by intros [].
  destruct r as [body| |plan bound]; unfold serve; cbn.
  - destruct (ingest_pays (gw_db g) body (gw_submitter g)) as (paid & s' & Hp & -> & Hs & Ha).
    eexists _, _, paid. split; [done|]. by split_and!.
  - eexists _, _, None. split; [done|]. split; [by apply egress_answered|].
    split_and!; try done. intros ->. split; [done|].
    unfold HandleEgressPending, eg_abort. cbn. eexists _, _. split; [done|].
    by rewrite Abort_responses, fresh_d0.
  - eexists _, _, None. split; [done|]. split; [by apply ack_answered|].
    split_and!; try done. intros ->. split; [done|].
    unfold HandleEgressAck, eg_abort. cbn. eexists _, _. split; [done|].
    by rewrite Abort_responses, fresh_d0.
Qed.

(** Only an acknowledgement touches the receipt store. *)
Lemma serve_store r (g g' : gateway K) reply st :
  serve (St := St) c0 d0 r g = Some (reply, g') → gw_egress g = Some st →
  ∃ st', gw_egress g' = Some st' ∧
    (st' = st ∨ ∃ plan req, r = POST_ack plan (Some req) ∧
       st' = (MarkDispatched plan (Ack_PaymentID req) (Ack_SettlementTxHash req) st).2).
Proof.
  intros Hs Hst. destruct r as [body| |plan bound]; unfold serve in Hs.
  - destruct (IngestPacket _ _ _) as [[u s']|]; [|done]. cbn in Hs. injection Hs as _ <-.
    exists st. by split; [|left].
  - injection Hs as _ <-. unfold HandleEgressPending. cbn. rewrite Hst. destruct st as [s d].
    exists (s, d). by split; [|left].
  - injection Hs as _ <-. cbn [gw_egress]. unfold HandleEgressAck. cbn [eg_store eg_ctx]. rewrite Hst.
    destruct bound as [req|]; cbn; [|exists st; by split; [|left]].
    destruct (_ || _); [exists st; by split; [|left]|].
    destruct (MarkDispatched plan (Ack_PaymentID req) (Ack_SettlementTxHash req) st) as [a st'] eqn:Hm.
    exists st'. split; [by destruct a as [[]|[]]|]. right.
    exists plan, req. by rewrite Hm.
Qed.

Lemma serve_all_accounts (P : K → list (list SettlementIntent) → Prop) events acc g st :
  (∀ k tk b, P k tk → P (submit b k) (tk ++ [b])) →
  gw_submitter g = Some st → accounts P acc st →
  ∃ replies g' paid st', serve_all (St := St) c0 d0 events g = Some (replies, g') ∧
    length replies = requests events ∧ Forall answered replies ∧
    Forall2 (request_pays (gw_db g)) (bodies events) paid ∧
    gw_submitter g' = Some st' ∧ accounts P (acc ++ omap id paid) st'.
Proof.
  intros HP. revert acc g st. induction events as [|[r|t] events IH]; intros acc g st Hst Hacc.
  - exists [], g, [], st. rewrite app_nil_r. split_and!; try done; by constructor.
  - destruct (serve_spec r g) as (reply & g1 & p & Hr & Ha & Hdb & _ & Hs & Hbody).
    rewrite Hst in Hs. cbn [fmap option_fmap option_map] in Hs.
    apply (accounts_enqueue_opt P HP acc p) in Hacc.
    destruct (IH _ _ _ Hs Hacc) as (replies & g' & paid & st' & Hall & Hlen & Hans & Hpaid & Hst' & Hacc').
    cbn [serve_all]. rewrite Hr. cbn [mbind option_bind]. rewrite Hall. cbn [mbind option_bind].
    rewrite Hdb in Hpaid. rewrite <- app_assoc in Hacc'.
    unfold requests, bodies in *. destruct r as [body| |plan bound].
    + destruct Hbody as [Hbody _]. exists (reply :: replies), g', (p :: paid), st'.
      split_and!; [done|cbn; by rewrite Hlen|by constructor|by constructor|done|].
      replace (omap id (p :: paid)) with (option_list p ++ omap id paid) by by destruct p. done.
    + destruct Hbody as [-> _]. exists (reply :: replies), g', paid, st'.
      split_and!; [done|cbn; by rewrite Hlen|by constructor|done|done|done].
    + destruct Hbody as [-> _]. exists (reply :: replies), g', paid, st'.
      split_and!; [done|cbn; by rewrite Hlen|by constructor|done|done|done].
  - cbn [serve_all]. unfold bodies, requests. cbn [omap list_omap].
    rewrite timer_fires_sub, Hst. cbn [fmap option_fmap option_map].
    apply (accounts_timer P HP acc t) in Hacc.
    destruct (IH _ (Build_gateway (gw_db g) (Some (timer_sub t st)) (gw_egress g) (gw_receipts g))
      _ eq_refl Hacc) as (replies & g' & paid & st' & Hall & Hrest).
    by exists replies, g', paid, st'.
Qed.

(** The gateway [main] leaves to the router, with an empty submitter. *)
Definition fresh_gateway (db : MockDB) (k0 : K) (eg : option (Store * list byte))
    (rc : option (Processor * Watcher)) : gateway K :=
  {| gw_db := db; gw_egress := eg; gw_receipts := rc;
     gw_submitter :=
       Some ((NewBufferedSubmitter DefaultMaxBatch DefaultInterval, no_timers), k0) |}.

Lemma timer_flushes g s w (k : K) acc tk :
  gw_submitter g = Some ((s, w), k) → closed s = false → buffer_inv s w [] acc tk → buf s ≠ [] →
  ∃ t s' w', t ∈ armed w ∧ buf s' = [] ∧
    gw_submitter (timer_fires t g) = Some ((s', w'), submit (buf s) k).
Proof.
  intros Hst Hc [I1 I2 I3 I4 I5 I6 I7 I8] Hne.
  destruct (timer s) as [t|] eqn:Ht; [|by destruct Hne; apply I3].
  destruct (I4 t eq_refl) as [Hin|Hin]; [|by apply list.elem_of_nil in Hin].
  exists t. unfold timer_fires. rewrite Hst, decide_True by done. cbn [gw_submitter].
  unfold run_call, onTimer_locked. rewrite Hc.
  destruct (Nat.eqb_spec (length (buf s)) 0) as [Hz|]; [by destruct Hne; apply nil_length_inv|].
  unfold stealLocked. rewrite Ht. cbn [orb].
  eexists _, _. split; [done|]. split; [|reflexivity]. done.
Qed.

(** The timer, if anything is waiting for it, empties the buffer. *)
Lemma timer_empties g s w (k : K) acc tk :
  gw_submitter g = Some ((s, w), k) → closed s = false → buffer_inv s w [] acc tk →
  ∃ t s' w', buf s' = [] ∧ gw_submitter (timer_fires t g) = Some ((s', w'), submit (buf s) k).
Proof.
  intros Hst Hc Hi. destruct (decide (buf s = [])) as [E|Hne].
  - exists 0%nat, s, w. split; [done|]. unfold timer_fires. rewrite Hst, E.
    rewrite decide_False; [done|].
    intros Hin%(bi_armed _ _ _ _ _ Hi). apply (bi_timer _ _ _ _ _ Hi) in E. congruence.
  - destruct (timer_flushes g s w k acc tk Hst Hc Hi Hne) as (t & s' & w' & _ & Hb & Hg).
    by exists t, s', w'.
Qed.

Lemma serve_all_timer events t g :
  serve_all (St := St) c0 d0 (events ++ [Timer t]) g =
  '(replies, g') ← serve_all (St := St) c0 d0 events g; Some (replies, timer_fires t g').
Proof.
  revert g. induction events as [|[r|t'] events IH]; intros g; cbn [app serve_all]; [done| |done].
  destruct (serve _ _ r g) as [[reply g1]|]; cbn [mbind option_bind]; [|done].
  rewrite IH. by destruct (serve_all _ _ events g1) as [[replies g2]|].
Qed.

(** C17. What is paid is what is submitted. Whatever requests the server gets, and
    whenever the interval timer fires in between, nothing panics and every request
    is answered exactly once; the payments accepted are submitted to the contract
    in the order they came in, in batches of one to ten, and those not yet
    submitted, fewer than ten, are in the buffer; and while there are any the
    timer is armed, and when it fires they are the next batch. *)
Theorem gateway_submits_payments db k0 eg rc events :
  ∃ replies g' paid batches s w,
    serve_all (St := St) c0 d0 events (fresh_gateway db k0 eg rc) = Some (replies, g') ∧
    length replies = requests events ∧ Forall answered replies ∧
    Forall2 (request_pays db) (bodies events) paid ∧
    gw_submitter g' = Some ((s, w), foldl (λ k b, submit b k) k0 batches) ∧
    concat batches ++ buf s = omap id paid ∧
    Forall (λ b, 1 <= Z.of_nat (length b) <= 10) batches ∧ Z.of_nat (length (buf s)) < 10 ∧
    (buf s ≠ [] → ∃ t s' w', t ∈ armed w ∧ buf s' = [] ∧
       gw_submitter (timer_fires t g') =
         Some ((s', w'), foldl (λ k b, submit b k) k0 (batches ++ [buf s]))).
Proof.
  destruct (serve_all_accounts (only_batches k0) events [] (fresh_gateway db k0 eg rc) _
    (only_batches_submit k0) eq_refl (accounts_new _ k0 eq_refl))
    as (replies & g' & paid & [[s w] k] & Hall & Hlen & Hans & Hpaid & Hst & (tk & Hi & Hc & Hmax & Hk)).
  cbn [fst snd] in *. unfold only_batches in Hk. subst k. pose proof Hi as [I1 I2 I3 I4 I5 I6 I7 I8].
  rewrite Hmax in *. exists replies, g', paid, tk, s, w. split_and!; try done.
  - revert I8. apply Forall_impl. intros b. unfold DefaultMaxBatch. lia.
  - rewrite foldl_app. by apply (timer_flushes _ _ _ _ _ _ Hst Hc Hi).
Qed.

Lemma request_pays_unique db body paid paid' :
  request_pays db body paid → request_pays db body paid' → paid = paid'.
Proof.
  destruct body as [[|x raw]|e]; cbn; [congruence| |congruence].
  intros [[-> Hno]|(f & tl & Hwf & E & ->)] [[-> Hno']|(f' & tl' & Hwf' & E' & ->)]; [done| | |].
  - destruct Hno. by exists f', tl'.
  - destruct Hno'. by exists f, tl.
  - rewrite E in E'. by destruct (frame_unique (St := St) _ _ _ _ Hwf Hwf' E') as [-> ->].
Qed.

Lemma requests_pay_unique db bs paid paid' :
  Forall2 (request_pays db) bs paid → Forall2 (request_pays db) bs paid' → paid = paid'.
Proof.
  intros Hp. revert paid'. induction Hp as [|body p bs paid Hb _ IH]; intros paid' Hp'.
  - by apply Forall2_nil_inv_l in Hp' as ->.
  - apply Forall2_cons_inv_l in Hp' as (p' & l' & Hb' & Hp' & ->).
    f_equal; [by eapply request_pays_unique|by apply IH].
Qed.

(** *** Start-up *)
Lemma boot_registry db0 : Ed25519Laws →
  ∃ db, LoadFlatSatDemoKey demoSellerSeedHex (Initialize db0) = Some (Ok tt, db) ∧
    registered_key db FlatSatDemoSatID = Some (derive_public (hex demoSellerSeedHex)).
Proof.
  intros He. destruct (LoadFlatSatDemoKey_ok (hex demoSellerSeedHex) db0 eq_refl)
    as (db & Hload & _ & _ & Hk).
  exists db. split; [|done].
  replace demoSellerSeedHex with (hex_encode (hex demoSellerSeedHex)) at 1
    by (vm_compute; reflexivity). done.
Qed.

Context `{!Ed25519Laws} `{!EthClient K}.

(** Without [VOID_ESCROW_ADDRESS] the gateway parses and verifies, and does
    nothing else: start-up succeeds whatever the chain, the file system and the other
    variables are, with the demo key loaded; and no sequence of requests changes
    anything: ingest is answered, once, and egress with 503. *)
Theorem gateway_offline env mkdir_ok open_file event_id db0 :
  env "VOID_ESCROW_ADDRESS"%string = ""%string →
  ∃ db, let g := {| gw_db := db; gw_submitter := None; gw_egress := None; gw_receipts := None |} in
    boot (K := K) env mkdir_ok open_file event_id db0 = Some (Ok g) ∧
    registered_key db FlatSatDemoSatID = Some (derive_public (hex demoSellerSeedHex)) ∧
    ∀ events, ∃ replies, serve_all (St := St) c0 d0 events g = Some (replies, g) ∧
      length replies = requests events ∧ Forall answered replies ∧
      Forall (λ reply, match reply with
                       | inl _ => True
                       | inr d => ∃ body, responses d = [(503, body)]
                       end) replies.
Proof.
  intros Henv. destruct (boot_registry db0 _) as (db & Hload & Hkey). exists db. cbn zeta.
  split; [|split; [done|]].
  { unfold boot, maybeInitChain. rewrite Hload, Henv. done. }
  set (g := Build_gateway _ _ _ _).
  induction events as [|[r|t] events (replies & Hall & Hlen & Hans & H503)].
  - exists []. by split_and!.
  - destruct (serve_spec r g) as (reply & g1 & p & Hr & Ha & Hdb & Hrc & Hs & Hbody).
    assert (g1 = g ∧ match reply with inl _ => True | inr d => ∃ body, responses d = [(503, body)] end)
      as [-> Hrep].
    { destruct g1 as [db1 s1 e1 r1]. cbn in *. subst. destruct r as [body| |plan bound].
      - destruct Hbody as [_ ->]. split; [done|].
        unfold serve in Hr. destruct (IngestPacket _ _ _) as [[u s']|]; [|done].
        cbn in Hr. by injection Hr as <- _.
      - destruct Hbody as [_ He]. destruct (He eq_refl) as [-> (d & b & -> & Hd)]. split; [done|by exists b].
      - destruct Hbody as [_ He]. destruct (He eq_refl) as [-> (d & b & -> & Hd)]. split; [done|by exists b]. }
    exists (reply :: replies). cbn [serve_all]. rewrite Hr. cbn [mbind option_bind].
    rewrite Hall. cbn [mbind option_bind]. split; [done|]. unfold requests in *. cbn.
    split; [by rewrite Hlen|]. split; by constructor.
  - exists replies. cbn [serve_all]. done.
Qed.

(** With [VOID_ESCROW_ADDRESS] set, start-up never panics, and succeeds exactly
    when the node answers, the private key is one, the receipts file opens and
    loads, and the seed is not empty; then the submitter is empty, the egress store
    holds what the file recorded, and the watcher starts at block 0 on that contract.
    When it fails after the dial and before the submitter exists, the connection has
    been closed. *)
Theorem boot_outcome env mkdir_ok open_file event_id db0 :
  env "VOID_ESCROW_ADDRESS"%string ≠ ""%string →
  let path := Getenv_or env "VOID_RECEIPTS_PATH" defaultReceiptsPath in
  let addr := HexToAddress (env "VOID_ESCROW_ADDRESS"%string) in
  ∃ r, boot env mkdir_ok open_file event_id db0 = Some r ∧
    (∀ g, r = Ok g ↔ ∃ db client chainID client' key auth disk store seed watcher,
      LoadFlatSatDemoKey demoSellerSeedHex (Initialize db0) = Some (Ok tt, db) ∧
      DialContext (Getenv_or env "VOID_ETH_RPC_URL" defaultEthRPCURL) = Some client ∧
      ChainID client = (Some chainID, client') ∧
      HexToECDSA (TrimPrefix (Getenv_or env "VOID_GATEWAY_PRIVATE_KEY" anvilAcct0Priv) "0x") = Some key ∧
      NewKeyedTransactorWithChainID key chainID = Some auth ∧
      mkdir_ok path = true ∧ open_file path = Some disk ∧ NewStore true disk = Ok store ∧
      hex_decode (Getenv_or env "VOID_RECEIPTS_SELLER_SEED" demoSellerSeedHex) = Some seed ∧
      seed ≠ [] ∧ NewWatcher addr 0 DefaultWatchInterval event_id = Some watcher ∧
      g = fresh_gateway db client' (Some (store, disk))
            (Some ({| sellerAPID := SellerAPID100; seed := seed; seqCount := 0 |}, watcher))) ∧
    (∀ e, r = Err (OnChainInitFailed e) → e = DialFailed ∨
      ∃ client, DialContext (Getenv_or env "VOID_ETH_RPC_URL" defaultEthRPCURL) = Some client ∧
        let closed := Client_Close (ChainID client).2 in
        e = ChainIDFailed closed ∨ ∃ e', e = EscrowClientFailed e' closed).
Proof.
  intros Henv path addr. destruct (boot_registry db0 _) as (db & Hload & _).
  unfold boot, maybeInitChain, NewEscrowClient. rewrite Hload. cbn [mbind option_bind].
  destruct (String.eqb_spec (env "VOID_ESCROW_ADDRESS"%string) "") as [|_]; [done|].
  eexists. split; [reflexivity|]. split.
  - intros g. split.
    + intros Hg.
      destruct (DialContext _) as [client|] eqn:Hd; [|done].
      destruct (ChainID client) as [[chainID|] client'] eqn:Hc; [|done].
      destruct (HexToECDSA _) as [key|] eqn:Hk; [|done].
      destruct (NewKeyedTransactorWithChainID key chainID) as [auth|] eqn:Ha; [|done].
      cbn [cd_addr cd_submitter ec_contract] in Hg. unfold startReceiptWatcher in Hg. fold path in Hg.
      destruct (mkdir_ok path) eqn:Hm; [|done]. cbn [negb] in Hg.
      destruct (open_file path) as [disk|] eqn:Ho; [|done].
      rewrite bool_decide_eq_true_2 in Hg by done. cbn [from_option id default] in Hg.
      destruct (NewStore true disk) as [store|] eqn:Hs; [|done].
      fold (Getenv_or env "VOID_RECEIPTS_SELLER_SEED" demoSellerSeedHex) in Hg.
      destruct (hex_decode _) as [seed|] eqn:Hseed; [|done].
      destruct (NewProcessor _ _ seed) as [proc|] eqn:Hp; [|done].
      destruct (NewWatcher _ 0 _ _) as [watcher|] eqn:Hw; [|done].
      injection Hg as <-. destruct seed as [|b seed]; [done|].
      exists db, client, chainID, client', key, auth, disk, store, (b :: seed), watcher.
      split_and!; try done. cbn in Hp. injection Hp as <-. done.
    + intros (db' & client & chainID & client' & key & auth & disk & store & seed & watcher & Hl & Hd &
        Hc & Hk & Ha & Hm & Ho & Hs & Hseed & Hne & Hw & ->).
      simplify_eq. rewrite Hd, Hc, Hk, Ha. cbn [cd_addr cd_submitter ec_contract].
      unfold startReceiptWatcher. fold path. rewrite Hm, Ho. cbn [negb default].
      rewrite bool_decide_eq_true_2 by done. cbn [from_option id]. rewrite Hs.
      fold (Getenv_or env "VOID_RECEIPTS_SELLER_SEED" demoSellerSeedHex). rewrite Hseed.
      destruct seed as [|b seed]; [done|]. cbn [NewProcessor]. fold addr. rewrite Hw. done.
  - intros e He.
    destruct (DialContext _) as [client|] eqn:Hd; [|injection He as <-; by left].
    right. exists client. split; [done|]. cbn zeta.
    destruct (ChainID client) as [[chainID|] client'] eqn:Hc; [|injection He as <-; by left].
    right. destruct (HexToECDSA _) as [key|] eqn:Hk; [|injection He as <-; by eexists].
    destruct (NewKeyedTransactorWithChainID key chainID) as [auth|] eqn:Ha;
      [|injection He as <-; by eexists].
    exfalso. destruct (startReceiptWatcher _ _ _ _ _ _) as [[[]]|]; done.
Qed.
End Requests.

(** ** The payments on the chain *)
Section OnChain.
Context {St : Type} `{KaitaiStreamLaws St} `{Ed25519} `{EthCommon} `{RecordCodec}.
Context {C D : Type} `{GinContextLaws C gin_H} `{GinContextLaws D egress_body}.
Context {B : Type} `{!BoundContract B} `{!BoundContractLaws B}.
Variables (c0 : C) (d0 : D).
Hypothesis fresh_c0 : IsAborted c0 = false ∧ responses c0 = [].
Hypothesis fresh_d0 : responses d0 = [].

(** Accepted payments settle. If the requests pay for distinct nonces the
    contract has not seen, in USDC and to a wallet that is not zero, and the node
    takes every batch at one of its two attempts, then whatever else is requested and
    whenever the interval timer fires in between, after it has fired once more the
    buffer is empty and the contract holds what it held and exactly those payments. *)
Theorem accepted_payments_settle encodes (I : B → Prop) db k0 eg rc events paid :
  gets_through (λ b _, Forall encodes b) I → I k0 → storage_wf (storage k0) →
  Forall2 (request_pays db) (bodies events) paid → Forall encodes (omap id paid) →
  Forall payable (omap id paid) → NoDup (SI_TxNonce <$> omap id paid) →
  Forall (λ i, storage k0 !! SI_TxNonce i = None) (omap id paid) →
  ∃ t replies g' s w k,
    serve_all (St := St) c0 d0 (events ++ [Timer t]) (fresh_gateway db k0 eg rc) =
      Some (replies, g') ∧
    gw_submitter g' = Some ((s, w), k) ∧ buf s = [] ∧
    storage k = record_all (omap id paid) (storage k0).
Proof.
  intros Hthru HI Hwf Hpaid Henc Hpay Hnd Hfresh.
  destruct (serve_all_accounts (St := St) c0 d0 fresh_c0 fresh_d0 (only_batches k0) events []
    (fresh_gateway db k0 eg rc) _ (only_batches_submit k0) eq_refl (accounts_new _ k0 eq_refl))
    as (replies & g1 & paid' & [[s w] k] & Hall & _ & _ & Hpaid' & Hst & (tk & Hi & Hc & Hmax & Hk)).
  cbn [fst snd app] in *. unfold only_batches in Hk. subst k.
  rewrite <- (requests_pay_unique _ _ _ _ Hpaid Hpaid') in Hi.
  destruct (timer_empties g1 s w _ _ tk Hst Hc Hi) as (t & s' & w' & Hb & Hg).
  exists t, replies, (timer_fires t g1), s', w'. eexists. split; [|split; [exact Hg|split; [done|]]].
  { rewrite serve_all_timer, Hall. done. }
  destruct Hi as [_ I2 _ _ _ _ I7 I8]. rewrite Hmax in *. unfold DefaultMaxBatch in *.
  assert (∃ bs, Forall (λ b : list SettlementIntent, 1 <= Z.of_nat (length b) <= 10) bs ∧
    omap id paid = concat bs ∧
    submit (buf s) (foldl (λ k b, submit b k) k0 tk) = foldl (λ k b, submit b k) k0 bs)
    as (bs & Hlen & Hbs & ->).
  { rewrite I7. destruct (decide (buf s = [])) as [E|Hne]; [exists tk|exists (tk ++ [buf s])].
    - rewrite E, app_nil_r. split_and!; [|done..]. revert I8. apply Forall_impl. lia.
    - rewrite concat_app, foldl_app. cbn. rewrite app_nil_r. split_and!; [|done..].
      apply list.Forall_app. split; [revert I8; apply Forall_impl; lia|].
      apply list.Forall_singleton. destruct (buf s); [done|cbn in *; lia]. }
  rewrite Hbs in *. by apply (submit_all_settles encodes I).
Qed.
End OnChain.

(** ** Witnesses: a node that always answers *)
#[local] Existing Instance json_codec.

#[local] Instance demo_eth_client : EthClient DemoNode := {
  PrivateKey := string;
  TransactOpts := string * Z;
  DialContext url := if String.eqb url defaultEthRPCURL then Some (fresh_node []) else None;
  ChainID k := (Some 31337, k);
  Client_Close k := k;
  HexToECDSA s := if Nat.eqb (String.length s) 64 then Some s else None;
  NewKeyedTransactorWithChainID key id := Some (key, id);
}.

Lemma fresh_context :
  IsAborted (new_context (P := gin_H)) = false ∧ responses (new_context (P := gin_H)) = [].
Proof. done. Qed.

Lemma fresh_egress_context : responses (new_context (P := egress_body)) = [].
Proof. done. Qed.

(** A telemetry packet, a poll and a payment; then the timer fires. *)
Definition demo_events : list event :=
  [Request (POST_ingest (Ok golden_ccsds_a)); Request GET_pending;
   Request (POST_ingest (Ok demo_b)); Timer 0; Request (POST_ingest (Err tt))].

Definition demo_env (name : string) : string :=
  if String.eqb name "VOID_ESCROW_ADDRESS" then "0xe7f1725E7734CE288F8367e1Bb143E90bb3F0512" else "".

Lemma gateway_submits_payments_witness :
  ∃ replies g' paid batches s w,
    serve_all (St := ListStream) (C := TraceContext gin_H) (D := TraceContext egress_body)
      new_context new_context demo_events (fresh_gateway demo_db (fresh_node []) None None) =
      Some (replies, g') ∧ length replies = 4%nat ∧
    Forall2 (request_pays demo_db) (bodies demo_events) paid ∧
    gw_submitter g' = Some ((s, w), foldl (λ k b, submit b k) (fresh_node []) batches).
Proof.
  destruct (gateway_submits_payments (St := ListStream) (C := TraceContext gin_H)
    (D := TraceContext egress_body) (K := DemoNode) new_context new_context fresh_context
    fresh_egress_context demo_db (fresh_node []) None None demo_events)
    as (replies & g' & paid & batches & s & w & Hrun & Hlen & _ & Hpaid & Hst & _).
  exists replies, g', paid, batches, s, w.
  split; [exact Hrun|]. split; [exact Hlen|]. split; [exact Hpaid|exact Hst].
Defined.

(** The run of that example, evaluated: the payment is on the chain. *)
Example demo_events_settle :
  (λ r, (length r.1, (λ st, (buf st.1.1, size (node_storage st.2))) <$> gw_submitter r.2)) <$>
  serve_all (St := ListStream) (C := TraceContext gin_H) (D := TraceContext egress_body)
    new_context new_context demo_events (fresh_gateway demo_db (fresh_node []) None None) =
  Some (4%nat, Some ([], 1%nat)).
Proof. vm_compute. reflexivity. Qed.

(** What exactly a frame pays for, computed. *)
Definition pays (raw : list byte) : option SettlementIntent :=
  match frame_verdict demo_db (the_frame raw) raw with
  | Accept => payment_intent demo_db (fr_body (the_frame raw))
  | Reject _ _ => None
  end.

Lemma request_pays_frame raw :
  is_Some (decode_frame raw) → raw ≠ [] → request_pays demo_db (Ok raw) (pays raw).
Proof.
  intros Hd Hne. destruct (the_frame_ok raw Hd) as [Hwf Hraw].
  destruct raw as [|x raw]; [done|]. right. exists (the_frame (x :: raw)), [].
  split; [exact Hwf|]. rewrite app_nil_r. split; [exact Hraw|]. unfold pays. by rewrite <- Hraw.
Qed.

Lemma demo_pays : ∃ i, pays demo_b = Some i ∧ payable i.
Proof.
  assert ((λ i, (SI_AssetId i =? USDC_ASSET_ID, bool_decide (SI_Wallet i = zero_address)))
    <$> pays demo_b = Some (true, false)) as H by (vm_compute; reflexivity).
  destruct (pays demo_b) as [i|]; [|discriminate H]. exists i. split; [reflexivity|].
  cbn in H. injection H as H1 H2. split; [by apply Z.eqb_eq|by apply bool_decide_eq_false in H2].
Qed.

Lemma demo_bodies_pay :
  Forall2 (request_pays demo_db) (bodies demo_events) [None; pays demo_b; None].
Proof.
  assert (pays golden_ccsds_a = None) as Ha by (vm_compute; reflexivity).
  apply list.Forall2_cons_2; [|apply list.Forall2_cons_2; [|apply list.Forall2_cons_2; [|apply list.Forall2_nil_2]]].
  - rewrite <- Ha. apply request_pays_frame; [vm_compute; eexists; reflexivity|discriminate].
  - apply request_pays_frame; [vm_compute; eexists; reflexivity|discriminate].
  - reflexivity.
Qed.

(** The payment of the example settles. *)
Lemma accepted_payments_settle_witness :
  ∃ t replies g' s w k,
    serve_all (St := ListStream) (C := TraceContext gin_H) (D := TraceContext egress_body)
      new_context new_context (demo_events ++ [Timer t])
      (fresh_gateway demo_db (fresh_node []) None None) = Some (replies, g') ∧
    gw_submitter g' = Some ((s, w), k) ∧ buf s = [] ∧ is_Some (pays demo_b) ∧
    storage k = record_all (option_list (pays demo_b)) ∅.
Proof.
  destruct demo_pays as (i & Hi & Hpay).
  assert (Forall2 (request_pays demo_db) (bodies demo_events) [None; Some i; None]) as Hpaid.
  { rewrite <- Hi. exact demo_bodies_pay. }
  destruct (accepted_payments_settle (St := ListStream) (C := TraceContext gin_H)
    (D := TraceContext egress_body) (B := DemoNode) new_context new_context fresh_context
    fresh_egress_context (λ _, True) (λ k, faults k = []) demo_db (fresh_node []) None None demo_events
    [None; Some i; None] faultless_gets_through eq_refl (fresh_node_wf []) Hpaid)
    as (t & replies & g' & s & w & k & Hrun & Hst & Hb & Hk).
  - by apply list.Forall_singleton.
  - by apply list.Forall_singleton.
  - apply list.NoDup_singleton.
  - apply list.Forall_singleton. exact (lookup_empty (SI_TxNonce i)).
  - exists t, replies, g', s, w, k. rewrite Hi. split; [exact Hrun|]. split; [exact Hst|].
    split; [exact Hb|]. split; [by exists i|exact Hk].
Defined.

Lemma gateway_offline_witness :
  ∃ db, boot (K := DemoNode) (λ _, ""%string) (λ _, false) (λ _, None) None ∅ =
    Some (Ok {| gw_db := db; gw_submitter := None; gw_egress := None; gw_receipts := None |}).
Proof.
  destruct (gateway_offline (St := ListStream) (C := TraceContext gin_H)
    (D := TraceContext egress_body) (K := DemoNode) new_context new_context fresh_context
    fresh_egress_context (λ _, ""%string) (λ _, false) (λ _, None) None ∅ eq_refl) as (db & Hboot & _).
  exists db. exact Hboot.
Defined.

Lemma boot_outcome_witness :
  ∃ r, boot (H0 := toy_eth) (K := DemoNode) demo_env (λ _, true) (λ _, Some []) (Some (demo_event_id : @Hash toy_eth)) ∅ = Some r ∧
    is_ok r = true.
Proof.
  destruct (boot_outcome (K := DemoNode) demo_env (λ _, true) (λ _, Some []) (Some (demo_event_id : @Hash toy_eth)) ∅)
    as (r & Hboot & _); [discriminate|].
  exists r. split; [exact Hboot|].
  assert (is_ok <$> boot (H0 := toy_eth) (K := DemoNode) demo_env (λ _, true) (λ _, Some []) (Some (demo_event_id : @Hash toy_eth)) ∅
    = Some true) as Hok by (vm_compute; reflexivity).
  rewrite Hboot in Hok. cbn in Hok. congruence.
Defined.
