(* ===== verification/Ledger.v ===== *)
(** * The node and its ledger

    [cmd/server/main.go] hands one [ethclient] to the submitter and to the watcher. So
    the node is one object that takes transactions ([Transact]) and answers queries
    ([BlockNumber], [FilterLogs], [HeaderByNumber]): [ChainNode]. What it keeps is a
    ledger, a list of blocks of transactions to the contract of [Escrow]; storage,
    logs and block times are functions of the ledger.

    [ChainNodeLaws] states how a node without reorganisations behaves; its calls may
    fail. From them follow the laws the submitter and the watcher were proved
    against ([BoundContractLaws], [EventFiltererLaws]). *)
From S2P Require Export Pipeline.
#[local] Open Scope Z_scope.

(** ** Ledgers *)
Section Ledger.
Context `{EthCommon}.

(** A transaction to [settleBatch] that did not revert. *)
Record tx := { tx_hash : Hash; tx_intents : list SettlementIntent }.
Record block := { blk_time : Z; blk_txs : list tx }.
Notation ledger := (list block).
Implicit Types (L : list block) (i : SettlementIntent).

Definition ledger_txs L : list tx := concat (blk_txs <$> L).
Definition ledger_intents L : list SettlementIntent := concat (tx_intents <$> ledger_txs L).

(** Execution of successful transactions in order. *)
Fixpoint run_txs (txs : list tx) (st : gmap Z Settlement) : option (gmap Z Settlement) :=
  match txs with
  | [] => Some st
  | t :: txs =>
      match settleBatch (tx_intents t) st with
      | Ok (st, _) => run_txs txs st
      | Err _ => None
      end
  end.

(** A chain with a genesis block, whose transactions all executed. *)
Record ledger_wf L : Prop := {
  lw_genesis : L ≠ [];
  lw_size : Z.of_nat (length L) < 2 ^ 64;
  lw_times : Forall (λ b, in_u 64 (blk_time b)) L;
  lw_runs : is_Some (run_txs (ledger_txs L) ∅);
  lw_types : Forall intent_wf (ledger_intents L);
}.

Definition ledger_storage L : gmap Z Settlement := record_all (ledger_intents L) ∅.

(** What the watcher makes of the log of a settled intent. *)
Definition event_of (n : Z) (time : Z) (hash : Hash) i : SettlementEvent :=
  {| Ev_SatID := SI_SatId i; Ev_Amount := SI_Amount i; Ev_TxNonce := SI_TxNonce i;
     Ev_Wallet := SI_Wallet i; Ev_TxHash := hash; Ev_BlockNumber := n;
     Ev_BlockTimeSec := time |}.

(** The intents of a block with the hashes of their transactions. *)
Definition block_settled (b : block) : list (Hash * SettlementIntent) :=
  concat ((λ t, (tx_hash t,.) <$> tx_intents t) <$> blk_txs b).

Definition block_events (n : Z) (b : block) : list SettlementEvent :=
  (λ x, event_of n (blk_time b) x.1 x.2) <$> block_settled b.

Definition block_event_logs (id : Hash) (n : Z) (b : block) : list Log :=
  imap (λ j x, event_log id x.1 n (Z.of_nat j) (created_of x.2)) (block_settled b).

Definition block_at L (n : Z) : option block := if n <? 0 then None else L !! Z.to_nat n.

(** The settlements in the blocks [from] to [to]. *)
Definition events_between L (from to : Z) : list SettlementEvent :=
  concat ((λ n, match block_at L n with Some b => block_events n b | None => [] end)
            <$> seqZ from (to - from + 1)).

Definition ledger_events L : list SettlementEvent :=
  events_between L 0 (Z.of_nat (length L) - 1).

Lemma ledger_txs_snoc L b : ledger_txs (L ++ [b]) = ledger_txs L ++ blk_txs b.
Proof. unfold ledger_txs. rewrite fmap_app, concat_app. cbn. by rewrite app_nil_r. Qed.

Lemma ledger_intents_snoc L b :
  ledger_intents (L ++ [b]) = ledger_intents L ++ concat (tx_intents <$> blk_txs b).
Proof. unfold ledger_intents. by rewrite ledger_txs_snoc, fmap_app, concat_app. Qed.

Lemma record_all_app l1 l2 st : record_all (l1 ++ l2) st = record_all l2 (record_all l1 st).
Proof. unfold record_all. apply foldl_app. Qed.

(** Executed transactions have payable intents and distinct fresh nonces. *)
Lemma run_txs_spec txs st st' :
  storage_wf st → run_txs txs st = Some st' →
  let ints := concat (tx_intents <$> txs) in
  st' = record_all ints st ∧ storage_wf st' ∧ Forall payable ints ∧ NoDup (SI_TxNonce <$> ints) ∧
  Forall (λ i, st !! SI_TxNonce i = None) ints.
Proof.
  revert st. induction txs as [|t txs IH]; intros st Hwf; cbn [run_txs fmap list_fmap concat].
  { intros [= <-]. split_and!; [done|done|constructor|constructor|constructor]. }
  destruct (settleBatch (tx_intents t) st) as [[st1 evs]|e] eqn:E; [|done]. intros Hrun.
  pose proof (settleBatch_wf _ _ _ _ Hwf E) as Hwf1.
  apply settleBatch_ok in E as (_ & Hp & Hnd & Hf & [= -> _]); [|done].
  destruct (IH _ Hwf1 Hrun) as (-> & Hwf' & Hp' & Hnd' & Hf'). split; [by rewrite record_all_app|].
  split; [done|]. split; [by apply Forall_app|].
  rewrite list.Forall_forall in Hf'.
  assert (∀ i j, i ∈ tx_intents t → j ∈ concat (tx_intents <$> txs) → SI_TxNonce i ≠ SI_TxNonce j) as Hne.
  { intros i j Hi Hj E. specialize (Hf' j Hj). rewrite <- E, lookup_record_in in Hf' by done. done. }
  split.
  - rewrite fmap_app. apply list.NoDup_app. split_and!; [done| |done].
    intros n (i & -> & Hi)%list_elem_of_fmap (j & E & Hj)%list_elem_of_fmap. by apply (Hne i j).
  - apply list.Forall_app. split; [done|]. apply list.Forall_forall. intros j Hj.
    specialize (Hf' j Hj). rewrite lookup_record_all in Hf'; [done|]. intros i Hi E. by apply (Hne i j).
Qed.

Lemma storage_wf_empty : storage_wf (∅ : gmap Z Settlement).
Proof. intros n s Hs. by rewrite lookup_empty in Hs. Qed.

(** The contract lets a nonce through once. *)
Lemma ledger_wf_settled L :
  ledger_wf L →
  storage_wf (ledger_storage L) ∧ Forall payable (ledger_intents L) ∧
  NoDup (SI_TxNonce <$> ledger_intents L).
Proof.
  intros [_ _ _ [st Hrun] _].
  destruct (run_txs_spec _ _ _ storage_wf_empty Hrun) as (-> & Hwf & Hp & Hnd & _). done.
Qed.

(** *** Blocks and their events *)
Lemma block_at_lt L n b : block_at L n = Some b → 0 <= n < Z.of_nat (length L).
Proof.
  unfold block_at. destruct (Z.ltb_spec n 0); [done|]. intros Hb%lookup_lt_Some. lia.
Qed.

Lemma block_at_app L L' n : n < Z.of_nat (length L) → block_at (L ++ L') n = block_at L n.
Proof.
  unfold block_at. intros Hn. destruct (Z.ltb_spec n 0); [done|].
  rewrite lookup_app_l; [done|]. lia.
Qed.

Lemma elem_of_events_between L from to ev :
  ev ∈ events_between L from to ↔
  ∃ n b, from <= n <= to ∧ block_at L n = Some b ∧ ev ∈ block_events n b.
Proof.
  unfold events_between. rewrite list_elem_of_concat. split.
  - intros (evs & Hev & (n & -> & Hn)%list_elem_of_fmap). apply elem_of_seqZ in Hn.
    destruct (block_at L n) as [b|] eqn:Hb; [|by apply elem_of_nil in Hev].
    exists n, b. split_and!; [lia|lia|done|done].
  - intros (n & b & Hn & Hb & Hev). exists (block_events n b). split; [done|].
    apply list_elem_of_fmap. exists n. rewrite Hb. split; [done|]. apply elem_of_seqZ. lia.
Qed.

Lemma elem_of_block_events n b ev :
  ev ∈ block_events n b ↔
  ∃ t i, t ∈ blk_txs b ∧ i ∈ tx_intents t ∧ ev = event_of n (blk_time b) (tx_hash t) i.
Proof.
  unfold block_events, block_settled. rewrite list_elem_of_fmap. split.
  - intros ([h i] & -> & (xs & Hx & (t & -> & Ht)%list_elem_of_fmap)%list_elem_of_concat).
    apply list_elem_of_fmap in Hx as (i' & [= -> ->] & Hi). by exists t, i'.
  - intros (t & i & Ht & Hi & ->). exists (tx_hash t, i). split; [done|].
    apply list_elem_of_concat. exists ((tx_hash t,.) <$> tx_intents t).
    split; [by apply list_elem_of_fmap_2|].
    by apply (list_elem_of_fmap_2 (λ t, (tx_hash t,.) <$> tx_intents t)).
Qed.

Lemma elem_of_ledger_events L ev :
  ev ∈ ledger_events L ↔
  ∃ n b t i, block_at L n = Some b ∧ t ∈ blk_txs b ∧ i ∈ tx_intents t ∧
    ev = event_of n (blk_time b) (tx_hash t) i.
Proof.
  unfold ledger_events. rewrite elem_of_events_between. split.
  - intros (n & b & _ & Hb & (t & i & ?)%elem_of_block_events). by exists n, b, t, i.
  - intros (n & b & t & i & Hb & Hev). pose proof (block_at_lt _ _ _ Hb).
    exists n, b. split; [lia|]. split; [done|]. apply elem_of_block_events. eauto.
Qed.

Lemma events_between_app L L' from to :
  to < Z.of_nat (length L) → events_between (L ++ L') from to = events_between L from to.
Proof.
  intros Hto. unfold events_between. f_equal. apply list_fmap_ext. intros j n Hj.
  apply list_elem_of_lookup_2, elem_of_seqZ in Hj. by rewrite block_at_app by lia.
Qed.

Lemma ledger_events_mono L L' ev : ev ∈ ledger_events L → ev ∈ ledger_events (L ++ L').
Proof.
  rewrite !elem_of_ledger_events. intros (n & b & t & i & Hb & Hev).
  pose proof (block_at_lt _ _ _ Hb). exists n, b, t, i. by rewrite block_at_app by lia.
Qed.

Lemma block_at_elem L n b : block_at L n = Some b → b ∈ L.
Proof. unfold block_at. destruct (n <? 0); [done|]. apply list_elem_of_lookup_2. Qed.

Lemma elem_of_ledger_intents L i :
  i ∈ ledger_intents L ↔ ∃ b t, b ∈ L ∧ t ∈ blk_txs b ∧ i ∈ tx_intents t.
Proof.
  unfold ledger_intents, ledger_txs. rewrite list_elem_of_concat. split.
  - intros (l & Hi & (t & -> & (l' & Ht & (b & -> & Hb)%list_elem_of_fmap)%list_elem_of_concat)
      %list_elem_of_fmap). eauto.
  - intros (b & t & Hb & Ht & Hi). exists (tx_intents t). split; [done|].
    apply list_elem_of_fmap_2, list_elem_of_concat. exists (blk_txs b). split; [done|].
    by apply list_elem_of_fmap_2.
Qed.

(** Every settled intent has its event, and every event its intent. *)
Lemma ledger_event_intent L ev :
  ev ∈ ledger_events L → ∃ i, i ∈ ledger_intents L ∧ Ev_TxNonce ev = SI_TxNonce i ∧
    Ev_Amount ev = SI_Amount i ∧ Ev_SatID ev = SI_SatId i ∧ Ev_Wallet ev = SI_Wallet i.
Proof.
  rewrite elem_of_ledger_events. intros (n & b & t & i & Hb & Ht & Hi & ->). exists i.
  split; [|done]. apply elem_of_ledger_intents. apply block_at_elem in Hb. eauto.
Qed.

Lemma ledger_intent_event L i :
  i ∈ ledger_intents L → ∃ n b t, block_at L n = Some b ∧ t ∈ blk_txs b ∧ i ∈ tx_intents t ∧
    event_of n (blk_time b) (tx_hash t) i ∈ ledger_events L.
Proof.
  rewrite elem_of_ledger_intents. intros (b & t & [n Hn]%list_elem_of_lookup & Ht & Hi).
  assert (block_at L (Z.of_nat n) = Some b) as Hb.
  { unfold block_at. destruct (Z.ltb_spec (Z.of_nat n) 0); [lia|]. by rewrite Nat2Z.id. }
  exists (Z.of_nat n), b, t. split_and!; [done..|]. apply elem_of_ledger_events. by exists (Z.of_nat n), b, t, i.
Qed.

(** A nonce is settled by one transaction. *)
Lemma NoDup_fmap_elem {A B} (f : A → B) (l : list A) x y :
  NoDup (f <$> l) → x ∈ l → y ∈ l → f x = f y → x = y.
Proof.
  intros Hnd [a Ha]%list_elem_of_lookup [b Hb]%list_elem_of_lookup E.
  assert (a = b) as <-; [|congruence].
  eapply NoDup_lookup; [exact Hnd|rewrite list_lookup_fmap, Ha; reflexivity|].
  by rewrite list_lookup_fmap, Hb, E.
Qed.

Lemma block_settled_intents b : snd <$> block_settled b = concat (tx_intents <$> blk_txs b).
Proof.
  unfold block_settled. induction (blk_txs b) as [|t txs IH]; [done|]. cbn [fmap list_fmap concat].
  rewrite fmap_app. f_equal; [|exact IH]. rewrite <- list_fmap_compose.
  rewrite <- (list_fmap_id (tx_intents t)) at 2. done.
Qed.

Lemma settled_intents L : snd <$> concat (block_settled <$> L) = ledger_intents L.
Proof.
  unfold ledger_intents, ledger_txs. induction L as [|b L IH]; [done|]. cbn [fmap list_fmap concat].
  by rewrite fmap_app, block_settled_intents, IH, fmap_app, concat_app.
Qed.

Lemma ledger_event_settled L ev :
  ev ∈ ledger_events L → ∃ x, x ∈ concat (block_settled <$> L) ∧ Ev_TxHash ev = x.1 ∧
    Ev_TxNonce ev = SI_TxNonce x.2.
Proof.
  rewrite elem_of_ledger_events. intros (n & b & t & i & Hb & Ht & Hi & ->). exists (tx_hash t, i).
  split; [|done]. apply list_elem_of_concat. exists (block_settled b). split.
  - apply list_elem_of_concat. exists ((tx_hash t,.) <$> tx_intents t).
    split; [by apply list_elem_of_fmap_2|]. by apply (list_elem_of_fmap_2 (λ t, (tx_hash t,.) <$> tx_intents t)).
  - apply list_elem_of_fmap_2. by eapply block_at_elem.
Qed.

Lemma ledger_nonce_hash L ev ev' :
  ledger_wf L → ev ∈ ledger_events L → ev' ∈ ledger_events L → Ev_TxNonce ev = Ev_TxNonce ev' →
  Ev_TxHash ev = Ev_TxHash ev'.
Proof.
  intros HL (x & Hx & -> & Hn)%ledger_event_settled (x' & Hx' & -> & Hn')%ledger_event_settled E.
  destruct (ledger_wf_settled L HL) as (_ & _ & Hnd).
  rewrite <- settled_intents, <- list_fmap_compose in Hnd.
  by rewrite (NoDup_fmap_elem _ _ x x' Hnd Hx Hx') by (cbn; congruence).
Qed.
End Ledger.

(** ** The node *)
Section Node.
Context `{EthCommon}.

(** Beside the calls of the gateway: somebody else sends [settleBatch], which the
    contract lets anyone do, and a block is mined without the gateway. *)
Class ChainNode (K : Type) := {
  #[global] cn_transact :: BoundContract K;
  #[global] cn_filter :: EventFilterer K;
  Foreign : list SettlementIntent → K → K;
  Mine : K → K;
}.

(** [txs] is one block more or nothing. *)
Definition mined (L L' : list block) (txs : list tx) : Prop :=
  ∃ t, L' = L ++ [{| blk_time := t; blk_txs := txs |}].

Class ChainNodeLaws (K : Type) `{!ChainNode K} := {
  escrow_address : Address;
  created_id : Hash;
  ledger_of : K → list block;
  ledger_of_wf k : ledger_wf (ledger_of k);
  (** Refused or not sent; or executed in a block of its own, and then the answer may
      be lost. What does not encode as calldata is refused. *)
  Transact_law intents k : let '(r, k') := Transact intents k in
    (r = None ∧ ledger_of k' = ledger_of k) ∨
    ∃ h, Forall intent_wf intents ∧ is_ok (settleBatch intents (ledger_storage (ledger_of k))) = true ∧
      mined (ledger_of k) (ledger_of k') [{| tx_hash := h; tx_intents := intents |}] ∧
      (r = None ∨ r = Some h);
  Foreign_law intents k :
    ledger_of (Foreign intents k) = ledger_of k ∨
    ∃ h, is_ok (settleBatch intents (ledger_storage (ledger_of k))) = true ∧
      mined (ledger_of k) (ledger_of (Foreign intents k)) [{| tx_hash := h; tx_intents := intents |}];
  Mine_law k :
    ledger_of (Mine k) = ledger_of k ∨ mined (ledger_of k) (ledger_of (Mine k)) [];
  BlockNumber_ledger k :
    ((BlockNumber k).1 = None ∨ (BlockNumber k).1 = Some (Z.of_nat (length (ledger_of k)) - 1)) ∧
    ledger_of (BlockNumber k).2 = ledger_of k;
  HeaderByNumber_ledger n k :
    ((HeaderByNumber n k).1 = None ∨ (HeaderByNumber n k).1 = blk_time <$> block_at (ledger_of k) n) ∧
    ledger_of (HeaderByNumber n k).2 = ledger_of k;
  (** The logs of a block by address and topic; of those of the contract's event we
      know what they are. *)
  node_logs : list block → Address → Hash → Z → list Log;
  node_logs_number L a id n l : l ∈ node_logs L a id n → Log_BlockNumber l = n;
  node_logs_created L n : node_logs L escrow_address created_id n =
    match block_at L n with Some b => block_event_logs created_id n b | None => [] end;
  FilterLogs_ledger a id from to k :
    0 <= from <= to → to < Z.of_nat (length (ledger_of k)) →
    let q := {| FromBlock := from; ToBlock := to; Addresses := [a]; Query_Topics := [[id]] |} in
    (FilterLogs q k).1 = None ∨
    (FilterLogs q k).1 = Some (concat (node_logs (ledger_of k) a id <$> seqZ from (to - from + 1)));
  FilterLogs_keeps q k : ledger_of (FilterLogs q k).2 = ledger_of k;
}.
End Node.

(** *** The node as the submitter's contract *)
Section Contract.
Context `{EthCommon} {K : Type} `{!ChainNode K} `{!ChainNodeLaws K}.

Lemma storage_mined L L' intents h st evs :
  ledger_wf L → settleBatch intents (ledger_storage L) = Ok (st, evs) →
  mined L L' [{| tx_hash := h; tx_intents := intents |}] → ledger_storage L' = st.
Proof.
  intros HL Hs [t ->]. apply ledger_wf_settled in HL as (Hwf & _ & _).
  apply settleBatch_ok in Hs as (_ & _ & _ & _ & [= -> _]); [|done].
  unfold ledger_storage. rewrite ledger_intents_snoc, record_all_app. cbn. by rewrite app_nil_r.
Qed.

#[global, refine] Instance node_contract_laws : BoundContractLaws K :=
  {| storage k := ledger_storage (ledger_of k) |}.
Proof.
  - intros intents k e He. pose proof (Transact_law intents k) as Ht.
  destruct (Transact intents k) as [r k']. cbn [fst snd].
  destruct Ht as [[-> ->]|(h & _ & Hs & _)]; [done|]. cbn in He.
  rewrite He in Hs. discriminate Hs.
  - intros intents k st evs Hs. pose proof (Transact_law intents k) as Ht.
  destruct (Transact intents k) as [r k']. cbn [fst snd].
  destruct Ht as [[-> ->]|(h & _ & _ & Hm & _)]; [by right|left].
  eapply storage_mined; [apply ledger_of_wf|exact Hs|exact Hm].
Defined.
(** The ledger is extended, by blocks that settle [ints]. *)
Definition grows (L L' : list block) (ints : list SettlementIntent) : Prop :=
  ∃ M, L' = L ++ M ∧ ledger_intents M = ints.

Lemma ledger_intents_app L M : ledger_intents (L ++ M) = ledger_intents L ++ ledger_intents M.
Proof. unfold ledger_intents, ledger_txs. by rewrite !fmap_app, !concat_app, fmap_app, concat_app. Qed.

Lemma grows_refl L : grows L L [].
Proof. exists []. by rewrite app_nil_r. Qed.

Lemma grows_trans L1 L2 L3 ints ints' :
  grows L1 L2 ints → grows L2 L3 ints' → grows L1 L3 (ints ++ ints').
Proof.
  intros (M & -> & <-) (M' & -> & <-). exists (M ++ M'). by rewrite app_assoc, ledger_intents_app.
Qed.

Lemma grows_intents L L' ints : grows L L' ints → ledger_intents L' = ledger_intents L ++ ints.
Proof. intros (M & -> & <-). apply ledger_intents_app. Qed.

Lemma mined_grows L L' h intents :
  mined L L' [{| tx_hash := h; tx_intents := intents |}] → grows L L' intents.
Proof. intros [t ->]. eexists. split; [done|]. unfold ledger_intents. cbn. apply app_nil_r. Qed.

Lemma Foreign_grows intents (k : K) :
  grows (ledger_of k) (ledger_of (Foreign intents k)) [] ∨
  grows (ledger_of k) (ledger_of (Foreign intents k)) intents.
Proof.
  destruct (Foreign_law intents k) as [->|(h & _ & Hm)]; [left; apply grows_refl|right].
  by eapply mined_grows.
Qed.

Lemma Mine_grows (k : K) : grows (ledger_of k) (ledger_of (Mine k)) [].
Proof. destruct (Mine_law k) as [->|[t ->]]; [apply grows_refl|]. by eexists. Qed.

Lemma SettleBatch_grows batch (k : K) :
  let L' := ledger_of (SettleBatch batch k).2 in
  L' = ledger_of k ∨
  (grows (ledger_of k) L' batch ∧ is_ok (settleBatch batch (ledger_storage (ledger_of k))) = true).
Proof.
  unfold SettleBatch, EscrowClient_IntentSubmitter, EscrowClient_SettleBatch.
  destruct (Nat.eqb (length batch) 0); [by left|]. pose proof (Transact_law batch k) as Ht.
  destruct (Transact batch k) as [[h|] k']; cbn [snd].
  - destruct Ht as [[? _]|(h' & _ & Hs & Hm & _)]; [done|right]. split; [by eapply mined_grows|done].
  - destruct Ht as [[_ ->]|(h' & _ & Hs & Hm & _)]; [by left|right].
    split; [by eapply mined_grows|done].
Qed.

(** A batch is settled at most once. *)
Lemma submit_grows batch (k : K) :
  grows (ledger_of k) (ledger_of (submit batch k)) [] ∨
  grows (ledger_of k) (ledger_of (submit batch k)) batch.
Proof.
  unfold submit. destruct (Nat.eqb (length batch) 0); [left; apply grows_refl|].
  unfold submitRetries. cbn [submit_attempts].
  pose proof (SettleBatch_grows batch k) as H1. destruct (SettleBatch batch k) as [r1 k1].
  cbn [snd] in H1. destruct (is_ok r1).
  { destruct H1 as [->|[Hg _]]; [left; apply grows_refl|by right]. }
  pose proof (SettleBatch_grows batch k1) as H2. destruct (SettleBatch batch k1) as [r2 k2].
  cbn [snd] in H2. assert (∀ b : bool, (if b then k2 else k2) = k2) as -> by by intros [].
  destruct H1 as [E1|[Hg1 Hs1]]; rewrite ?E1 in H2.
  { destruct H2 as [->|[Hg _]]; [left; apply grows_refl|by right]. }
  right. destruct H2 as [->|[_ Hs2]]; [done|exfalso].
  destruct (ledger_wf_settled _ (ledger_of_wf k)) as (Hwf & _ & _).
  destruct (settleBatch batch (ledger_storage (ledger_of k))) as [[st evs]|] eqn:E; [|done].
  assert (ledger_storage (ledger_of k1) = st) as Est.
  { apply settleBatch_ok in E as (_ & _ & _ & _ & [= -> _]); [|done].
    unfold ledger_storage. by rewrite (grows_intents _ _ _ Hg1), record_all_app. }
  rewrite Est in Hs2. destruct (settleBatch batch st) as [r|] eqn:E2; [|done].
  by destruct (replay_refused _ _ _ _ r Hwf E).
Qed.

Lemma submit_grows_through admits (I : K → Prop) batch (k : K) st evs :
  gets_through admits I → I k → admits batch k → settleBatch batch (ledger_storage (ledger_of k)) = Ok (st, evs) →
  grows (ledger_of k) (ledger_of (submit batch k)) batch.
Proof.
  intros Hthru HI Henc Hs. destruct (ledger_wf_settled _ (ledger_of_wf k)) as (Hwf & _ & _).
  pose proof (submit_settles admits I batch k st evs Hthru HI Henc Hwf Hs) as Hst.
  destruct (submit_grows batch k) as [Hg|Hg]; [exfalso|done]. cbn in Hst.
  unfold ledger_storage in Hst at 1. rewrite (grows_intents _ _ _ Hg), app_nil_r in Hst.
  fold (ledger_storage (ledger_of k)) in Hst. subst st.
  by destruct (replay_refused _ _ _ _ _ Hwf Hs Hs).
Qed.
End Contract.

(** *** The node as the watcher's chain *)
Section Chain.
Context `{EthCommon}.

(** Polling a client and what it is projected to. *)
Lemma poll_loop_hom {K1 K2} `{!EventFilterer K1} `{!EventFilterer K2} (f : K1 → K2) :
  (∀ n k, HeaderByNumber n (f k) = prod_map id f (HeaderByNumber n k)) →
  ∀ from logs events highest k,
    poll_loop from logs events highest (f k) =
    let '(evs, hi, err, k') := poll_loop from logs events highest k in (evs, hi, err, f k').
Proof.
  intros Hh from logs. induction logs as [|l logs IH]; intros events highest k; [done|].
  cbn [poll_loop]. destruct (decodeSettlementCreated l) as [ev|e]; [|done].
  destruct (from <=? Ev_BlockNumber ev); [|apply IH].
  rewrite Hh. destruct (HeaderByNumber (Ev_BlockNumber ev) k) as [[t|] k1]; cbn; [apply IH|done].
Qed.

Lemma Poll_hom {K1 K2} `{!EventFilterer K1} `{!EventFilterer K2} (f : K1 → K2) w k :
  (∀ k, BlockNumber (f k) = prod_map id f (BlockNumber k)) →
  (∀ q k, FilterLogs q (f k) = prod_map id f (FilterLogs q k)) →
  (∀ n k, HeaderByNumber n (f k) = prod_map id f (HeaderByNumber n k)) →
  Poll w (f k) = let '(evs, err, w', k') := Poll w k in (evs, err, w', f k').
Proof.
  intros Hb Hf Hh. unfold Poll. rewrite Hb. destruct (BlockNumber k) as [[head|] k1]; cbn; [|done].
  destruct (head <? nextBlock w); [done|]. rewrite Hf.
  destruct (FilterLogs _ k1) as [[[|l logs]|] k2]; cbn [prod_map fst snd id]; [done| |done].
  rewrite (poll_loop_hom f Hh). destruct (poll_loop _ _ _ _ k2) as [[[evs hi] [e|]] k3]; done.
Qed.

Context {K : Type} `{!ChainNode K} `{!ChainNodeLaws K}.

(** The states of the node in which its ledger is [L]; queries stay there. *)
Definition At (L : list block) : Type := { k : K | ledger_of k = L }.
Definition at_node {L} (a : At L) : K := `a.

Definition stays {A L} (q : K → A * K) (Hq : ∀ k, ledger_of (q k).2 = ledger_of k) (a : At L)
    : A * At L :=
  ((q (at_node a)).1, exist _ (q (at_node a)).2 (eq_trans (Hq (at_node a)) (proj2_sig a))).

#[local] Instance at_filter L : EventFilterer (At L) := {
  FilterLogs q := stays (FilterLogs q) (FilterLogs_keeps q);
  HeaderByNumber n := stays (HeaderByNumber n) (λ k, proj2 (HeaderByNumber_ledger n k));
  BlockNumber := stays BlockNumber (λ k, proj2 (BlockNumber_ledger k));
}.

#[local, refine] Instance at_filter_laws L : EventFiltererLaws (At L) := {
  block_logs := node_logs L;
  block_time n := match block_at L n with Some b => blk_time b | None => 0 end;
  head_of _ := Z.of_nat (length L) - 1;
}.
Proof.
  - intros [k Hk]. destruct (ledger_of_wf k) as [Hg Hs _ _ _]. rewrite Hk in *.
    destruct L; [done|]. cbn [length] in *. lia.
  - apply node_logs_number.
  - intros [k Hk]. destruct (BlockNumber_ledger k) as [Hb _]. by rewrite Hk in Hb.
  - done.
  - done.
  - done.
  - intros a id from to [k Hk] Hr Hto.
    pose proof (FilterLogs_ledger a id from to k Hr) as Hf. rewrite Hk in Hf. apply Hf. lia.
  - intros n [k Hk] Hn. destruct (HeaderByNumber_ledger n k) as [[Hh|Hh] _]; [by left|].
    cbn. rewrite Hh, Hk. destruct (block_at L n); [by right|by left].
Defined.

Lemma block_event_logs_number id n b l : l ∈ block_event_logs id n b → Log_BlockNumber l = n.
Proof.
  unfold block_event_logs. intros [j Hj]%list_elem_of_lookup. rewrite list_lookup_imap in Hj.
  destruct (block_settled b !! j); [|done]. by injection Hj as <-.
Qed.
Context `{!EthCommonLaws}.

Lemma announces_concat L {A} (f : A → list Log) (g : A → list SettlementEvent) xs :
  (∀ x, x ∈ xs → announces (K := At L) (f x) (g x)) →
  announces (K := At L) (concat (f <$> xs)) (concat (g <$> xs)).
Proof.
  unfold announces. induction xs as [|x xs IH]; intros Hx; [constructor|]. cbn [fmap list_fmap concat].
  apply Forall2_app; [apply Hx; by left|]. apply IH. intros y Hy. apply Hx. by right.
Qed.

Lemma announces_unique L logs evs evs' :
  announces (K := At L) logs evs → announces (K := At L) logs evs' → evs = evs'.
Proof.
  intros Ha. revert evs'. induction Ha as [|l ev logs evs Hl _ IH]; intros evs' Ha'.
  - by apply Forall2_nil_inv_l in Ha' as ->.
  - apply Forall2_cons_inv_l in Ha' as (ev' & l' & Hl' & Ha' & ->).
    rewrite Hl in Hl'. injection Hl' as <-. f_equal. by apply IH.
Qed.

(** The watcher decodes the logs of a block as its events. *)
Lemma block_announces L n b :
  ledger_wf L → block_at L n = Some b →
  announces (K := At L) (block_event_logs created_id n b) (block_events n b).
Proof.
  intros HL Hb. unfold announces, block_event_logs, block_events.
  apply Forall2_same_length_lookup_2; [by rewrite length_imap, length_fmap|].
  intros j l ev. rewrite list_lookup_imap, list_lookup_fmap.
  destruct (block_settled b !! j) as [[h i]|] eqn:Hj; [|done]. intros [= <-] [= <-].
  assert (intent_wf i) as (Hs & Ha & _ & Hn & Hw).
  { pose proof (lw_types L HL) as Ht. rewrite list.Forall_forall in Ht. apply Ht.
    apply list_elem_of_lookup_2, list_elem_of_concat in Hj as (xs & Hx & (t & -> & Hin)%list_elem_of_fmap).
    apply list_elem_of_fmap in Hx as (i' & [= -> ->] & Hi). apply elem_of_ledger_intents.
    apply block_at_elem in Hb. eauto. }
  unfold decoded_log. rewrite decode_event_log by done. cbn. by rewrite Hb.
Qed.

Lemma ledger_announces L w from to :
  ledger_wf L → w_contract w = escrow_address → eventTopic w = created_id →
  announces (K := At L) (logs_between (K := At L) w from to) (events_between L from to).
Proof.
  intros HL Hc Ht. unfold logs_between, events_between. apply announces_concat. intros n _.
  cbn [block_logs at_filter_laws]. rewrite Hc, Ht, node_logs_created.
  destruct (block_at L n) as [b|] eqn:Hb; [by apply block_announces|constructor].
Qed.

(** One round on the node. *)
Lemma Poll_node w (k : K) :
  w_contract w = escrow_address → eventTopic w = created_id → 0 <= nextBlock w →
  let '(evs, err, w', k') := Poll w k in
  let L := ledger_of k in
  ledger_of k' = L ∧
  w_contract w' = w_contract w ∧ eventTopic w' = eventTopic w ∧ w_interval w' = w_interval w ∧
  match err with
  | Some e => w' = w
  | None => nextBlock w <= nextBlock w' ∧ evs = events_between L (nextBlock w) (nextBlock w' - 1) ∧
      events_between L (nextBlock w') (Z.of_nat (length L) - 1) = [] ∧
      nextBlock w' <= Z.max (nextBlock w) (Z.of_nat (length L))
  end.
Proof.
  intros Hc Ht Hn. set (a := exist (λ k', ledger_of k' = ledger_of k) k eq_refl : At (ledger_of k)).
  pose proof (Poll_spec w a Hn) as Hs.
  pose proof (Poll_hom (at_node (L := ledger_of k)) w a) as Hh.
  change (at_node a) with k in Hh. rewrite Hh by (intros; apply surjective_pairing). clear Hh.
  destruct (Poll w a) as [[[evs err] w'] [k' Hk']]. cbn [at_node proj1_sig].
  destruct Hs as (_ & Hc' & Ht' & Hi' & Hs). cbn zeta.
  split; [exact Hk'|]. split_and!; [done..|].
  destruct err as [e|]; [by destruct Hs|]. destruct Hs as (Hle & Ha & Hnil & Hcur). split; [done|].
  change (head_of a) with (Z.of_nat (length (ledger_of k)) - 1) in *.
  pose proof (ledger_of_wf k) as HL. split.
  - by eapply announces_unique, ledger_announces.
  - split; [|lia].
    pose proof (ledger_announces _ w (nextBlock w') (Z.of_nat (length (ledger_of k)) - 1) HL Hc Ht) as Hl.
    rewrite Hnil in Hl. by apply Forall2_nil_inv_l in Hl.
Qed.

(** *** A node that answers *)
Record responsive (I : K → Prop) : Prop := {
  rs_head k : I k → is_Some (BlockNumber k).1 ∧ I (BlockNumber k).2;
  rs_logs a id from to k : I k → 0 <= from <= to → to < Z.of_nat (length (ledger_of k)) →
    let q := {| FromBlock := from; ToBlock := to; Addresses := [a]; Query_Topics := [[id]] |} in
    is_Some (FilterLogs q k).1 ∧ I (FilterLogs q k).2;
  rs_header n k : I k → is_Some (block_at (ledger_of k) n) →
    is_Some (HeaderByNumber n k).1 ∧ I (HeaderByNumber n k).2;
}.

Lemma poll_loop_responsive I from logs events highest (k : K) :
  responsive I → I k →
  (∀ l, l ∈ logs → is_Some (decoded_log (K := At (ledger_of k)) l) ∧
                   is_Some (block_at (ledger_of k) (Log_BlockNumber l))) →
  let '(_, _, err, k') := poll_loop from logs events highest k in err = None ∧ I k'.
Proof.
  intros HI. revert events highest k. induction logs as [|l logs IH]; intros events highest k Hk Hl; [done|].
  cbn [poll_loop]. destruct (Hl l ltac:(by left)) as [[ev Hd] Hb]. unfold decoded_log in Hd.
  destruct (decodeSettlementCreated l) as [ev0|] eqn:E; [clear Hd|done].
  assert (∀ events highest k', I k' → ledger_of k' = ledger_of k →
    let '(_, _, err, k'') := poll_loop from logs events highest k' in err = None ∧ I k'') as Hrest.
  { intros events' highest' k' Hk' EL. apply IH; [done|]. rewrite EL. intros l' Hl'. apply Hl. by right. }
  rewrite (decode_block l ev0 E).
  destruct (from <=? Log_BlockNumber l); [|by apply Hrest].
  destruct (rs_header I HI (Log_BlockNumber l) k Hk Hb) as [[t Ht] Hk1].
  destruct (HeaderByNumber_ledger (Log_BlockNumber l) k) as [_ EL].
  destruct (HeaderByNumber (Log_BlockNumber l) k) as [hdr k1]. cbn [fst snd] in *. subst hdr.
  by apply Hrest.
Qed.

Lemma Poll_responsive I w (k : K) :
  responsive I → I k → w_contract w = escrow_address → eventTopic w = created_id → 0 <= nextBlock w →
  let '(_, err, _, k') := Poll w k in err = None ∧ I k'.
Proof.
  intros HI Hk Hc Ht Hn. unfold Poll.
  destruct (rs_head I HI k Hk) as [[head Hh] Hk1]. destruct (BlockNumber_ledger k) as [Hb EL].
  destruct (BlockNumber k) as [h k1]. cbn [fst snd] in *. subst h. destruct Hb as [?|[= ->]]; [done|].
  destruct (Z.ltb_spec (Z.of_nat (length (ledger_of k)) - 1) (nextBlock w)); [done|].
  assert (0 <= nextBlock w <= Z.of_nat (length (ledger_of k)) - 1) as Hr by lia.
  rewrite <- EL in Hr. assert (Z.of_nat (length (ledger_of k1)) - 1 < Z.of_nat (length (ledger_of k1))) as Hto by lia.
  destruct (rs_logs I HI (w_contract w) (eventTopic w) _ _ k1 Hk1 Hr Hto) as [[logs Hf] Hk2].
  destruct (FilterLogs_ledger (w_contract w) (eventTopic w) _ _ k1 Hr Hto) as [Hl|Hl];
    [by rewrite Hl in Hf|clear Hf logs]. rewrite EL in Hl, Hk2.
  pose proof (FilterLogs_keeps {| FromBlock := nextBlock w; ToBlock := Z.of_nat (length (ledger_of k)) - 1;
    Addresses := [w_contract w]; Query_Topics := [[eventTopic w]] |} k1) as EL2.
  rewrite EL in EL2. destruct (FilterLogs _ k1) as [f k2]. cbn [fst snd] in *. subst f.
  change (concat _) with (logs_between (K := At (ledger_of k)) w (nextBlock w)
    (Z.of_nat (length (ledger_of k)) - 1)).
  pose proof (ledger_announces _ w (nextBlock w) (Z.of_nat (length (ledger_of k)) - 1)
    (ledger_of_wf k) Hc Ht) as Ha.
  assert (∀ l, l ∈ logs_between (K := At (ledger_of k)) w (nextBlock w)
      (Z.of_nat (length (ledger_of k)) - 1) →
    is_Some (decoded_log (K := At (ledger_of k)) l) ∧
    is_Some (block_at (ledger_of k) (Log_BlockNumber l))) as Hlogs.
  { intros l Hin. split.
    - destruct (announces_elem_l _ _ _ Ha Hin) as (ev & _ & ->). by eexists.
    - apply logs_between_elem in Hin. unfold block_at.
      destruct (Z.ltb_spec (Log_BlockNumber l) 0); [lia|]. apply lookup_lt_is_Some. lia. }
  clear Ha. revert Hlogs. generalize (logs_between (K := At (ledger_of k)) w (nextBlock w)
    (Z.of_nat (length (ledger_of k)) - 1)) as logs. rewrite <- EL2.
  intros [|l logs] Hlogs; [done|].
  pose proof (poll_loop_responsive I (nextBlock w) (l :: logs) [] (nextBlock w) k2 HI Hk2 Hlogs) as Hp.
  destruct (poll_loop _ _ _ _ k2) as [[[evs hi] err] k3]. destruct Hp as [-> Hk3]. done.
Qed.
End Chain.
