(* ===== verification/DemoChain.v ===== *)
(** * A node in memory

    An executable [ChainNode], on the identities of [toy_eth]: its calls fail as the
    lists of faults it carries say, and it obeys [ChainNodeLaws]. Without faults it is a
    node the liveness theorems of [System] speak of. *)
From S2P Require Export Ledger.
#[local] Open Scope Z_scope.

Definition mem_address : list byte := replicate 20 x42.
Definition mem_created : list byte := replicate 32 x43.

Definition genesis : block := {| blk_time := 1710000000; blk_txs := [] |}.

#[export] Instance intent_wf_dec (i : SettlementIntent) : Decision (intent_wf i).
Proof. unfold intent_wf, in_u. apply _. Defined.

(** ** Blocks a ledger takes *)
Definition can_add (L : list block) (b : block) : bool :=
  bool_decide (Z.of_nat (length L) + 1 < 2 ^ 64) && bool_decide (0 <= blk_time b < 2 ^ 64) &&
  bool_decide (Forall intent_wf (concat (tx_intents <$> blk_txs b))) &&
  bool_decide (Forall (λ t, length (tx_hash t : list byte) = 32%nat) (blk_txs b)) &&
  match run_txs (blk_txs b) (ledger_storage L) with Some _ => true | None => false end.

Definition extend (L : list block) (b : block) : list block := if can_add L b then L ++ [b] else L.

Lemma run_txs_app txs txs' st : run_txs (txs ++ txs') st = run_txs txs st ≫= run_txs txs'.
Proof.
  revert st. induction txs as [|t txs IH]; intros st; [done|]. cbn [app run_txs].
  destruct (settleBatch (tx_intents t) st) as [[st' evs]|e]; [apply IH|done].
Qed.

Lemma ledger_wf_snoc L b : ledger_wf L → can_add L b = true → ledger_wf (L ++ [b]).
Proof.
  intros [Hg Hs Ht [st Hr] Hty]. unfold can_add. rewrite !andb_true_iff, !bool_decide_eq_true.
  intros [[[[Hlen Htime] Htypes] _] Hrun]. split.
  - by destruct L.
  - rewrite length_app. cbn [length]. lia.
  - apply list.Forall_app. split; [done|]. by apply list.Forall_singleton.
  - rewrite ledger_txs_snoc, run_txs_app, Hr. cbn [mbind option_bind].
    destruct (run_txs_spec _ _ _ storage_wf_empty Hr) as [-> _].
    change (record_all _ ∅) with (ledger_storage L).
    revert Hrun. destruct (run_txs (blk_txs b) (ledger_storage L)); [by eexists|done].
  - rewrite ledger_intents_snoc. by apply list.Forall_app.
Qed.

Lemma extend_wf L b : ledger_wf L → ledger_wf (extend L b).
Proof. unfold extend. destruct (can_add L b) eqn:E; [|done]. intros HL. by apply ledger_wf_snoc. Qed.

Lemma genesis_wf : ledger_wf [genesis].
Proof.
  split; [done|reflexivity|by apply list.Forall_singleton|by eexists|constructor].
Qed.

(** ** The node *)
Record MemChain := {
  attempts : list block;
  tx_faults : list (option fault);
  rpc_faults : list bool;
}.

Definition mem_ledger (k : MemChain) : list block := foldl extend [genesis] (attempts k).

Lemma mem_ledger_wf k : ledger_wf (mem_ledger k).
Proof.
  unfold mem_ledger. generalize genesis_wf. generalize [genesis].
  induction (attempts k) as [|b bs IH]; intros L HL; [done|]. by apply IH, extend_wf.
Qed.

Definition with_block (b : block) (fs : list (option fault)) (k : MemChain) : MemChain :=
  {| attempts := attempts k ++ [b]; tx_faults := fs; rpc_faults := rpc_faults k |}.
Definition with_faults (fs : list (option fault)) (k : MemChain) : MemChain :=
  {| attempts := attempts k; tx_faults := fs; rpc_faults := rpc_faults k |}.

Lemma mem_ledger_block b fs k : mem_ledger (with_block b fs k) = extend (mem_ledger k) b.
Proof. unfold mem_ledger, with_block. cbn [attempts]. by rewrite foldl_app. Qed.

Definition next_tx (intents : list SettlementIntent) (k : MemChain) : tx :=
  {| tx_hash := replicate 24 x00 ++ put_be 8 (Z.of_nat (length (attempts k)));
     tx_intents := intents |}.
Definition next_block (txs : list tx) (k : MemChain) : block :=
  {| blk_time := 1710000000 + 2 * (Z.of_nat (length (attempts k)) mod 2 ^ 32); blk_txs := txs |}.

(** An answer, unless the call fails. *)
Definition answer {A} (a : option A) (k : MemChain) : option A * MemChain :=
  match rpc_faults k with
  | [] => (a, k)
  | down :: fs =>
      (if down then None else a, {| attempts := attempts k; tx_faults := tx_faults k; rpc_faults := fs |})
  end.

Definition mem_logs (L : list block) (a id : list byte) (n : Z) : list Log :=
  if decide (a = mem_address ∧ id = mem_created)
  then match block_at L n with Some b => block_event_logs (id : Hash) n b | None => [] end
  else [].

#[export] Instance mem_contract : BoundContract MemChain := λ intents k,
  let t := next_tx intents k in
  let b := next_block [t] k in
  if can_add (mem_ledger k) b then
    match tx_faults k with
    | [] | None :: _ => (Some (tx_hash t), with_block b (drop 1 (tx_faults k)) k)
    | Some Not_sent :: fs => (None, with_faults fs k)
    | Some Answer_lost :: fs => (None, with_block b fs k)
    end
  else (None, k).

#[export] Instance mem_filterer : EventFilterer MemChain := {
  BlockNumber k := answer (Some (Z.of_nat (length (mem_ledger k)) - 1)) k;
  HeaderByNumber n k := answer (blk_time <$> block_at (mem_ledger k) n) k;
  FilterLogs q k :=
    match Addresses q, Query_Topics q with
    | [a], [[id]] =>
        answer (Some (concat (mem_logs (mem_ledger k) a id <$> seqZ (FromBlock q) (ToBlock q - FromBlock q + 1)))) k
    | _, _ => answer None k
    end;
}.

#[export] Instance mem_chain : ChainNode MemChain := {
  Foreign intents k := with_block (next_block [next_tx intents k] k) (tx_faults k) k;
  Mine k := with_block (next_block [] k) (tx_faults k) k;
}.

(** *** The laws *)
Lemma answer_spec {A} (a : option A) k :
  ((answer a k).1 = None ∨ (answer a k).1 = a) ∧ mem_ledger (answer a k).2 = mem_ledger k.
Proof. unfold answer. destruct (rpc_faults k) as [|[] fs]; by auto. Qed.

Lemma can_add_settles L h t intents :
  can_add L {| blk_time := t; blk_txs := [{| tx_hash := h; tx_intents := intents |}] |} = true →
  Forall intent_wf intents ∧ is_ok (settleBatch intents (ledger_storage L)) = true.
Proof.
  unfold can_add. rewrite !andb_true_iff, !bool_decide_eq_true. cbn. rewrite app_nil_r.
  intros [[[_ Hty] _] Hr]. split; [done|]. by destruct (settleBatch _ _) as [[st evs]|e].
Qed.

#[export, refine] Instance mem_chain_laws : ChainNodeLaws MemChain := {
  escrow_address := mem_address;
  created_id := mem_created;
  ledger_of := mem_ledger;
  node_logs := mem_logs;
}.
Proof.
  - exact mem_ledger_wf.
  - intros intents k. change (Transact intents k) with (mem_contract intents k). unfold mem_contract. cbv zeta. destruct (can_add (mem_ledger k) _) eqn:E; [|by left].
    pose proof (can_add_settles (mem_ledger k) _ _ _ E) as [Hty Hs].
    assert (∀ fs, mem_ledger (with_block (next_block [next_tx intents k] k) fs k) =
      mem_ledger k ++ [next_block [next_tx intents k] k]) as Hb.
    { intros fs. rewrite mem_ledger_block. unfold extend. by rewrite E. }
    destruct (tx_faults k) as [|[[]|] fs]; [right|by left|right|right];
      exists (tx_hash (next_tx intents k)); (split; [done|]; split; [done|]; split; [|by auto]);
      rewrite Hb; by eexists.
  - intros intents k. unfold Foreign, mem_chain. rewrite mem_ledger_block. unfold extend.
    destruct (can_add (mem_ledger k) _) eqn:E; [right|by left].
    pose proof (can_add_settles (mem_ledger k) _ _ _ E) as [_ Hs]. eexists. split; [exact Hs|]. by eexists.
  - intros k. unfold Mine, mem_chain. rewrite mem_ledger_block. unfold extend.
    destruct (can_add (mem_ledger k) _); [right|by left]. by eexists.
  - intros k. apply answer_spec.
  - intros n k. apply answer_spec.
  - intros L a id n l. unfold mem_logs. case_decide; [|by intros ?%elem_of_nil].
    destruct (block_at L n) as [b|]; [|by intros ?%elem_of_nil]. apply block_event_logs_number.
  - intros L n. unfold mem_logs. by rewrite decide_True.
  - intros a id from to k _ _. apply answer_spec.
  - intros q k. change (FilterLogs q k) with (@FilterLogs _ _ mem_filterer q k). unfold FilterLogs, mem_filterer.
    destruct (Addresses q) as [|a [|]]; [apply answer_spec| |apply answer_spec].
    destruct (Query_Topics q) as [|[|id [|]] [|]]; apply answer_spec.
Defined.

(** ** Without faults *)
Definition faultless (k : MemChain) : Prop := tx_faults k = [] ∧ rpc_faults k = [].

Lemma faultless_responsive : responsive faultless.
Proof.
  split.
  - intros k [Ht Hr]. unfold BlockNumber, cn_filter, mem_chain, mem_filterer, answer. rewrite Hr. by split; [eexists|].
  - intros a id from to k [Ht Hr] _ _. unfold FilterLogs, cn_filter, mem_chain, mem_filterer, answer. cbn. rewrite Hr.
    by split; [eexists|].
  - intros n k [Ht Hr] [b Hb]. unfold HeaderByNumber, cn_filter, mem_chain, mem_filterer, answer. rewrite Hr.
    change (ledger_of k) with (mem_ledger k) in Hb. rewrite Hb. by split; [eexists|].
Qed.

(** It takes what the contract takes, while there is a number for the block. *)
Lemma can_add_tx k intents st evs :
  Forall intent_wf intents → Z.of_nat (length (mem_ledger k)) + 1 < 2 ^ 64 →
  settleBatch intents (ledger_storage (mem_ledger k)) = Ok (st, evs) →
  can_add (mem_ledger k) (next_block [next_tx intents k] k) = true.
Proof.
  intros Hty Hlen Hs. unfold can_add. rewrite !andb_true_iff, !bool_decide_eq_true.
  unfold next_block, next_tx. cbn [blk_time blk_txs tx_intents tx_hash fmap list_fmap concat].
  pose proof (Z.mod_pos_bound (Z.of_nat (length (attempts k))) (2 ^ 32) ltac:(lia)).
  rewrite app_nil_r, list.Forall_singleton. cbn [run_txs tx_intents]. rewrite Hs.
  split_and!; try done; lia.
Qed.

Lemma faultless_mines k : faultless k → faultless (Mine k).
Proof. done. Qed.

(** What the contract emits fits a line of the receipt file. *)
Lemma mem_hashes k t : t ∈ ledger_txs (mem_ledger k) → length (tx_hash t : list byte) = 32%nat.
Proof.
  revert t. apply list.Forall_forall. unfold mem_ledger.
  assert (Forall (λ t, length (tx_hash t : list byte) = 32%nat) (ledger_txs [genesis])) as HL by constructor.
  revert HL. generalize [genesis]. induction (attempts k) as [|b bs IH]; intros L HL; [done|].
  apply IH. unfold extend. destruct (can_add L b) eqn:E; [|done]. rewrite ledger_txs_snoc.
  apply list.Forall_app. split; [done|]. unfold can_add in E.
  rewrite !andb_true_iff, !bool_decide_eq_true in E. apply E.
Qed.

#[local] Existing Instance json_codec.

Lemma mem_events_representable k ev : ev ∈ ledger_events (ledger_of k) → representable ev.
Proof.
  change (ledger_of k) with (mem_ledger k).
  intros (n & b & t & i & Hb & Ht & Hi & ->)%elem_of_ledger_events.
  destruct (mem_ledger_wf k) as [_ Hs Htimes _ Hty]. pose proof (block_at_lt _ _ _ Hb) as Hn.
  pose proof (block_at_elem _ _ _ Hb) as Hin. rewrite list.Forall_forall in Htimes. specialize (Htimes b Hin).
  rewrite list.Forall_forall in Hty.
  destruct (Hty i) as (Hsat & Ham & _ & Hno & Hw); [apply elem_of_ledger_intents; eauto|].
  assert (length (tx_hash t : list byte) = 32%nat) as Hh.
  { apply (mem_hashes k). unfold ledger_txs. apply list_elem_of_concat. exists (blk_txs b).
    split; [done|by apply list_elem_of_fmap_2]. }
  destruct (hex_encode_ascii (tx_hash t)) as [Hx Hxl]. rewrite Hh in Hxl.
  destruct (hex_encode_ascii (SI_Wallet i)) as [Hy Hyl]. change (length (SI_Wallet i : list byte) = 20%nat) in Hw.
  rewrite Hw in Hyl. unfold in_u in *. apply json_event_ok.
  - unfold Event_wf, event_of, in_u. cbn. split_and!; lia.
  - cbn. lia.
  - split_and!; [exact Hx|exact Hy|..]; cbn in *; [rewrite Hxl|rewrite Hyl]; lia.
Qed.
