(* ===== verification/System.v ===== *)
(** * The running gateway

    Composes the parts of the gateway process as [cmd/server/main.go] starts them: the
    router ([Server]), the submitter with its timer, the goroutine that watches the
    chain ([watcher.Run] with the processor as its handler), all on one node
    ([Ledger]) and one receipt file.

    A [process] is the process between two of its actions; an [action] is one of
    them, or something that happens around it: another account settles on the
    contract, a block is mined, the process is killed and started again. The goroutine
    makes its own steps: it polls, then handles the events one by one, each call of
    [Handle] in its three parts, so requests come in between; then it waits for its
    ticker. *)
From S2P Require Export Server Ledger DemoChain.
From S2P Require Golden.
#[local] Open Scope Z_scope.

(** Where the goroutine of [startReceiptWatcher] is: before a round; at the head of
    the events that are left of it; or returned from [Run]. *)
Inductive routine `{EthCommon} :=
  | Polling
  | Handling (pc : handle_pc) (evs : list SettlementEvent)
  | Exited (e : watch_error).

Inductive action `{EthCommon} :=
  | A_request (r : request)
  | A_timer (t : nat)
  | A_poll
  | A_handle (plan : io)
  | A_wait (ticked : bool)
  | A_foreign (intents : list SettlementIntent)
  | A_mine
  | A_restart.

Section System.
Context {St : Type} `{KaitaiStream St} `{Ed25519} `{EthCommon} `{RecordCodec}.
Context {C D : Type} `{!GinContext C gin_H} `{!GinContext D egress_body}.
Context {K : Type} `{!ChainNode K}.
Variables (c0 : C) (d0 : D).
(** [VOID_RECEIPTS_SELLER_SEED], the contract, and the event of its ABI. *)
Variables (seed_env : string) (contract : Address) (event_id : option Hash).

Record process := {
  sy_db : MockDB;
  sy_sub : BufferedSubmitter * timer_env;
  sy_node : K;
  sy_store : Store * list byte;
  sy_proc : Processor;
  sy_watcher : Watcher;
  sy_routine : routine;
}.

(** What the router sees. *)
Definition gateway_of (y : process) : gateway K :=
  {| gw_db := sy_db y; gw_submitter := Some (sy_sub y, sy_node y);
     gw_egress := Some (sy_store y); gw_receipts := Some (sy_proc y, sy_watcher y) |}.

Definition with_gateway (rt : routine) (g : gateway K) : option process :=
  '(sub, node) ← gw_submitter g;
  st ← gw_egress g;
  '(p, w) ← gw_receipts g;
  Some {| sy_db := gw_db g; sy_sub := sub; sy_node := node; sy_store := st; sy_proc := p;
          sy_watcher := w; sy_routine := rt |}.

Definition set_node (k : K) (y : process) : process :=
  {| sy_db := sy_db y; sy_sub := sy_sub y; sy_node := k; sy_store := sy_store y;
     sy_proc := sy_proc y; sy_watcher := sy_watcher y; sy_routine := sy_routine y |}.
Definition set_routine (rt : routine) (y : process) : process :=
  {| sy_db := sy_db y; sy_sub := sy_sub y; sy_node := sy_node y; sy_store := sy_store y;
     sy_proc := sy_proc y; sy_watcher := sy_watcher y; sy_routine := rt |}.

(** The process comes up on the receipt file; [None]: it does not. What was in the
    memory of the one before is gone. *)
Definition start (db : MockDB) (node : K) (disk : list byte) : option process :=
  match startReceiptWatcher true true disk seed_env contract event_id with
  | Ok (store, proc, watcher) =>
      with_gateway Polling (fresh_gateway db node (Some (store, disk)) (Some (proc, watcher)))
  | Err _ => None
  end.

(** The steps of [Run] in the goroutine; what is not enabled does nothing. [None]: the
    process panics. *)
Definition run_poll (y : process) : process :=
  match sy_routine y with
  | Polling =>
      let '(evs, err, w, k) := Poll (sy_watcher y) (sy_node y) in
      {| sy_db := sy_db y; sy_sub := sy_sub y; sy_node := k; sy_store := sy_store y;
         sy_proc := sy_proc y; sy_watcher := w;
         sy_routine := match err with Some e => Exited e | None => Handling At_check evs end |}
  | _ => y
  end.

Definition run_handle (plan : io) (y : process) : option process :=
  match sy_routine y with
  | Handling pc (ev :: evs) =>
      '(pc, p, st) ← Handle_step plan ev pc (sy_proc y) (sy_store y);
      Some {| sy_db := sy_db y; sy_sub := sy_sub y; sy_node := sy_node y; sy_store := st;
              sy_proc := p; sy_watcher := sy_watcher y;
              sy_routine := match pc with
                            | Finished _ => Handling At_check evs
                            | _ => Handling pc (ev :: evs)
                            end |}
  | _ => Some y
  end.

Definition run_wait (ticked : bool) (y : process) : process :=
  match sy_routine y with
  | Handling _ [] => set_routine (if ticked then Polling else Exited ContextDone) y
  | _ => y
  end.

(** One action. [None]: the process panics, or does not come up again. *)
Definition act (a : action) (y : process) : option process :=
  match a with
  | A_request r =>
      '(_, g) ← serve (St := St) c0 d0 r (gateway_of y);
      with_gateway (sy_routine y) g
  | A_timer t => with_gateway (sy_routine y) (timer_fires t (gateway_of y))
  | A_poll => Some (run_poll y)
  | A_handle plan => run_handle plan y
  | A_wait ticked => Some (run_wait ticked y)
  | A_foreign intents => Some (set_node (Foreign intents (sy_node y)) y)
  | A_mine => Some (set_node (Mine (sy_node y)) y)
  | A_restart => start (sy_db y) (sy_node y) (sy_store y).2
  end.

Fixpoint run (acts : list action) (y : process) : option process :=
  match acts with
  | [] => Some y
  | a :: acts => y ← act a y; run acts y
  end.

Lemma run_app acts acts' y : run (acts ++ acts') y = y' ← run acts y; run acts' y'.
Proof.
  revert y. induction acts as [|a acts IH]; intros y; cbn [app run]; [done|].
  destruct (act a y); cbn; [apply IH|done].
Qed.

(** A condition on the disk writes of an action. With [clean_io], each is complete and
    synced, or fails before its first byte; with [good_io], it is complete and synced.
    The other writes [writeLineLocked] allows for, torn or not synced, are those of
    [Store_torn_write] and [Store_sync_failure]. *)
Definition writes_ok (ok : io → Prop) (a : action) : Prop :=
  match a with
  | A_request (POST_ack plan _) | A_handle plan => ok plan
  | _ => True
  end.
End System.
Arguments process {_} K.

(** What [main] comes up with is what [start] comes up with on the file it opened. *)
Lemma boot_starts `{Ed25519} `{EthCommon} `{RecordCodec} {K : Type} `{!EthClient K} env mkdir_ok
    open_file event_id db0 (g : gateway K) :
  boot env mkdir_ok open_file event_id db0 = Some (Ok g) → is_Some (gw_submitter g) →
  ∃ node disk, open_file (Getenv_or env "VOID_RECEIPTS_PATH" defaultReceiptsPath) = Some disk ∧
    with_gateway Polling g =
      start (env "VOID_RECEIPTS_SELLER_SEED"%string) (HexToAddress (env "VOID_ESCROW_ADDRESS"%string))
        event_id (gw_db g) node disk.
Proof.
  unfold boot, start. destruct (LoadFlatSatDemoKey _ _) as [[[[]|e] db]|]; [|done..].
  cbn [mbind option_bind]. intros [= Hg] [sub Hsub]. unfold maybeInitChain in Hg.
  destruct (String.eqb _ ""); [by injection Hg as <-|].
  destruct (DialContext _) as [client|]; [|done].
  destruct (ChainID client) as [[chainID|] client']; [|done].
  destruct (NewEscrowClient _ _ _ _) as [escrow|]; [|done]. cbn [cd_addr cd_submitter] in Hg.
  destruct (startReceiptWatcher _ _ _ _ _ _) as [[[store proc] watcher]|] eqn:Hs in Hg; [|done].
  injection Hg as <-. exists (ec_contract escrow).
  unfold startReceiptWatcher in Hs.
  destruct (mkdir_ok _) eqn:Hm; [|done]. cbn [negb] in Hs.
  destruct (open_file _) as [disk|]; [|done]. exists disk. split; [done|].
  rewrite bool_decide_eq_true_2 in Hs by done. cbn [from_option id default] in Hs. cbn [gw_db].
  unfold startReceiptWatcher. cbn [negb].
  destruct (NewStore true disk) as [store'|]; [|done].
  destruct (hex_decode _) as [seed|]; [|done].
  destruct (NewProcessor _ _ seed) as [proc'|]; [|done].
  destruct (NewWatcher _ 0 _ _) as [watcher'|]; [|done].
  injection Hs as <- <- <-. done.
Qed.

(** ** Receipts and the ledger *)
Section Receipts.
Context {St : Type} `{KaitaiStreamLaws St} `{Ed25519Laws} `{EthCommonLaws} `{RecordCodecLaws}.
Variable sd : list byte.
Hypothesis seed_size : length sd = SeedSize.
Implicit Types (L : list block) (ev : SettlementEvent) (rec : Receipt) (p : Processor) (rt : routine).

(** The receipt of an event: pending, or dispatched since; its packet is signed under
    the seed of the gateway. *)
Definition receipt_for ev rec : Prop :=
  ∃ seq raw,
    is_receipt (St := St)
      (event_inputs {| sellerAPID := SellerAPID100; seed := sd; seqCount := 0 |} ev seq) raw ∧
    (rec = pending_receipt ev raw ∨ rec = set_DispatchStatus StatusDispatched (pending_receipt ev raw)).

Definition backed L rec : Prop := ∃ ev, ev ∈ ledger_events L ∧ receipt_for ev rec.

Lemma backed_mono L M rec : backed L rec → backed (L ++ M) rec.
Proof. intros (ev & Hev & Hr). exists ev. split; [by apply ledger_events_mono|done]. Qed.

Lemma backed_advances L log log' :
  Forall (backed L) log → advances log log' → Forall (backed L) log'.
Proof.
  intros Hb Ha. revert Hb. induction Ha as [|x y log log' Hxy _ IH]; intros Hb; [done|].
  apply list.Forall_cons in Hb as [(ev & Hev & q & raw & Hraw & Hx) Hb].
  constructor; [|by apply IH]. exists ev. split; [done|]. exists q, raw. split; [done|].
  destruct Hxy as [-> | ->]; [done|]. right. by destruct Hx as [-> | ->].
Qed.

Definition pc_ok (pc : handle_pc) : Prop :=
  match pc with At_build q => in_u 14 q | Finished _ => False | _ => True end.

Definition pending rt ev : Prop :=
  match rt with Handling _ evs => ev ∈ evs | _ => False end.

Record receipts_inv L (st : Store * list byte) p (w : Watcher) rt : Prop := {
  ri_synced : synced st.1 st.2;
  ri_open : file st.1 = true;
  ri_backed : Forall (backed L) (contents st.1);
  ri_apid : sellerAPID p = SellerAPID100;
  ri_seed : seed p = sd;
  ri_seq : in_u 14 (seqCount p);
  ri_cursor : 0 <= nextBlock w <= Z.of_nat (length L);
  ri_pending ev : pending rt ev → ev ∈ ledger_events L;
  ri_pc : match rt with Handling pc _ => pc_ok pc | _ => True end;
}.

Lemma receipts_proc L st p w rt : receipts_inv L st p w rt → Processor_wf p.
Proof. intros []. unfold Processor_wf. rewrite ri_apid0, ri_seed0. done. Qed.

Lemma receipts_grow L M st p w rt :
  receipts_inv L st p w rt → receipts_inv (L ++ M) st p w rt.
Proof.
  intros []. split; try done.
  - eapply list.Forall_impl; [exact ri_backed0|]. intros rec. apply backed_mono.
  - rewrite length_app. lia.
  - intros ev Hev. by apply ledger_events_mono, ri_pending0.
Qed.

Lemma receipts_ack L st p w rt plan pid tx :
  clean_io plan → receipts_inv L st p w rt →
  receipts_inv L (MarkDispatched plan pid tx st).2 p w rt.
Proof.
  intros Hplan []. destruct st as [s disk]. cbn [fst snd] in *.
  pose proof (synced_wf _ _ ri_synced0) as Hwf.
  pose proof (MarkDispatched_synced plan pid tx s disk ri_synced0 Hplan) as Hsync.
  destruct (ack_advances plan pid tx (s, disk) Hwf) as (_ & Hadv & _).
  pose proof (MarkDispatched_log plan pid tx s disk Hwf) as Hlog.
  destruct (MarkDispatched plan pid tx (s, disk)) as [a [s' disk']]. cbn [fst snd] in *.
  destruct Hlog as (_ & Hf & _). split; cbn [fst snd]; try done.
  - congruence.
  - by eapply backed_advances.
Qed.

(** Appending the receipt of an event, on a disk that may fail cleanly. *)
Lemma append_step plan ev p q s disk :
  Processor_wf p → in_u 14 q → synced s disk → file s = true → clean_io plan → representable ev →
  ∃ r s' disk', build_and_append plan ev p q (s, disk) = Some (r, (s', disk')) ∧
    synced s' disk' ∧ file s' = true ∧
    (contents s' = contents s ∨ ∃ raw, is_receipt (St := St) (event_inputs p ev q) raw ∧
       contents s' = contents s ++ [pending_receipt ev raw]) ∧
    (good_io plan → event_key ev ∈ log_keys (contents s')).
Proof.
  intros Hp Hq Hs Hf Hplan Hrep. pose proof (synced_wf s disk Hs) as Hwf.
  destruct (build_and_append_spec (St := St) plan ev p q (s, disk) Hp Hq) as (raw & _ & Hraw & ->).
  assert (codec_ok (event_record ev raw)) as Hok.
  { apply Hrep. by destruct Hraw as (? & ? & ? & ? & _). }
  pose proof (Append_synced plan (event_record ev raw) s disk Hs (conj Hok Hplan)) as Hs'.
  pose proof (append_log_cases plan ev raw s disk Hwf) as Hlog.
  assert (good_io plan → (event_key ev ∉ log_keys (contents s)) →
    (Append plan (event_record ev raw) (s, disk)).1 = Ok tt) as Hgood.
  { intros Hg Hk. apply Append_good; [done..|]. apply eq_None_not_Some. by rewrite <- log_keys_elem. }
  destruct (Append plan _ _) as [a [s' disk']]. cbn [fst snd] in *.
  destruct Hlog as (_ & Hf' & Hdup & Hc). eexists _, s', disk'. split; [done|].
  split; [done|]. split; [congruence|]. split.
  - rewrite Hc. destruct (is_ok a); [right; by exists raw|by left].
  - intros Hg. destruct (decide (event_key ev ∈ log_keys (contents s))) as [Hin|Hin].
    + rewrite Hc. destruct (is_ok a); [|done]. apply log_keys_app. by left.
    + rewrite Hc, (Hgood Hg Hin). apply log_keys_app. right. by left.
Qed.

(** A part of [Handle] in the goroutine: it never panics. *)
Lemma receipts_handle L plan pc ev evs p w st :
  (∀ ev, ev ∈ ledger_events L → representable ev) →
  clean_io plan → receipts_inv L st p w (Handling pc (ev :: evs)) →
  ∃ pc' p' st', Handle_step plan ev pc p st = Some (pc', p', st') ∧
    receipts_inv L st' p' w (match pc' with
                             | Finished _ => Handling At_check evs
                             | _ => Handling pc' (ev :: evs)
                             end) ∧
    (∀ k, k ∈ log_keys (contents st.1) → k ∈ log_keys (contents st'.1)) ∧
    (∀ r, pc' = Finished r → good_io plan → event_key ev ∈ log_keys (contents st'.1)).
Proof.
  intros HL Hplan Hinv. pose proof (receipts_proc _ _ _ _ _ Hinv) as Hp. destruct Hinv.
  assert (ev ∈ ledger_events L) as Hev by (apply ri_pending0; by left).
  assert (∀ pc', pc_ok pc' → receipts_inv L st p w (Handling pc' (ev :: evs))) as Hstay by by split.
  assert (receipts_inv L st p w (Handling At_check evs)) as Hnext.
  { split; try done. intros ev' Hev'. apply ri_pending0. by right. }
  destruct pc as [| |q|r]; cbn [Handle_step]; [| | |done].
  - eexists _, p, st. split; [reflexivity|]. rewrite already_recorded_spec by by eapply synced_wf.
    case_bool_decide as Hk; [by split|]. by split; [apply Hstay|].
  - destruct (next_seq_spec p Hp) as [Hseq Hp']. rewrite Hseq. eexists _, _, st. split; [reflexivity|].
    split; [|done]. destruct Hp' as (_ & Hq' & _). by split; try done; destruct Hp as (_ & ? & _).
  - destruct (append_step plan ev p q st.1 st.2 Hp ri_pc0 ri_synced0 ri_open0 Hplan
      (HL ev Hev)) as (r & s' & disk' & Hb & Hs' & Hf' & Hc & Hgood).
    rewrite <- surjective_pairing in Hb. rewrite Hb. eexists _, p, (s', disk').
    split; [reflexivity|]. cbn [fst snd]. split; [|split; [|done]].
    + split; try done; cbn [fst snd]; [|by apply Hnext].
      destruct Hc as [-> |(raw & Hraw & ->)]; [done|]. apply list.Forall_app. split; [done|].
      apply list.Forall_singleton. exists ev. split; [done|]. exists q, raw. split; [|by left].
      unfold event_inputs in *. by rewrite ri_apid0, ri_seed0 in Hraw.
    + intros k Hk. destruct Hc as [-> |(raw & _ & ->)]; [done|]. apply log_keys_app. by left.
Qed.

(** Every settlement before the cursor has its receipt or is still to be handled. *)
Definition covered L (st : Store * list byte) (w : Watcher) rt : Prop :=
  ∀ ev, ev ∈ ledger_events L → Ev_BlockNumber ev < nextBlock w →
    pending rt ev ∨ event_key ev ∈ log_keys (contents st.1).

Lemma covered_keys L st st' w rt :
  covered L st w rt → (∀ k, k ∈ log_keys (contents st.1) → k ∈ log_keys (contents st'.1)) →
  covered L st' w rt.
Proof. intros Hc Hk ev Hev Hlt. destruct (Hc ev Hev Hlt); [by left|right; by apply Hk]. Qed.

Lemma event_number L ev n b : ev ∈ block_events n b → Ev_BlockNumber ev = n.
Proof. by intros (t & i & _ & _ & ->)%elem_of_block_events. Qed.

Lemma ledger_events_old L M ev :
  ev ∈ ledger_events (L ++ M) → Ev_BlockNumber ev < Z.of_nat (length L) → ev ∈ ledger_events L.
Proof.
  rewrite !elem_of_ledger_events. intros (n & b & t & i & Hb & Ht & Hi & ->) Hlt. cbn in Hlt.
  rewrite block_at_app in Hb by done. by exists n, b, t, i.
Qed.

Lemma covered_grow L M st p w rt :
  receipts_inv L st p w rt → covered L st w rt → covered (L ++ M) st w rt.
Proof.
  intros Hi Hc ev Hev Hlt. pose proof (ri_cursor _ _ _ _ _ Hi). apply Hc; [|done].
  apply (ledger_events_old L M); [done|lia].
Qed.

Lemma covered_handle L plan pc ev evs p w st pc' p' st' :
  covered L st w (Handling pc (ev :: evs)) → good_io plan →
  (∀ k, k ∈ log_keys (contents st.1) → k ∈ log_keys (contents st'.1)) →
  (∀ r, pc' = Finished r → good_io plan → event_key ev ∈ log_keys (contents st'.1)) →
  Handle_step plan ev pc p st = Some (pc', p', st') →
  covered L st' w (match pc' with
                   | Finished _ => Handling At_check evs
                   | _ => Handling pc' (ev :: evs)
                   end).
Proof.
  intros Hc Hg Hk Hfin _ ev' Hev' Hlt. destruct (Hc ev' Hev' Hlt) as [Hp|Hin]; [|right; by apply Hk].
  cbn [pending] in Hp. destruct pc' as [| |q|r]; [by left..|].
  apply elem_of_cons in Hp as [-> |Hp]; [right; by eapply Hfin|by left].
Qed.

(** A round of the goroutine. *)
Context {K : Type} `{!ChainNode K} `{!ChainNodeLaws K}.

Lemma events_between_ledger L from to ev :
  0 <= from → ev ∈ events_between L from to → ev ∈ ledger_events L.
Proof.
  intros Hf (n & b & Hn & Hb & Hev)%elem_of_events_between. apply elem_of_events_between.
  exists n, b. pose proof (block_at_lt _ _ _ Hb). split; [lia|done].
Qed.

Lemma receipts_poll (k : K) st p w :
  w_contract w = escrow_address → eventTopic w = created_id →
  receipts_inv (ledger_of k) st p w Polling →
  let '(evs, err, w', k') := Poll w k in
  let rt := match err with Some e => Exited e | None => Handling At_check evs end in
  ledger_of k' = ledger_of k ∧ w_contract w' = escrow_address ∧ eventTopic w' = created_id ∧
  receipts_inv (ledger_of k) st p w' rt ∧
  (covered (ledger_of k) st w Polling → covered (ledger_of k) st w' rt) ∧
  (err = None → ∀ ev, ev ∈ ledger_events (ledger_of k) → Ev_BlockNumber ev < nextBlock w').
Proof.
  intros Hc Ht Hi. pose proof (ri_cursor _ _ _ _ _ Hi) as Hcur.
  pose proof (Poll_node w k Hc Ht ltac:(lia)) as Hp.
  destruct (Poll w k) as [[[evs err] w'] k']. destruct Hp as (HL & Hc' & Ht' & _ & Hp).
  split; [done|]. split; [congruence|]. split; [congruence|]. destruct err as [e|].
  - subst w'. split; [by destruct Hi; split|]. split; [|done].
    intros Hcov ev Hev Hlt. destruct (Hcov ev Hev Hlt) as [[]|]; by right.
  - destruct Hp as (Hle & -> & Hnil & Hhi). split; [|split].
    + destruct Hi. split; try done; [lia|]. intros ev Hev.
      eapply events_between_ledger; [|exact Hev]. lia.
    + intros Hcov ev Hev Hlt. destruct (Z.lt_ge_cases (Ev_BlockNumber ev) (nextBlock w)) as [Hlt'|Hge].
      * destruct (Hcov ev Hev Hlt') as [[]|]; by right.
      * left. cbn [pending]. apply elem_of_ledger_events in Hev as (n & b & t & i & Hb & Htx & Hin & ->).
        cbn in Hlt, Hge. apply elem_of_events_between. exists n, b. split; [lia|]. split; [done|].
        apply elem_of_block_events. eauto.
    + intros _ ev Hev. destruct (Z.lt_ge_cases (Ev_BlockNumber ev) (nextBlock w')) as [|Hge]; [done|].
      exfalso. apply elem_of_ledger_events in Hev as (n & b & t & i & Hb & Htx & Hin & ->). cbn in Hge.
      pose proof (block_at_lt _ _ _ Hb).
      assert (event_of n (blk_time b) (tx_hash t) i ∈
        events_between (ledger_of k) (nextBlock w') (Z.of_nat (length (ledger_of k)) - 1)) as He.
      { apply elem_of_events_between. exists n, b. split; [lia|]. split; [done|].
        apply elem_of_block_events. eauto. }
      rewrite Hnil in He. by apply elem_of_nil in He.
Qed.
End Receipts.

(** ** One action *)
Section Actions.
Context {St : Type} `{KaitaiStreamLaws St} `{Ed25519Laws} `{EthCommonLaws} `{RecordCodecLaws}.
Context {C D : Type} `{GinContextLaws C gin_H} `{GinContextLaws D egress_body}.
Context {K : Type} `{!ChainNode K} `{!ChainNodeLaws K}.
Variables (c0 : C) (d0 : D).
Hypothesis fresh_c0 : IsAborted c0 = false ∧ responses c0 = [].
Hypothesis fresh_d0 : responses d0 = [].
Variables (seed_env : string) (sd : list byte).
Hypothesis seed_decodes :
  hex_decode (if String.eqb seed_env "" then demoSellerSeedHex else seed_env) = Some sd.
Hypothesis seed_size : length sd = SeedSize.
(** What the contract emits can be written to the file and read back. *)
Hypothesis events_representable : ∀ (k : K) ev, ev ∈ ledger_events (ledger_of k) → representable ev.
Implicit Types (y : process K) (k : K) (L : list block).

Definition gw_act : action → process K → option (process K) :=
  act (St := St) c0 d0 seed_env escrow_address (Some created_id).
Definition gw_run : list action → process K → option (process K) :=
  run (St := St) c0 d0 seed_env escrow_address (Some created_id).
Definition gw_start : MockDB → K → list byte → option (process K) :=
  start seed_env escrow_address (Some created_id).

(** The receipt side of the process. *)
Record sys_ok y : Prop := {
  so_contract : w_contract (sy_watcher y) = escrow_address;
  so_topic : eventTopic (sy_watcher y) = created_id;
  so_receipts : receipts_inv (St := St) sd (ledger_of (sy_node y)) (sy_store y) (sy_proc y)
                  (sy_watcher y) (sy_routine y);
}.

Definition sys_covered y : Prop :=
  covered (ledger_of (sy_node y)) (sy_store y) (sy_watcher y) (sy_routine y).

(** The submitter and the node, and what the action makes of them. *)
Definition sub_of y : (BufferedSubmitter * timer_env) * K := (sy_sub y, sy_node y).

Definition sub_after (a : action) y (st' : (BufferedSubmitter * timer_env) * K) : Prop :=
  match a with
  | A_request (POST_ingest body) =>
      ∃ paid, request_pays (sy_db y) body paid ∧ st' = enqueue_opt paid (sub_of y)
  | A_timer t => st' = timer_sub t (sub_of y)
  | A_foreign intents => st' = (sy_sub y, Foreign intents (sy_node y))
  | A_mine => st' = (sy_sub y, Mine (sy_node y))
  | A_poll => st'.1 = sy_sub y ∧ ledger_of st'.2 = ledger_of (sy_node y) ∧
      (st'.2 = sy_node y ∨ st'.2 = (Poll (sy_watcher y) (sy_node y)).2)
  | A_restart => st' = ((NewBufferedSubmitter DefaultMaxBatch DefaultInterval, no_timers), sy_node y)
  | _ => st' = sub_of y
  end.

Lemma run_call_grows m (st : (BufferedSubmitter * timer_env) * K) :
  ∃ M, ledger_of (run_call m st).2 = ledger_of st.2 ++ M.
Proof.
  destruct st as [sw k]. unfold run_call. destruct (m sw) as [[b|] sw']; cbn [snd].
  - destruct (submit_grows b k) as [(M & -> & _)|(M & -> & _)]; by exists M.
  - exists []. by rewrite app_nil_r.
Qed.

Lemma enqueue_opt_grows paid (st : (BufferedSubmitter * timer_env) * K) :
  ∃ M, ledger_of (enqueue_opt paid st).2 = ledger_of st.2 ++ M.
Proof.
  destruct paid as [i|]; cbn [enqueue_opt]; [apply run_call_grows|]. exists []. by rewrite app_nil_r.
Qed.

Lemma timer_sub_grows t (st : (BufferedSubmitter * timer_env) * K) :
  ∃ M, ledger_of (timer_sub t st).2 = ledger_of st.2 ++ M.
Proof.
  destruct st as [[s w] k]. unfold timer_sub.
  destruct (decide _); [exact (run_call_grows onTimer_locked ((_, _), k))|].
  exists []. by rewrite app_nil_r.
Qed.

(** More blocks, and nothing else about the receipts. *)
Lemma sys_grow y y' M :
  ledger_of (sy_node y') = ledger_of (sy_node y) ++ M → sy_store y' = sy_store y →
  sy_proc y' = sy_proc y → sy_watcher y' = sy_watcher y → sy_routine y' = sy_routine y →
  sys_ok y → sys_ok y' ∧ (sys_covered y → sys_covered y').
Proof.
  intros HL Hst Hp Hw Hr [Hc Ht Hrec]. unfold sys_covered. split; [split|];
    rewrite ?HL, ?Hst, ?Hp, ?Hw, ?Hr; try done.
  - by apply receipts_grow.
  - by eapply covered_grow.
Qed.

(** Coming up on a file of receipts. *)
Lemma start_ok db k disk rs :
  file_of rs disk → Forall (backed (St := St) sd (ledger_of k)) (contents (replay rs)) →
  ∃ y, gw_start db k disk = Some y ∧ sy_db y = db ∧ sys_ok y ∧ sys_covered y ∧ sy_routine y = Polling ∧
    sy_store y = (replay rs, disk) ∧
    sub_of y = ((NewBufferedSubmitter DefaultMaxBatch DefaultInterval, no_timers), k).
Proof.
  intros Hf Hb. unfold gw_start, start, startReceiptWatcher. cbn [negb].
  rewrite (NewStore_file rs disk Hf), seed_decodes. unfold NewProcessor. rewrite seed_size.
  cbn [Nat.eqb SeedSize NewWatcher]. eexists. split; [reflexivity|].
  split_and!; try done.
  - split; cbn; try done. split; cbn; try done.
    + by exists rs.
    + apply replay_file.
    + lia.
  - intros ev Hev Hlt. cbn in Hlt. exfalso.
    apply elem_of_ledger_events in Hev as (n & b & t & i & Hbl & _ & _ & ->). cbn in Hlt.
    pose proof (block_at_lt _ _ _ Hbl). lia.
Qed.

(** An acknowledgement. *)
Lemma ack_ok y plan pid tx :
  clean_io plan → sys_ok y →
  let y' := {| sy_db := sy_db y; sy_sub := sy_sub y; sy_node := sy_node y;
               sy_store := (MarkDispatched plan pid tx (sy_store y)).2; sy_proc := sy_proc y;
               sy_watcher := sy_watcher y; sy_routine := sy_routine y |} in
  sys_ok y' ∧ (sys_covered y → sys_covered y').
Proof.
  intros Hplan [Hc Ht Hrec]. cbn zeta. split; [by split; try done; apply receipts_ack|].
  intros Hcov. eapply covered_keys; [exact Hcov|]. intros key Hkey. cbn [sy_store].
  destruct (ack_advances plan pid tx (sy_store y)) as (_ & _ & ->); [|done].
  by eapply synced_wf, ri_synced.
Qed.

Lemma request_ok r y :
  writes_ok clean_io (A_request r) → sys_ok y →
  ∃ y', gw_act (A_request r) y = Some y' ∧ sy_db y' = sy_db y ∧ sys_ok y' ∧
    sub_after (A_request r) y (sub_of y') ∧ (sys_covered y → sys_covered y').
Proof.
  intros Hplan Hok. unfold gw_act, act, run_poll, run_handle, run_wait.
  destruct (serve_spec (St := St) c0 d0 fresh_c0 fresh_d0 r (gateway_of y))
    as (reply & g & paid & Hs & _ & Hdb & Hrc & Hsub & Hr).
  destruct (serve_store (St := St) c0 d0 r _ _ _ (sy_store y) Hs eq_refl) as (st' & Heg & Hst).
  rewrite Hs. cbn [mbind option_bind]. unfold with_gateway.
  rewrite Hsub, Heg, Hrc, Hdb. cbn [gateway_of gw_submitter gw_receipts gw_db fmap option_fmap option_map
    mbind option_bind]. fold (sub_of y).
  destruct (enqueue_opt paid (sub_of y)) as [sub' k'] eqn:Henq. eexists. split; [reflexivity|].
  split; [done|]. set (y1 := {| sy_db := sy_db y; sy_sub := sy_sub y; sy_node := sy_node y;
    sy_store := st'; sy_proc := sy_proc y; sy_watcher := sy_watcher y; sy_routine := sy_routine y |}).
  assert (sys_ok y1 ∧ (sys_covered y → sys_covered y1)) as [Hok1 Hcov1].
  { destruct Hst as [-> |(plan & req & -> & ->)]; [by destruct y|by apply ack_ok]. }
  destruct (enqueue_opt_grows paid (sub_of y)) as [M HM]. rewrite Henq in HM.
  match goal with |- sys_ok ?z ∧ _ =>
    destruct (sys_grow y1 z M HM eq_refl eq_refl eq_refl eq_refl Hok1) as [Hok' Hcov'] end.
  split; [exact Hok'|]. split; [|by auto]. unfold sub_of at 1. cbn [sy_sub sy_node].
  destruct r as [body| |plan bound]; cbn [sub_after].
  - exists paid. destruct Hr as [Hr _]. by rewrite <- Henq.
  - destruct Hr as [-> _]. by injection Henq as <- <-.
  - destruct Hr as [-> _]. by injection Henq as <- <-.
Qed.

Lemma poll_ok y :
  sys_ok y →
  ∃ y', gw_act A_poll y = Some y' ∧ sy_db y' = sy_db y ∧ sys_ok y' ∧
    sub_after A_poll y (sub_of y') ∧ (sys_covered y → sys_covered y').
Proof.
  intros Hok. pose proof Hok as [Hc Ht Hrec]. unfold gw_act, act, run_poll, run_handle, run_wait. destruct (sy_routine y) eqn:Hrt.
  2,3: exists y; cbn [sub_after sub_of fst snd]; split_and!; by auto.
  pose proof (receipts_poll (St := St) sd seed_size (sy_node y) _ _ _ Hc Ht Hrec) as Hp.
  destruct (Poll (sy_watcher y) (sy_node y)) as [[[evs err] w'] k'] eqn:HP.
  destruct Hp as (HL & Hc' & Ht' & Hrec' & Hcov & _). eexists. split; [reflexivity|]. split; [done|].
  split; [by split; try done; cbn; rewrite HL|]. split.
  - cbn. rewrite HP. by auto.
  - unfold sys_covered. cbn. by rewrite HL, Hrt.
Qed.

Lemma handle_ok plan y :
  clean_io plan → sys_ok y →
  ∃ y', gw_act (A_handle plan) y = Some y' ∧ sy_db y' = sy_db y ∧ sys_ok y' ∧
    sub_of y' = sub_of y ∧ (good_io plan → sys_covered y → sys_covered y').
Proof.
  intros Hplan Hok. pose proof Hok as [Hc Ht Hrec]. unfold gw_act, act, run_poll, run_handle, run_wait. destruct (sy_routine y) as [|pc [|ev evs]|] eqn:Hrt.
  1,2,4: exists y; split_and!; done.
  destruct (receipts_handle (St := St) sd seed_size _ plan pc ev evs _ _ _
    (events_representable (sy_node y)) Hplan Hrec) as (pc' & p' & st' & Hs & Hrec' & Hk & Hfin).
  rewrite Hs. cbn [mbind option_bind]. eexists. split; [reflexivity|]. split; [done|].
  split; [by split|]. split; [done|]. unfold sys_covered. cbn. rewrite Hrt. intros Hg Hcov.
  by eapply covered_handle.
Qed.

Lemma act_ok a y :
  writes_ok clean_io a → sys_ok y →
  ∃ y', gw_act a y = Some y' ∧ sy_db y' = sy_db y ∧ sys_ok y' ∧ sub_after a y (sub_of y') ∧
    (writes_ok good_io a → sys_covered y → sys_covered y').
Proof.
  intros Hplan Hok. destruct a as [r|t| |plan|ticked|intents| |].
  - destruct (request_ok r y Hplan Hok) as (y' & Ha & Hdb & Hok' & Hs & Hcov). exists y'. by split_and!; auto.
  - unfold gw_act, act, with_gateway. rewrite timer_fires_sub.
    cbn [gateway_of gw_db gw_submitter gw_egress gw_receipts fmap option_fmap option_map mbind option_bind].
    fold (sub_of y).
    destruct (timer_sub t (sub_of y)) as [sub' k'] eqn:Hts. eexists. split; [reflexivity|].
    split; [done|]. destruct (timer_sub_grows t (sub_of y)) as [M HM]. rewrite Hts in HM.
    match goal with |- sys_ok ?z ∧ _ =>
      destruct (sys_grow y z M HM eq_refl eq_refl eq_refl eq_refl Hok) as [Hok' Hcov'] end.
    split_and!; try done; by auto.
  - destruct (poll_ok y Hok) as (y' & Ha & Hdb & Hok' & Hs & Hcov). exists y'. by split_and!; auto.
  - destruct (handle_ok plan y Hplan Hok) as (y' & Ha & Hdb & Hok' & Hs & Hcov). exists y'. by split_and!.
  - unfold gw_act, act, run_poll, run_handle, run_wait. pose proof Hok as [Hc Ht Hrec].
    destruct (sy_routine y) as [|pc [|ev evs]|] eqn:Hrt; [by exists y| |by exists y|by exists y].
    eexists. split; [reflexivity|]. split; [done|]. split; [|split; [done|]].
    + split; try done. destruct Hrec. by destruct ticked; split.
    + intros _ Hcov ev Hev Hlt. destruct (Hcov ev Hev Hlt) as [Hp|]; [|by right].
      rewrite Hrt in Hp. by apply elem_of_nil in Hp.
  - eexists. split; [reflexivity|]. split; [done|].
    assert (∃ M, ledger_of (Foreign intents (sy_node y)) = ledger_of (sy_node y) ++ M) as [M HM].
    { destruct (Foreign_grows intents (sy_node y)) as [(M & -> & _)|(M & -> & _)]; by exists M. }
    destruct (sys_grow y (set_node (Foreign intents (sy_node y)) y) M HM) as [Hok' Hcov']; [done..|].
    by split_and!.
  - eexists. split; [reflexivity|]. split; [done|].
    destruct (Mine_grows (sy_node y)) as (M & HM & _).
    destruct (sys_grow y (set_node (Mine (sy_node y)) y) M HM) as [Hok' Hcov']; [done..|]. by split_and!.
  - destruct Hok as [Hc Ht Hrec]. destruct (ri_synced _ _ _ _ _ _ Hrec) as (rs & Hf & Hr & Ho).
    destruct (start_ok (sy_db y) (sy_node y) (sy_store y).2 rs Hf) as (y' & Ha & Hdb & Hok' & Hcov & _ & _ & Hs).
    { pose proof (ri_backed _ _ _ _ _ _ Hrec) as Hb. unfold contents in *. by rewrite <- Hr, <- Ho. }
    exists y'. by split_and!.
Qed.

Lemma run_ok acts y :
  Forall (writes_ok clean_io) acts → sys_ok y → ∃ y', gw_run acts y = Some y' ∧ sys_ok y'.
Proof.
  revert y. induction acts as [|a acts IH]; intros y Hw Hok; [by exists y|].
  apply list.Forall_cons in Hw as [Ha Hw].
  destruct (act_ok a y Ha Hok) as (y1 & Hact & _ & Hok1 & _).
  unfold gw_run, gw_act in *. cbn [run]. rewrite Hact. by apply IH.
Qed.

(** *** Where the settlements come from *)
Section Origin.
Variables (db : MockDB) (L0 : list block) (acts : list action).

(** Settled before; sent by another account; or accepted from a request. *)
Definition origin (i : SettlementIntent) : Prop :=
  i ∈ ledger_intents L0 ∨
  (∃ intents, A_foreign intents ∈ acts ∧ i ∈ intents) ∨
  ∃ body, A_request (POST_ingest body) ∈ acts ∧ request_pays db body (Some i).

Definition from_origin (k : K) (tk : list (list SettlementIntent)) : Prop :=
  ∀ i, i ∈ ledger_intents (ledger_of k) → origin i ∨ i ∈ concat tk.

Lemma from_origin_submit k tk b : from_origin k tk → from_origin (submit b k) (tk ++ [b]).
Proof.
  intros HP i Hi. rewrite concat_app, elem_of_app. cbn. rewrite app_nil_r.
  assert (i ∈ ledger_intents (ledger_of k) ∨ i ∈ b) as [Hold|Hnew].
  { destruct (submit_grows b k) as [Hg|Hg]; rewrite (grows_intents _ _ _ Hg) in Hi.
    - left. by rewrite app_nil_r in Hi.
    - by apply elem_of_app in Hi. }
  - destruct (HP i Hold); auto.
  - auto.
Qed.

Definition sys_safe y : Prop :=
  sys_ok y ∧ sy_db y = db ∧ ∃ acc, Forall origin acc ∧ accounts from_origin acc (sub_of y).

Lemma accounts_origin acc st :
  Forall origin acc → accounts from_origin acc st →
  ∀ i, i ∈ ledger_intents (ledger_of st.2) → origin i.
Proof.
  intros Hacc (tk & Hi & _ & _ & HP) i Hin. destruct (HP i Hin) as [|Htk]; [done|].
  rewrite list.Forall_forall in Hacc. apply Hacc. rewrite (bi_fifo _ _ _ _ _ Hi).
  apply elem_of_app. by left.
Qed.

Lemma act_safe a y :
  a ∈ acts → writes_ok clean_io a → sys_safe y → ∃ y', gw_act a y = Some y' ∧ sys_safe y'.
Proof.
  intros Hin Hplan (Hok & Hdb & acc & Horig & Hacc).
  destruct (act_ok a y Hplan Hok) as (y' & Ha & Hdb' & Hok' & Hsub & _).
  exists y'. split; [done|]. split; [done|]. split; [congruence|].
  assert (∀ k', (∀ i, i ∈ ledger_intents (ledger_of k') →
      origin i ∨ i ∈ ledger_intents (ledger_of (sy_node y))) →
    accounts from_origin acc (sy_sub y, k')) as Hnode.
  { intros k' Hk'. destruct Hacc as (tk & Hi & Hc & Hm & HP). exists tk. split_and!; [done..|].
    intros i [|Hold]%Hk'; [by left|by apply HP]. }
  destruct a as [[body| |plan bound]|t| |plan|ticked|intents| |]; cbn [sub_after] in Hsub.
  - destruct Hsub as (paid & Hpays & ->). exists (acc ++ option_list paid).
    split; [|by apply accounts_enqueue_opt; [apply from_origin_submit|]].
    apply list.Forall_app. split; [done|]. destruct paid as [i|]; [|constructor].
    apply list.Forall_singleton. right; right. exists body. by rewrite <- Hdb.
  - rewrite Hsub. by exists acc.
  - rewrite Hsub. by exists acc.
  - rewrite Hsub. exists acc. split; [done|]. by apply accounts_timer; [apply from_origin_submit|].
  - destruct (sub_of y') as [sub' k']. cbn [fst snd] in Hsub. destruct Hsub as (-> & HL & _). exists acc.
    split; [done|]. apply Hnode. rewrite HL. by right.
  - rewrite Hsub. by exists acc.
  - rewrite Hsub. by exists acc.
  - rewrite Hsub. exists acc. split; [done|]. apply Hnode. intros i Hi.
    destruct (Foreign_grows intents (sy_node y)) as [Hg|Hg]; rewrite (grows_intents _ _ _ Hg) in Hi.
    + right. by rewrite app_nil_r in Hi.
    + apply elem_of_app in Hi as [Hi|Hi]; [by right|left]. right; left. eauto.
  - rewrite Hsub. exists acc. split; [done|]. apply Hnode. intros i Hi.
    rewrite (grows_intents _ _ _ (Mine_grows (sy_node y))), app_nil_r in Hi. by right.
  - rewrite Hsub. exists []. split; [constructor|]. apply accounts_new. intros i Hi. left.
    by apply (accounts_origin acc (sub_of y) Horig Hacc).
Qed.

Lemma run_safe as' y :
  as' ⊆ acts → Forall (writes_ok clean_io) as' → sys_safe y → ∃ y', gw_run as' y = Some y' ∧ sys_safe y'.
Proof.
  revert y. induction as' as [|a as' IH]; intros y Hsub Hw Hs; [by exists y|].
  apply list.Forall_cons in Hw as [Ha Hw].
  destruct (act_safe a y) as (y1 & Hact & Hs1); [apply Hsub; by left|done..|].
  unfold gw_run, gw_act in *. cbn [run]. rewrite Hact. cbn [mbind option_bind].
  apply IH; [|done..]. intros b Hb. apply Hsub. by right.
Qed.
End Origin.

(** The receipt of a settled intent: the transaction that settled it, its values, and
    a packet the parser reads, signed under the seed of the gateway, which quotes the
    time of the payment. *)
Definition receipt_of_intent L (i : SettlementIntent) rec : Prop :=
  ∃ n b t raw, block_at L n = Some b ∧ t ∈ blk_txs b ∧ i ∈ tx_intents t ∧
    PaymentID rec = BigInt_String (SI_TxNonce i) ∧ SettlementTxHash rec = Hash_Hex (tx_hash t) ∧
    RecSatID rec = SI_SatId i ∧ RecAmount rec = BigInt_String (SI_Amount i) ∧ RecAssetID rec = 1 ∧
    RecWallet rec = Address_Hex (SI_Wallet i) ∧ RecBlockNumber rec = n ∧
    PacketCHex rec = hex_encode raw ∧
    ∃ seq, is_receipt (St := St)
      {| ExecTimeMs := u64 (blk_time b * 1000); EncTxID := u64 (SI_TxNonce i); EncStatus := 1;
         APID := 100; SeqCount := seq; SeedEd25519 := sd |} raw.

Lemma backed_receipt L rec : ledger_wf L → backed (St := St) sd L rec → ∃ i, receipt_of_intent L i rec.
Proof.
  intros HL (ev & Hev & seq & raw & Hraw & Hrec).
  apply elem_of_ledger_events in Hev as (n & b & t & i & Hb & Ht & Hi & ->).
  assert (0 <= SI_TxNonce i) as Hn.
  { pose proof (lw_types L HL) as Hty. rewrite list.Forall_forall in Hty.
    destruct (Hty i) as (_ & _ & _ & [? _] & _); [|done]. apply elem_of_ledger_intents.
    apply block_at_elem in Hb. eauto. }
  exists i, n, b, t, raw. unfold event_inputs, event_of, BigInt_Uint64 in Hraw.
  cbn [Ev_BlockTimeSec Ev_TxNonce sellerAPID seed] in Hraw. rewrite Z.abs_eq in Hraw by done.
  by destruct Hrec as [-> | ->]; split_and!; try done; exists seq.
Qed.

Lemma backed_nonces L log :
  ledger_wf L → Forall (backed (St := St) sd L) log → NoDup (log_keys log) → NoDup (PaymentID <$> log).
Proof.
  intros HL Hb Hnd. rewrite list.Forall_forall in Hb.
  apply NoDup_fmap_2_strong; [|by apply NoDup_fmap_1 in Hnd].
  intros x y Hx Hy E. apply (NoDup_fmap_elem key_of log); try done.
  destruct (Hb x Hx) as (ev & Hev & q & raw & _ & Hrx), (Hb y Hy) as (ev' & Hev' & q' & raw' & _ & Hry).
  assert (key_of x = event_key ev ∧ PaymentID x = BigInt_String (Ev_TxNonce ev)) as [-> Px]
    by by destruct Hrx as [-> | ->].
  assert (key_of y = event_key ev' ∧ PaymentID y = BigInt_String (Ev_TxNonce ev')) as [-> Py]
    by by destruct Hry as [-> | ->].
  rewrite Px, Py in E. apply (inj BigInt_String) in E.
  unfold event_key, payment_id, tx_hash_hex. by rewrite E, (ledger_nonce_hash L ev ev').
Qed.

(** C1. No receipt without a payment. Of the disk it is assumed that every write is
    complete and synced, or fails before its first byte (what a torn write or a failed
    sync does to the receipt file is [Store_torn_write] and [Store_sync_failure]), and
    that the file the gateway starts with loads and holds receipts of settlements.
    Then, whatever else happens to the running gateway (any requests, the timer at any
    time, acknowledgements in between the parts of [Handle], transactions that fail or
    whose answer is lost, RPC errors, other accounts settling on the contract,
    restarts), the process does not panic and comes up again at each restart; every
    receipt it recorded is that of an intent the contract settled, with the values
    settled and a packet that parses and is signed; no payment has two receipts; and
    what the contract settled it had settled before, or another account sent it, or a
    request was accepted that pays it: a frame signed by the registered key. *)
Theorem receipts_only_for_payments db k0 disk rs acts :
  file_of rs disk → Forall (backed (St := St) sd (ledger_of k0)) (contents (replay rs)) →
  Forall (writes_ok clean_io) acts →
  ∃ y0 y, gw_start db k0 disk = Some y0 ∧ gw_run acts y0 = Some y ∧
    (∀ rec, rec ∈ contents (sy_store y).1 → ∃ i, receipt_of_intent (ledger_of (sy_node y)) i rec) ∧
    NoDup (PaymentID <$> contents (sy_store y).1) ∧
    ∀ i, i ∈ ledger_intents (ledger_of (sy_node y)) → origin db (ledger_of k0) acts i.
Proof.
  intros Hf Hb Hw. destruct (start_ok db k0 disk rs Hf Hb) as (y0 & Hst & Hdb & Hok & _ & _ & _ & Hsub).
  destruct (run_safe db (ledger_of k0) acts acts y0) as (y & Hrun & (Hok' & _ & acc & Horig & Hacc));
    [done|done| |].
  { split; [done|]. split; [done|]. exists []. split; [constructor|]. rewrite Hsub.
    apply accounts_new. intros i Hi. left. by left. }
  exists y0, y. split; [done|]. split; [done|]. destruct Hok' as [_ _ Hrec].
  pose proof (ri_backed _ _ _ _ _ _ Hrec) as Hback. pose proof (ledger_of_wf (sy_node y)) as HL.
  split; [|split].
  - intros rec Hin. rewrite list.Forall_forall in Hback. by apply backed_receipt, Hback.
  - eapply backed_nonces; [done..|]. by eapply log_keys_nodup, synced_wf, ri_synced.
  - by apply (accounts_origin _ _ _ acc (sub_of y)).
Qed.

(** *** Catching up *)

(** How many parts of [Handle] the goroutine has before it at most. *)
Definition work (rt : routine) : nat :=
  match rt with
  | Handling pc evs =>
      3 * length evs - match pc with At_seq => 1 | At_build _ => 2 | _ => 0 end
  | _ => 0
  end.

Definition handling (rt : routine) : Prop := match rt with Handling _ _ => True | _ => False end.

Lemma handle_work plan y :
  clean_io plan → sys_ok y → handling (sy_routine y) →
  ∃ y', gw_act (A_handle plan) y = Some y' ∧ sy_db y' = sy_db y ∧ sys_ok y' ∧
    sub_of y' = sub_of y ∧ (good_io plan → sys_covered y → sys_covered y') ∧
    sy_watcher y' = sy_watcher y ∧ handling (sy_routine y') ∧
    (work (sy_routine y') ≤ pred (work (sy_routine y)))%nat.
Proof.
  intros Hplan Hok Hh. destruct (handle_ok plan y Hplan Hok) as (y' & Ha & Hdb & Hok' & Hs & Hcov).
  exists y'. do 5 (split; [done|]). unfold gw_act, act, run_poll, run_handle in Ha.
  destruct (sy_routine y) as [|pc [|ev evs]|] eqn:Hrt; [destruct Hh| | |destruct Hh].
  { injection Ha as <-. rewrite Hrt. by split_and!. }
  destruct (Handle_step _ _ _ _ _) as [[[pc1 p1] st1]|] eqn:Hstep; [|done].
  cbn [mbind option_bind] in Ha. injection Ha as <-. cbn [sy_watcher sy_routine]. split; [done|].
  destruct pc as [| |q|r]; cbn [Handle_step] in Hstep; [| | |done].
  - destruct (already_recorded _ _); injection Hstep as <- _ _; (split; [done|cbn; lia]).
  - destruct (next_seq _). injection Hstep as <- _ _. split; [done|cbn; lia].
  - destruct (build_and_append _ _ _ _ _) as [[r st]|]; [|done]. injection Hstep as <- _ _.
    split; [done|cbn; lia].
Qed.

Lemma handle_all plan n y :
  good_io plan → sys_ok y → sys_covered y → handling (sy_routine y) → (work (sy_routine y) ≤ n)%nat →
  ∃ y' pc, gw_run (replicate n (A_handle plan)) y = Some y' ∧ sy_db y' = sy_db y ∧ sys_ok y' ∧
    sub_of y' = sub_of y ∧ sys_covered y' ∧ sy_watcher y' = sy_watcher y ∧
    sy_routine y' = Handling pc [].
Proof.
  intros Hgood. revert y. induction n as [|n IH]; intros y Hok Hcov Hh Hn; cbn [replicate].
  - destruct (sy_routine y) as [|pc evs|] eqn:Hrt; [done| |done]. exists y, pc.
    assert (evs = []) as ->; [|by split_and!].
    destruct Hok as [_ _ Hrec]. pose proof (ri_pc _ _ _ _ _ _ Hrec) as Hpc. rewrite Hrt in Hpc.
    destruct evs as [|ev evs]; [done|]. cbn in Hn. destruct pc; lia.
  - destruct (handle_work plan y (or_intror Hgood) Hok Hh)
      as (y1 & Ha & Hdb & Hok1 & Hs & Hcov1 & Hw & Hh1 & Hn1).
    destruct (IH y1 Hok1 (Hcov1 Hgood Hcov) Hh1 ltac:(lia)) as (y' & pc & Hrun & Hdb' & Hok' & Hs' & Hcov' & Hw' & Hr').
    exists y', pc. unfold gw_run, gw_act in *. cbn [run]. rewrite Ha.
    split_and!; try done; congruence.
Qed.

Lemma poll_all I y :
  responsive I → I (sy_node y) → sys_ok y → sys_covered y → sy_routine y = Polling →
  ∃ y', gw_act A_poll y = Some y' ∧ sy_db y' = sy_db y ∧ sys_ok y' ∧ sys_covered y' ∧
    sy_sub y' = sy_sub y ∧ ledger_of (sy_node y') = ledger_of (sy_node y) ∧ I (sy_node y') ∧
    handling (sy_routine y') ∧
    ∀ ev, ev ∈ ledger_events (ledger_of (sy_node y)) → Ev_BlockNumber ev < nextBlock (sy_watcher y').
Proof.
  intros HI Hk Hok Hcov Hrt. pose proof Hok as [Hc Ht Hrec].
  destruct (poll_ok y Hok) as (y' & Ha & Hdb & Hok' & (Hs & HL & _) & Hcov').
  exists y'. do 3 (split; [done|]). split; [by apply Hcov'|]. split; [done|]. split; [done|].
  pose proof (Poll_responsive I (sy_watcher y) (sy_node y) HI Hk Hc Ht
    ltac:(apply (ri_cursor _ _ _ _ _ _ Hrec))) as Hresp.
  rewrite Hrt in Hrec.
  pose proof (receipts_poll (St := St) sd seed_size (sy_node y) _ _ _ Hc Ht Hrec) as Hp.
  unfold gw_act, act, run_poll, run_handle in Ha. rewrite Hrt in Ha.
  destruct (Poll (sy_watcher y) (sy_node y)) as [[[evs err] w'] k'].
  destruct Hresp as [-> Hk'], Hp as (_ & _ & _ & _ & _ & Hall). injection Ha as <-. cbn.
  split; [done|]. split; [done|]. by apply Hall.
Qed.

(** A receipt with the key of a settled intent is the receipt of that intent. *)
Lemma receipt_by_key L i rec n b t :
  ledger_wf L → backed (St := St) sd L rec → i ∈ ledger_intents L →
  key_of rec = event_key (event_of n (blk_time b) (tx_hash t) i) → receipt_of_intent L i rec.
Proof.
  intros HL Hb Hi Hkey. destruct (backed_receipt L rec HL Hb) as (i' & Hr).
  pose proof Hr as (n' & b' & t' & raw & Hb' & Ht & Hi' & Hid & Htx & _).
  assert (i' ∈ ledger_intents L) as Hin.
  { apply elem_of_ledger_intents. apply block_at_elem in Hb'. eauto. }
  assert (SI_TxNonce i' = SI_TxNonce i) as E.
  { pose proof (lw_types L HL) as Hty. rewrite list.Forall_forall in Hty.
    destruct (Hty i Hi) as (_ & _ & _ & [? _] & _), (Hty i' Hin) as (_ & _ & _ & [? _] & _).
    unfold key_of in Hkey. rewrite Hid, Htx in Hkey.
    apply dedupKey_inj in Hkey as [Hkey _]; [|by apply BigInt_String_no_bar..].
    exact (inj BigInt_String _ _ Hkey). }
  destruct (ledger_wf_settled L HL) as (_ & _ & Hnd).
  by rewrite (NoDup_fmap_elem SI_TxNonce _ i i' Hnd Hi Hin (eq_sym E)).
Qed.

(** Every settlement of the ledger has its receipt. *)
Definition all_receipted y : Prop :=
  ∀ i, i ∈ ledger_intents (ledger_of (sy_node y)) →
    ∃ rec, rec ∈ contents (sy_store y).1 ∧ receipt_of_intent (ledger_of (sy_node y)) i rec.

(** One round and its events, from a goroutine about to poll. *)
Lemma round_receipts plan I y :
  responsive I → good_io plan → I (sy_node y) → sys_ok y → sys_covered y → sy_routine y = Polling →
  ∃ n y' pc, gw_run (A_poll :: replicate n (A_handle plan)) y = Some y' ∧ sy_db y' = sy_db y ∧
    sys_ok y' ∧ sys_covered y' ∧ sy_sub y' = sy_sub y ∧
    ledger_of (sy_node y') = ledger_of (sy_node y) ∧ I (sy_node y') ∧
    sy_routine y' = Handling pc [] ∧ all_receipted y'.
Proof.
  intros HI Hgood Hk Hok Hcov Hrt.
  destruct (poll_all I y HI Hk Hok Hcov Hrt) as (y1 & Ha & Hdb & Hok1 & Hcov1 & Hs & HL & Hk1 & Hh & Hcur).
  destruct (handle_all plan (work (sy_routine y1)) y1 Hgood Hok1 Hcov1 Hh ltac:(lia))
    as (y' & pc & Hrun & Hdb' & Hok' & Hs' & Hcov' & Hw & Hr').
  unfold sub_of in Hs'. injection Hs' as Hs1 Hs2. exists (work (sy_routine y1)), y', pc.
  split; [unfold gw_run, gw_act in *; cbn [run]; by rewrite Ha|].
  split; [congruence|]. split; [done|]. split; [done|]. split; [congruence|]. split; [congruence|].
  split; [congruence|]. split; [done|].
  intros i Hi. destruct (ledger_intent_event _ _ Hi) as (n & b & t & Hb & Ht & Hin & Hev).
  destruct (Hcov' _ Hev) as [Hp|Hkey].
  - rewrite Hw. apply Hcur. congruence.
  - rewrite Hr' in Hp. by apply elem_of_nil in Hp.
  - apply list_elem_of_fmap in Hkey as (rec & Hkey & Hrec). exists rec. split; [done|].
    destruct Hok' as [_ _ Hinv]. pose proof (ri_backed _ _ _ _ _ _ Hinv) as Hb'.
    rewrite list.Forall_forall in Hb'. eapply receipt_by_key; [apply ledger_of_wf|by apply Hb'|done|].
    by rewrite <- Hkey.
Qed.

(** C6. A restart heals. Let the gateway run from a receipt file that loads and holds
    receipts of settlements, with every disk write complete and synced, or failing
    before its first byte (after a torn write the restart itself fails,
    [Store_torn_write]). The goroutine may have returned with an error, appends may have
    failed in this way, RPC calls may have failed, and other restarts may have come
    before; after a restart, if the node answers and the disk works, one round leaves
    every settlement of the ledger with its receipt. *)
Theorem restart_catches_up plan I db k0 disk rs acts :
  file_of rs disk → Forall (backed (St := St) sd (ledger_of k0)) (contents (replay rs)) →
  Forall (writes_ok clean_io) acts → responsive I → good_io plan →
  ∃ y0 y, gw_start db k0 disk = Some y0 ∧ gw_run acts y0 = Some y ∧
    (I (sy_node y) → ∃ n y', gw_run ([A_restart; A_poll] ++ replicate n (A_handle plan)) y = Some y' ∧
       ledger_of (sy_node y') = ledger_of (sy_node y) ∧ all_receipted y').
Proof.
  intros Hf Hb Hw HI Hgood.
  destruct (start_ok db k0 disk rs Hf Hb) as (y0 & Hst & _ & Hok0 & _).
  destruct (run_ok acts y0 Hw Hok0) as (y & Hr & Hok). exists y0, y. split; [done|]. split; [done|].
  intros Hk. destruct Hok as [_ _ Hrec]. destruct (ri_synced _ _ _ _ _ _ Hrec) as (rs' & Hf' & Hr' & Ho').
  destruct (start_ok (sy_db y) (sy_node y) (sy_store y).2 rs' Hf') as (y1 & Ha & _ & Hok1 & Hcov1 & Hrt1 & _ & Hs1).
  { pose proof (ri_backed _ _ _ _ _ _ Hrec) as Hback. unfold contents in *. by rewrite <- Hr', <- Ho'. }
  unfold sub_of in Hs1. injection Hs1 as _ Hnode.
  destruct (round_receipts plan I y1 HI Hgood) as (n & y' & pc & Hround & _ & _ & _ & _ & HL & _ & _ & Hall);
    [by rewrite Hnode|done..|].
  exists n, y'. split; [|split; [congruence|done]].
  unfold gw_run, gw_start in *. cbn [app run act]. rewrite Ha. exact Hround.
Qed.
(** *** Every payment gets its receipt *)

(** What an accepted request pays, by the actions. *)
Definition action_pays (db : MockDB) (a : action) (paid : option SettlementIntent) : Prop :=
  match a with
  | A_request (POST_ingest body) => request_pays db body paid
  | _ => paid = None
  end.

(** Nobody else settles, and the process is neither killed nor told to stop. *)
Definition undisturbed (a : action) : Prop :=
  match a with A_foreign _ | A_restart | A_wait false => False | _ => True end.

Definition running (rt : routine) : Prop := match rt with Exited _ => False | _ => True end.

(** Block numbers and gateways count in 64 bits. *)
Definition has_room k : Prop := Z.of_nat (length (ledger_of k)) < 2 ^ 64 - 1.

(** The intents of a batch fit the ABI, and there is a number for its block. *)
Definition admits (batch : list SettlementIntent) k : Prop := Forall intent_wf batch ∧ has_room k.

Lemma room_before k k' ints : grows (ledger_of k) (ledger_of k') ints → has_room k' → has_room k.
Proof. intros (M & E & _). unfold has_room. rewrite E, length_app. lia. Qed.

Section Payments.
Variables (db : MockDB) (L0 : list block) (I : K → Prop).
Hypothesis through : gets_through admits I.
Hypothesis answers : responsive I.
Hypothesis mine_stays : ∀ k, I k → I (Mine k).

(** Intents the contract takes, in batches the submitter makes. *)
Record takes (tk : list (list SettlementIntent)) : Prop := {
  tk_sizes : Forall (λ b : list SettlementIntent, 1 <= Z.of_nat (length b) <= 10) tk;
  tk_types : Forall intent_wf (concat tk);
  tk_payable : Forall payable (concat tk);
  tk_fresh : NoDup (SI_TxNonce <$> ledger_intents L0 ++ concat tk);
}.

Lemma takes_prefix tk b : takes (tk ++ [b]) → takes tk.
Proof.
  intros [Hs Ht Hp Hf]. rewrite concat_app in *. rewrite app_assoc, fmap_app in Hf.
  apply list.Forall_app in Hs as [Hs _], Ht as [Ht _], Hp as [Hp _].
  apply list.NoDup_app in Hf as [Hf _]. by split.
Qed.

(** The node has settled what the submitter sent, in that order, and nothing else. *)
Definition settles_all k (tk : list (list SettlementIntent)) : Prop :=
  I k ∧ (takes tk → has_room k → ledger_intents (ledger_of k) = ledger_intents L0 ++ concat tk).

Lemma settles_submit k tk b : settles_all k tk → settles_all (submit b k) (tk ++ [b]).
Proof.
  intros [HI Hk]. split; [by eapply submit_stays|]. intros Htk Hroom.
  assert (has_room k) as Hroom'.
  { destruct (submit_grows b k) as [Hg|Hg]; by eapply room_before. }
  specialize (Hk (takes_prefix _ _ Htk) Hroom'). destruct Htk as [Hs Ht Hp Hf].
  rewrite concat_app in *. cbn [concat] in *. rewrite app_nil_r in *.
  apply list.Forall_app in Hs as [_ Hs], Ht as [_ Ht], Hp as [_ Hp].
  rewrite list.Forall_singleton in Hs.
  destruct (ledger_wf_settled _ (ledger_of_wf k)) as (Hwf & _ & _).
  assert (grows (ledger_of k) (ledger_of (submit b k)) b) as Hg.
  { eapply (submit_grows_through admits I); [done..| |].
    - by split.
    - apply settleBatch_ok; [exact Hwf|]. rewrite app_assoc, <- Hk, fmap_app in Hf.
      apply list.NoDup_app in Hf as (_ & Hdisj & Hnb). split_and!; [lia..|done|done| |reflexivity].
      apply list.Forall_forall. intros i Hi. unfold ledger_storage.
      rewrite lookup_record_all; [apply lookup_empty|]. intros j Hj E.
      apply (Hdisj (SI_TxNonce j)); [by apply list_elem_of_fmap_2|]. rewrite E.
      by apply list_elem_of_fmap_2. }
  by rewrite (grows_intents _ _ _ Hg), Hk, app_assoc.
Qed.

Lemma settles_same k k' tk :
  grows (ledger_of k) (ledger_of k') [] → I k' → settles_all k tk → settles_all k' tk.
Proof.
  intros Hg HI [_ Hk]. split; [done|]. intros Htk Hroom.
  rewrite (grows_intents _ _ _ Hg), app_nil_r. apply Hk; [done|]. by eapply room_before.
Qed.

Record sys_live (acc : list SettlementIntent) y : Prop := {
  sl_ok : sys_ok y;
  sl_covered : sys_covered y;
  sl_db : sy_db y = db;
  sl_running : running (sy_routine y);
  sl_accounts : accounts settles_all acc (sub_of y);
}.

Lemma live_node acc y : sys_live acc y → I (sy_node y).
Proof. intros [_ _ _ _ (tk & _ & _ & _ & [HI _])]. exact HI. Qed.

Lemma accounts_node acc y k' sub :
  sub = sy_sub y → grows (ledger_of (sy_node y)) (ledger_of k') [] → I k' →
  accounts settles_all acc (sub_of y) → accounts settles_all acc (sub, k').
Proof.
  intros -> Hg HI (tk & Hi & Hc & Hm & HP). exists tk. split_and!; [done..|]. by eapply settles_same.
Qed.

Lemma with_gateway_routine rt (g : gateway K) y : with_gateway rt g = Some y → sy_routine y = rt.
Proof.
  unfold with_gateway. destruct (gw_submitter g) as [[sub node]|]; [|done]. cbn [mbind option_bind].
  destruct (gw_egress g) as [st|]; [|done]. cbn [mbind option_bind]. destruct (gw_receipts g) as [[p w]|]; [|done].
  cbn [mbind option_bind]. by intros [= <-].
Qed.

Lemma act_running a acc y y' :
  undisturbed a → sys_live acc y → gw_act a y = Some y' → running (sy_routine y').
Proof.
  intros Ha Hl. pose proof (live_node _ _ Hl) as HI. destruct Hl as [[Hc Ht Hrec] _ _ Hr _].
  unfold gw_act, act, run_poll, run_handle, run_wait. destruct a as [r|t| |plan|[]|intents| |]; try done.
  - destruct (serve _ _ _ _) as [[reply g]|]; [|done]. cbn [mbind option_bind].
    by intros ->%with_gateway_routine.
  - by intros ->%with_gateway_routine.
  - pose proof (Poll_responsive I (sy_watcher y) (sy_node y) answers HI Hc Ht
      ltac:(apply (ri_cursor _ _ _ _ _ _ Hrec))) as Hp.
    destruct (sy_routine y) eqn:Hrt; [|intros [= <-]; by rewrite Hrt|done].
    destruct (Poll _ _) as [[[evs err] w'] k']. destruct Hp as [-> _]. by intros [= <-].
  - destruct (sy_routine y) as [|pc [|ev evs]|] eqn:Hrt; [intros [= <-]; by rewrite Hrt..| |done].
    destruct (Handle_step _ _ _ _ _) as [[[[] p1] st1]|]; [..|done]; by intros [= <-].
  - destruct (sy_routine y) as [|pc [|ev evs]|] eqn:Hrt; intros [= <-]; by rewrite ?Hrt.
  - by intros [= <-].
Qed.

Lemma act_live a acc y :
  undisturbed a → writes_ok good_io a → sys_live acc y →
  ∃ y' paid, gw_act a y = Some y' ∧ action_pays db a paid ∧ sys_live (acc ++ option_list paid) y'.
Proof.
  intros Ha Hw Hl. pose proof (live_node _ _ Hl) as HI. pose proof Hl as [Hok Hcov Hdb _ Hacc].
  assert (writes_ok clean_io a) as Hclean.
  { destruct a as [[]| | | | | | |]; cbn in *; try done; by right. }
  destruct (act_ok a y Hclean Hok) as (y' & Hact & Hdb' & Hok' & Hsub & Hcov').
  pose proof (act_running a acc y y' Ha Hl Hact) as Hrun.
  assert (∀ paid, accounts settles_all (acc ++ option_list paid) (sub_of y') →
    sys_live (acc ++ option_list paid) y') as Hlive.
  { intros paid Hacc'. split; [done|by apply Hcov'|congruence|done|done]. }
  assert (sub_of y' = sub_of y → accounts settles_all (acc ++ option_list None) (sub_of y')) as Hsame.
  { intros ->. by rewrite app_nil_r. }
  exists y'. destruct a as [[body| |plan bound]|t| |plan|[]|intents| |]; cbn [sub_after] in Hsub;
    try done; try (exists None; split; [done|]; split; [done|]; apply Hlive; by auto).
  - destruct Hsub as (paid & Hpays & E). exists paid. split; [done|]. cbn. split; [by rewrite <- Hdb|].
    apply Hlive. rewrite E. by apply accounts_enqueue_opt; [apply settles_submit|].
  - exists None. split; [done|]. split; [done|]. apply Hlive. rewrite Hsub, app_nil_r.
    by apply accounts_timer; [apply settles_submit|].
  - exists None. split; [done|]. split; [done|]. apply Hlive. rewrite app_nil_r.
    destruct Hok as [Hc Ht Hrec]. destruct Hsub as (Es & EL & Ek).
    destruct (sub_of y') as [sub k'] eqn:E. cbn [fst snd] in *.
    eapply accounts_node; [exact Es| | |exact Hacc]; [rewrite EL; apply grows_refl|].
    destruct Ek as [-> | ->]; [done|].
    pose proof (Poll_responsive I (sy_watcher y) (sy_node y) answers HI Hc Ht
      ltac:(apply (ri_cursor _ _ _ _ _ _ Hrec))) as Hp.
    destruct (Poll _ _) as [[[evs err] w'] k']. by destruct Hp.
  - exists None. split; [done|]. split; [done|]. apply Hlive. rewrite Hsub, app_nil_r.
    eapply accounts_node; [reflexivity|apply Mine_grows|by apply mine_stays|done].
Qed.

Lemma run_live acts acc y :
  Forall undisturbed acts → Forall (writes_ok good_io) acts → sys_live acc y →
  ∃ y' paid, gw_run acts y = Some y' ∧ Forall2 (action_pays db) acts paid ∧
    sys_live (acc ++ omap id paid) y'.
Proof.
  revert acc y. induction acts as [|a acts IH]; intros acc y Hq Hw Hl.
  - exists y, []. rewrite app_nil_r. by split_and!.
  - apply list.Forall_cons in Hq as [Ha Hq], Hw as [Hwa Hw].
    destruct (act_live a acc y Ha Hwa Hl) as (y1 & p & Hact & Hp & Hl1).
    destruct (IH _ _ Hq Hw Hl1) as (y' & paid & Hrun & Hpaid & Hl').
    exists y', (p :: paid). unfold gw_run, gw_act in *. cbn [run]. rewrite Hact. split; [exact Hrun|].
    split; [by constructor|]. rewrite <- app_assoc in Hl'.
    replace (omap id (p :: paid)) with (option_list p ++ omap id paid) by by destruct p. done.
Qed.

(** Actions that pay nothing. *)
Lemma pays_nothing acts paid :
  Forall (λ a, ∀ p, action_pays db a p → p = None) acts → Forall2 (action_pays db) acts paid →
  omap id paid = [].
Proof.
  intros Ha Hp. revert Ha. induction Hp as [|a p acts paid Hap _ IH]; intros Ha; [done|].
  apply list.Forall_cons in Ha as [Ha Has]. rewrite (Ha p Hap). by apply IH.
Qed.

(** The goroutine finishes its round and waits for its ticker. *)
Lemma reach_polling plan acc y :
  good_io plan → sys_live acc y →
  ∃ n y', gw_run (replicate n (A_handle plan) ++ [A_wait true]) y = Some y' ∧ sys_live acc y' ∧
    sub_of y' = sub_of y ∧ sy_routine y' = Polling.
Proof.
  intros Hgood Hl.
  assert (∃ n y', gw_run (replicate n (A_handle plan) ++ [A_wait true]) y = Some y' ∧
    sub_of y' = sub_of y ∧ sy_routine y' = Polling) as (n & y' & Hrun & Hs & Hr).
  { destruct Hl as [Hok Hcov _ Hrun _]. destruct (sy_routine y) as [|pc evs|] eqn:Hrt; [|clear Hrun|done].
    - exists 0%nat, y. unfold gw_run. cbn [replicate app run act]; unfold run_wait. by rewrite Hrt.
    - destruct (handle_all plan (work (sy_routine y)) y Hgood Hok Hcov) as (y1 & pc1 & Hrun1 & _ & _ & Hs & _ & _ & Hr);
        [by rewrite Hrt|done|].
      exists (work (sy_routine y)), (set_routine Polling y1). unfold gw_run in *. rewrite run_app, Hrun1.
      cbn [mbind option_bind run act]. unfold run_wait. by rewrite Hr. }
  exists n, y'. split; [done|]. split; [|done].
  destruct (run_live (replicate n (A_handle plan) ++ [A_wait true]) acc y) as (y2 & paid & Hrun2 & Hp & Hl2);
    [apply list.Forall_app; split; [by apply Forall_replicate|by repeat constructor].. |done|].
  rewrite Hrun in Hrun2. injection Hrun2 as <-. apply pays_nothing in Hp; [|].
  - by rewrite Hp, app_nil_r in Hl2.
  - apply list.Forall_app. split; [by apply Forall_replicate|]. by repeat constructor.
Qed.

(** The timer empties the buffer. *)
Lemma flush_all acc y :
  sys_live acc y →
  ∃ t y', gw_act (A_timer t) y = Some y' ∧ sys_live acc y' ∧
    ∃ tk, acc = concat tk ∧ Forall (λ b : list SettlementIntent, 1 <= Z.of_nat (length b) <= 10) tk ∧
      settles_all (sy_node y') tk.
Proof.
  intros Hl. pose proof Hl as [_ _ _ _ (tk & Hi & Hc & _)]. unfold sub_of in *.
  destruct (sy_sub y) as [s w] eqn:Hsub. cbn [fst snd] in *.
  destruct (timer_empties (gateway_of y) s w (sy_node y) acc tk) as (t & s' & w' & Hb & Hg);
    [cbn; by rewrite Hsub|done..|].
  destruct (act_live (A_timer t) acc y Logic.I Logic.I Hl) as (y' & p & Hact & Hp & Hl').
  cbn in Hp. subst p. cbn in Hl'. rewrite app_nil_r in Hl'. exists t, y'. split; [done|]. split; [done|].
  assert (sy_sub y' = (s', w')) as Hsub'.
  { revert Hact. unfold gw_act, act, with_gateway. rewrite Hg. cbn [mbind option_bind].
    destruct (gw_egress _); [|done]. cbn [mbind option_bind]. destruct (gw_receipts _) as [[]|]; [|done].
    cbn [mbind option_bind]. by intros [= <-]. }
  destruct Hl' as [_ _ _ _ (tk' & Hi' & _ & Hm & HP)]. unfold sub_of in *. rewrite Hsub' in *.
  cbn [fst snd] in *. exists tk'. destruct Hi' as [_ _ _ _ _ _ Hacc Hsizes]. rewrite Hb, app_nil_r in Hacc.
  rewrite Hm in Hsizes. split_and!; [done| |by destruct HP..].
  revert Hsizes. apply Forall_impl. unfold DefaultMaxBatch. lia.
Qed.
End Payments.

Lemma action_pays_unique db acts paid paid' :
  Forall2 (action_pays db) acts paid → Forall2 (action_pays db) acts paid' → paid = paid'.
Proof.
  intros Hp. revert paid'. induction Hp as [|a p acts paid Ha _ IH]; intros paid' Hp'.
  - by apply Forall2_nil_inv_l in Hp' as ->.
  - apply Forall2_cons_inv_l in Hp' as (p' & l' & Ha' & Hp' & ->). f_equal; [|by apply IH].
    destruct a as [[]| | | | | | |]; cbn in Ha, Ha'; [|congruence..].
    by eapply (request_pays_unique (St := St)).
Qed.

Lemma request_pays_types db body i : request_pays db body (Some i) → intent_wf i.
Proof.
  intros [?|[?|(f & tl & Hwf & _ & Hp)]]%request_case_inv; [done..|].
  destruct (frame_verdict db f _); [|done]. by eapply payment_intent_types.
Qed.

Lemma actions_pay_types db acts paid :
  Forall2 (action_pays db) acts paid → Forall intent_wf (omap id paid).
Proof.
  induction 1 as [|a p acts paid Ha _ IH]; [constructor|].
  destruct p as [i|]; [|exact IH]. constructor; [|exact IH].
  destruct a as [[]| | | | | | |]; try done. by eapply request_pays_types.
Qed.

(** C2. Every payment gets its receipt. Requests come in, timers fire, blocks are mined and
    the goroutine works, in any order, on a node that answers and lets a batch
    through at the second attempt at the latest, and on a disk that works. If the
    requests pay, in USDC and to wallets that are not zero, for distinct nonces the
    contract has not seen, then once the timer has fired, the goroutine is through with its
    round and has made one more, the contract has settled what it had settled and the
    accepted payments, in the order they came in, and everything it settled has its
    receipt. Nothing before stops the goroutine. *)
Theorem every_payment_gets_receipt plan I db k0 disk rs acts paid :
  file_of rs disk → Forall (backed (St := St) sd (ledger_of k0)) (contents (replay rs)) →
  gets_through admits I → responsive I → (∀ k, I k → I (Mine k)) → I k0 → good_io plan →
  Forall undisturbed acts → Forall (writes_ok good_io) acts →
  Forall2 (action_pays db) acts paid → Forall payable (omap id paid) →
  NoDup (SI_TxNonce <$> ledger_intents (ledger_of k0) ++ omap id paid) →
  ∃ y0 y t n1 n2 y', gw_start db k0 disk = Some y0 ∧ gw_run acts y0 = Some y ∧
    gw_run (A_timer t :: (replicate n1 (A_handle plan) ++ [A_wait true]) ++
            A_poll :: replicate n2 (A_handle plan)) y = Some y' ∧
    (has_room (sy_node y') →
     ledger_intents (ledger_of (sy_node y')) = ledger_intents (ledger_of k0) ++ omap id paid) ∧
    all_receipted y'.
Proof.
  intros Hf Hb Hthru HI Hmine Hk0 Hgood Hq Hw Hpaid Hpay Hnd. set (L0 := ledger_of k0).
  destruct (start_ok db k0 disk rs Hf Hb) as (y0 & Hst & Hdb & Hok & Hcov & Hrt & _ & Hsub).
  assert (sys_live db L0 I [] y0) as Hl0.
  { split; [done..|by rewrite Hrt|]. rewrite Hsub. apply accounts_new. split; [done|].
    intros _ _. by rewrite app_nil_r. }
  destruct (run_live db L0 I Hthru HI Hmine acts [] y0 Hq Hw Hl0) as (y & paid' & Hrun & Hpaid' & Hl).
  rewrite <- (action_pays_unique _ _ _ _ Hpaid Hpaid') in Hl. cbn [app] in Hl.
  destruct (flush_all db L0 I Hthru HI Hmine _ y Hl) as (t & y1 & Hact & Hl1 & tk & Htk & Hsizes & _ & Hset).
  destruct (reach_polling db L0 I Hthru HI Hmine plan _ y1 Hgood Hl1) as (n1 & y2 & Hrun2 & Hl2 & Hs2 & Hr2).
  pose proof (live_node db L0 I _ _ Hl2) as HI2. destruct Hl2 as [Hok2 Hcov2 _ _ _].
  destruct (round_receipts plan I y2 HI Hgood HI2 Hok2 Hcov2 Hr2)
    as (n2 & y' & pc & Hrun3 & _ & _ & _ & _ & HL & _ & _ & Hall).
  exists y0, y, t, n1, n2, y'. split; [done|]. split; [done|]. split.
  { unfold gw_run, gw_act in *. cbn [run]. rewrite Hact. cbn [mbind option_bind].
    rewrite run_app, Hrun2. exact Hrun3. }
  split; [|done]. unfold has_room. unfold sub_of in Hs2. injection Hs2 as _ Hn2.
  rewrite HL, Hn2, Htk. apply Hset. split; [done|rewrite <- Htk; by eapply actions_pay_types|..];
    by rewrite <- Htk.
Qed.
End Actions.

(** ** Witnesses: the node of [DemoChain] *)
#[local] Existing Instance json_codec.
#[local] Existing Instance json_codec_laws.

Lemma faultless_takes : gets_through admits faultless.
Proof.
  intros batch k Hk. pose proof Hk as [Ht Hr].
  unfold SettleBatch, EscrowClient_IntentSubmitter, EscrowClient_SettleBatch.
  destruct (Nat.eqb_spec (length batch) 0) as [Hz|_].
  { split; [done|]. intros st evs _ Hs. apply nil_length_inv in Hz as ->. discriminate Hs. }
  change (Transact batch k) with (mem_contract batch k). unfold mem_contract. cbv zeta. rewrite Ht.
  destruct (can_add (mem_ledger k) _) eqn:E; cbn [snd]; (split; [done|]); intros st evs [Hty Hroom] Hs.
  - left. eapply (storage_mined (mem_ledger k)); [apply mem_ledger_wf|exact Hs|].
    change (ledger_of ?k') with (mem_ledger k'). rewrite mem_ledger_block. unfold extend. rewrite E.
    by eexists.
  - exfalso. unfold has_room in Hroom. change (ledger_of k) with (mem_ledger k) in *.
    rewrite (can_add_tx k batch st evs) in E; [done|done|lia|done].
Qed.

Definition new_chain (txf : list (option fault)) (rpcf : list bool) : MemChain :=
  {| attempts := []; tx_faults := txf; rpc_faults := rpcf |}.

Notation demo_start k := (gw_start (K := MemChain) (hex_encode demo_seed) demo_db k []).
Notation demo_run := (gw_run (St := ListStream) (C := TraceContext gin_H) (D := TraceContext egress_body)
  (K := MemChain) new_context new_context (hex_encode demo_seed)).

Lemma demo_seed_decodes :
  hex_decode (if String.eqb (hex_encode demo_seed) "" then demoSellerSeedHex else hex_encode demo_seed)
    = Some demo_seed.
Proof. vm_compute. reflexivity. Qed.

(** A payment is settled but the answer is lost, so the submitter tries in vain once more;
    somebody else settles; the chain cannot be read, and the goroutine ends; the
    process is restarted, and reads it all. *)
Definition demo_acts : list action :=
  [A_request (POST_ingest (Ok Golden.golden_ccsds_a)); A_request (POST_ingest (Ok demo_b)); A_timer 0;
   A_foreign [demo_intent 1]; A_poll; A_request GET_pending; A_wait true; A_mine; A_restart; A_poll] ++
  replicate 6 (A_handle io_good).

Lemma demo_writes (ok : io → Prop) : ok io_good → Forall (writes_ok ok) demo_acts.
Proof. intros Hok. repeat constructor; exact Hok. Qed.

Example demo_acts_run :
  (y0 ← demo_start (new_chain [Some Answer_lost] [true]); y ← demo_run demo_acts y0;
   Some (PaymentID <$> contents (sy_store y).1, length (ledger_of (sy_node y)), sy_routine y)) =
  Some (["62823921007141009161605796512"; "18446744073709551617"]%string, 4%nat, Handling At_check []).
Proof. vm_compute. reflexivity. Qed.

Lemma receipts_only_for_payments_witness :
  ∃ y0 y, demo_start (new_chain [Some Answer_lost] [true]) = Some y0 ∧ demo_run demo_acts y0 = Some y ∧
    (∀ rec, rec ∈ contents (sy_store y).1 →
       ∃ i, receipt_of_intent (St := ListStream) demo_seed (ledger_of (sy_node y)) i rec) ∧
    NoDup (PaymentID <$> contents (sy_store y).1).
Proof.
  destruct (receipts_only_for_payments (St := ListStream) (C := TraceContext gin_H)
    (D := TraceContext egress_body) (K := MemChain) new_context new_context fresh_context
    fresh_egress_context (hex_encode demo_seed) demo_seed demo_seed_decodes eq_refl
    mem_events_representable demo_db (new_chain [Some Answer_lost] [true]) [] [] demo_acts)
    as (y0 & y & Hst & Hrun & Hrec & Hnd & _).
  - exact file_of_nil.
  - apply list.Forall_nil_2.
  - apply demo_writes. by right.
  - exists y0, y. split; [exact Hst|]. split; [exact Hrun|]. split; [exact Hrec|exact Hnd].
Defined.

Lemma restart_catches_up_witness :
  ∃ y0 y, demo_start (new_chain [Some Answer_lost] [true]) = Some y0 ∧
    demo_run (take 8 demo_acts) y0 = Some y ∧
    ∃ n y', demo_run ([A_restart; A_poll] ++ replicate n (A_handle io_good)) y = Some y' ∧
      all_receipted (St := ListStream) demo_seed y'.
Proof.
  destruct (restart_catches_up (St := ListStream) (C := TraceContext gin_H)
    (D := TraceContext egress_body) (K := MemChain) new_context new_context fresh_context
    fresh_egress_context (hex_encode demo_seed) demo_seed demo_seed_decodes eq_refl
    mem_events_representable io_good faultless demo_db (new_chain [Some Answer_lost] [true]) [] []
    (take 8 demo_acts)) as (y0 & y & Hst & Hrun & Hround).
  - exact file_of_nil.
  - apply list.Forall_nil_2.
  - repeat constructor; by right.
  - exact faultless_responsive.
  - split; reflexivity.
  - exists y0, y. split; [exact Hst|]. split; [exact Hrun|].
    destruct Hround as (n & y' & Hrun' & _ & Hall).
    + assert ((λ y, (tx_faults (sy_node y), rpc_faults (sy_node y))) <$>
        (y0 ← demo_start (new_chain [Some Answer_lost] [true]); demo_run (take 8 demo_acts) y0) =
        Some ([], [])) as E by (vm_compute; reflexivity).
      rewrite Hst in E. cbn [mbind option_bind] in E. rewrite Hrun in E.
      cbn [fmap option_fmap option_map] in E. injection E as E1 E2. by split.
    + exists n, y'. split; [exact Hrun'|exact Hall].
Defined.

(** Requests and a payment, while the goroutine works. *)
Definition demo_payment_acts : list action :=
  [A_request (POST_ingest (Ok Golden.golden_ccsds_a)); A_poll; A_request (POST_ingest (Ok demo_b));
   A_wait true; A_mine].

Lemma every_payment_gets_receipt_witness :
  ∃ i y0 y t n1 n2 y', pays demo_b = Some i ∧
    demo_start (new_chain [] []) = Some y0 ∧ demo_run demo_payment_acts y0 = Some y ∧
    demo_run (A_timer t :: (replicate n1 (A_handle io_good) ++ [A_wait true]) ++
              A_poll :: replicate n2 (A_handle io_good)) y = Some y' ∧
    (has_room (sy_node y') → ledger_intents (ledger_of (sy_node y')) = [i]) ∧
    all_receipted (St := ListStream) demo_seed y'.
Proof.
  destruct demo_pays as (i & Hi & Hpay).
  destruct (every_payment_gets_receipt (St := ListStream) (C := TraceContext gin_H)
    (D := TraceContext egress_body) (K := MemChain) new_context new_context fresh_context
    fresh_egress_context (hex_encode demo_seed) demo_seed demo_seed_decodes eq_refl
    mem_events_representable io_good faultless demo_db (new_chain [] []) [] []
    demo_payment_acts [None; None; Some i; None; None])
    as (y0 & y & t & n1 & n2 & y' & Hst & Hrun & Htail & Hset & Hall).
  - exact file_of_nil.
  - apply list.Forall_nil_2.
  - exact faultless_takes.
  - exact faultless_responsive.
  - exact faultless_mines.
  - split; reflexivity.
  - split; reflexivity.
  - repeat constructor.
  - repeat constructor.
  - pose proof demo_bodies_pay as Hb. rewrite Hi in Hb.
    change (bodies Server.demo_events) with [Ok Golden.golden_ccsds_a; Ok demo_b; Err tt] in Hb.
    apply list.Forall2_cons_1 in Hb as [Ha Hb]. apply list.Forall2_cons_1 in Hb as [Hb _].
    repeat (apply list.Forall2_cons_2; [first [exact Ha|exact Hb|reflexivity]|]). apply list.Forall2_nil_2.
  - by apply list.Forall_singleton.
  - apply list.NoDup_singleton.
  - exists i, y0, y, t, n1, n2, y'. by split_and!.
Defined.
