(* ===== verification/Spec.v ===== *)
(** * What the gateway does, abstractly

    The contract of the running gateway: a desk where payments wait, what is settled,
    and the receipts with their status. [desk_act] says what each action of [System] may
    change of it; [System.act] is proved to implement that. *)
From S2P Require Export System.
#[local] Open Scope Z_scope.

(** ** The desk *)
Record row := { row_id : string; row_tx : string; row_status : string }.

Record desk `{EthCommon} := {
  waiting : list SettlementIntent;
  settled : list SettlementIntent;
  receipts : list row;
}.

Section Desk.
Context `{Ed25519} `{EthCommon}.
Implicit Types (w l : list SettlementIntent) (r : list row) (i : SettlementIntent).

(** What the contract requires of a batch. *)
Definition accepts l (batch : list SettlementIntent) : Prop :=
  1 <= Z.of_nat (length batch) <= 10 ∧ Forall payable (l ++ batch) ∧
  NoDup (SI_TxNonce <$> l ++ batch).

(** A batch is settled as a whole, or not at all. *)
Inductive settles (batch : list SettlementIntent) l : list SettlementIntent → Prop :=
  | Dropped : settles batch l l
  | Settled : accepts l batch → settles batch l (l ++ batch).

Definition dispatch (id tx : string) (x : row) : row :=
  if String.eqb (dedupKey (row_id x) (row_tx x)) (dedupKey id tx)
  then {| row_id := row_id x; row_tx := row_tx x; row_status := StatusDispatched |} else x.

Inductive desk_act (db : MockDB) : action → desk → desk → Prop :=
  | D_unpaid body s : request_pays db body None → desk_act db (A_request (POST_ingest body)) s s
  | D_payment body i w l r :
      request_pays db body (Some i) → Z.of_nat (length (w ++ [i])) < 10 →
      desk_act db (A_request (POST_ingest body))
        {| waiting := w; settled := l; receipts := r |}
        {| waiting := w ++ [i]; settled := l; receipts := r |}
  | D_tenth body i w l l' r :
      request_pays db body (Some i) → Z.of_nat (length (w ++ [i])) = 10 → settles (w ++ [i]) l l' →
      desk_act db (A_request (POST_ingest body))
        {| waiting := w; settled := l; receipts := r |}
        {| waiting := []; settled := l'; receipts := r |}
  | D_pending s : desk_act db (A_request GET_pending) s s
  | D_no_ack plan bound s : desk_act db (A_request (POST_ack plan bound)) s s
  | D_ack plan req w l r :
      desk_act db (A_request (POST_ack plan (Some req)))
        {| waiting := w; settled := l; receipts := r |}
        {| waiting := w; settled := l;
           receipts := dispatch (Ack_PaymentID req) (Ack_SettlementTxHash req) <$> r |}
  | D_no_timer t s : desk_act db (A_timer t) s s
  | D_timer t w l l' r :
      w ≠ [] → settles w l l' →
      desk_act db (A_timer t)
        {| waiting := w; settled := l; receipts := r |}
        {| waiting := []; settled := l'; receipts := r |}
  | D_poll s : desk_act db A_poll s s
  | D_no_receipt plan s : desk_act db (A_handle plan) s s
  | D_receipt plan i tx w l r :
      i ∈ l → (BigInt_String (SI_TxNonce i) ∉ row_id <$> r) →
      desk_act db (A_handle plan)
        {| waiting := w; settled := l; receipts := r |}
        {| waiting := w; settled := l;
           receipts := r ++ [{| row_id := BigInt_String (SI_TxNonce i); row_tx := tx;
                                row_status := StatusPending |}] |}
  | D_wait ticked s : desk_act db (A_wait ticked) s s
  | D_foreign batch w l l' r :
      settles batch l l' →
      desk_act db (A_foreign batch)
        {| waiting := w; settled := l; receipts := r |}
        {| waiting := w; settled := l'; receipts := r |}
  | D_mine s : desk_act db A_mine s s
  | D_restart w l r :
      desk_act db A_restart
        {| waiting := w; settled := l; receipts := r |}
        {| waiting := []; settled := l; receipts := r |}.

Inductive desk_run (db : MockDB) : list action → desk → desk → Prop :=
  | Run_nil s : desk_run db [] s s
  | Run_cons a acts s s1 s' : desk_act db a s s1 → desk_run db acts s1 s' → desk_run db (a :: acts) s s'.

(** What the desk guarantees: fewer than ten payments wait; what is settled stays, each nonce
    once; every receipt is of a settled payment, and no payment has two. *)
Record desk_safe (s : desk) : Prop := {
  ds_waiting : Z.of_nat (length (waiting s)) < 10;
  ds_settled : NoDup (SI_TxNonce <$> settled s);
  ds_backed id : id ∈ row_id <$> receipts s → ∃ i, i ∈ settled s ∧ id = BigInt_String (SI_TxNonce i);
  ds_once : NoDup (row_id <$> receipts s);
}.

Lemma settles_safe batch l l' :
  settles batch l l' → NoDup (SI_TxNonce <$> l) →
  NoDup (SI_TxNonce <$> l') ∧ ∀ i, i ∈ l → i ∈ l'.
Proof.
  intros [|[_ [_ Hn]]] Hl; [done|]. split; [done|]. intros i Hi. apply elem_of_app. by left.
Qed.

Lemma dispatch_ids id tx r : row_id <$> (dispatch id tx <$> r) = row_id <$> r.
Proof.
  rewrite <- list_fmap_compose. apply list_fmap_ext. intros j x _. cbn. unfold dispatch.
  by destruct (String.eqb _ _).
Qed.

Lemma desk_act_safe db a s s' : desk_act db a s s' → desk_safe s → desk_safe s'.
Proof.
  intros Hs [Hw Hl Hb Hr].
  assert (∀ l', (∀ i, i ∈ settled s → i ∈ l') → ∀ id, id ∈ row_id <$> receipts s →
    ∃ i, i ∈ l' ∧ id = BigInt_String (SI_TxNonce i)) as Hmono.
  { intros l' Hll id Hid. destruct (Hb id Hid) as (i & Hi & ->). exists i. by auto. }
  destruct Hs; cbn [waiting settled receipts] in *; try (by split);
    try match goal with Hset : settles _ _ _ |- _ =>
      destruct (settles_safe _ _ _ Hset Hl); split; cbn [waiting settled receipts]; [cbn; lia|by auto..] end.
  - split; cbn [waiting settled receipts]; [done..| |]; by rewrite dispatch_ids.
  - split; cbn [waiting settled receipts]; [done..| |]; rewrite fmap_app; cbn [fmap list_fmap row_id].
    + intros id [Hid|Hid]%elem_of_app; [by apply Hb|]. apply list_elem_of_singleton in Hid as ->. by exists i.
    + apply list.NoDup_app. split; [done|]. split; [|apply NoDup_singleton].
      intros id Hid ->%list_elem_of_singleton. done.
Qed.

Lemma desk_run_safe db acts s s' : desk_run db acts s s' → desk_safe s → desk_safe s'.
Proof. induction 1 as [|a acts s s1 s' Ha _ IH]; [done|]. intros Hs. by eapply IH, desk_act_safe. Qed.
End Desk.

(** ** The process *)
Definition row_of (rec : Receipt) : row :=
  {| row_id := PaymentID rec; row_tx := SettlementTxHash rec; row_status := DispatchStatus rec |}.

Section Refinement.
Context {St : Type} `{KaitaiStreamLaws St} `{Ed25519Laws} `{EthCommonLaws} `{RecordCodecLaws}.
Context {C D : Type} `{GinContextLaws C gin_H} `{GinContextLaws D egress_body}.
Context {K : Type} `{!ChainNode K} `{!ChainNodeLaws K}.
Variables (c0 : C) (d0 : D).
Hypothesis fresh_c0 : IsAborted c0 = false ∧ responses c0 = [].
Hypothesis fresh_d0 : responses d0 = [].
Variables (seed_env : string) (sd : list byte).
Hypothesis seed_decodes :
  hex_decode (if String.eqb seed_env "" then demoSellerSeedHex else seed_env) = Some sd.
Hypothesis seed_size : length sd = SeedSize.
Hypothesis events_representable : ∀ (k : K) ev, ev ∈ ledger_events (ledger_of k) → representable ev.
Implicit Types (y : process K) (k : K).

#[local] Abbreviation go_act := (gw_act (St := St) c0 d0 seed_env).
#[local] Abbreviation go_run := (gw_run (St := St) c0 d0 seed_env).
#[local] Abbreviation go_ok := (sys_ok (St := St) sd).

Definition desk_of y : desk :=
  {| waiting := buf (sy_sub y).1; settled := ledger_intents (ledger_of (sy_node y));
     receipts := row_of <$> contents (sy_store y).1 |}.

(** *** The submitter's side *)
Definition submits (st : (BufferedSubmitter * timer_env) * K) : Prop :=
  ∃ acc, accounts (λ _ _, True) acc st.

Lemma settles_submit_desk b k :
  1 <= Z.of_nat (length b) <= 10 →
  settles b (ledger_intents (ledger_of k)) (ledger_intents (ledger_of (submit b k))).
Proof.
  intros Hb. destruct (submit_grows b k) as [Hg|Hg]; pose proof (grows_intents _ _ _ Hg) as E.
  - rewrite app_nil_r in E. rewrite E. constructor.
  - destruct (ledger_wf_settled _ (ledger_of_wf (submit b k))) as (_ & Hp & Hn).
    rewrite E in *. by constructor.
Qed.

Lemma settles_foreign_desk intents k :
  settles intents (ledger_intents (ledger_of k)) (ledger_intents (ledger_of (Foreign intents k))).
Proof.
  destruct (Foreign_law intents k) as [->|(h & Hs & Hm)]; [constructor|].
  destruct (ledger_wf_settled _ (ledger_of_wf (Foreign intents k))) as (_ & Hp & Hn).
  destruct (ledger_wf_settled _ (ledger_of_wf k)) as (Hwf & _ & _).
  rewrite (grows_intents _ _ _ (mined_grows _ _ _ _ Hm)) in *. constructor. split; [|done].
  destruct (settleBatch _ _) as [[st evs]|] eqn:E; [|done]. by apply settleBatch_ok in E as (? & _).
Qed.

(** An accepted payment waits, or is the tenth. *)
Lemma enqueue_desk i (st : (BufferedSubmitter * timer_env) * K) :
  submits st →
  let w := buf st.1.1 ++ [i] in
  let st' := Enqueue i st in
  (Z.of_nat (length w) < 10 ∧ buf st'.1.1 = w ∧ st'.2 = st.2) ∨
  (Z.of_nat (length w) = 10 ∧ buf st'.1.1 = [] ∧ st'.2 = submit w st.2).
Proof.
  destruct st as [[s tw] k]. intros (acc & tk & Hi & Hc & Hm & _). cbn [fst snd] in *.
  pose proof (bi_len _ _ _ _ _ Hi) as Hlen. rewrite Hm in Hlen. unfold DefaultMaxBatch in Hlen.
  change (Enqueue i (s, tw, k)) with (run_call (Enqueue_locked i) ((s, tw), k)).
  unfold run_call, Enqueue_locked. rewrite Hc. cbn [buf maxBatch]. rewrite Hm. unfold DefaultMaxBatch.
  assert (Z.of_nat (length (buf s ++ [i])) = Z.of_nat (length (buf s)) + 1) as El.
  { rewrite length_app. cbn. lia. }
  destruct (Nat.eqb (length (buf s ++ [i])) 1); cbn [buf maxBatch AfterFunc];
    destruct (Z.ltb_spec (Z.of_nat (length (buf s ++ [i]))) 10); cbn [stealLocked buf maxBatch fst snd];
    rewrite ?Hm; first [by left|by right; split; [lia|]].
Qed.

Lemma timer_desk t (st : (BufferedSubmitter * timer_env) * K) :
  submits st →
  timer_sub t st = st ∨
  (buf (timer_sub t st).1.1 = buf st.1.1 ∧ (timer_sub t st).2 = st.2) ∨
  (buf st.1.1 ≠ [] ∧ Z.of_nat (length (buf st.1.1)) <= 10 ∧ buf (timer_sub t st).1.1 = [] ∧
   (timer_sub t st).2 = submit (buf st.1.1) st.2).
Proof.
  destruct st as [[s tw] k]. intros (acc & tk & Hi & Hc & Hm & _). cbn [fst snd] in *.
  pose proof (bi_len _ _ _ _ _ Hi) as Hlen. rewrite Hm in Hlen. unfold DefaultMaxBatch in Hlen.
  unfold timer_sub. destruct (decide _); [right|by left]. unfold run_call, onTimer_locked. rewrite Hc.
  destruct (Nat.eqb_spec (length (buf s)) 0) as [Hz|Hz]; cbn [orb stealLocked buf fst snd]; [by left|].
  right. split_and!; [|lia|done|done]. intros E. by rewrite E in Hz.
Qed.

(** *** The store's side *)
Lemma with_gateway_store rt (g : gateway K) y st :
  with_gateway rt g = Some y → gw_egress g = Some st → sy_store y = st.
Proof.
  intros Hg Hst. revert Hg. unfold with_gateway. rewrite Hst.
  destruct (gw_submitter g) as [[sub node]|]; [|done]. cbn [mbind option_bind].
  destruct (gw_receipts g) as [[p w]|]; [|done]. cbn [mbind option_bind]. by intros [= <-].
Qed.

(** What an action does to the receipts. *)
Definition store_after (a : action) y y' : Prop :=
  match a with
  | A_request (POST_ack plan bound) =>
      sy_store y' = sy_store y ∨ ∃ req, bound = Some req ∧
        sy_store y' = (MarkDispatched plan (Ack_PaymentID req) (Ack_SettlementTxHash req) (sy_store y)).2
  | A_handle _ =>
      contents (sy_store y').1 = contents (sy_store y).1 ∨
      ∃ rec, contents (sy_store y').1 = contents (sy_store y).1 ++ [rec] ∧
        DispatchStatus rec = StatusPending
  | _ => contents (sy_store y').1 = contents (sy_store y).1
  end.

Lemma handle_store plan y y' :
  clean_io plan → go_ok y → go_act (A_handle plan) y = Some y' → store_after (A_handle plan) y y'.
Proof.
  intros Hplan [_ _ Hrec]. pose proof (receipts_proc sd seed_size _ _ _ _ _ Hrec) as Hp.
  pose proof (ri_pc _ _ _ _ _ _ Hrec) as Hpc. pose proof (ri_pending _ _ _ _ _ _ Hrec) as Hpend.
  pose proof (ri_synced _ _ _ _ _ _ Hrec) as Hsync. pose proof (ri_open _ _ _ _ _ _ Hrec) as Hopen.
  unfold gw_act, act, run_handle. cbn [store_after].
  destruct (sy_routine y) as [|pc [|ev evs]|] eqn:Hrt; [by intros [= <-]; left..| |by intros [= <-]; left].
  destruct pc as [| |q|r]; cbn [Handle_step]; [by intros [= <-]; left| | |done].
  - destruct (next_seq _). intros [= <-]. by left.
  - destruct (append_step (St := St) plan ev (sy_proc y) q (sy_store y).1 (sy_store y).2 Hp Hpc
      Hsync Hopen Hplan) as (r & s' & disk' & Hb & _ & _ & Hc & _).
    { apply (events_representable (sy_node y)), Hpend. by left. }
    rewrite <- surjective_pairing in Hb. rewrite Hb. cbn [mbind option_bind]. intros [= <-].
    cbn [sy_store fst]. destruct Hc as [->|(raw & _ & ->)]; [by left|right]. eexists. by split.
Qed.

Lemma act_store a y y' :
  writes_ok clean_io a → go_ok y → go_act a y = Some y' → store_after a y y'.
Proof.
  intros Hw Hok Hact. destruct a as [r|t| |plan|ticked|intents| |];
    [| | |by apply handle_store|..]; revert Hact; unfold gw_act, act, run_poll, run_wait.
  - destruct (serve _ _ _ _) as [[reply g]|] eqn:Hs; [|done]. cbn [mbind option_bind]. intros Hg.
    destruct (serve_store (St := St) c0 d0 r _ _ _ (sy_store y) Hs eq_refl) as (st' & Heg & Hst).
    rewrite <- (with_gateway_store _ _ _ _ Hg Heg) in Hst.
    destruct r as [body| |plan bound]; cbn [store_after].
    + destruct Hst as [-> |(plan & req & E & _)]; [done|discriminate E].
    + destruct Hst as [-> |(plan & req & E & _)]; [done|discriminate E].
    + destruct Hst as [-> |(plan' & req & [= -> ->] & Est)]; [by left|right]. by exists req.
  - rewrite timer_fires_sub. intros Hg. cbn [store_after].
    by rewrite (with_gateway_store _ _ _ (sy_store y) Hg eq_refl).
  - cbn [store_after]. intros [= <-]. destruct (sy_routine y); [|done..].
    by destruct (Poll _ _) as [[[evs err] w'] k'].
  - cbn [store_after]. intros [= <-]. by destruct (sy_routine y) as [|pc [|ev evs]|].
  - by intros [= <-].
  - by intros [= <-].
  - cbn [store_after]. destruct Hok as [_ _ Hrec].
    destruct (ri_synced _ _ _ _ _ _ Hrec) as (rs & Hf & Hr & Ho). intros Hst.
    destruct (start_ok (St := St) seed_env sd seed_decodes seed_size (sy_db y) (sy_node y) (sy_store y).2 rs Hf)
      as (y1 & Ha & _ & _ & _ & _ & Es & _).
    { pose proof (ri_backed _ _ _ _ _ _ Hrec) as Hb. unfold contents in *. by rewrite <- Hr, <- Ho. }
    unfold gw_start in Ha. rewrite Ha in Hst. injection Hst as <-. rewrite Es. cbn [fst].
    unfold contents. by rewrite Hr, Ho.
Qed.

(** *** Step by step *)
Record desk_ok y : Prop := { dk_ok : go_ok y; dk_submits : submits (sub_of y) }.

Lemma any_node acc sub (k k' : K) :
  accounts (λ _ _, True) acc (sub, k) → accounts (λ _ _, True) acc (sub, k').
Proof. intros (tk & Hi & Hc & Hm & _). exists tk. by split_and!. Qed.

Lemma submits_after a y st' : submits (sub_of y) → sub_after a y st' → submits st'.
Proof.
  intros (acc & Hacc) Hs.
  assert (∀ k, submits (sy_sub y, k)) as Hnode by by intros k; exists acc; eapply any_node.
  destruct a as [[body| |plan bound]|t| |plan|ticked|intents| |]; cbn [sub_after] in Hs;
    try (subst st'; by exists acc); try (subst st'; by apply Hnode).
  - destruct Hs as (paid & _ & ->). exists (acc ++ option_list paid). by apply accounts_enqueue_opt.
  - subst st'. exists acc. by apply accounts_timer.
  - destruct st' as [sub k]. destruct Hs as (E & _). cbn [fst] in E. subst sub. apply Hnode.
  - subst st'. exists []. by apply accounts_new.
Qed.

Lemma row_dispatch id tx rec :
  row_of (if decide (key_of rec = dedupKey id tx) then set_DispatchStatus StatusDispatched rec else rec)
    = dispatch id tx (row_of rec).
Proof.
  unfold dispatch, row_of, key_of. cbn [row_id row_tx].
  destruct (decide _) as [E|E]; destruct (String.eqb_spec (dedupKey (PaymentID rec) (SettlementTxHash rec)) (dedupKey id tx));
    done.
Qed.

Lemma desk_ack db y plan req w l :
  go_ok y →
  desk_act db (A_request (POST_ack plan (Some req)))
    {| waiting := w; settled := l; receipts := row_of <$> contents (sy_store y).1 |}
    {| waiting := w; settled := l;
       receipts := row_of <$> contents
         (MarkDispatched plan (Ack_PaymentID req) (Ack_SettlementTxHash req) (sy_store y)).2.1 |}.
Proof.
  intros Hok. pose proof (so_receipts _ _ Hok) as Hrec. pose proof (ri_synced _ _ _ _ _ _ Hrec) as Hsync.
  destruct (sy_store y) as [s disk]. cbn [fst snd] in *.
  pose proof (MarkDispatched_log plan (Ack_PaymentID req) (Ack_SettlementTxHash req) s disk
    (synced_wf _ _ Hsync)) as Hlog.
  destruct (MarkDispatched _ _ _ _) as [r [s' disk']]. cbn [snd fst].
  destruct Hlog as (_ & _ & _ & ->). destruct (is_ok r); [|constructor].
  replace (row_of <$> log_dispatch _ (contents s)) with
    (dispatch (Ack_PaymentID req) (Ack_SettlementTxHash req) <$> (row_of <$> contents s)); [constructor|].
  unfold log_dispatch. rewrite <- !list_fmap_compose. apply list_fmap_ext. intros j x _. cbn.
  symmetry. apply row_dispatch.
Qed.

Lemma desk_receipt db y plan rec w log :
  go_ok y → contents (sy_store y).1 = log ++ [rec] → DispatchStatus rec = StatusPending →
  let l := ledger_intents (ledger_of (sy_node y)) in
  desk_act db (A_handle plan)
    {| waiting := w; settled := l; receipts := row_of <$> log |}
    {| waiting := w; settled := l; receipts := row_of <$> contents (sy_store y).1 |}.
Proof.
  intros Hok E Hpend l. pose proof (so_receipts _ _ Hok) as Hrec.
  pose proof (ri_backed _ _ _ _ _ _ Hrec) as Hb.
  assert (NoDup (PaymentID <$> contents (sy_store y).1)) as Hnd.
  { eapply (backed_nonces (St := St) sd); [apply ledger_of_wf|exact Hb|].
    by eapply log_keys_nodup, synced_wf, ri_synced. }
  rewrite E in Hb, Hnd |- *. apply list.Forall_app in Hb as [_ Hb]. rewrite list.Forall_singleton in Hb.
  destruct (backed_receipt (St := St) sd _ _ (ledger_of_wf _) Hb)
    as (i & n & b & t & raw & Hbl & Ht & Hi & Hid & _).
  assert (row_of rec = {| row_id := BigInt_String (SI_TxNonce i); row_tx := SettlementTxHash rec;
    row_status := StatusPending |}) as Er by (unfold row_of; by rewrite Hid, Hpend).
  rewrite fmap_app. cbn [fmap list_fmap]. rewrite Er. apply D_receipt.
  - apply elem_of_ledger_intents. apply block_at_elem in Hbl. eauto.
  - rewrite fmap_app in Hnd. apply list.NoDup_app in Hnd as (_ & Hdisj & _).
    rewrite <- list_fmap_compose. intros Hin. apply (Hdisj (PaymentID rec)); [by rewrite Hid|].
    cbn. by left.
Qed.

(** Every action does what the desk may do. *)
Lemma act_desk a y :
  writes_ok clean_io a → desk_ok y →
  ∃ y', go_act a y = Some y' ∧ sy_db y' = sy_db y ∧ desk_ok y' ∧
    desk_act (sy_db y) a (desk_of y) (desk_of y').
Proof.
  intros Hw [Hok Hsub].
  destruct (act_ok (St := St) c0 d0 fresh_c0 fresh_d0 seed_env sd seed_decodes seed_size
    events_representable a y Hw Hok) as (y' & Hact & Hdb & Hok' & Hafter & _).
  pose proof (act_store a y y' Hw Hok Hact) as Hst.
  exists y'. split; [done|]. split; [done|]. split; [split; [done|by eapply submits_after]|].
  unfold desk_of.
  destruct a as [[body| |plan bound]|t| |plan|ticked|intents| |]; cbn [sub_after store_after] in *;
    unfold sub_of in *.
  - destruct Hafter as (paid & Hpays & Hs). rewrite Hst. destruct paid as [i|]; cbn [enqueue_opt] in Hs.
    + pose proof (enqueue_desk i (sy_sub y, sy_node y) Hsub) as He. rewrite <- Hs in He. cbn zeta in He. cbn [fst snd] in He.
      destruct He as [(Hlen & -> & ->)|(Hlen & -> & ->)]; [by apply D_payment|].
      apply (D_tenth _ body i); [done..|]. apply settles_submit_desk. lia.
    + injection Hs as -> ->. by constructor.
  - injection Hafter as -> ->. rewrite Hst. constructor.
  - injection Hafter as -> ->. destruct Hst as [->|(req & -> & ->)]; [constructor|by apply desk_ack].
  - rewrite Hst. pose proof (timer_desk t (sy_sub y, sy_node y) Hsub) as Ht. rewrite <- Hafter in Ht.
    cbn [fst snd] in Ht. destruct Ht as [E|[(-> & ->)|(Hne & Hlen & -> & ->)]].
    + injection E as -> ->. constructor.
    + constructor.
    + apply D_timer; [done|]. apply settles_submit_desk. split; [|done].
      destruct (buf (sy_sub y).1); [done|cbn [length]; lia].
  - destruct Hafter as (E & EL & _). cbn [fst snd] in *. rewrite E, EL, Hst. constructor.
  - injection Hafter as -> En. destruct Hst as [->|(rec & E & Hpend)]; [rewrite En; constructor|].
    rewrite <- En. by eapply desk_receipt.
  - injection Hafter as -> ->. rewrite Hst. constructor.
  - injection Hafter as -> ->. rewrite Hst. constructor. apply settles_foreign_desk.
  - injection Hafter as -> ->. rewrite Hst, (grows_intents _ _ _ (Mine_grows (sy_node y))), app_nil_r.
    constructor.
  - injection Hafter as -> ->. rewrite Hst. constructor.
Qed.

Lemma desk_start_safe y : desk_ok y → desk_safe (desk_of y).
Proof.
  intros [Hok (acc & tk & Hi & _ & Hm & _)]. pose proof (so_receipts _ _ Hok) as Hrec.
  pose proof (ri_backed _ _ _ _ _ _ Hrec) as Hb. pose proof (ledger_of_wf (sy_node y)) as HL.
  split; cbn [desk_of waiting settled receipts].
  - pose proof (bi_len _ _ _ _ _ Hi) as Hlen. rewrite Hm in Hlen. exact Hlen.
  - by destruct (ledger_wf_settled _ HL) as (_ & _ & ?).
  - intros id. rewrite <- list_fmap_compose. intros (rec & -> & Hrin)%list_elem_of_fmap.
    rewrite list.Forall_forall in Hb.
    destruct (backed_receipt (St := St) sd _ _ HL (Hb rec Hrin)) as (i & n & b & t & raw & Hbl & Ht & Hin & Hid & _).
    exists i. split; [|done]. apply elem_of_ledger_intents. apply block_at_elem in Hbl. eauto.
  - rewrite <- list_fmap_compose. eapply (backed_nonces (St := St) sd _ _ HL Hb).
    by eapply log_keys_nodup, synced_wf, ri_synced.
Qed.

(** C3. The gateway is the desk, on a disk on which every write is complete and synced,
    or fails before its first byte, from a receipt file that loads and holds receipts
    of settlements. Whatever the requests, the timers, the goroutine, the node and other
    accounts do, in whatever order, and with restarts in between, the process does not panic, and each
    of its actions is one the abstract desk has: an accepted payment waits,
    and the tenth sends all that wait; what is sent is settled as a whole, when the
    contract accepts it, or dropped; a receipt is added for what is settled and has
    none; an acknowledgement marks the receipt it names; a restart forgets what waits
    and nothing else. So what the desk guarantees holds of the process. (On other disks
    a restart may add a receipt, [Store_sync_failure], or fail, [Store_torn_write].) *)
Theorem gateway_refines_desk db k0 disk rs acts :
  file_of rs disk → Forall (backed (St := St) sd (ledger_of k0)) (contents (replay rs)) →
  Forall (writes_ok clean_io) acts →
  ∃ y0 y, gw_start seed_env db k0 disk = Some y0 ∧ go_run acts y0 = Some y ∧
    desk_of y0 = {| waiting := []; settled := ledger_intents (ledger_of k0);
                    receipts := row_of <$> contents (replay rs) |} ∧
    desk_run db acts (desk_of y0) (desk_of y) ∧ desk_safe (desk_of y).
Proof.
  intros Hf Hb Hw.
  destruct (start_ok (St := St) seed_env sd seed_decodes seed_size db k0 disk rs Hf Hb)
    as (y0 & Hst & Hdb & Hok & _ & _ & Hstore & Hsub).
  assert (desk_ok y0) as Hok0.
  { split; [done|]. rewrite Hsub. exists []. by apply accounts_new. }
  assert (∃ y, go_run acts y0 = Some y ∧ desk_run db acts (desk_of y0) (desk_of y)) as (y & Hrun & Hdesk).
  { clear Hst Hstore Hsub Hok. revert y0 Hdb Hok0. induction Hw as [|a acts Ha _ IH]; intros y Hdb Hok.
    - exists y. split; [done|]. constructor.
    - destruct (act_desk a y Ha Hok) as (y1 & Hact & Hdb1 & Hok1 & Hstep).
      destruct (IH y1 (eq_trans Hdb1 Hdb) Hok1) as (y' & Hrun & Hrest).
      exists y'. unfold gw_run, gw_act in *. cbn [run]. rewrite Hact. split; [exact Hrun|].
      rewrite Hdb in Hstep. by econstructor. }
  assert (desk_of y0 = {| waiting := []; settled := ledger_intents (ledger_of k0);
    receipts := row_of <$> contents (replay rs) |}) as E0.
  { unfold desk_of. unfold sub_of in Hsub. injection Hsub as -> ->. by rewrite Hstore. }
  exists y0, y. split_and!; try done. eapply desk_run_safe; [exact Hdesk|].
  by apply desk_start_safe.
Qed.
End Refinement.

(** ** Witness *)
#[local] Existing Instance json_codec.
#[local] Existing Instance json_codec_laws.

Lemma gateway_refines_desk_witness :
  ∃ y0 y, demo_start (new_chain [Some Answer_lost] [true]) = Some y0 ∧ demo_run demo_acts y0 = Some y ∧
    desk_of y0 = {| waiting := []; settled := []; receipts := [] |} ∧
    desk_run demo_db demo_acts (desk_of y0) (desk_of y).
Proof.
  destruct (gateway_refines_desk (St := ListStream) (C := TraceContext gin_H)
    (D := TraceContext egress_body) (K := MemChain) new_context new_context fresh_context
    fresh_egress_context (hex_encode demo_seed) demo_seed demo_seed_decodes eq_refl
    mem_events_representable demo_db (new_chain [Some Answer_lost] [true]) [] [] demo_acts)
    as (y0 & y & Hst & Hrun & Hdesk & Hsteps).
  - exact file_of_nil.
  - apply list.Forall_nil_2.
  - apply demo_writes. by right.
  - exists y0, y. split; [exact Hst|]. split; [exact Hrun|]. split; [exact Hdesk|apply Hsteps].
Defined.
