(* ===== verification/Generator.v ===== *)
(** * The packet generator

    Models [gateway/test/utils/generate_packets.go]: the encoder that emits the golden
    vectors, written independently of the parser.

    A [bytes.Buffer] is the bytes written so far. Floating-point constants are their
    IEEE-754 bit patterns. [log.Fatalf] and the panics of [crypto/ed25519] are [None]. *)
From S2P Require Export Ingest.
From S2P Require Import Golden Builder.
#[local] Open Scope Z_scope.

Definition detEpochTsMs : Z := 1710000100000.
Definition detSatId : Z := 0xCAFEBABE.
Definition detAmount : Z := 420000000.
Definition detAssetId : Z := 1.
Definition detSeedHex : string := "bc1df4fa6e3d7048992f14e655060cbb2190bded9002524c06e7cbb163df15fb".

(** 7010, -11990 and 560 in binary64; 7.5, -0.2 and 0.01 in binary32. *)
Definition detPosVec : list Z := [0x40BB620000000000; 0xC0C76B0000000000; 0x4081800000000000].
Definition detVelVec : list Z := [0x40F00000; 0xBE4CCCCD; 0x3C23D70A].

Definition gen_syncWord : Z := 0x1D01A5A5.
Definition apidSatA : Z := 100.
Definition apidSatB : Z := 101.
Definition loraMaxLen : Z := 255.

Definition getCRC (data : list byte) : Z := ChecksumIEEE data.

(** [writeLE] of an array. *)
Definition put_les (n : nat) (zs : list Z) : list byte := zs ≫= put_le n.

Definition buildHeader (isSnlp : bool) (payloadLen apid : Z) (isCmd : bool) : list byte :=
  let buf := [] in
  let buf := if isSnlp then buf ++ put_be 4 gen_syncWord else buf in
  let version := 0 in
  let pktType := if isCmd then 1 else 0 in
  let secFlag := 1 in
  let idFieldVal :=
    Z.lor (Z.lor (Z.lor (u16 (Z.shiftl version 13)) (u16 (Z.shiftl pktType 12)))
      (u16 (Z.shiftl secFlag 11))) (u16 (Z.land apid 0x7FF)) in
  let buf := buf ++ put_be 2 idFieldVal in
  let buf := buf ++ put_be 2 0xC000 in
  let buf := buf ++ put_be 2 (u16 (payloadLen - 1)) in
  if isSnlp then buf ++ put_be 4 0 else buf.

(** [make([]byte, n)] filled with [byte(base + i)]. *)
Definition ramp (base : Z) (n : nat) : list byte := (λ i, byte_of_Z (base + Z.of_nat i)) <$> seq 0 n.

Section Generators.
Context `{Ed25519}.

(** The key [init] derives. *)
Definition detPriv : option (list byte) :=
  seed ← hex_decode detSeedHex;
  NewKeyFromSeed seed.

Definition genPacketA (isSnlp : bool) : list byte :=
  let body := [x00; x00] in
  let body := body ++ put_le 8 detEpochTsMs in
  let body := body ++ put_les 8 detPosVec in
  let body := body ++ put_les 4 detVelVec in
  let body := body ++ put_le 4 detSatId in
  let body := body ++ put_le 8 detAmount in
  let body := body ++ put_le 2 detAssetId in
  let body := body ++ [x00; x00] in
  let header := buildHeader isSnlp 66 apidSatA false in
  let crc := getCRC (header ++ body) in
  let body := body ++ put_le 4 crc in
  header ++ body.

Definition genPacketB (isSnlp : bool) : option (list byte) :=
  let body := [x00; x00] in
  let body := body ++ put_le 8 detEpochTsMs in
  let body := body ++ put_les 8 detPosVec in
  let packetA := genPacketA isSnlp in
  let detInvoiceCRC := le_uint (drop (length packetA - 4) packetA) in
  let enc := put_le 8 detEpochTsMs in
  let enc := enc ++ put_les 8 detPosVec in
  let enc := enc ++ put_les 4 detVelVec in
  let enc := enc ++ put_le 4 detSatId in
  let enc := enc ++ put_le 8 detAmount in
  let enc := enc ++ put_le 2 detAssetId in
  let enc := enc ++ put_le 4 detInvoiceCRC in
  if negb (Nat.eqb (length enc) 62) then None else
  let body := body ++ enc in
  let body := body ++ [x00; x00] in
  let body := body ++ put_le 4 detSatId in
  let body := body ++ replicate 4 x00 in
  let header := buildHeader isSnlp 178 apidSatB false in
  let bodyBeforeSig := body in
  if negb (Nat.eqb (length bodyBeforeSig) 106) then None else
  priv ← detPriv;
  signature ← Sign priv (header ++ bodyBeforeSig);
  let body := body ++ signature in
  let crc := getCRC (header ++ body) in
  let body := body ++ put_le 4 crc in
  let body := body ++ replicate 4 x00 in
  Some (header ++ body).

Definition genPacketH (isSnlp : bool) : option (list byte) :=
  let msg := put_le 2 900 in
  let msg := msg ++ put_le 8 detEpochTsMs in
  let pubKey := ramp 0xA0 32 in
  let msg := msg ++ pubKey in
  priv ← detPriv;
  signature ← Sign priv msg;
  let msg := msg ++ signature in
  let header := buildHeader isSnlp 106 apidSatB false in
  Some (header ++ msg).

Definition genPacketC (isSnlp : bool) : option (list byte) :=
  let msg := [x00; x00] in
  let msg := msg ++ put_le 8 detEpochTsMs in
  let msg := msg ++ put_le 8 0xDEADBEEFCAFEBABE in
  let msg := msg ++ put_le 1 1 in
  let msg := msg ++ replicate 7 x00 in
  priv ← detPriv;
  signature ← Sign priv msg;
  let fullBody := msg in
  let fullBody := fullBody ++ signature in
  let header := buildHeader isSnlp 98 apidSatA false in
  let crc := getCRC (header ++ fullBody) in
  let fullBody := fullBody ++ put_le 4 crc in
  let fullBody := fullBody ++ replicate 4 x00 in
  Some (header ++ fullBody).

Definition genPacketD (isSnlp : bool) : list byte :=
  let msg := [magicPacketD; x00] in
  let msg := msg ++ put_le 8 detEpochTsMs in
  let msg := msg ++ put_le 4 detSatId in
  let payload := ramp 0xE0 98 in
  let msg := msg ++ payload in
  let header := buildHeader isSnlp 122 apidSatB false in
  let crc := getCRC (header ++ msg) in
  let msg := msg ++ put_le 4 crc in
  let msg := msg ++ replicate 6 x00 in
  header ++ msg.

Definition genPacketAck (isSnlp : bool) : list byte :=
  let tunnelSize := if isSnlp then 96%nat else 88%nat in
  let payloadLen := if isSnlp then 122 else 114 in
  let msg := [magicPacketAck; x00] in
  let msg := msg ++ put_le 4 0xCAFEBABE in
  let msg := msg ++ put_le 1 1 in
  let msg := msg ++ [x00] in
  let msg := msg ++ put_le 2 180 in
  let msg := msg ++ put_le 2 45 in
  let msg := msg ++ put_le 4 437200000 in
  let msg := msg ++ put_le 4 5000 in
  let tunnel := ramp 0xAA tunnelSize in
  let msg := msg ++ tunnel in
  let msg := msg ++ [x00; x00] in
  let header := buildHeader isSnlp payloadLen apidSatB true in
  let crc := getCRC (header ++ msg) in
  let msg := msg ++ put_le 4 crc in
  header ++ msg.

Definition genPacketL (isSnlp : bool) : list byte :=
  let msg := [x00; x00] in
  let msg := msg ++ put_le 8 detEpochTsMs in
  let msg := msg ++ put_le 4 100800 in
  let msg := msg ++ put_le 4 515000000 in
  let msg := msg ++ put_le 4 (-128000) in
  let msg := msg ++ put_le 2 4100 in
  let msg := msg ++ put_le 2 2300 in
  let msg := msg ++ put_le 2 600 in
  let msg := msg ++ put_le 1 3 in
  let msg := msg ++ put_le 1 8 in
  let header := buildHeader isSnlp 34 apidSatB false in
  let crc := getCRC (header ++ msg) in
  let msg := msg ++ put_le 4 crc in
  header ++ msg.

(** ** The driver *)
Record packetSpec := {
  ps_file : string;
  ps_fn : bool → option (list byte);
  ps_ccsds : Z;
  ps_snlp : Z;
}.

Definition goldenPackets : list packetSpec :=
  [ {| ps_file := "packet_a.bin"; ps_fn t := Some (genPacketA t); ps_ccsds := 72; ps_snlp := 80 |};
    {| ps_file := "packet_b.bin"; ps_fn := genPacketB; ps_ccsds := 184; ps_snlp := 192 |};
    {| ps_file := "packet_c.bin"; ps_fn := genPacketC; ps_ccsds := 104; ps_snlp := 112 |};
    {| ps_file := "packet_d.bin"; ps_fn t := Some (genPacketD t); ps_ccsds := 128; ps_snlp := 136 |};
    {| ps_file := "packet_h.bin"; ps_fn := genPacketH; ps_ccsds := 112; ps_snlp := 120 |};
    {| ps_file := "packet_ack.bin"; ps_fn t := Some (genPacketAck t); ps_ccsds := 120; ps_snlp := 136 |};
    {| ps_file := "packet_l.bin"; ps_fn t := Some (genPacketL t); ps_ccsds := 40; ps_snlp := 48 |} ].

Definition tiers : list (string * bool) := [("ccsds"%string, false); ("snlp"%string, true)].

Inductive vector_error :=
  | WrongSize (got want : Z)
  | NotAligned32 (n : Z)
  | NotAligned64 (n : Z)
  | ExceedsLoRa (n : Z).

Definition verifyVector (data : list byte) (want : Z) : result vector_error unit :=
  let n := Z.of_nat (length data) in
  if negb (n =? want) then Err (WrongSize n want) else
  if negb (n mod 4 =? 0) then Err (NotAligned32 n) else
  if negb (n mod 8 =? 0) then Err (NotAligned64 n) else
  if loraMaxLen <? n then Err (ExceedsLoRa n) else Ok tt.

(** The files written, when directories and files can be created, and the error that
    ends the run early; [None] if the process dies. *)
Fixpoint write_vectors (jobs : list (packetSpec * (string * bool)))
    : option (list (string * string * list byte) * option vector_error) :=
  match jobs with
  | [] => Some ([], None)
  | (p, (name, isSnlp)) :: jobs =>
      data ← ps_fn p isSnlp;
      let want := if isSnlp then ps_snlp p else ps_ccsds p in
      match verifyVector data want with
      | Err e => Some ([], Some e)
      | Ok _ =>
          '(files, e) ← write_vectors jobs;
          Some ((name, ps_file p, data) :: files, e)
      end
  end.

Definition writeGoldenVectors : option (list (string * string * list byte) * option vector_error) :=
  write_vectors (p ← goldenPackets; t ← tiers; [(p, t)]).
End Generators.

(** ** The checked-in vectors

    [crypto/ed25519] is not modelled, so the signer answers with the signatures of the
    checked-in files: a signature is found in a vector by the message before it. *)
Definition signed_at (from upto : nat) (v : list byte) : list byte * list byte :=
  (drop from (take upto v), take 64 (drop upto v)).

Definition vector_signatures : list (list byte * list byte) :=
  [signed_at 0 112 golden_ccsds_b; signed_at 0 120 golden_snlp_b;
   signed_at 6 32 golden_ccsds_c; signed_at 6 48 golden_ccsds_h].

Definition vector_signer : Ed25519 :=
  {| derive_public seed := replicate 32 x00;
     sign_with _ msg := match list_find (λ p : list byte * list byte, p.1 = msg) vector_signatures with
                        | Some (_, (_, sig)) => sig
                        | None => []
                        end;
     verify_with _ _ _ := false |}.

Definition checked_in : list (string * string * list byte) :=
  [("ccsds", "packet_a.bin", golden_ccsds_a); ("snlp", "packet_a.bin", golden_snlp_a);
   ("ccsds", "packet_b.bin", golden_ccsds_b); ("snlp", "packet_b.bin", golden_snlp_b);
   ("ccsds", "packet_c.bin", golden_ccsds_c); ("snlp", "packet_c.bin", golden_snlp_c);
   ("ccsds", "packet_d.bin", golden_ccsds_d); ("snlp", "packet_d.bin", golden_snlp_d);
   ("ccsds", "packet_h.bin", golden_ccsds_h); ("snlp", "packet_h.bin", golden_snlp_h);
   ("ccsds", "packet_ack.bin", golden_ccsds_ack); ("snlp", "packet_ack.bin", golden_snlp_ack);
   ("ccsds", "packet_l.bin", golden_ccsds_l); ("snlp", "packet_l.bin", golden_snlp_l)]%string.

(** The generator emits the fourteen vectors under [test/vectors] byte for byte,
    headers, field order, byte order, checksums and padding included, given the
    signatures those files carry; every one passes the size and alignment checks. *)
Theorem generator_reproduces_vectors :
  writeGoldenVectors (H := vector_signer) = Some (checked_in, None).
Proof. vm_compute. reflexivity. Qed.

(** ** What the gateway makes of the vectors *)
Section Accepted.
Context {St : Type} `{KaitaiStreamLaws St} `{Ed25519Laws} `{EthCommon}.
Context {C E : Type} `{GinContextLaws C gin_H} `{!Enqueuer E}.

Definition detSeed : list byte := hex detSeedHex.

Lemma detPriv_ok :
  detPriv = Some (detSeed ++ derive_public detSeed) ∧
  ∀ msg, Sign (detSeed ++ derive_public detSeed) msg = Some (sign_with detSeed msg).
Proof.
  destruct (NewKeyFromSeed_ok detSeed eq_refl) as (Hnew & _ & _ & Hsign).
  unfold detPriv. assert (hex_decode detSeedHex = Some detSeed) as -> by (vm_compute; reflexivity).
  done.
Qed.

Definition gen_header (isSnlp : bool) (w0 w2 : Z) : frame_header :=
  if isSnlp then F_Snlp w0 0xC000 w2 else F_Ccsds w0 0xC000 w2.

Lemma ChecksumIEEE_u32 l : in_u 32 (ChecksumIEEE l).
Proof. apply word32_lxor; auto using word32_init with wire. Qed.

Definition detPos : TigCommonTypes_Vector3d :=
  {| Vector3d_X := 0x40BB620000000000; Vector3d_Y := 0xC0C76B0000000000;
     Vector3d_Z := 0x4081800000000000 |}.

(** The 62-byte invoice and the 106 signed body bytes of packet B. *)
Definition invoice (isSnlp : bool) : list byte :=
  put_le 8 detEpochTsMs ++ put_les 8 detPosVec ++ put_les 4 detVelVec ++ put_le 4 detSatId ++
  put_le 8 detAmount ++ put_le 2 detAssetId ++
  put_le 4 (le_uint (drop (length (genPacketA isSnlp) - 4) (genPacketA isSnlp))).

Definition signed_body (isSnlp : bool) : list byte :=
  [x00; x00] ++ put_le 8 detEpochTsMs ++ Vector3d_bytes detPos ++ invoice isSnlp ++ [x00; x00] ++
  put_le 4 detSatId ++ replicate 4 x00.

Definition b_header (isSnlp : bool) : list byte := fh_bytes (gen_header isSnlp 0x0865 177).

Definition b_signature (isSnlp : bool) : list byte :=
  sign_with detSeed (b_header isSnlp ++ signed_body isSnlp).

Definition b_body (isSnlp : bool) : VoidProtocol_PacketBBody :=
  {| PacketB_PadHead := [x00; x00]; PacketB_EpochTs := detEpochTsMs; PacketB_PosVec := detPos;
     PacketB_EncPayload := invoice isSnlp; PacketB_PreSat := [x00; x00]; PacketB_SatId := detSatId;
     PacketB_PreSig := replicate 4 x00;
     PacketB_Signature := {| Ed25519Signature_Raw := b_signature isSnlp |};
     PacketB_GlobalCrc := ChecksumIEEE (b_header isSnlp ++ signed_body isSnlp ++ b_signature isSnlp);
     PacketB_TailPad := replicate 4 x00 |}.

Definition frame_b (isSnlp : bool) : frame :=
  {| fr_header := gen_header isSnlp 0x0865 177; fr_raw := PacketBBody_bytes (b_body isSnlp);
     fr_body := Some (Body_B (b_body isSnlp)) |}.

Lemma b_body_bytes isSnlp :
  PacketBBody_bytes (b_body isSnlp) =
  signed_body isSnlp ++ b_signature isSnlp ++ put_le 4 (PacketB_GlobalCrc (b_body isSnlp)) ++
  replicate 4 x00.
Proof. unfold PacketBBody_bytes, signed_body. rewrite <- !app_assoc. done. Qed.

Lemma genPacketB_frame isSnlp : genPacketB isSnlp = Some (frame_bytes (frame_b isSnlp)).
Proof.
  unfold genPacketB. cbv zeta.
  match goal with |- (if negb (length ?e =? 62)%nat then _ else _) = _ =>
    assert (e = invoice isSnlp) as -> by (unfold invoice; by rewrite <- !app_assoc) end.
  assert (length (invoice isSnlp) = 62%nat) as -> by (destruct isSnlp; vm_compute; reflexivity).
  cbn [Nat.eqb negb].
  match goal with |- (if negb (length ?e =? 106)%nat then _ else _) = _ =>
    assert (e = signed_body isSnlp) as ->
      by (unfold signed_body; rewrite <- !app_assoc; done) end.
  assert (length (signed_body isSnlp) = 106%nat) as -> by (destruct isSnlp; vm_compute; reflexivity).
  cbn [Nat.eqb negb].
  assert (buildHeader isSnlp 178 apidSatB false = b_header isSnlp) as ->
    by (destruct isSnlp; vm_compute; reflexivity).
  destruct detPriv_ok as [-> Hsign]. cbn [mbind option_bind]. rewrite Hsign. cbn [mbind option_bind].
  unfold frame_bytes. cbn [fr_header fr_raw frame_b]. rewrite b_body_bytes.
  by rewrite <- !app_assoc.
Qed.

Lemma frame_b_wf isSnlp : frame_wf (frame_b isSnlp).
Proof.
  assert (length (b_signature isSnlp) = 64%nat) as Hsig by by apply length_sign_with.
  assert (PacketBBody_wf (b_body isSnlp)) as Hb.
  { unfold PacketBBody_wf, Ed25519Signature_wf. cbn [b_body PacketB_PadHead PacketB_EpochTs
      PacketB_PosVec PacketB_EncPayload PacketB_PreSat PacketB_SatId PacketB_PreSig
      PacketB_Signature PacketB_GlobalCrc PacketB_TailPad Ed25519Signature_Raw].
    assert (length (invoice isSnlp) = 62%nat) by (destruct isSnlp; vm_compute; reflexivity).
    split_and!; try done; apply ChecksumIEEE_u32. }
  split_and!.
  - by destruct isSnlp.
  - cbn [fr_raw frame_b]. rewrite length_PacketBBody_bytes by done. by destruct isSnlp.
  - cbn [fr_body fr_header frame_b body_ok]. by destruct isSnlp.
Qed.

(** Packet H: the signature covers the body only, and the gateway does not check it. *)
Definition h_message : list byte := put_le 2 900 ++ put_le 8 detEpochTsMs ++ ramp 0xA0 32.

Definition h_body : VoidProtocol_PacketHBody :=
  {| PacketH_SessionTtl := 900; PacketH_Timestamp := detEpochTsMs;
     PacketH_EphPubKey := {| X25519PublicKey_Raw := ramp 0xA0 32 |};
     PacketH_Signature := {| Ed25519Signature_Raw := sign_with detSeed h_message |} |}.

Definition frame_h (isSnlp : bool) : frame :=
  {| fr_header := gen_header isSnlp 0x0865 105; fr_raw := PacketHBody_bytes h_body;
     fr_body := Some (Body_H h_body) |}.

Lemma genPacketH_frame isSnlp : genPacketH isSnlp = Some (frame_bytes (frame_h isSnlp)).
Proof.
  unfold genPacketH. cbv zeta. rewrite <- (app_assoc (put_le 2 900)).
  change (put_le 2 900 ++ put_le 8 detEpochTsMs ++ ramp 160 32) with h_message.
  assert (buildHeader isSnlp 106 apidSatB false = fh_bytes (gen_header isSnlp 0x0865 105)) as ->
    by (destruct isSnlp; vm_compute; reflexivity).
  destruct detPriv_ok as [-> Hsign]. cbn [mbind option_bind]. rewrite Hsign. cbn [mbind option_bind].
  unfold h_message. by rewrite <- !app_assoc.
Qed.

Lemma frame_h_wf isSnlp : frame_wf (frame_h isSnlp).
Proof.
  assert (PacketHBody_wf h_body) as Hb.
  { unfold PacketHBody_wf, Ed25519Signature_wf. cbn [h_body PacketH_SessionTtl PacketH_Timestamp
      PacketH_EphPubKey PacketH_Signature Ed25519Signature_Raw].
    rewrite length_sign_with by done. split_and!; done. }
  split_and!.
  - by destruct isSnlp.
  - cbn [fr_raw frame_h]. rewrite length_PacketHBody_bytes by done. by destruct isSnlp.
  - cbn [fr_body fr_header frame_h body_ok]. by destruct isSnlp.
Qed.

Lemma b_signed_prefix isSnlp :
  let raw := frame_bytes (frame_b isSnlp) in
  gslice 0 (Z.of_nat (length raw) - 72) raw = b_header isSnlp ++ signed_body isSnlp.
Proof.
  intros raw.
  set (crc := put_le 4 (PacketB_GlobalCrc (b_body isSnlp)) ++ replicate 4 x00).
  assert (raw = (b_header isSnlp ++ signed_body isSnlp) ++ b_signature isSnlp ++ crc) as Hraw.
  { unfold raw, frame_bytes. cbn [fr_header fr_raw frame_b]. rewrite b_body_bytes.
    by rewrite <- !app_assoc. }
  assert (length (b_signature isSnlp ++ crc) = 72%nat) as Ht.
  { unfold crc, b_signature.
    by rewrite !length_app, length_put_le, length_replicate, length_sign_with. }
  unfold gslice. rewrite drop_0, Hraw, length_app, Ht.
  rewrite take_app_exact; [done|lia].
Qed.

Definition vector_payment : SettlementIntent :=
  {| SI_SatId := detSatId; SI_Amount := detAmount; SI_AssetId := detAssetId;
     SI_TxNonce := DeriveTxNonce detSatId detEpochTsMs; SI_Wallet := HexToAddress FlatSatDemoWallet |}.

(** A well-formed frame the gateway accepts once it knows the key of the demo
    satellite, with the APID and the payment it stands for. *)
Record accepted_vector (isSnlp : bool) (apid : Z) (pays : bool) (f : frame) : Prop := {
  av_wf : frame_wf f;
  av_tier : fh_is_snlp (fr_header f) = isSnlp;
  av_apid : spec_apid (fh_ccsds (fr_header f)) = apid;
  av_verdict db : registered_key db detSatId = Some (derive_public detSeed) →
    frame_verdict db f (frame_bytes f) = Accept;
  av_payment db : Wallet <$> db !! detSatId = Some FlatSatDemoWallet →
    payment_intent db (fr_body f) = if pays then Some vector_payment else None;
}.

Lemma accepted_b isSnlp : accepted_vector isSnlp apidSatB true (frame_b isSnlp).
Proof.
  split.
  - apply frame_b_wf.
  - by destruct isSnlp.
  - by destruct isSnlp.
  - intros db Hkey. unfold frame_verdict. cbn [fr_header frame_b].
    replace (spec_version _ =? 0) with true by by destruct isSnlp.
    cbn [fr_body frame_b body_verdict]. rewrite b_signed_prefix.
    cbn [b_body PacketB_SatId PacketB_Signature Ed25519Signature_Raw].
    unfold sig_ok. rewrite Hkey. unfold b_signature.
    rewrite bool_decide_eq_true_2 by by apply length_sign_with.
    by rewrite verify_sign_with.
  - intros db Hw. cbn [fr_body frame_b payment_intent b_body PacketB_SatId PacketB_EncPayload
      PacketB_EpochTs]. unfold GetSat. destruct (db !! detSatId) as [rec|]; [|done].
    injection Hw as Hw. rewrite Hw. change (String.eqb FlatSatDemoWallet "") with false. cbv iota.
    unfold vector_payment. repeat f_equal; destruct isSnlp; vm_compute; reflexivity.
Qed.

Lemma accepted_h isSnlp : accepted_vector isSnlp apidSatB false (frame_h isSnlp).
Proof. split; [apply frame_h_wf|by destruct isSnlp..|by destruct isSnlp|done]. Qed.

(** The packets without a signature are computed and parsed. *)
Lemma accepted_plain raw isSnlp apid :
  is_Some (decode_frame raw) → fh_is_snlp (fr_header (the_frame raw)) = isSnlp →
  spec_apid (fh_ccsds (fr_header (the_frame raw))) = apid →
  (∀ db, frame_verdict db (the_frame raw) raw = Accept) →
  (∀ db, payment_intent db (fr_body (the_frame raw)) = None) →
  ∃ f, raw = frame_bytes f ∧ accepted_vector isSnlp apid false f.
Proof.
  intros Hf Ht Ha Hv Hp. destruct (the_frame_ok raw Hf) as [Hwf Hraw].
  exists (the_frame raw). split; [done|]. split; auto. by rewrite <- Hraw.
Qed.

Ltac accept_plain :=
  apply accepted_plain; [vm_compute; by eexists|intros; vm_compute; reflexivity..].

Lemma accepted_a isSnlp :
  ∃ f, genPacketA isSnlp = frame_bytes f ∧ accepted_vector isSnlp apidSatA false f.
Proof. destruct isSnlp; accept_plain. Qed.

Lemma accepted_d isSnlp :
  ∃ f, genPacketD isSnlp = frame_bytes f ∧ accepted_vector isSnlp apidSatB false f.
Proof. destruct isSnlp; accept_plain. Qed.

Lemma accepted_ack isSnlp :
  ∃ f, genPacketAck isSnlp = frame_bytes f ∧ accepted_vector isSnlp apidSatB false f.
Proof. destruct isSnlp; accept_plain. Qed.

Lemma accepted_l isSnlp :
  ∃ f, genPacketL isSnlp = frame_bytes f ∧ accepted_vector isSnlp apidSatB false f.
Proof. destruct isSnlp; accept_plain. Qed.

Definition vector_apid (spec : packetSpec) : Z :=
  if String.eqb (ps_file spec) "packet_a.bin" then apidSatA else apidSatB.
Definition vector_pays (spec : packetSpec) : bool := String.eqb (ps_file spec) "packet_b.bin".

Lemma vector_frame spec isSnlp :
  spec ∈ goldenPackets → ps_file spec ≠ "packet_c.bin"%string →
  ∃ f, ps_fn spec isSnlp = Some (frame_bytes f) ∧
    accepted_vector isSnlp (vector_apid spec) (vector_pays spec) f.
Proof.
  unfold goldenPackets. rewrite !elem_of_cons, list.elem_of_nil.
  intros [->|[->|[->|[->|[->|[->|[->|[]]]]]]]] Hc; cbn [ps_fn].
  - destruct (accepted_a isSnlp) as (f & -> & Hf). by exists f.
  - exists (frame_b isSnlp). split; [apply genPacketB_frame|apply accepted_b].
  - done.
  - destruct (accepted_d isSnlp) as (f & -> & Hf). by exists f.
  - exists (frame_h isSnlp). split; [apply genPacketH_frame|apply accepted_h].
  - destruct (accepted_ack isSnlp) as (f & -> & Hf). by exists f.
  - destruct (accepted_l isSnlp) as (f & -> & Hf). by exists f.
Qed.

(** C32. The gateway understands what the generator emits. After start-up has loaded
    the demo key, each vector of either tier but the receipt is answered with 200, its
    APID and its tier; the payment of packet B, and no other packet, becomes one
    intent, for the amount, asset, satellite, nonce and wallet the generator has. *)
Theorem generated_vectors_accepted db0 spec isSnlp (s : handler_state (C := C) (E := E)) :
  spec ∈ goldenPackets → ps_file spec ≠ "packet_c.bin"%string → IsAborted (h_ctx s) = false →
  ∃ db raw, LoadFlatSatDemoKey detSeedHex (Initialize db0) = Some (Ok tt, db) ∧
    ps_fn spec isSnlp = Some raw ∧
    IngestPacket (St := St) db (Ok raw) s =
      Some (tt, after_verdict Accept (if vector_pays spec then Some vector_payment else None)
                  (success_H (vector_apid spec) (tier_name isSnlp)) s).
Proof.
  intros Hin Hc Ha. destruct (vector_frame spec isSnlp Hin Hc) as (f & Hraw & [Hwf Ht Hapid Hv Hp]).
  destruct (LoadFlatSatDemoKey_ok detSeed db0 eq_refl) as (db & Hload & _ & Hw & Hk).
  exists db, (frame_bytes f). split; [|split; [done|]].
  { replace detSeedHex with (hex_encode detSeed) by (vm_compute; reflexivity). done. }
  rewrite <- (app_nil_r (frame_bytes f)) at 1. rewrite IngestPacket_frame by done.
  rewrite app_nil_r, Hv, Hp by done. unfold frame_success. by rewrite Ht, Hapid.
Qed.

(** The receipt builder and the generator, written separately, agree: packet C of
    the SNLP tier is what [Build] makes of the generator's time, transaction and
    status, for its APID and sequence number 0, under the demo seed. *)
Theorem builder_matches_generator :
  ∃ raw, genPacketC true = Some raw ∧
    Build {| ExecTimeMs := detEpochTsMs; EncTxID := 0xDEADBEEFCAFEBABE; EncStatus := 1;
             APID := apidSatA; SeqCount := 0; SeedEd25519 := detSeed |} = Some (Ok raw).
Proof.
  set (inp := Build_Inputs _ _ _ _ _ _).
  assert (Inputs_wf inp) as Hwf by (split_and!; done).
  exists (frame_bytes (receipt_frame inp)). split; [|by apply Build_frame].
  unfold genPacketC. cbv zeta.
  match goal with |- context [Sign _ ?m] => set (msg := m) end.
  assert (msg = receipt_scope inp) as -> by (vm_compute; reflexivity).
  assert (buildHeader true 98 apidSatA false = fh_bytes (receipt_header inp)) as ->
    by (vm_compute; reflexivity).
  destruct detPriv_ok as [-> Hsign]. cbn [mbind option_bind]. rewrite Hsign. cbn [mbind option_bind].
  change (sign_with detSeed) with (sign_with (SeedEd25519 inp)).
  fold (receipt_covered inp). rewrite receipt_bytes_split. unfold getCRC.
  change (fh_bytes (receipt_header inp) ++ receipt_scope inp ++ sign_with (SeedEd25519 inp)
    (receipt_scope inp)) with (receipt_covered inp).
  f_equal. unfold receipt_covered. by rewrite <- !app_assoc.
Qed.
End Accepted.

(** Packet B of the SNLP tier. *)
Lemma generated_vectors_accepted_witness :
  ∃ db raw, LoadFlatSatDemoKey detSeedHex (Initialize ∅) = Some (Ok tt, db) ∧
    genPacketB true = Some raw ∧
    IngestPacket (St := ListStream) db (Ok raw) demo_state =
      Some (tt, after_verdict Accept (Some vector_payment) (success_H 101 (tier_name true)) demo_state).
Proof.
  destruct (generated_vectors_accepted (St := ListStream) ∅
    {| ps_file := "packet_b.bin"; ps_fn := genPacketB; ps_ccsds := 184; ps_snlp := 192 |}
    true demo_state) as (db & raw & H1 & H2 & H3).
  - by right; left.
  - done.
  - exact demo_fresh.
  - exists db, raw. split; [exact H1|]. split; [exact H2|exact H3].
Defined.

Lemma builder_matches_generator_witness :
  ∃ raw, genPacketC true = Some raw ∧ length raw = 112%nat.
Proof.
  destruct builder_matches_generator as (raw & Hg & _). exists raw. split; [exact Hg|].
  assert (length <$> genPacketC true = Some 112%nat) as Hl by (vm_compute; reflexivity).
  rewrite Hg in Hl. cbn in Hl. congruence.
Defined.
