(* ===== verification/CBuffer.v ===== *)
(** * Byte buffers of the C++ sources

    The ground station is C++ without a heap: fixed buffers, indices, and loops that
    stop at a limit. A buffer is a [list byte] of the length of the array, and every
    access is checked: [rd], [rd_range] and [wr] are [None] out of range. A function is
    in the option monad, where [None] is therefore undefined behaviour (or a loop that
    did not end in the fuel it was given), and its failures are values; that it is never
    [None] says that it stays inside its buffers and terminates.

    A scanner works on the bytes between an index and a limit; [win] is that window,
    through which an index is read as the list of the bytes not yet consumed. *)
From S2P Require Export Json.
#[local] Open Scope nat_scope.

Definition rd (buf : list byte) (i : nat) : option byte := buf !! i.

Definition rd_range (buf : list byte) (i n : nat) : option (list byte) :=
  if i + n <=? length buf then Some (take n (drop i buf)) else None.

Definition wr (buf : list byte) (i : nat) (b : byte) : option (list byte) :=
  if i <? length buf then Some (<[i := b]> buf) else None.

(** [std::memcpy(&buf[i], src, length src)]. *)
Definition wr_range (buf : list byte) (i : nat) (src : list byte) : option (list byte) :=
  if i + length src <=? length buf
  then Some (take i buf ++ src ++ drop (i + length src) buf) else None.

(** What a buffer holds as a C string: the bytes before the first NUL. *)
Fixpoint c_string (buf : list byte) : list byte :=
  match buf with
  | [] => []
  | b :: t => if Byte.eqb b x00 then [] else b :: c_string t
  end.

Definition win (buf : list byte) (pos lim : nat) : list byte := drop pos (take lim buf).

Lemma length_win buf pos lim : lim ≤ length buf → length (win buf pos lim) = lim - pos.
Proof. intros. unfold win. len. Qed.

Lemma win_nil buf pos lim : lim ≤ pos → win buf pos lim = [].
Proof. intros. unfold win. apply drop_ge. len. Qed.

Lemma win_cons buf pos lim :
  pos < lim → lim ≤ length buf → ∃ b, rd buf pos = Some b ∧ win buf pos lim = b :: win buf (S pos) lim.
Proof.
  intros Hp Hl. destruct (lookup_lt_is_Some_2 buf pos ltac:(lia)) as [b Hb].
  exists b. split; [done|]. unfold win. apply drop_S. by rewrite lookup_take_lt.
Qed.

Lemma win_lookup buf pos lim i :
  pos + i < lim → lim ≤ length buf → rd buf (pos + i) = win buf pos lim !! i.
Proof. intros. unfold rd, win. by rewrite lookup_drop, lookup_take_lt by lia. Qed.

Lemma win_range buf pos lim n :
  pos + n ≤ lim → lim ≤ length buf → rd_range buf pos n = Some (take n (win buf pos lim)).
Proof.
  intros H1 H2. unfold rd_range. rewrite (proj2 (Nat.leb_le _ _)) by lia. f_equal.
  unfold win. rewrite skipn_firstn_comm, take_take. f_equal. lia.
Qed.

Lemma win_drop buf pos lim n : drop n (win buf pos lim) = win buf (pos + n) lim.
Proof. unfold win. by rewrite drop_drop. Qed.

Lemma win_take buf pos lim n :
  pos + n ≤ lim → win buf pos (pos + n) = take n (win buf pos lim).
Proof.
  intros. unfold win. rewrite !skipn_firstn_comm, take_take. f_equal. lia.
Qed.

Lemma win_all buf : win buf 0 (length buf) = buf.
Proof. unfold win. by rewrite drop_0, firstn_all. Qed.

(** The index of a window is determined by the window. *)
Lemma win_index buf pos lim w n :
  lim ≤ length buf → pos ≤ lim → win buf pos lim = w → length w = n → pos = lim - n.
Proof. intros ?? <- <-. rewrite length_win by done. lia. Qed.

(** ** Writing *)
Lemma wr_ok buf i b : i < length buf → wr buf i b = Some (<[i := b]> buf).
Proof. intros. unfold wr. by rewrite (proj2 (Nat.ltb_lt _ _)). Qed.

(** A buffer that is filled from the left. *)
Lemma wr_next done rest b i :
  i = length done → rest ≠ [] → wr (done ++ rest) i b = Some ((done ++ [b]) ++ drop 1 rest).
Proof.
  intros -> Hr. destruct rest as [|c rest]; [done|]. rewrite wr_ok by len. f_equal.
  rewrite insert_app_r_alt, Nat.sub_diag by done. cbn. by rewrite <- app_assoc.
Qed.

Lemma c_string_spec s tl : x00 ∉ s → c_string (s ++ x00 :: tl) = s.
Proof.
  induction s as [|b s IH]; intros Hs; cbn [app c_string]; [done|].
  apply not_elem_of_cons in Hs as [Hb Hs]. destruct (byte_eqb_spec b x00) as [->|_]; [done|].
  by rewrite IH.
Qed.
