(* ===== verification/EgressScan.v ===== *)
(** * The scanner of the egress response

    Models [ground-station/src/egress_json.cpp] (the scanner of the array of receipts
    the gateway serves) and [ground-station/src/egress_hex.cpp] (the hexadecimal
    decoder), function by function, over the checked buffers of [CBuffer].

    Each loop of the scanner is a [Fixpoint] on fuel, started with one more than the
    number of bytes left, and has a reference on lists beside it: [string_content],
    [after_string], [after_object], [key_value], [page]. The code is proved equal to the
    references on every input, which shows that it reads and writes in range and ends;
    the references are then run on what [Json.MarshalRecord] writes. *)
From S2P Require Export CBuffer.
#[local] Open Scope nat_scope.

(** ** [egress_hex.cpp] *)
Definition nibble (c : byte) : Z :=
  (if in_range 48 57 c then byte_to_Z c - 48
   else if in_range 97 102 c then byte_to_Z c - 97 + 10
   else if in_range 65 70 c then byte_to_Z c - 65 + 10
   else -1)%Z.

Fixpoint hex_decode_loop (fuel : nat) (hex : list byte) (need i : nat) (out : list byte)
    : option (bool * list byte) :=
  match fuel with
  | O => None
  | S fuel =>
      if negb (i <? need) then Some (true, out) else
      a ← rd hex (i * 2);
      b ← rd hex (i * 2 + 1);
      let hi := nibble a in
      let lo := nibble b in
      if ((hi <? 0) || (lo <? 0))%Z then Some (false, out) else
      out ← wr out i (byte_of_Z (Z.lor (Z.shiftl hi 4) lo));
      hex_decode_loop fuel hex need (S i) out
  end.

(** Pointers that may be [nullptr] are options. *)
Definition hex_decode (hex : option (list byte)) (hex_len : nat) (out : option (list byte))
    (out_cap : nat) : option (bool * option (list byte)) :=
  match hex, out with
  | Some hex, Some buf =>
      if negb (Nat.land hex_len 1 =? 0) then Some (false, out) else
      let need := Nat.div hex_len 2 in
      if out_cap <? need then Some (false, out) else
      '(ok, buf) ← hex_decode_loop (S need) hex need 0 buf;
      Some (ok, Some buf)
  | _, _ => Some (false, out)
  end.

(** ** [egress_json.cpp] *)
Definition EgressPaymentIdMaxLen : nat := 96.
Definition EgressTxHashMaxLen : nat := 80.
Definition EgressPacketCHexMaxLen : nat := 240.

(** [egress::Record], three buffers. *)
Record EgressRecord := {
  er_payment_id : list byte;
  er_settlement_tx_hash : list byte;
  er_packet_c_hex : list byte;
}.

Fixpoint skip_ws_loop (fuel : nat) (body : list byte) (pos lim : nat) : option nat :=
  match fuel with
  | O => None
  | S fuel =>
      if negb (pos <? lim) then Some pos else
      c ← rd body pos;
      if is_space c then skip_ws_loop fuel body (S pos) lim else Some pos
  end.

Definition skip_ws (body : list byte) (pos lim : nat) : option nat :=
  skip_ws_loop (S (lim - pos)) body pos lim.

Fixpoint extract_loop (fuel : nat) (body : list byte) (pos lim : nat) (out : list byte)
    (out_max written : nat) : option (bool * list byte) :=
  match fuel with
  | O => None
  | S fuel =>
      if negb (pos <? lim) then Some (false, out) else
      c ← rd body pos;
      if Byte.eqb c x22 then
        if out_max <=? written then Some (false, out) else
        out ← wr out written x00;
        Some (true, out)
      else
        '(pos, c) ← (if Byte.eqb c x5c && (pos + 1 <? lim)
                     then c ← rd body (S pos); Some (S pos, c) else Some (pos, c));
        if out_max <=? written + 1 then Some (false, out) else
        out ← wr out written c;
        extract_loop fuel body (S pos) lim out out_max (S written)
  end.

(** The index after the closing quote is not used by the callers, and left out. *)
Definition extract_string (body : list byte) (pos lim : nat) (out : list byte) (out_max : nat)
    : option (bool * list byte) :=
  if out_max =? 0 then Some (false, out) else
  if lim <=? pos then Some (false, out) else
  c ← rd body pos;
  if negb (Byte.eqb c x22) then Some (false, out) else
  extract_loop (S (lim - S pos)) body (S pos) lim out out_max 0.

(** The first inner loop of [find_and_extract_key]: to the next quote. *)
Fixpoint to_quote_loop (fuel : nat) (body : list byte) (pos lim : nat) : option nat :=
  match fuel with
  | O => None
  | S fuel =>
      if negb (pos <? lim) then Some pos else
      c ← rd body pos;
      if negb (Byte.eqb c x22) then to_quote_loop fuel body (S pos) lim else Some pos
  end.

(** The second: past the closing quote. *)
Fixpoint past_quote_loop (fuel : nat) (body : list byte) (pos lim : nat) : option nat :=
  match fuel with
  | O => None
  | S fuel =>
      if negb (pos <? lim) then Some pos else
      c ← rd body pos;
      if Byte.eqb c x5c && (pos + 1 <? lim) then past_quote_loop fuel body (pos + 2) lim
      else if Byte.eqb c x22 then Some (S pos)
      else past_quote_loop fuel body (S pos) lim
  end.

Fixpoint find_key_loop (fuel : nat) (body : list byte) (pos lim : nat) (key : list byte)
    (out : list byte) (out_max : nat) : option (bool * list byte) :=
  match fuel with
  | O => None
  | S fuel =>
      let key_len := length key in
      if negb (pos <? lim) then Some (false, out) else
      pos ← to_quote_loop (S (lim - pos)) body pos lim;
      if lim <=? pos then Some (false, out) else
      if lim <? pos + 1 + key_len + 1 then Some (false, out) else
      c ← rd body (pos + 1 + key_len);
      matched ← (if Byte.eqb c x22
                 then k ← rd_range body (pos + 1) key_len; Some (bool_decide (k = key))
                 else Some false);
      if (matched : bool) then
        pos ← skip_ws body (pos + (1 + key_len + 1)) lim;
        if lim <=? pos then Some (false, out) else
        c ← rd body pos;
        if negb (Byte.eqb c x3a) then Some (false, out) else
        pos ← skip_ws body (S pos) lim;
        extract_string body pos lim out out_max
      else
        pos ← past_quote_loop (S (lim - S pos)) body (S pos) lim;
        find_key_loop fuel body pos lim key out out_max
  end.

Definition find_and_extract_key (body : list byte) (start lim : nat) (key_literal : string)
    (out : list byte) (out_max : nat) : option (bool * list byte) :=
  find_key_loop (S (lim - start)) body start lim (bytes_of key_literal) out out_max.

Fixpoint object_end_loop (fuel : nat) (body : list byte) (pos lim : nat) (depth : Z)
    (in_string : bool) : option nat :=
  match fuel with
  | O => None
  | S fuel =>
      if negb (pos <? lim) then Some lim else
      c ← rd body pos;
      if in_string then
        if Byte.eqb c x5c && (pos + 1 <? lim)
        then object_end_loop fuel body (pos + 2) lim depth true
        else object_end_loop fuel body (S pos) lim depth (negb (Byte.eqb c x22))
      else if Byte.eqb c x22 then object_end_loop fuel body (S pos) lim depth true
      else if Byte.eqb c x7b then object_end_loop fuel body (S pos) lim (depth + 1)%Z false
      else if Byte.eqb c x7d then
        if (depth - 1 =? 0)%Z then Some (S pos)
        else object_end_loop fuel body (S pos) lim (depth - 1)%Z false
      else object_end_loop fuel body (S pos) lim depth false
  end.

Definition find_object_end (body : list byte) (pos lim : nat) : option nat :=
  if lim <=? pos then Some lim else
  c ← rd body pos;
  if negb (Byte.eqb c x7b) then Some lim else
  object_end_loop (S (lim - pos)) body pos lim 0 false.

(** The first byte of each bucket is zeroed. *)
Definition zero_buckets (r : EgressRecord) : option EgressRecord :=
  a ← wr (er_payment_id r) 0 x00;
  b ← wr (er_settlement_tx_hash r) 0 x00;
  c ← wr (er_packet_c_hex r) 0 x00;
  Some {| er_payment_id := a; er_settlement_tx_hash := b; er_packet_c_hex := c |}.

(** The three extractions for one object; [false] is the [return -1] of any of them. *)
Definition extract_fields (body : list byte) (obj_start obj_end : nat) (r : EgressRecord)
    : option (bool * EgressRecord) :=
  r ← zero_buckets r;
  '(ok, a) ← find_and_extract_key body obj_start obj_end "payment_id"
               (er_payment_id r) EgressPaymentIdMaxLen;
  let r := {| er_payment_id := a; er_settlement_tx_hash := er_settlement_tx_hash r;
              er_packet_c_hex := er_packet_c_hex r |} in
  if negb ok then Some (false, r) else
  '(ok, b) ← find_and_extract_key body obj_start obj_end "settlement_tx_hash"
               (er_settlement_tx_hash r) EgressTxHashMaxLen;
  let r := {| er_payment_id := er_payment_id r; er_settlement_tx_hash := b;
              er_packet_c_hex := er_packet_c_hex r |} in
  if negb ok then Some (false, r) else
  '(ok, c) ← find_and_extract_key body obj_start obj_end "packet_c_hex"
               (er_packet_c_hex r) EgressPacketCHexMaxLen;
  Some (ok, {| er_payment_id := er_payment_id r; er_settlement_tx_hash := er_settlement_tx_hash r;
               er_packet_c_hex := c |}).

Fixpoint parse_loop (fuel : nat) (body : list byte) (body_len pos : nat) (out : list EgressRecord)
    (max_records count : nat) : option (Z * list EgressRecord) :=
  match fuel with
  | O => None
  | S fuel =>
      let reject := Some ((-1)%Z, out) in
      if negb (pos <? body_len) then reject else
      pos ← skip_ws body pos body_len;
      if body_len <=? pos then reject else
      c ← rd body pos;
      if negb (Byte.eqb c x7b) then reject else
      obj_end ← find_object_end body pos body_len;
      unclosed ← (if (body_len <=? obj_end) && (obj_end =? body_len)
                  then c ← rd body (body_len - 1); Some (negb (Byte.eqb c x7d)) else Some false);
      if (unclosed : bool) then reject else
      if obj_end =? body_len then reject else
      r ← out !! count;
      '(ok, r) ← extract_fields body pos obj_end r;
      let out := <[count := r]> out in
      if negb ok then Some ((-1)%Z, out) else
      let count := S count in
      if max_records <=? count then Some (Z.of_nat count, out) else
      pos ← skip_ws body obj_end body_len;
      if body_len <=? pos then Some ((-1)%Z, out) else
      c ← rd body pos;
      if Byte.eqb c x2c then parse_loop fuel body body_len (S pos) out max_records count
      else if Byte.eqb c x5d then Some (Z.of_nat count, out)
      else Some ((-1)%Z, out)
  end.

Definition parse_pending_response (body : option (list byte)) (body_len : nat)
    (out : option (list EgressRecord)) (max_records : nat) : option (Z * option (list EgressRecord)) :=
  let reject := Some ((-1)%Z, out) in
  match body, out with
  | Some body, Some recs =>
      if (body_len =? 0) || (max_records =? 0) then reject else
      pos ← skip_ws body 0 body_len;
      if body_len <=? pos then reject else
      c ← rd body pos;
      if negb (Byte.eqb c x5b) then reject else
      pos ← skip_ws body (S pos) body_len;
      empty ← (if pos <? body_len then c ← rd body pos; Some (Byte.eqb c x5d) else Some false);
      if (empty : bool) then Some (0%Z, out) else
      '(n, recs) ← parse_loop (S (body_len - pos)) body body_len pos recs max_records 0;
      Some (n, Some recs)
  | _, _ => reject
  end.

(** ** References on lists *)

(** The content of a string literal whose opening quote has been read: a byte after a
    backslash stands for itself. *)
Fixpoint string_content (w : list byte) : option (list byte) :=
  match w with
  | [] => None
  | c :: t =>
      if Byte.eqb c x22 then Some []
      else if Byte.eqb c x5c then
        match t with
        | [] => None
        | e :: t => cons e <$> string_content t
        end
      else cons c <$> string_content t
  end.

Fixpoint to_quote (w : list byte) : list byte :=
  match w with
  | [] => []
  | c :: t => if Byte.eqb c x22 then w else to_quote t
  end.

Fixpoint after_string (w : list byte) : list byte :=
  match w with
  | [] => []
  | c :: t =>
      if Byte.eqb c x5c then match t with [] => [] | _ :: t => after_string t end
      else if Byte.eqb c x22 then t
      else after_string t
  end.

(** The bytes after the brace that closes [depth] objects; none if it is missing. *)
Fixpoint after_object (depth : Z) (in_string : bool) (w : list byte) : list byte :=
  match w with
  | [] => []
  | c :: t =>
      if in_string then
        if Byte.eqb c x5c then match t with [] => [] | _ :: t => after_object depth true t end
        else after_object depth (negb (Byte.eqb c x22)) t
      else if Byte.eqb c x22 then after_object depth true t
      else if Byte.eqb c x7b then after_object (depth + 1) false t
      else if Byte.eqb c x7d then
        if (depth - 1 =? 0)%Z then t else after_object (depth - 1) false t
      else after_object depth false t
  end.

(** The value of the first string equal to [key] that is followed by a colon and a
    string; [n] bounds the number of strings looked at. *)
Fixpoint key_value (n : nat) (key w : list byte) : option (list byte) :=
  match n, to_quote w with
  | S n, _ :: t =>
      if length t <? S (length key) then None
      else if bool_decide (take (S (length key)) t = key ++ [x22]) then
        match skip_space (drop (S (length key)) t) with
        | c :: u =>
            if Byte.eqb c x3a then
              match skip_space u with
              | q :: v => if Byte.eqb q x22 then string_content v else None
              | [] => None
              end
            else None
        | [] => None
        end
      else key_value n key (after_string t)
  | _, _ => None
  end.

(** A string that fits a bucket of [cap] bytes with its NUL. *)
Definition fits (cap : nat) (s : option (list byte)) : option (list byte) :=
  s ← s; if length s <? cap then Some s else None.

(** The three fields of an object. *)
Definition fields_of (w : list byte) : option (list byte * list byte * list byte) :=
  let field key cap := fits cap (key_value (S (length w)) (bytes_of key) w) in
  a ← field "payment_id"%string EgressPaymentIdMaxLen;
  b ← field "settlement_tx_hash"%string EgressTxHashMaxLen;
  c ← field "packet_c_hex"%string EgressPacketCHexMaxLen;
  Some (a, b, c).

(** The fields of the first [max] objects of an array whose opening bracket and
    surrounding space have been read; [n] bounds their number. *)
Fixpoint page (n max : nat) (w : list byte) : option (list (list byte * list byte * list byte)) :=
  match n, max, skip_space w with
  | S n, S max, c :: t =>
      if Byte.eqb c x7b then
        let rest := after_object 1 false t in
        match rest with
        | [] => None
        | _ =>
            f ← fields_of (take (length (c :: t) - length rest) (c :: t));
            match max, skip_space rest with
            | O, _ => Some [f]
            | _, d :: u =>
                if Byte.eqb d x2c then cons f <$> page n max u
                else if Byte.eqb d x5d then Some [f]
                else None
            | _, [] => None
            end
        end
      else None
  | _, _, _ => None
  end.

(** The whole response. *)
Definition pending (max : nat) (w : list byte) : option (list (list byte * list byte * list byte)) :=
  match max, skip_space w with
  | S _, c :: t =>
      if Byte.eqb c x5b then
        match skip_space t with
        | d :: _ => if Byte.eqb d x5d then Some [] else page (S (length (skip_space t))) max (skip_space t)
        | [] => None
        end
      else None
  | _, _ => None
  end.

(** ** The code computes the references *)
Section Scan.
Context (body : list byte) (lim : nat) (Hlim : lim ≤ length body).

(** One turn of a loop: at the limit, or at a byte. *)
Ltac at_byte pos :=
  let Hpos := fresh "Hpos" in let c := fresh "c" in
  let Hc := fresh "Hc" in let Hw := fresh "Hw" in
  destruct (Nat.ltb_spec pos lim) as [Hpos|Hpos]; cbn [negb];
  [ destruct (win_cons body pos lim Hpos Hlim) as (c & Hc & Hw);
    rewrite ?Hc; cbn [mbind option_bind]
  | pose proof (win_nil body pos lim ltac:(lia)) as Hw ].

(** The index found by a loop, with the window at it. *)
Definition stops (r : option nat) (pos : nat) (w : list byte) : Prop :=
  ∃ p, r = Some p ∧ pos ≤ p ≤ lim ∧ win body p lim = w.

Lemma stops_here pos w : pos ≤ lim → win body pos lim = w → stops (Some pos) pos w.
Proof. intros. exists pos. split_and!; [done|lia|lia|done]. Qed.

Lemma stops_later r pos pos' w : stops r pos' w → pos ≤ pos' → stops r pos w.
Proof. intros (p & -> & ? & ?) ?. exists p. split_and!; [done|lia|lia|done]. Qed.

Lemma skip_ws_loop_spec fuel pos :
  lim - pos < fuel → pos ≤ lim →
  stops (skip_ws_loop fuel body pos lim) pos (skip_space (win body pos lim)).
Proof.
  revert pos. induction fuel as [|fuel IH]; intros pos Hf Hp; [lia|]. cbn [skip_ws_loop].
  at_byte pos; rewrite Hw; cbn [skip_space]; [|by apply stops_here].
  destruct (is_space c); [|by apply stops_here].
  eapply stops_later; [apply IH; lia|lia].
Qed.

Lemma skip_ws_spec pos :
  pos ≤ lim → stops (skip_ws body pos lim) pos (skip_space (win body pos lim)).
Proof. intros. apply skip_ws_loop_spec; lia. Qed.

Lemma to_quote_loop_spec fuel pos :
  lim - pos < fuel → pos ≤ lim →
  stops (to_quote_loop fuel body pos lim) pos (to_quote (win body pos lim)).
Proof.
  revert pos. induction fuel as [|fuel IH]; intros pos Hf Hp; [lia|]. cbn [to_quote_loop].
  at_byte pos; rewrite Hw; cbn [to_quote]; [|by apply stops_here].
  destruct (Byte.eqb c x22); cbn [negb]; [by apply stops_here|].
  eapply stops_later; [apply IH; lia|lia].
Qed.

Lemma past_quote_loop_spec fuel pos :
  lim - pos < fuel → pos ≤ lim →
  stops (past_quote_loop fuel body pos lim) pos (after_string (win body pos lim)).
Proof.
  revert pos. induction fuel as [|fuel IH]; intros pos Hf Hp; [lia|]. cbn [past_quote_loop].
  at_byte pos; rewrite Hw; cbn [after_string]; [|by apply stops_here].
  destruct (byte_eqb_spec c x5c) as [->|_]; cbn [andb].
  - replace (pos + 1) with (S pos) by lia. at_byte (S pos); rewrite Hw0.
    + replace (pos + 2) with (S (S pos)) by lia. eapply stops_later; [apply IH; lia|lia].
    + destruct fuel as [|fuel]; [lia|]. cbn [past_quote_loop Byte.eqb].
      change (Byte.eqb x5c x22) with false. cbn iota.
      rewrite (proj2 (Nat.ltb_ge (S pos) lim)) by lia. cbn [negb].
      eapply stops_later; [apply (stops_here (S pos)); [lia|done]|lia].
  - destruct (Byte.eqb c x22).
    + eapply stops_later; [apply stops_here; [lia|done]|lia].
    + eapply stops_later; [apply IH; lia|lia].
Qed.

Lemma object_end_loop_spec fuel pos depth in_string :
  lim - pos < fuel → pos ≤ lim →
  stops (object_end_loop fuel body pos lim depth in_string) pos
    (after_object depth in_string (win body pos lim)).
Proof.
  revert pos depth in_string. induction fuel as [|fuel IH]; intros pos depth in_string Hf Hp; [lia|].
  cbn [object_end_loop].
  at_byte pos; rewrite Hw; cbn [after_object].
  2:{ eapply stops_later; [apply stops_here; [lia|apply win_nil; lia]|lia]. }
  assert (∀ d s, stops (object_end_loop fuel body (S pos) lim d s) pos
    (after_object d s (win body (S pos) lim))) as Hnext.
  { intros d s. eapply stops_later; [apply IH; lia|lia]. }
  destruct in_string.
  - destruct (byte_eqb_spec c x5c) as [->|_]; cbn [andb]; [|apply Hnext].
    replace (pos + 1) with (S pos) by lia. at_byte (S pos).
    + rewrite Hw0. replace (pos + 2) with (S (S pos)) by lia. eapply stops_later; [apply IH; lia|lia].
    + destruct (Hnext depth (negb (Byte.eqb x5c x22))) as (p & -> & ? & Hp').
      exists p. rewrite Hw0 in Hp' |- *. split_and!; [done|lia|lia|done].
  - destruct (Byte.eqb c x22); [apply Hnext|]. destruct (Byte.eqb c x7b); [apply Hnext|].
    destruct (Byte.eqb c x7d); [|apply Hnext]. destruct (depth - 1 =? 0)%Z; [|apply Hnext].
    eapply stops_later; [apply stops_here; [lia|done]|lia].
Qed.

Lemma find_object_end_spec pos t :
  win body pos lim = x7b :: t →
  stops (find_object_end body pos lim) pos (after_object 1 false t).
Proof.
  intros Ht. unfold find_object_end.
  destruct (Nat.leb_spec lim pos) as [Hp|Hp].
  { rewrite win_nil in Ht by lia. done. }
  at_byte pos; [|lia]. rewrite Hw in Ht. injection Ht as -> <-.
  change (Byte.eqb x7b x7b) with true. cbn [negb].
  pose proof (object_end_loop_spec (S (lim - pos)) pos 0 false ltac:(lia) ltac:(lia)) as Hs.
  by rewrite Hw in Hs.
Qed.

(** A string copied into a bucket: all of it with a NUL, or nothing that matters. *)
Definition copied (r : option (bool * list byte)) (s : option (list byte)) (cap : nat) : Prop :=
  ∃ out, length out = cap ∧
    match fits cap s with
    | Some s => r = Some (true, out) ∧ ∃ tl, out = s ++ x00 :: tl
    | None => r = Some (false, out)
    end.

Lemma copied_reject out s cap :
  length out = cap → fits cap s = None → copied (Some (false, out)) s cap.
Proof. intros Hl Hf. exists out. by rewrite Hf. Qed.

Lemma fits_none cap s : (∀ s', s = Some s' → cap ≤ length s') → fits cap s = None.
Proof.
  intros Hs. unfold fits. destruct s as [s|]; [|done]. cbn [mbind option_bind]. specialize (Hs s eq_refl).
  by rewrite (proj2 (Nat.ltb_ge _ _)).
Qed.

Lemma extract_loop_spec fuel pos done rest cap :
  lim - pos < fuel → pos ≤ lim → length (done ++ rest) = cap → length done < cap →
  copied (extract_loop fuel body pos lim (done ++ rest) cap (length done))
    (app done <$> string_content (win body pos lim)) cap.
Proof.
  revert pos done rest. induction fuel as [|fuel IH]; intros pos don rest Hf Hp Hcap Hd; [lia|].
  assert (rest ≠ []) as Hr by (intros ->; len).
  assert (length (drop 1 rest) = cap - S (length don)) as Hdr by len.
  cbn [extract_loop]. at_byte pos; rewrite Hw; cbn [string_content].
  2:{ by apply (copied_reject (don ++ rest)). }
  destruct (byte_eqb_spec c x22) as [->|_].
  { rewrite (proj2 (Nat.leb_gt cap (length don))), wr_next by done. cbn [mbind option_bind].
    exists ((don ++ [x00]) ++ drop 1 rest).
    split; [len|unfold fits; cbn [fmap option_fmap option_map mbind option_bind]].
    rewrite app_nil_r, (proj2 (Nat.ltb_lt _ _)) by done. split; [done|]. eexists. by rewrite <- app_assoc. }
  assert (∀ p e, pos < p → p ≤ lim →
    copied (if cap <=? length don + 1 then Some (false, don ++ rest) else
            out ← wr (don ++ rest) (length don) e; extract_loop fuel body p lim out cap (S (length don)))
      (app don <$> (cons e <$> string_content (win body p lim))) cap) as Hnext.
  { intros p e Hp1 Hp2. destruct (Nat.leb_spec cap (length don + 1)) as [Hc'|Hc'].
    - apply copied_reject; [done|]. apply fits_none. intros s' Hs.
      destruct (string_content _) as [u|]; [|done]. injection Hs as <-. len.
    - rewrite wr_next by done. cbn [mbind option_bind].
      replace (S (length don)) with (length (don ++ [e])) by len.
      pose proof (IH p (don ++ [e]) (drop 1 rest) ltac:(lia) Hp2 ltac:(len) ltac:(len)) as IH'.
      destruct (string_content _); cbn [fmap option_fmap option_map] in *; [|done].
      by rewrite <- (app_assoc don [e] l) in IH'. }
  destruct (byte_eqb_spec c x5c) as [->|_]; cbn [andb]; [|by apply Hnext; lia].
  replace (pos + 1) with (S pos) by lia. at_byte (S pos); rewrite Hw0.
  - by apply Hnext; lia.
  - pose proof (Hnext (S pos) x5c ltac:(lia) ltac:(lia)) as Hn. rewrite Hw0 in Hn. exact Hn.
Qed.

Lemma extract_string_spec pos bucket cap :
  pos ≤ lim → length bucket = cap → 0 < cap →
  copied (extract_string body pos lim bucket cap)
    (match win body pos lim with
     | q :: v => if Byte.eqb q x22 then string_content v else None
     | [] => None
     end) cap.
Proof.
  intros Hp Hcap H0. unfold extract_string. destruct (Nat.eqb_spec cap 0); [lia|].
  destruct (Nat.leb_spec lim pos); [rewrite win_nil by lia; by apply copied_reject|].
  at_byte pos; [|lia]. rewrite Hw.
  destruct (Byte.eqb c x22); cbn [negb]; [|by apply copied_reject].
  pose proof (extract_loop_spec (S (lim - S pos)) (S pos) [] bucket cap ltac:(lia) ltac:(lia) Hcap H0) as Hx.
  by destruct (string_content _).
Qed.

(** The comparison of a key, as one on lists. *)
Lemma key_match pos key t :
  win body pos lim = x22 :: t → S (length key) ≤ length t →
  (c ← rd body (pos + 1 + length key);
   if Byte.eqb c x22 then k ← rd_range body (pos + 1) (length key); Some (bool_decide (k = key))
   else Some false) = Some (bool_decide (take (S (length key)) t = key ++ [x22])).
Proof.
  intros Hw Hk. assert (win body (S pos) lim = t) as Ht.
  { replace (S pos) with (pos + 1) by lia. rewrite <- win_drop, Hw. done. }
  pose proof (length_win body (S pos) lim Hlim) as Hl. rewrite Ht in Hl.
  replace (pos + 1) with (S pos) by lia.
  rewrite (win_lookup body (S pos) lim), (win_range body (S pos) lim), Ht by lia.
  destruct (lookup_lt_is_Some_2 t (length key) ltac:(lia)) as [c Hc]. rewrite Hc. cbn [mbind option_bind].
  rewrite (take_S_r t _ c) by done.
  destruct (byte_eqb_spec c x22) as [->|Hq]; f_equal.
  - apply bool_decide_ext. split; [by intros ->|apply app_inj_tail].
  - symmetry. apply bool_decide_eq_false. intros H%app_inj_tail. naive_solver.
Qed.

Lemma to_quote_head w : to_quote w = [] ∨ ∃ t, to_quote w = x22 :: t.
Proof.
  induction w as [|c w IH]; cbn [to_quote]; [by left|].
  destruct (byte_eqb_spec c x22) as [->|_]; [right; eauto|done].
Qed.

(** What follows a matched key. *)
Lemma after_key_spec pos bucket cap :
  pos ≤ lim → length bucket = cap → 0 < cap →
  copied
    (pos ← skip_ws body pos lim;
     if lim <=? pos then Some (false, bucket) else
     c ← rd body pos;
     if negb (Byte.eqb c x3a) then Some (false, bucket) else
     pos ← skip_ws body (S pos) lim;
     extract_string body pos lim bucket cap)
    (match skip_space (win body pos lim) with
     | c :: u =>
         if Byte.eqb c x3a then
           match skip_space u with
           | q :: v => if Byte.eqb q x22 then string_content v else None
           | [] => None
           end
         else None
     | [] => None
     end) cap.
Proof.
  intros Hp Hcap H0. destruct (skip_ws_spec pos Hp) as (p & -> & [? ?] & <-). cbn [mbind option_bind].
  destruct (Nat.leb_spec lim p); [rewrite win_nil by lia; by apply copied_reject|].
  at_byte p; [|lia]. rewrite Hw.
  destruct (Byte.eqb c x3a); cbn [negb]; [|by apply copied_reject].
  destruct (skip_ws_spec (S p) ltac:(lia)) as (p' & -> & [? ?] & <-). cbn [mbind option_bind].
  by apply extract_string_spec.
Qed.

Lemma find_key_loop_spec fuel pos key bucket cap :
  lim - pos < fuel → pos ≤ lim → length bucket = cap → 0 < cap →
  copied (find_key_loop fuel body pos lim key bucket cap) (key_value fuel key (win body pos lim)) cap.
Proof.
  intros Hf Hp Hcap H0. revert pos Hf Hp. induction fuel as [|fuel IH]; intros pos Hf Hp; [lia|].
  cbn [find_key_loop key_value].
  destruct (Nat.ltb_spec pos lim) as [Hpos|Hpos]; cbn [negb].
  2:{ rewrite win_nil by lia. by apply copied_reject. }
  destruct (to_quote_loop_spec (S (lim - pos)) pos ltac:(lia) Hp) as (p & -> & [? ?] & Hq).
  cbn [mbind option_bind]. rewrite <- Hq.
  destruct (Nat.leb_spec lim p) as [Hlp|Hlp]; [rewrite win_nil by lia; by apply copied_reject|].
  destruct (to_quote_head (win body pos lim)) as [Hnil|[t Ht]].
  { rewrite Hnil in Hq. apply (f_equal length) in Hq. rewrite length_win in Hq by done. cbn in Hq. lia. }
  rewrite Ht in Hq. rewrite Hq. pose proof (length_win body p lim Hlim) as Hlt.
  rewrite Hq in Hlt. cbn [length] in Hlt.
  assert (win body (S p) lim = t) as Ht'.
  { replace (S p) with (p + 1) by lia. rewrite <- win_drop, Hq. done. }
  destruct (Nat.ltb_spec lim (p + 1 + length key + 1)) as [Hk|Hk].
  { rewrite (proj2 (Nat.ltb_lt _ _)) by lia. by apply copied_reject. }
  rewrite (proj2 (Nat.ltb_ge _ _)) by lia.
  pose proof (key_match p key t Hq ltac:(lia)) as Hm.
  destruct (rd body (p + 1 + length key)) as [c|]; [|done]. cbn [mbind option_bind] in Hm |- *.
  rewrite Hm. cbn [mbind option_bind].
  case_bool_decide.
  - replace (p + (1 + length key + 1)) with (S p + S (length key)) by lia.
    rewrite <- Ht', win_drop. apply after_key_spec; [lia|done|done].
  - destruct (past_quote_loop_spec (S (lim - S p)) (S p) ltac:(lia) ltac:(lia)) as (p' & -> & [? ?] & Hp').
    cbn [mbind option_bind]. rewrite Ht' in Hp'. rewrite <- Hp'. apply IH; lia.
Qed.
End Scan.

(** ** Records *)

(** The buffers of a record have the sizes of the struct. *)
Definition sized (r : EgressRecord) : Prop :=
  length (er_payment_id r) = EgressPaymentIdMaxLen ∧
  length (er_settlement_tx_hash r) = EgressTxHashMaxLen ∧
  length (er_packet_c_hex r) = EgressPacketCHexMaxLen.

Definition bucket_holds (bucket s : list byte) : Prop := ∃ tl, bucket = s ++ x00 :: tl.

(** The buffers of a record hold three strings, each with its NUL. *)
Definition holds (r : EgressRecord) (f : list byte * list byte * list byte) : Prop :=
  bucket_holds (er_payment_id r) f.1.1 ∧ bucket_holds (er_settlement_tx_hash r) f.1.2 ∧
  bucket_holds (er_packet_c_hex r) f.2.

Lemma find_and_extract_key_spec body start lim key bucket cap :
  lim ≤ length body → start ≤ lim → length bucket = cap → 0 < cap →
  copied (find_and_extract_key body start lim key bucket cap)
    (key_value (S (length (win body start lim))) (bytes_of key) (win body start lim)) cap.
Proof.
  intros. unfold find_and_extract_key. rewrite length_win by done. apply find_key_loop_spec; lia || done.
Qed.

Lemma zero_buckets_spec r : sized r → ∃ r', zero_buckets r = Some r' ∧ sized r'.
Proof.
  intros (H1 & H2 & H3). unfold zero_buckets.
  rewrite !wr_ok by (rewrite ?H1, ?H2, ?H3; unfold EgressPaymentIdMaxLen, EgressTxHashMaxLen, EgressPacketCHexMaxLen; lia).
  eexists. split; [done|]. unfold sized. cbn. by rewrite !length_insert.
Qed.

Lemma extract_fields_spec body start lim r :
  lim ≤ length body → start ≤ lim → sized r →
  ∃ r', sized r' ∧
    match fields_of (win body start lim) with
    | Some f => extract_fields body start lim r = Some (true, r') ∧ holds r' f
    | None => extract_fields body start lim r = Some (false, r')
    end.
Proof.
  intros Hl Hs Hr. destruct (zero_buckets_spec r Hr) as (r0 & E0 & H1 & H2 & H3).
  unfold extract_fields, fields_of. rewrite E0. cbn [mbind option_bind].
  destruct (find_and_extract_key_spec body start lim "payment_id" _ _ Hl Hs H1) as (a & La & Ha);
    [unfold EgressPaymentIdMaxLen; lia|].
  destruct (fits EgressPaymentIdMaxLen _) as [sa|]; [destruct Ha as [-> Ha]|rewrite Ha];
    cbn [mbind option_bind negb]; [|by eexists {| er_payment_id := a |}].
  destruct (find_and_extract_key_spec body start lim "settlement_tx_hash" _ _ Hl Hs H2) as (b & Lb & Hb);
    [unfold EgressTxHashMaxLen; lia|]. cbn [er_settlement_tx_hash er_packet_c_hex er_payment_id].
  destruct (fits EgressTxHashMaxLen _) as [sb|]; [destruct Hb as [-> Hb]|rewrite Hb];
    cbn [mbind option_bind negb]; [|by eexists {| er_settlement_tx_hash := b |}].
  destruct (find_and_extract_key_spec body start lim "packet_c_hex" _ _ Hl Hs H3) as (c & Lc & Hc);
    [unfold EgressPacketCHexMaxLen; lia|]. cbn [er_settlement_tx_hash er_packet_c_hex er_payment_id].
  destruct (fits EgressPacketCHexMaxLen _) as [sc|]; [destruct Hc as [-> Hc]|rewrite Hc];
    cbn [mbind option_bind negb]; [|by eexists {| er_packet_c_hex := c |}].
  eexists {| er_payment_id := a; er_settlement_tx_hash := b; er_packet_c_hex := c |}.
  by split_and!.
Qed.

(** ** The array *)

(** What [parse_loop] does to the records from [count] on. *)
Definition filled (r : option (Z * list EgressRecord)) (count cap : nat)
    (out : list EgressRecord) (fs : option (list (list byte * list byte * list byte))) : Prop :=
  ∃ n out', r = Some (n, out') ∧ length out' = length out ∧ Forall sized out' ∧
    take count out' = take count out ∧
    match fs with
    | None => n = (-1)%Z
    | Some fs => n = Z.of_nat (count + length fs) ∧ count + length fs ≤ cap ∧
        ∀ i f, fs !! i = Some f → ∃ r, out' !! (count + i) = Some r ∧ holds r f
    end.

Lemma filled_reject count cap out out' :
  length out' = length out → Forall sized out' → take count out' = take count out →
  filled (Some ((-1)%Z, out')) count cap out None.
Proof. intros. by eexists _, _. Qed.

Lemma take_insert_same (out : list EgressRecord) i r : take i (<[i := r]> out) = take i out.
Proof. apply take_insert_ge. lia. Qed.

Lemma filled_one count cap out r f :
  count < length out → S count ≤ cap → Forall sized out → sized r → holds r f →
  filled (Some (Z.of_nat (S count), <[count := r]> out)) count cap out (Some [f]).
Proof.
  intros Hc Hcap Hout Hr Hf. eexists _, _. split; [reflexivity|].
  rewrite length_insert, take_insert_same. split_and!; [done|by apply Forall_insert|done| |cbn; lia|].
  { cbn. f_equal. lia. }
  intros [|i] f'; [|done]. intros [= <-]. rewrite Nat.add_0_r. exists r.
  by rewrite list_lookup_insert_eq.
Qed.

Lemma filled_cons res count cap out r f fs :
  count < length out → sized r → holds r f →
  filled res (S count) cap (<[count := r]> out) fs →
  filled res count cap out (cons f <$> fs).
Proof.
  intros Hc Hr Hf (n & out' & -> & Hlen & Hall & Htake & Hfs).
  rewrite length_insert in Hlen.
  assert (out' !! count = Some r) as Hlk.
  { apply (f_equal (.!! count)) in Htake. rewrite !lookup_take_lt in Htake by lia.
    by rewrite list_lookup_insert_eq in Htake. }
  exists n, out'. split_and!; [done|done|done| |].
  { apply (f_equal (take count)) in Htake.
    rewrite !take_take, Nat.min_l, take_insert_same in Htake by lia. done. }
  destruct fs as [fs|]; [|done]. destruct Hfs as (-> & Hcap & Hfs). cbn [fmap option_fmap option_map length].
  split_and!; [f_equal; lia|lia|]. intros [|i] f'.
  - intros [= <-]. rewrite Nat.add_0_r. by exists r.
  - intros Hi. cbn in Hi. replace (count + S i) with (S count + i) by lia. by apply Hfs.
Qed.

Lemma parse_loop_spec fuel body body_len pos out max count :
  body_len ≤ length body → body_len - pos < fuel → pos ≤ body_len →
  count < max → max ≤ length out → Forall sized out →
  filled (parse_loop fuel body body_len pos out max count) count max out
    (page fuel (max - count) (win body pos body_len)).
Proof.
  intros Hl. revert pos out count. induction fuel as [|fuel IH]; intros pos out count Hf Hp Hc Hm Hout; [lia|].
  assert (∃ m, max - count = S m) as [m Em] by (exists (max - S count); lia). rewrite Em.
  cbn [parse_loop page]. destruct (Nat.ltb_spec pos body_len) as [Hpos|Hpos]; cbn [negb].
  2:{ rewrite win_nil by lia. by apply filled_reject. }
  destruct (skip_ws_spec body body_len Hl pos Hp) as (p & -> & [? ?] & <-). cbn [mbind option_bind].
  destruct (Nat.leb_spec body_len p) as [Hp'|Hp']; [rewrite win_nil by lia; by apply filled_reject|].
  destruct (win_cons body p body_len Hp' Hl) as (c & -> & Hw). rewrite Hw. cbn [mbind option_bind].
  destruct (byte_eqb_spec c x7b) as [->|_]; cbn [negb]; [|by apply filled_reject].
  destruct (find_object_end_spec body body_len Hl p _ Hw) as (e & -> & [He1 He2] & Hrest).
  cbn [mbind option_bind]. rewrite <- Hrest, <- Hw, !length_win by done.
  destruct (Nat.eqb_spec e body_len) as [->|Hne].
  { rewrite (win_nil body body_len body_len) by lia. rewrite (proj2 (Nat.leb_le _ _)) by done. cbn [andb].
    destruct (lookup_lt_is_Some_2 body (body_len - 1) ltac:(lia)) as [b Hb].
    unfold rd at 1. rewrite Hb. cbn [mbind option_bind].
    destruct (negb (Byte.eqb b x7d)); by apply filled_reject. }
  rewrite andb_false_r. cbn [mbind option_bind].
  destruct (win_cons body e body_len ltac:(lia) Hl) as (d & _ & Hwe).
  destruct (lookup_lt_is_Some_2 out count ltac:(lia)) as [r Hr]. rewrite Hr. cbn [mbind option_bind].
  pose proof (Forall_lookup_1 _ _ _ _ Hout Hr) as Hsz.
  destruct (extract_fields_spec body p e r ltac:(lia) ltac:(lia) Hsz) as (r' & Hsz' & Hx).
  assert (win body p e = take (body_len - p - (body_len - e)) (win body p body_len)) as Hobj.
  { replace e with (p + (e - p)) at 1 by lia. rewrite (win_take body p body_len) by lia. f_equal. lia. }
  rewrite <- Hobj. rewrite Hwe at 1.
  destruct (fields_of (win body p e)) as [f|]; cbn [mbind option_bind].
  2:{ rewrite Hx. cbn [mbind option_bind negb].
      apply filled_reject; [by rewrite length_insert|by apply Forall_insert|apply take_insert_same]. }
  destruct Hx as [-> Hholds]. cbn [mbind option_bind negb].
  destruct (Nat.leb_spec max (S count)) as [Hmax|Hmax].
  { destruct m as [|m]; [|lia]. apply filled_one; [lia|lia|done..]. }
  destruct m as [|m]; [lia|].
  destruct (skip_ws_spec body body_len Hl e ltac:(lia)) as (q & -> & [? ?] & <-). cbn [mbind option_bind].
  assert (length (<[count := r']> out) = length out ∧ Forall sized (<[count := r']> out)) as [Hlen Hall].
  { split; [apply length_insert|by apply Forall_insert]. }
  assert (filled (Some ((-1)%Z, <[count := r']> out)) count max out None) as Hrej.
  { apply filled_reject; [done|done|apply take_insert_same]. }
  destruct (Nat.leb_spec body_len q) as [Hq|Hq]; [by rewrite (win_nil body q) by lia|].
  destruct (win_cons body q body_len Hq Hl) as (b & -> & Hwq). rewrite Hwq. cbn [mbind option_bind].
  destruct (Byte.eqb b x2c).
  - eapply filled_cons; [lia|done|done|]. replace (S m) with (max - S count) by lia.
    apply IH; [lia|lia|lia|by rewrite Hlen|done].
  - destruct (Byte.eqb b x5d); [|done]. apply filled_one; [lia|lia|done..].
Qed.

Lemma parse_pending_response_spec body body_len recs max :
  body_len ≤ length body → max ≤ length recs → Forall sized recs →
  ∃ n recs', parse_pending_response (Some body) body_len (Some recs) max = Some (n, Some recs') ∧
    length recs' = length recs ∧ Forall sized recs' ∧
    match pending max (take body_len body) with
    | None => n = (-1)%Z
    | Some fs => n = Z.of_nat (length fs) ∧ length fs ≤ max ∧
        ∀ i f, fs !! i = Some f → ∃ r, recs' !! i = Some r ∧ holds r f
    end.
Proof.
  intros Hl Hm Hall.
  assert (take body_len body = win body 0 body_len) as -> by (unfold win; by rewrite drop_0).
  unfold parse_pending_response, pending.
  destruct (Nat.eqb_spec body_len 0) as [->|Hb].
  { rewrite win_nil by lia. eexists _, _. split; [done|]. by destruct max. }
  destruct (Nat.eqb_spec max 0) as [->|Hmax]; [by eexists _, _|]. cbn [orb].
  destruct max as [|max]; [done|].
  destruct (skip_ws_spec body body_len Hl 0 ltac:(lia)) as (p & -> & [? ?] & <-). cbn [mbind option_bind].
  destruct (Nat.leb_spec body_len p) as [Hp|Hp]; [rewrite win_nil by lia; by eexists _, _|].
  destruct (win_cons body p body_len Hp Hl) as (c & -> & Hw). rewrite Hw. cbn [mbind option_bind].
  destruct (Byte.eqb c x5b); cbn [negb]; [|by eexists _, _].
  destruct (skip_ws_spec body body_len Hl (S p) ltac:(lia)) as (q & -> & [? ?] & Hq). cbn [mbind option_bind].
  rewrite <- Hq, length_win by done.
  pose proof (parse_loop_spec (S (body_len - q)) body body_len q recs (S max) 0 Hl
    ltac:(lia) ltac:(lia) ltac:(lia) Hm Hall) as (n & recs' & Hr & Hlen & Hall' & _ & Hfs).
  rewrite Nat.sub_0_r in Hfs.
  destruct (Nat.ltb_spec q body_len) as [Hql|Hql].
  - destruct (win_cons body q body_len Hql Hl) as (d & -> & Hwd). rewrite Hwd in *. cbn [mbind option_bind].
    destruct (Byte.eqb d x5d).
    { exists 0%Z, recs. split_and!; [done|done|done|done|cbn; lia|done]. }
    rewrite Hr. cbn [mbind option_bind]. by exists n, recs'.
  - rewrite (win_nil body q) in * by lia. cbn [mbind option_bind]. rewrite Hr. cbn [mbind option_bind].
    by exists n, recs'.
Qed.

(** ** Hexadecimal *)
Lemma nibble_hex_value c :
  match hex_value c with
  | Some v => nibble c = v ∧ (0 <= v < 16)%Z
  | None => nibble c = (-1)%Z
  end.
Proof. destruct c; vm_compute; repeat split; try discriminate; reflexivity. Qed.

(** The bytes of pairs of digits; a last digit alone is not read. *)
Fixpoint hex_bytes (l : list byte) : option (list byte) :=
  match l with
  | a :: b :: t =>
      hi ← hex_value a; lo ← hex_value b; cons (byte_of_Z (16 * hi + lo)) <$> hex_bytes t
  | _ => Some []
  end.

Lemma join_nibbles hi lo :
  (0 <= hi < 16 → 0 <= lo < 16 → Z.lor (Z.shiftl hi 4) lo = 16 * hi + lo)%Z.
Proof.
  intros Hh Hl. apply (bool_decide_unpack _).
  assert (Forall (λ hi, Forall (λ lo, Z.lor (Z.shiftl hi 4) lo = 16 * hi + lo)%Z (seqZ 0 16)) (seqZ 0 16))
    as Hall by (apply (bool_decide_unpack _); vm_compute; exact I).
  rewrite list.Forall_forall in Hall. specialize (Hall hi ltac:(apply elem_of_seqZ; lia)).
  rewrite list.Forall_forall in Hall. apply bool_decide_pack, Hall, elem_of_seqZ. lia.
Qed.

Lemma hex_decode_loop_spec fuel hex need i done rest :
  need - i < fuel → i ≤ need → need * 2 ≤ length hex → i = length done →
  need - i ≤ length rest →
  match hex_bytes (win hex (i * 2) (need * 2)) with
  | Some l => hex_decode_loop fuel hex need i (done ++ rest) =
      Some (true, done ++ l ++ drop (need - i) rest)
  | None => ∃ out, hex_decode_loop fuel hex need i (done ++ rest) = Some (false, out) ∧
      length out = length (done ++ rest)
  end.
Proof.
  revert i done rest. induction fuel as [|fuel IH]; intros i don rest Hf Hi Hh Hd Hr; [lia|].
  cbn [hex_decode_loop]. destruct (Nat.ltb_spec i need) as [Hlt|Hge]; cbn [negb].
  2:{ rewrite win_nil by lia. cbn [hex_bytes app]. by replace (need - i) with 0 by lia. }
  destruct (win_cons hex (i * 2) (need * 2) ltac:(lia) Hh) as (a & Ha & Hwa).
  destruct (win_cons hex (S (i * 2)) (need * 2) ltac:(lia) Hh) as (b & Hb & Hwb).
  replace (i * 2 + 1) with (S (i * 2)) by lia. rewrite Ha, Hb, Hwa, Hwb. cbn [mbind option_bind hex_bytes].
  pose proof (nibble_hex_value a) as Na. pose proof (nibble_hex_value b) as Nb.
  destruct (hex_value a) as [hi|]; [destruct Na as [-> Na]|]; cbn [mbind option_bind].
  2:{ rewrite Na. by eexists. }
  destruct (hex_value b) as [lo|]; [destruct Nb as [-> Nb]|]; cbn [mbind option_bind].
  2:{ rewrite Nb, orb_true_r. by eexists. }
  rewrite !(proj2 (Z.ltb_ge _ _)) by lia. cbn [orb].
  destruct rest as [|x rest]; [cbn in Hr; lia|]. rewrite wr_next by done.
  change (drop 1 (x :: rest)) with rest. cbn [mbind option_bind].
  rewrite join_nibbles by done. replace (S (S (i * 2))) with (S i * 2) by lia.
  specialize (IH (S i) (don ++ [byte_of_Z (16 * hi + lo)]) rest
    ltac:(lia) ltac:(lia) Hh ltac:(len) ltac:(cbn in Hr; lia)).
  destruct (hex_bytes _) as [l|]; cbn [fmap option_fmap option_map].
  - rewrite IH. do 2 f_equal. rewrite <- app_assoc. cbn [app]. by replace (need - i) with (S (need - S i)) by lia.
  - destruct IH as (out & -> & Hlen). exists out. split; [done|]. len.
Qed.

(** The decoder writes, for an even number of digits that fit, the bytes they stand
    for, and leaves the rest of the buffer; it fails on anything else. *)
Lemma hex_decode_spec hex hex_len buf cap :
  hex_len ≤ length hex → cap = length buf →
  match hex_bytes (take hex_len hex) with
  | Some l =>
      if Nat.even hex_len && (hex_len / 2 <=? cap)
      then hex_decode (Some hex) hex_len (Some buf) cap = Some (true, Some (l ++ drop (hex_len / 2) buf))
      else hex_decode (Some hex) hex_len (Some buf) cap = Some (false, Some buf)
  | None => ∃ buf', hex_decode (Some hex) hex_len (Some buf) cap = Some (false, Some buf') ∧
      length buf' = length buf
  end.
Proof.
  intros Hh ->. unfold hex_decode.
  assert ((Nat.land hex_len 1 =? 0) = Nat.even hex_len) as ->.
  { change 1 with (Nat.ones 1) at 1. rewrite Nat.land_ones. change (2 ^ 1) with 2.
    destruct (Nat.Even_or_Odd hex_len) as [[m ->]|[m ->]].
    - rewrite Nat.mul_comm, Nat.Div0.mod_mul, Nat.even_mul. by rewrite orb_true_r.
    - rewrite Nat.add_comm, (Nat.mul_comm 2), Nat.Div0.mod_add, Nat.even_add, Nat.even_mul.
      by rewrite orb_true_r. }
  destruct (Nat.even hex_len) eqn:Heven; cbn [negb andb].
  2:{ destruct (hex_bytes _); [done|by eexists]. }
  apply Nat.even_spec in Heven as [m ->]. rewrite (Nat.mul_comm 2), Nat.div_mul by lia.
  destruct (Nat.ltb_spec (length buf) m).
  { destruct (hex_bytes _); [|by eexists]. by rewrite (proj2 (Nat.leb_gt _ _)). }
  rewrite (proj2 (Nat.leb_le _ _)) by done.
  pose proof (hex_decode_loop_spec (S m) hex m 0 [] buf ltac:(lia) ltac:(lia) ltac:(lia) eq_refl ltac:(lia)) as Hs.
  unfold win in Hs. rewrite drop_0, Nat.sub_0_r in Hs. cbn [app length] in Hs.
  destruct (hex_bytes _) as [l|]; [by rewrite Hs|].
  destruct Hs as (out & -> & Hl). by exists out.
Qed.

(** ** Properties *)

(** C22. The scanner is its reference, on every input. Whatever the bytes and pointers, it
    returns, without an access outside the body, a bucket or the array: -1 exactly where
    the reference finds no array of objects with the three fields (no body, no bracket, an
    unclosed object, a missing field, one too long for its bucket, an unterminated
    string), and otherwise the number of the objects read, at most [max], each with its
    three strings in their buckets, NUL-terminated. *)
Theorem parse_pending_response_correct body body_len out max :
  (∀ b, body = Some b → body_len ≤ length b) →
  (∀ recs, out = Some recs → max ≤ length recs ∧ Forall sized recs) →
  ∃ n out', parse_pending_response body body_len out max = Some (n, out') ∧
    (is_Some out' ↔ is_Some out) ∧
    match b ← body; _ ← out; pending max (take body_len b) with
    | None => n = (-1)%Z
    | Some fs => n = Z.of_nat (length fs) ∧ length fs ≤ max ∧
        ∃ recs', out' = Some recs' ∧ Forall sized recs' ∧
          ∀ i f, fs !! i = Some f → ∃ r, recs' !! i = Some r ∧ holds r f
    end.
Proof.
  intros Hb Ho. destruct body as [body|]; [|by eexists _, _]. destruct out as [recs|]; [|by eexists _, _].
  destruct (Ho recs eq_refl) as [Hm Hall]. cbn [mbind option_bind].
  destruct (parse_pending_response_spec body body_len recs max (Hb _ eq_refl) Hm Hall)
    as (n & recs' & -> & _ & Hall' & Hp).
  exists n, (Some recs'). split; [done|]. split; [by split; eexists|].
  destruct (pending _ _) as [fs|]; [|done]. destruct Hp as (? & ? & ?). split_and!; [done|done|].
  by exists recs'.
Qed.

(** ** Witnesses *)
Definition blank_record : EgressRecord :=
  {| er_payment_id := replicate EgressPaymentIdMaxLen xff;
     er_settlement_tx_hash := replicate EgressTxHashMaxLen xff;
     er_packet_c_hex := replicate EgressPacketCHexMaxLen xff |}.

Definition small_page : list byte :=
  quoted " [ {'payment_id' : '7', 'x':{'}':1}, 'settlement_tx_hash':'0xab','packet_c_hex':'00FF'} ] ".

Lemma parse_pending_response_correct_witness :
  ∃ r, (∃ rest, parse_pending_response (Some small_page) (length small_page) (Some [blank_record]) 1 =
        Some (1%Z, Some (r :: rest))) ∧
    holds r (bytes_of "7", bytes_of "0xab", bytes_of "00FF").
Proof.
  destruct (parse_pending_response_correct (Some small_page) (length small_page) (Some [blank_record]) 1)
    as (n & out & Hr & _ & Hp).
  - intros b [= <-]. reflexivity.
  - intros recs [= <-]. split; [reflexivity|]. constructor; [by split_and!|constructor].
  - cbn [mbind option_bind] in Hp. rewrite firstn_all in Hp.
    assert (pending 1 small_page = Some [(bytes_of "7", bytes_of "0xab", bytes_of "00FF")]) as E
      by (vm_compute; reflexivity).
    rewrite E in Hp. destruct Hp as (-> & _ & recs & -> & _ & Hp).
    destruct (Hp 0 _ eq_refl) as (r & Hlk & Hh). exists r. split; [|exact Hh].
    destruct recs as [|r0 rest]; [done|]. injection Hlk as ->. exists rest. exact Hr.
Defined.
