(* ===== verification/EgressPage.v ===== *)
(** * The scanner on what the gateway serves

    [MarshalRecords] is [json.Marshal] of a slice of records, the body of the answer of
    [HandleEgressPending]. The file runs the references of [EgressScan] on it: the
    scanner of the ground station, which is no JSON parser, finds in it the fields of
    the records, provided that these contain what the gateway puts there
    ([scannable]). *)
From stdpp Require Import sets.
From S2P Require Export EgressScan.
#[local] Open Scope nat_scope.

(** The elements after the opening bracket, and the closing one. *)
Fixpoint write_elements (rs : list Receipt) : list byte :=
  match rs with
  | [] => [x5d]
  | [r] => MarshalRecord r ++ [x5d]
  | r :: rs => MarshalRecord r ++ [x2c] ++ write_elements rs
  end.

Definition MarshalRecords (rs : list Receipt) : list byte := [x5b] ++ write_elements rs.

(** ** Strings *)

(** Where the gateway's own reader sees the end of a string, the scanner does. *)
Lemma scan_string_ends w raw r :
  scan_string w = Some (raw, r) →
  after_string w = r ∧ ∀ d, after_object d true w = after_object d false r.
Proof.
  revert raw r. induction w as [w IH] using list_length_ind. intros raw r.
  destruct w as [|b t]; cbn [scan_string after_string after_object]; [done|].
  destruct (byte_eqb_spec b x22) as [->|Hq].
  { change (Byte.eqb x22 x5c) with false. cbn iota. by intros [= <- <-]. }
  destruct (byte_eqb_spec b x5c) as [->|Hb].
  - destruct t as [|e t]; [done|].
    destruct (existsb _ _).
    + destruct (scan_string t) as [[raw' r']|] eqn:E; [|done]. intros [= <- <-].
      apply (IH t) in E; [done|cbn; lia].
    + destruct (Byte.eqb e x75); [|done]. destruct t as [|h1 [|h2 [|h3 [|h4 t]]]]; try done.
      destruct (forallb _ [h1; h2; h3; h4]) eqn:Eh; [|done].
      destruct (scan_string t) as [[raw' r']|] eqn:E; [|done]. intros [= <- <-].
      apply (IH t) in E as [E1 E2]; [|cbn; lia].
      assert (∀ h, bool_decide (is_Some (hex_value h)) = true → Byte.eqb h x5c = false ∧ Byte.eqb h x22 = false) as Hhex.
      { intros h. by destruct h. }
      cbn [forallb] in Eh. rewrite !andb_true_iff in Eh. destruct Eh as (H1 & H2 & H3 & H4 & _).
      apply Hhex in H1 as [A1 B1], H2 as [A2 B2], H3 as [A3 B3], H4 as [A4 B4].
      cbn [after_string after_object]. rewrite A1, A2, A3, A4, B1, B2, B3, B4. done.
  - destruct (in_range 0 31 b); [done|].
    destruct (scan_string t) as [[raw' r']|] eqn:E; [|done]. intros [= <- <-].
    apply (IH t) in E; [done|cbn; lia].
Qed.

Definition not_quote (b : byte) : Prop := b ≠ x22.

Lemma to_quote_app pre w : Forall not_quote pre → to_quote (pre ++ w) = to_quote w.
Proof.
  induction 1 as [|b pre Hb _ IH]; [done|]. cbn [app to_quote].
  by destruct (byte_eqb_spec b x22).
Qed.

(** ** Objects *)

(** A text that leaves the state of the brace counter as it was. *)
Definition balanced (v : list byte) : Prop :=
  ∀ d w, after_object d false (v ++ w) = after_object d false w.

Lemma balanced_app v1 v2 : balanced v1 → balanced v2 → balanced (v1 ++ v2).
Proof. intros H1 H2 d w. by rewrite <- app_assoc, H1, H2. Qed.

Definition no_mark (b : byte) : Prop := b ≠ x22 ∧ b ≠ x7b ∧ b ≠ x7d.

Lemma balanced_plain v : Forall no_mark v → balanced v.
Proof.
  induction 1 as [|b v (Hq & Ho & Hc) _ IH]; intros d w; [done|]. cbn [app after_object].
  destruct (byte_eqb_spec b x22), (byte_eqb_spec b x7b), (byte_eqb_spec b x7d); by try apply IH.
Qed.

Lemma balanced_string raw :
  (∀ rest, scan_string (raw ++ x22 :: rest) = Some (raw, rest)) → balanced ([x22] ++ raw ++ [x22]).
Proof.
  intros Hs d w. rewrite <- !app_assoc. cbn [app]. cbn [after_object].
  destruct (scan_string_ends _ _ _ (Hs w)) as [_ H]. apply H.
Qed.

Lemma write_int_digits z :
  (- 2 ^ 63 <= z < 2 ^ 64)%Z → Forall (λ b, is_digit b = true ∨ b = x2d) (write_int z).
Proof.
  intros Hz. assert (∀ y, (0 <= y < 2 ^ 64)%Z → Forall (λ b, is_digit b = true ∨ b = x2d)
    (reverse (digits_low 20 y))) as Hd.
  { intros y Hy. destruct (digits_low_spec 20 y) as (Hf & _); [cbn; lia|].
    apply Forall_reverse. eapply list.Forall_impl; [exact Hf|]. by left. }
  unfold write_int. destruct (Z.ltb_spec z 0); [|apply Hd; lia].
  apply Forall_app. split; [repeat constructor; by right|apply Hd; lia].
Qed.

Lemma digit_no_mark b : is_digit b = true ∨ b = x2d → no_mark b.
Proof. intros [H| ->]; [destruct b|]; by repeat split. Qed.

Lemma balanced_int z : (- 2 ^ 63 <= z < 2 ^ 64)%Z → balanced (write_int z).
Proof.
  intros Hz. apply balanced_plain. eapply list.Forall_impl; [by apply write_int_digits|].
  apply digit_no_mark.
Qed.

Lemma balanced_member k v : plain_key k → balanced v → balanced (write_member k v).
Proof.
  intros Hk Hv. unfold write_member.
  replace ([x22] ++ bytes_of k ++ [x22; x3a] ++ v) with (([x22] ++ bytes_of k ++ [x22]) ++ [x3a] ++ v)
    by by rewrite <- !app_assoc.
  apply balanced_app; [by apply balanced_string|]. apply balanced_app; [|done].
  apply balanced_plain. by repeat constructor.
Qed.

Lemma after_members ms w :
  ms ≠ [] → Forall (λ m, plain_key m.1 ∧ balanced m.2) ms →
  after_object 1 false (write_members ms ++ w) = w.
Proof.
  intros Hne Hms. induction Hms as [|[k v] ms [Hk Hv] Hms IH]; [done|].
  pose proof (balanced_member k v Hk Hv) as Hb.
  destruct ms as [|m ms].
  - cbn [write_members]. rewrite <- app_assoc. by rewrite Hb.
  - change (write_members ((k, v) :: m :: ms)) with (write_member k v ++ [x2c] ++ write_members (m :: ms)).
    rewrite <- !app_assoc, Hb. cbn [app after_object].
    change (Byte.eqb x2c x22) with false. change (Byte.eqb x2c x7b) with false.
    change (Byte.eqb x2c x7d) with false. cbn iota. by apply IH.
Qed.

(** ** Keys *)

(** A text the search for a key goes through, looking at [k] of its strings. *)
Definition skips (key v : list byte) : Prop :=
  ∃ k, k ≤ length v ∧
    ∀ n w, length key < length w → key_value (k + n) key (v ++ w) = key_value n key w.

Lemma skips_plain key v : Forall not_quote v → skips key v.
Proof.
  intros Hv. exists 0. split; [lia|]. intros [|n] w _; [done|]. cbn [Nat.add key_value].
  by rewrite to_quote_app.
Qed.

Lemma skips_app key v1 v2 : skips key v1 → skips key v2 → skips key (v1 ++ v2).
Proof.
  intros (k1 & Hk1 & H1) (k2 & Hk2 & H2). exists (k1 + k2). split; [len|]. intros n w Hw.
  rewrite <- Nat.add_assoc, <- app_assoc, H1 by len. by apply H2.
Qed.

(** A string other than the key: it does not start with it. *)
Definition other (key raw : list byte) : Prop :=
  ∀ rest, take (S (length key)) (raw ++ x22 :: rest) ≠ key ++ [x22].

Lemma skips_string key raw :
  (∀ rest, scan_string (raw ++ x22 :: rest) = Some (raw, rest)) → other key raw →
  skips key ([x22] ++ raw ++ [x22]).
Proof.
  intros Hs Ho. exists 1. split; [cbn; lia|]. intros n w Hw.
  rewrite <- !app_assoc. cbn [app Nat.add key_value to_quote].
  change (Byte.eqb x22 x22) with true. cbn iota.
  rewrite (proj2 (Nat.ltb_ge _ _)) by len.
  rewrite bool_decide_eq_false_2 by apply Ho.
  by rewrite (proj1 (scan_string_ends _ _ _ (Hs w))).
Qed.

Lemma skips_member key k v :
  plain_key k → other key (bytes_of k) → skips key v → skips key (write_member k v ++ [x2c]).
Proof.
  intros Hk Ho Hv. unfold write_member.
  replace (([x22] ++ bytes_of k ++ [x22; x3a] ++ v) ++ [x2c])
    with (([x22] ++ bytes_of k ++ [x22]) ++ [x3a] ++ v ++ [x2c]) by by rewrite <- !app_assoc.
  apply skips_app; [by apply skips_string|]. apply skips_app; [apply skips_plain; by repeat constructor|].
  apply skips_app; [done|]. apply skips_plain. by repeat constructor.
Qed.

Lemma skips_int key z : (- 2 ^ 63 <= z < 2 ^ 64)%Z → skips key (write_int z).
Proof.
  intros Hz. apply skips_plain. eapply list.Forall_impl; [by apply write_int_digits|].
  intros b Hb. apply (digit_no_mark b Hb).
Qed.

(** The member of the key is found behind what is skipped. *)
Lemma key_value_found n key pre s rest :
  skips (bytes_of key) pre → length pre < n →
  key_value n (bytes_of key) (pre ++ write_member key (x22 :: s) ++ rest) = string_content (s ++ rest).
Proof.
  intros (k & Hk & Hpre) Hn. replace n with (k + S (n - k - 1)) by lia. unfold write_member.
  rewrite Hpre by len. rewrite <- !app_assoc. cbn [app key_value to_quote].
  change (Byte.eqb x22 x22) with true. cbn iota.
  rewrite (proj2 (Nat.ltb_ge _ _)) by len.
  assert (∀ l, take (S (length (bytes_of key))) (bytes_of key ++ x22 :: l) = bytes_of key ++ [x22]) as Htake.
  { intros l. change (x22 :: l) with ([x22] ++ l). rewrite app_assoc. apply take_app_exact. len. }
  rewrite bool_decide_eq_true_2 by apply Htake.
  assert (∀ l, drop (S (length (bytes_of key))) (bytes_of key ++ x22 :: l) = l) as Hdrop.
  { intros l. change (x22 :: l) with ([x22] ++ l). rewrite app_assoc. apply drop_app_exact. len. }
  by rewrite Hdrop.
Qed.

(** ** Records *)

(** A string of hexadecimal digits and [x]: numbers, hashes and addresses. *)
Definition hex_text_byte (b : byte) : bool := bool_decide (is_Some (hex_value b)) || Byte.eqb b x78.
Definition hex_text (s : string) : Prop := Forall (λ b, hex_text_byte b = true) (bytes_of s).

Lemma hex_text_byte_spec b :
  hex_text_byte b = true →
  (byte_to_Z b < 0x80)%Z ∧ escape_ascii b = [b] ∧ b ≠ x22 ∧ b ≠ x5c ∧ b ≠ x00 ∧ b ≠ x70 ∧ b ≠ x73.
Proof. intros H. destruct b; try discriminate H; repeat split; try discriminate; reflexivity. Qed.

Lemma hex_text_ascii s : hex_text s → ascii_string s.
Proof. intros Hs. eapply list.Forall_impl; [exact Hs|]. intros b Hb. by apply hex_text_byte_spec. Qed.

Lemma hex_text_plain s : hex_text s → escape 0 true (bytes_of s) = bytes_of s.
Proof.
  unfold hex_text. induction 1 as [|b l Hb _ IH]; [done|].
  destruct (hex_text_byte_spec b Hb) as (Ha & He & _). by rewrite escape_cons, He, IH.
Qed.

Lemma hex_text_content s rest :
  hex_text s → string_content (bytes_of s ++ x22 :: rest) = Some (bytes_of s).
Proof.
  unfold hex_text. induction 1 as [|b l Hb _ IH]; [done|]. cbn [app string_content].
  destruct (hex_text_byte_spec b Hb) as (_ & _ & Hq & Hs & _).
  destruct (byte_eqb_spec b x22), (byte_eqb_spec b x5c); try done. by rewrite IH.
Qed.

Lemma hex_text_no_nul s : hex_text s → x00 ∉ bytes_of s.
Proof.
  intros Hs Hin. eapply list.Forall_forall in Hs; [|exact Hin].
  by apply hex_text_byte_spec in Hs as (_ & _ & _ & _ & Hnul & _).
Qed.

Lemma hex_text_scan s rest :
  hex_text s → scan_string (bytes_of s ++ x22 :: rest) = Some (bytes_of s, rest).
Proof.
  intros Hs. rewrite <- (hex_text_plain s Hs). apply scan_escape. by apply hex_text_ascii.
Qed.

(** A key of the scanner starts with [p] or [s], which a hexadecimal text does not contain. *)
Lemma hex_text_other key s c tl :
  bytes_of key = c :: tl → c = x70 ∨ c = x73 → hex_text s → other (bytes_of key) (bytes_of s).
Proof.
  intros -> Hc Hs rest. unfold hex_text in Hs. destruct Hs as [|b l Hb _]; cbn [app length take].
  - by destruct Hc as [-> | ->].
  - intros [= -> _]. apply hex_text_byte_spec in Hb as (_ & _ & _ & _ & _ & ? & ?). by destruct Hc.
Qed.

(** The records the scanner reads: texts as the gateway writes them, of the sizes of
    the buckets. *)
Definition scannable (r : Receipt) : Prop :=
  json_ok r ∧
  Forall hex_text [PaymentID r; SettlementTxHash r; RecAmount r; RecWallet r; PacketCHex r] ∧
  length (bytes_of (PaymentID r)) < EgressPaymentIdMaxLen ∧
  length (bytes_of (SettlementTxHash r)) < EgressTxHashMaxLen ∧
  length (bytes_of (PacketCHex r)) < EgressPacketCHexMaxLen.

#[export] Instance scannable_dec r : Decision (scannable r).
Proof. unfold scannable, hex_text. apply _. Defined.

Lemma bytes_of_keys k :
  k ∈ ["payment_id"; "settlement_tx_hash"; "sat_id"; "amount"; "asset_id"; "wallet"; "packet_c_hex";
       "block_number"; "ts_ms"; "dispatch_status"]%string → plain_key k.
Proof.
  intros Hk. repeat (apply elem_of_cons in Hk as [-> | Hk]; [intros rest; reflexivity|]).
  by apply list.elem_of_nil in Hk.
Qed.

Lemma balanced_text s : ascii_string s → balanced (write_string s).
Proof. intros Hs. apply balanced_string. intros rest. by apply scan_escape. Qed.

Lemma skips_text key s c tl :
  bytes_of key = c :: tl → c = x70 ∨ c = x73 → hex_text s → skips (bytes_of key) (write_string s).
Proof.
  intros Hk Hc Hs. unfold write_string. rewrite hex_text_plain by done.
  apply skips_string; [intros; by apply hex_text_scan|]. by eapply hex_text_other.
Qed.

Lemma json_ok_ints r :
  json_ok r → Forall (λ z, (- 2 ^ 63 <= z < 2 ^ 64)%Z) [RecSatID r; RecAssetID r; RecBlockNumber r; TsMs r].
Proof.
  intros (_ & H1 & H2 & H3 & H4 & _). unfold in_u, in_s in *.
  repeat constructor; lia.
Qed.

Lemma record_members_balanced r :
  json_ok r → Forall (λ m, plain_key m.1 ∧ balanced m.2) (record_members r).
Proof.
  intros Hr. pose proof (json_ok_ints r Hr) as Hints. destruct Hr as (Hs & _).
  rewrite !list.Forall_cons in Hs. rewrite !list.Forall_cons in Hints. destruct Hs as (S1 & S2 & S3 & S4 & S5 & S6 & _).
  destruct Hints as (I1 & I2 & I3 & I4 & _). unfold record_members.
  apply Forall_app. split.
  - repeat (apply list.Forall_cons; split; [split; [apply bytes_of_keys; set_solver|]|]);
      [by apply balanced_text || by apply balanced_int..|constructor].
  - destruct (String.eqb _ _); [constructor|].
    apply list.Forall_singleton. split; [apply bytes_of_keys; set_solver|by apply balanced_text].
Qed.

(** The text of a record up to the last of the three fields. *)
Lemma MarshalRecord_fields r :
  let m k v := write_member k v ++ [x2c] in
  ∃ tl, MarshalRecord r = [x7b] ++ m "payment_id"%string (write_string (PaymentID r)) ++
    m "settlement_tx_hash"%string (write_string (SettlementTxHash r)) ++
    m "sat_id"%string (write_int (RecSatID r)) ++ m "amount"%string (write_string (RecAmount r)) ++
    m "asset_id"%string (write_int (RecAssetID r)) ++ m "wallet"%string (write_string (RecWallet r)) ++
    m "packet_c_hex"%string (write_string (PacketCHex r)) ++ tl.
Proof.
  cbn zeta. unfold MarshalRecord, record_members. eexists.
  cbn [app write_members]. rewrite <- !app_assoc. reflexivity.
Qed.

Lemma write_string_hex s : hex_text s → write_string s = x22 :: bytes_of s ++ [x22].
Proof. intros Hs. unfold write_string. by rewrite hex_text_plain. Qed.

Lemma find_hex_field w key pre s rest :
  w = pre ++ (write_member key (write_string s) ++ [x2c]) ++ rest → hex_text s → skips (bytes_of key) pre →
  key_value (S (length w)) (bytes_of key) w = Some (bytes_of s).
Proof.
  intros Hw Hs Hp. assert (length pre < S (length w)) as Hn by (rewrite Hw; len).
  revert Hn. generalize (S (length w)) as n. intros n Hn. subst w.
  rewrite write_string_hex, <- app_assoc, key_value_found, <- app_assoc by done. by apply hex_text_content.
Qed.

(** The members before [packet_c_hex], none of which is taken for it. *)
Lemma packet_prefix_skips r (m := λ k v, write_member k v ++ [x2c]) :
  scannable r →
  skips (bytes_of "packet_c_hex") ([x7b] ++ m "payment_id"%string (write_string (PaymentID r)) ++
    m "settlement_tx_hash"%string (write_string (SettlementTxHash r)) ++
    m "sat_id"%string (write_int (RecSatID r)) ++ m "amount"%string (write_string (RecAmount r)) ++
    m "asset_id"%string (write_int (RecAssetID r)) ++ m "wallet"%string (write_string (RecWallet r))).
Proof.
  intros (Hj & Hh & _). pose proof (json_ok_ints r Hj) as Hints.
  rewrite !list.Forall_cons in Hh. rewrite !list.Forall_cons in Hints.
  destruct Hh as (H1 & H2 & H3 & H4 & _). destruct Hints as (I1 & I2 & _).
  assert (∀ s, hex_text s → skips (bytes_of "packet_c_hex") (write_string s)) as Htext.
  { intros s Hs. eapply skips_text; [reflexivity|by left|done]. }
  assert (∀ k v, k ∈ ["payment_id"; "settlement_tx_hash"; "sat_id"; "amount"; "asset_id"; "wallet"]%string →
    skips (bytes_of "packet_c_hex") v → skips (bytes_of "packet_c_hex") (m k v)) as Hm.
  { intros k v Hk Hv. apply skips_member; [apply bytes_of_keys; set_solver| |done].
    repeat (apply elem_of_cons in Hk as [-> | Hk]; [done|]). by apply list.elem_of_nil in Hk. }
  apply skips_app; [apply skips_plain; by repeat constructor|].
  repeat (apply skips_app; [apply Hm; [set_solver|by auto using skips_int]|]).
  apply Hm; [set_solver|by auto].
Qed.

Lemma fits_some cap s : length s < cap → fits cap (Some s) = Some s.
Proof. intros. unfold fits. cbn [mbind option_bind]. by rewrite (proj2 (Nat.ltb_lt _ _)). Qed.

Lemma fields_of_MarshalRecord r :
  scannable r →
  fields_of (MarshalRecord r) =
    Some (bytes_of (PaymentID r), bytes_of (SettlementTxHash r), bytes_of (PacketCHex r)).
Proof.
  intros Hr. pose proof (packet_prefix_skips r Hr) as Kc. destruct Hr as (Hj & Hh & L1 & L2 & L3).
  rewrite !list.Forall_cons in Hh. destruct Hh as (H1 & H2 & H3 & H4 & H5 & _).
  destruct (MarshalRecord_fields r) as [tl Htl]. cbn zeta in Htl.
  pose proof (find_hex_field _ "payment_id" [x7b] _ _ Htl H1 ltac:(apply skips_plain; by repeat constructor)) as Fa.
  assert (skips (bytes_of "settlement_tx_hash")
    ([x7b] ++ write_member "payment_id" (write_string (PaymentID r)) ++ [x2c])) as Kb.
  { apply skips_app; [apply skips_plain; by repeat constructor|].
    apply skips_member; [apply bytes_of_keys; set_solver|done|].
    eapply skips_text; [reflexivity|by right|done]. }
  assert (key_value (S (length (MarshalRecord r))) (bytes_of "settlement_tx_hash") (MarshalRecord r) =
    Some (bytes_of (SettlementTxHash r))) as Fb.
  { eapply find_hex_field; [|done|exact Kb]. rewrite Htl. rewrite <- !app_assoc. reflexivity. }
  assert (key_value (S (length (MarshalRecord r))) (bytes_of "packet_c_hex") (MarshalRecord r) =
    Some (bytes_of (PacketCHex r))) as Fc.
  { eapply find_hex_field; [|done|exact Kc]. rewrite Htl. rewrite <- !app_assoc. reflexivity. }
  unfold fields_of. rewrite Fa, Fb, Fc, !fits_some by done. done.
Qed.

(** ** The page *)
Lemma after_MarshalRecord r w :
  json_ok r → ∃ t, MarshalRecord r = x7b :: t ∧ after_object 1 false (t ++ w) = w.
Proof.
  intros Hr. exists (write_members (record_members r)). split; [done|].
  apply after_members; [done|by apply record_members_balanced].
Qed.

Definition field_bytes (r : Receipt) : list byte * list byte * list byte :=
  (bytes_of (PaymentID r), bytes_of (SettlementTxHash r), bytes_of (PacketCHex r)).

(** One record in front of the rest of the array, which is not empty. *)
Lemma page_record n max r c w :
  scannable r →
  page (S n) (S max) (MarshalRecord r ++ c :: w) =
    match max, skip_space (c :: w) with
    | O, _ => Some [field_bytes r]
    | _, d :: u =>
        if Byte.eqb d x2c then cons (field_bytes r) <$> page n max u
        else if Byte.eqb d x5d then Some [field_bytes r]
        else None
    | _, [] => None
    end.
Proof.
  intros Hr. destruct (after_MarshalRecord r (c :: w) (proj1 Hr)) as (t & Ht & Hafter).
  cbn [page]. rewrite Ht. cbn [app skip_space]. change (is_space x7b) with false. cbn iota.
  change (Byte.eqb x7b x7b) with true. cbn iota. rewrite Hafter.
  replace (length (x7b :: t ++ c :: w) - length (c :: w)) with (length (MarshalRecord r)) by (rewrite Ht; len).
  change (x7b :: t ++ c :: w) with ((x7b :: t) ++ c :: w).
  rewrite <- Ht, take_app_length, fields_of_MarshalRecord by done. reflexivity.
Qed.

Lemma page_write_elements n max rs w :
  Forall scannable rs → rs ≠ [] → 0 < max → length rs ≤ n →
  page n max (write_elements rs ++ w) = Some (take max (field_bytes <$> rs)).
Proof.
  intros Hrs. revert n max. induction Hrs as [|r rs Hr Hrs IH]; intros n max Hne Hm Hn; [done|].
  destruct n as [|n]; [cbn in Hn; lia|]. destruct max as [|max]; [lia|].
  destruct rs as [|r' rs].
  - cbn [write_elements]. rewrite <- app_assoc. cbn [app]. rewrite page_record by done.
    cbn [fmap list_fmap take]. rewrite take_nil. by destruct max.
  - change (write_elements (r :: r' :: rs)) with (MarshalRecord r ++ [x2c] ++ write_elements (r' :: rs)).
    rewrite <- !app_assoc. cbn [app]. rewrite page_record by done.
    destruct max as [|max]; [done|].
    cbn [skip_space]. change (is_space x2c) with false. cbn iota. change (Byte.eqb x2c x2c) with true. cbn iota.
    rewrite IH by (done || lia || (cbn in *; lia)). done.
Qed.

Lemma pending_MarshalRecords max rs :
  Forall scannable rs → 0 < max →
  pending max (MarshalRecords rs) = Some (take max (field_bytes <$> rs)).
Proof.
  intros Hrs Hm. unfold pending, MarshalRecords. destruct max as [|max]; [lia|].
  cbn [app skip_space]. change (is_space x5b) with false. cbn iota. change (Byte.eqb x5b x5b) with true. cbn iota.
  destruct rs as [|r rs].
  - done.
  - assert (∃ t, write_elements (r :: rs) = x7b :: t) as [t Ht].
    { destruct rs; by eexists. }
    rewrite Ht. cbn [skip_space]. change (is_space x7b) with false. cbn iota.
    change (Byte.eqb x7b x5d) with false. cbn iota. rewrite <- Ht.
    rewrite <- (app_nil_r (write_elements _)) at 2. apply page_write_elements; [done|done|lia|].
    clear. generalize (r :: rs) as l. intros l. induction l as [|x l IH]; [cbn; lia|].
    destruct l as [|y l].
    + cbn [write_elements length]. len.
    + change (write_elements (x :: y :: l)) with (MarshalRecord x ++ [x2c] ++ write_elements (y :: l)).
      cbn [length] in *. len.
Qed.

(** ** Properties *)

(** C23. The scanner of the ground station reads what the gateway serves. Let the
    receipts be [scannable]: records the JSON laws cover, whose payment id, hash,
    amount, wallet and packet are decimal or hexadecimal text (no byte of which JSON
    escapes) and whose payment id, hash and packet are shorter than their buckets.
    Those of the processor are (their sizes are those of [WireReceipt]); for a longer or
    an escaped text nothing is said here. From the JSON array of any number of such receipts
    it takes the first [max], oldest first, into as many records, whose buckets have the
    sizes of the struct, and each bucket holds the text of the field as the gateway
    has it. *)
Theorem scanner_reads_page rs recs max :
  Forall scannable rs → 0 < max → max ≤ length recs → Forall sized recs →
  ∃ recs', parse_pending_response (Some (MarshalRecords rs)) (length (MarshalRecords rs)) (Some recs) max =
      Some (Z.of_nat (min max (length rs)), Some recs') ∧
    ∀ i r, take max rs !! i = Some r → ∃ er, recs' !! i = Some er ∧
      c_string (er_payment_id er) = bytes_of (PaymentID r) ∧
      c_string (er_settlement_tx_hash er) = bytes_of (SettlementTxHash r) ∧
      c_string (er_packet_c_hex er) = bytes_of (PacketCHex r).
Proof.
  intros Hrs H0 Hm Hall.
  destruct (parse_pending_response_spec (MarshalRecords rs) (length (MarshalRecords rs)) recs max
    ltac:(lia) Hm Hall) as (n & recs' & Hr & _ & _ & Hp).
  rewrite firstn_all, pending_MarshalRecords in Hp by done. destruct Hp as (-> & _ & Hp).
  exists recs'. rewrite length_take, length_fmap in Hr. split; [done|]. intros i r Hi.
  destruct (Hp i (field_bytes r)) as (er & Her & (ta & Ha) & (tb & Hb) & (tc & Hc)).
  { rewrite <- fmap_take, list_lookup_fmap, Hi. done. }
  exists er. split; [done|]. rewrite Ha, Hb, Hc. cbn [fst snd field_bytes].
  assert (scannable r) as (_ & Hh & _).
  { eapply list.Forall_forall; [exact Hrs|]. apply lookup_take_Some in Hi as [Hi _].
    by apply list_elem_of_lookup_2 in Hi. }
  rewrite !list.Forall_cons in Hh. destruct Hh as (H1 & H2 & _ & _ & H5 & _).
  split_and!; apply c_string_spec; by apply hex_text_no_nul.
Qed.

Lemma scanner_reads_page_witness :
  ∃ recs', parse_pending_response (Some (MarshalRecords [demo_receipt "1" StatusPending; demo_receipt "2" StatusPending]))
      (length (MarshalRecords [demo_receipt "1" StatusPending; demo_receipt "2" StatusPending]))
      (Some [blank_record]) 1 = Some (1%Z, Some recs').
Proof.
  destruct (scanner_reads_page [demo_receipt "1" StatusPending; demo_receipt "2" StatusPending] [blank_record] 1)
    as (recs' & Hr & _).
  - repeat constructor; apply (bool_decide_unpack _); vm_compute; exact I.
  - apply Nat.lt_0_1.
  - reflexivity.
  - constructor; [by split_and!|constructor].
  - exists recs'. exact Hr.
Defined.
