(* ===== verification/PollClient.v ===== *)
(** * The HTTP client of the ground station

    Models [ground-station/src/egress_poll_client.cpp]: the requests, the reading of a
    response from a socket, and its parsing, over the checked buffers of [CBuffer].

    A connection is a script of what the socket calls return ([connection]): whether
    [connect] succeeds, what each [send] takes, what each [recv] brings and how the
    stream ends. A peer ([HttpPeer]) answers a request with such a script, and changes its
    own state by it. The bytes received are a list, so that reading past them, into what
    the array holds uninitialised, is undefined behaviour as well. *)
From S2P Require Export EgressPage.
#[local] Open Scope nat_scope.

Definition REQ_BUF_SIZE : nat := 512.
Definition RECV_CHUNK : Z := 2048.
Definition RESP_CAP : Z := 65536.

(** Lengths compared with limits too large for [nat]. *)
Definition zlen (l : list byte) : Z := Z.of_nat (length l).

(** ** Parsing *)

(** [(consumed, value)]; the value is a [size_t]. *)
Fixpoint decimal_loop (fuel : nat) (s : list byte) (start max_chars i : nat) (v : Z) : option (Z * Z) :=
  match fuel with
  | O => None
  | S fuel =>
      let stop := Some (if i =? 0 then ((-1)%Z, 0%Z) else (Z.of_nat i, v)) in
      if negb (i <? max_chars) then stop else
      c ← rd s (start + i);
      if is_digit c
      then decimal_loop fuel s start max_chars (S i) (u64 (v * 10 + (byte_to_Z c - 48)))
      else stop
  end.

Definition parse_decimal (s : list byte) (start max_chars : nat) : option (Z * Z) :=
  decimal_loop (S max_chars) s start max_chars 0 0.

(** [static_cast<int>] *)
Definition s32 (z : Z) : Z := to_signed 32 (z mod 2 ^ 32).

Definition parse_status_line (buf : list byte) (len : nat) : option Z :=
  if len <? 12 then Some (-1)%Z else
  p ← rd_range buf 0 9;
  if negb (bool_decide (p = bytes_of "HTTP/1.0 ")) && negb (bool_decide (p = bytes_of "HTTP/1.1 "))
  then Some (-1)%Z
  else
    '(consumed, code) ← parse_decimal buf 9 (len - 9);
    if (consumed <=? 0)%Z then Some (-1)%Z else Some (s32 code).

Fixpoint header_end_loop (fuel : nat) (buf : list byte) (len i : nat) : option nat :=
  match fuel with
  | O => None
  | S fuel =>
      if negb (i + 3 <? len) then Some 0 else
      w ← rd_range buf i 4;
      if bool_decide (w = [x0d; x0a; x0d; x0a]) then Some (i + 4)
      else header_end_loop fuel buf len (S i)
  end.

Definition find_header_end (buf : list byte) (len : nat) : option nat :=
  header_end_loop (S len) buf len 0.

Definition to_lower (c : byte) : byte :=
  if in_range 65 90 c then byte_of_Z (byte_to_Z c - 65 + 97) else c.

Definition needle : list byte := bytes_of "Content-Length:".

(** The inner loop: the needle at [i], without regard to case, byte by byte until one
    differs. *)
Fixpoint match_at (hdr : list byte) (i : nat) (needle : list byte) : option bool :=
  match needle with
  | [] => Some true
  | n :: needle =>
      c ← rd hdr i;
      if Byte.eqb (to_lower c) (to_lower n) then match_at hdr (S i) needle else Some false
  end.

Fixpoint skip_blanks_loop (fuel : nat) (hdr : list byte) (hdr_len p : nat) : option nat :=
  match fuel with
  | O => None
  | S fuel =>
      if negb (p <? hdr_len) then Some p else
      c ← rd hdr p;
      if Byte.eqb c x20 || Byte.eqb c x09 then skip_blanks_loop fuel hdr hdr_len (S p) else Some p
  end.

(** The advertised length, if the header is there and has one. *)
Fixpoint content_length_loop (fuel : nat) (hdr : list byte) (hdr_len i : nat) : option (option Z) :=
  match fuel with
  | O => None
  | S fuel =>
      let nlen := length needle in
      if negb (i + nlen <? hdr_len) then Some None else
      matched ← match_at hdr i needle;
      if negb matched then content_length_loop fuel hdr hdr_len (S i) else
      p ← skip_blanks_loop (S hdr_len) hdr hdr_len (i + nlen);
      '(c, n) ← parse_decimal hdr p (hdr_len - p);
      if (c <=? 0)%Z then Some None else Some (Some n)
  end.

Definition parse_content_length (hdr : list byte) (hdr_len : nat) : option (option Z) :=
  content_length_loop (S hdr_len) hdr hdr_len 0.

(** ** Sockets *)
Record connection := {
  cn_connects : bool;
  cn_sends : list Z;            (** what the calls of [send] return; then errors *)
  cn_chunks : list (list byte); (** what the calls of [recv] bring *)
  cn_closed : bool;             (** then the peer closes; else an error *)
}.

Class HttpPeer (W : Type) := exchange : list byte → W → connection * W.

Fixpoint send_all (sends : list Z) (off len : Z) : bool :=
  if (len <=? off)%Z then true else
  match sends with
  | [] => false
  | w :: sends => if (w <=? 0)%Z then false else send_all sends (off + w) len
  end.

(** The bytes read, or [None] for [SIZE_MAX]; no bytes mean that the peer closed. *)
Fixpoint read_full_response (chunks : list (list byte)) (closed : bool) (resp : list byte)
    : option (list byte) :=
  if (RESP_CAP <=? zlen resp)%Z then Some resp else
  match chunks with
  | [] => if closed then Some resp else None
  | [] :: _ => Some resp
  | c :: chunks =>
      if (RESP_CAP <? zlen resp + zlen c)%Z then None else read_full_response chunks closed (resp ++ c)
  end.

(** [(true, body, status_code)], or [false] with what became of [status_code]; the out
    parameters come in as [status0] and an empty body. *)
Definition do_round_trip (cn : connection) (req : list byte) (body_cap : Z) (status0 : Z)
    : option (bool * list byte * Z) :=
  if negb (cn_connects cn) then Some (false, [], status0) else
  if negb (send_all (cn_sends cn) 0 (zlen req)) then Some (false, [], status0) else
  match read_full_response (cn_chunks cn) (cn_closed cn) [] with
  | None => Some (false, [], status0)
  | Some resp =>
      let n := length resp in
      if n <? 12 then Some (false, [], status0) else
      status_code ← parse_status_line resp n;
      if (status_code <? 0)%Z then Some (false, [], status_code) else
      body_off ← find_header_end resp n;
      if body_off =? 0 then Some (false, [], status_code) else
      let body_bytes := n - body_off in
      advertised ← parse_content_length resp body_off;
      if match advertised with Some a => negb (a =? Z.of_nat body_bytes)%Z | None => false end
      then Some (false, [], status_code) else
      if (body_cap <? Z.of_nat body_bytes)%Z then Some (false, [], status_code) else
      body ← rd_range resp body_off body_bytes;
      Some (true, body, status_code)
  end.

(** ** The client *)
Definition crlf : list byte := [x0d; x0a].

Definition fetch_request (host : list byte) (port : Z) : list byte :=
  bytes_of "GET /api/v1/egress/pending HTTP/1.1" ++ crlf ++
  bytes_of "Host: " ++ host ++ bytes_of ":" ++ write_int port ++ crlf ++
  bytes_of "Accept: application/json" ++ crlf ++
  bytes_of "Connection: close" ++ crlf ++ crlf.

Definition ack_json (payment_id settlement_tx_hash : list byte) : list byte :=
  quoted "{'payment_id':'" ++ payment_id ++ quoted "','settlement_tx_hash':'" ++
  settlement_tx_hash ++ quoted "'}".

Definition ack_request (host : list byte) (port : Z) (json : list byte) : list byte :=
  bytes_of "POST /api/v1/egress/ack HTTP/1.1" ++ crlf ++
  bytes_of "Host: " ++ host ++ bytes_of ":" ++ write_int port ++ crlf ++
  bytes_of "Content-Type: application/json" ++ crlf ++
  bytes_of "Content-Length: " ++ write_int (zlen json) ++ crlf ++
  bytes_of "Connection: close" ++ crlf ++ crlf ++ json.

(** What [EgressOrchestrator] asks of its template parameter. The status code of a
    failed call is not used by it; [None] is undefined behaviour. *)
Class EgressClient (W : Type) := {
  fetch_pending : Z → W → option ((bool * list byte * Z) * W);
  ack_dispatched : list byte → list byte → W → option ((bool * Z) * W);
}.

Section PollClient.
Context {W : Type} `{HttpPeer W} (host : list byte) (port : Z).

Definition round_trip (req : list byte) (body_cap : Z) (w : W) : option ((bool * list byte * Z) * W) :=
  let '(cn, w) := exchange req w in
  r ← do_round_trip cn req body_cap 0;
  Some (r, w).

Definition EgressPollClient_fetch_pending (body_cap : Z) (w : W) : option ((bool * list byte * Z) * W) :=
  if (body_cap =? 0)%Z then Some ((false, [], 0%Z), w) else
  let req := fetch_request host port in
  if REQ_BUF_SIZE <=? length req then Some ((false, [], 0%Z), w) else
  round_trip req body_cap w.

Definition EgressPollClient_ack_dispatched (payment_id settlement_tx_hash : list byte) (w : W)
    : option ((bool * Z) * W) :=
  let json := ack_json payment_id settlement_tx_hash in
  if 256 <=? length json then Some ((false, 0%Z), w) else
  let req := ack_request host port json in
  if REQ_BUF_SIZE <=? length req then Some ((false, 0%Z), w) else
  '((ok, _, status), w) ← round_trip req 1024 w;
  Some ((ok, status), w).

Definition EgressPollClient : EgressClient W := {|
  fetch_pending := EgressPollClient_fetch_pending;
  ack_dispatched := EgressPollClient_ack_dispatched;
|}.
End PollClient.

(** ** References on lists *)
Fixpoint decimal_value (l : list byte) (v : Z) : Z :=
  match l with
  | c :: t => if is_digit c then decimal_value t (u64 (v * 10 + (byte_to_Z c - 48))) else v
  | [] => v
  end.

Fixpoint count_digits (l : list byte) : nat :=
  match l with
  | c :: t => if is_digit c then S (count_digits t) else 0
  | [] => 0
  end.

(** The bytes after the first empty line. *)
Fixpoint after_header (l : list byte) : option (list byte) :=
  match l with
  | [] => None
  | _ :: t => if bool_decide (take 4 l = [x0d; x0a; x0d; x0a]) then Some (drop 4 l) else after_header t
  end.

Fixpoint starts_with (needle l : list byte) : bool :=
  match needle, l with
  | [], _ => true
  | n :: needle, c :: l => Byte.eqb (to_lower c) (to_lower n) && starts_with needle l
  | _ :: _, [] => false
  end.

Fixpoint skip_blanks (l : list byte) : list byte :=
  match l with
  | c :: t => if Byte.eqb c x20 || Byte.eqb c x09 then skip_blanks t else l
  | [] => []
  end.

Fixpoint content_length (l : list byte) : option Z :=
  match l with
  | [] => None
  | _ :: t =>
      if length l <=? length needle then None
      else if starts_with needle l then
        let v := skip_blanks (drop (length needle) l) in
        if count_digits v =? 0 then None else Some (decimal_value v 0)
      else content_length t
  end.

Lemma decimal_loop_spec fuel s start n i v :
  n - i < fuel → start + n ≤ length s →
  decimal_loop fuel s start n i v =
    let l := win s (start + i) (start + n) in
    Some (if i + count_digits l =? 0 then ((-1)%Z, 0%Z)
          else (Z.of_nat (i + count_digits l), decimal_value l v)).
Proof.
  intros Hf Hs. revert i v Hf. induction fuel as [|fuel IH]; intros i v Hf; [lia|]. cbn [decimal_loop].
  destruct (Nat.ltb_spec i n) as [Hi|Hi]; cbn [negb].
  - destruct (win_cons s (start + i) (start + n) ltac:(lia) Hs) as (c & -> & ->). cbn [mbind option_bind].
    cbn [count_digits decimal_value]. destruct (is_digit c).
    + rewrite IH by lia. cbn zeta. replace (start + S i) with (S (start + i)) by lia.
      rewrite <- plus_n_Sm. cbn [Nat.add Nat.eqb]. reflexivity.
    + by rewrite Nat.add_0_r.
  - rewrite win_nil by lia. cbn [count_digits decimal_value]. by rewrite Nat.add_0_r.
Qed.

Lemma parse_decimal_spec s start n :
  start + n ≤ length s →
  parse_decimal s start n =
    let l := win s start (start + n) in
    Some (if count_digits l =? 0 then ((-1)%Z, 0%Z) else (Z.of_nat (count_digits l), decimal_value l 0)).
Proof.
  intros Hs. unfold parse_decimal. rewrite decimal_loop_spec by lia. by rewrite Nat.add_0_r.
Qed.

Lemma header_end_loop_spec fuel buf len i :
  len - i < fuel → len ≤ length buf → i ≤ len →
  ∃ e, header_end_loop fuel buf len i = Some e ∧
    match after_header (win buf i len) with
    | None => e = 0
    | Some w => i + 4 ≤ e ≤ len ∧ win buf e len = w
    end.
Proof.
  intros Hf Hl. revert i Hf. induction fuel as [|fuel IH]; intros i Hf Hi; [lia|]. cbn [header_end_loop].
  destruct (Nat.ltb_spec (i + 3) len) as [Hlt|Hge]; cbn [negb].
  - rewrite (win_range buf i len) by lia. cbn [mbind option_bind].
    destruct (win_cons buf i len ltac:(lia) Hl) as (c & _ & Hw).
    assert (after_header (win buf i len) = if bool_decide (take 4 (win buf i len) = [x0d; x0a; x0d; x0a])
      then Some (drop 4 (win buf i len)) else after_header (win buf (S i) len)) as -> by by rewrite Hw.
    case_bool_decide as Hc.
    + exists (i + 4). split; [done|]. split; [lia|]. by rewrite win_drop.
    + destruct (IH (S i) ltac:(lia) ltac:(lia)) as (e & -> & He). exists e. split; [done|].
      destruct (after_header _); [|done]. destruct He. split; [lia|done].
  - exists 0. split; [done|]. assert (length (win buf i len) < 4) as Hlen by (rewrite length_win by done; lia).
    clear -Hlen. generalize dependent (win buf i len). intros w Hw.
    assert (after_header w = None) as ->; [|done].
    induction w as [|c w IH]; [done|]. cbn [after_header]. rewrite bool_decide_eq_false_2.
    + apply IH. cbn in Hw. lia.
    + intros E. apply (f_equal length) in E. rewrite length_take in E. cbn [length] in *. lia.
Qed.

Lemma match_at_spec hdr lim i ndl :
  i + length ndl ≤ lim → lim ≤ length hdr → match_at hdr i ndl = Some (starts_with ndl (win hdr i lim)).
Proof.
  intros Hi Hl. revert i Hi. induction ndl as [|n ndl IH]; intros i Hi; [done|]. cbn [match_at starts_with length] in *.
  destruct (win_cons hdr i lim ltac:(lia) Hl) as (c & -> & ->). cbn [mbind option_bind].
  destruct (Byte.eqb _ _); [|done]. apply IH. lia.
Qed.

Lemma skip_blanks_loop_spec fuel hdr lim p :
  lim - p < fuel → lim ≤ length hdr → p ≤ lim →
  ∃ q, skip_blanks_loop fuel hdr lim p = Some q ∧ p ≤ q ≤ lim ∧ win hdr q lim = skip_blanks (win hdr p lim).
Proof.
  intros Hf Hl. revert p Hf. induction fuel as [|fuel IH]; intros p Hf Hp; [lia|]. cbn [skip_blanks_loop].
  destruct (Nat.ltb_spec p lim) as [Hlt|Hge]; cbn [negb].
  - destruct (win_cons hdr p lim Hlt Hl) as (c & -> & Hw). rewrite Hw. cbn [mbind option_bind skip_blanks].
    destruct (_ || _).
    + destruct (IH (S p) ltac:(lia) ltac:(lia)) as (q & -> & ? & ?). exists q. split_and!; [done|lia|lia|done].
    + exists p. split_and!; [done|lia|lia|done].
  - exists p. rewrite (win_nil hdr p) by lia. split_and!; [done|lia|lia|done].
Qed.

Lemma content_length_loop_spec fuel hdr lim i :
  lim - i < fuel → lim ≤ length hdr → i ≤ lim →
  content_length_loop fuel hdr lim i = Some (content_length (win hdr i lim)).
Proof.
  intros Hf Hl. revert i Hf. induction fuel as [|fuel IH]; intros i Hf Hi; [lia|]. cbn [content_length_loop].
  destruct (Nat.ltb_spec (i + length needle) lim) as [Hlt|Hge]; cbn [negb].
  - destruct (win_cons hdr i lim ltac:(lia) Hl) as (c & _ & Hw). rewrite Hw at 1. cbn [content_length].
    rewrite <- Hw, length_win by done. rewrite (proj2 (Nat.leb_gt _ _)) by lia.
    rewrite (match_at_spec hdr lim) by lia. cbn [mbind option_bind].
    destruct (starts_with _ _); cbn [negb]; [|apply IH; lia].
    rewrite win_drop.
    destruct (skip_blanks_loop_spec (S lim) hdr lim (i + length needle) ltac:(lia) Hl ltac:(lia)) as (q & -> & ? & <-).
    cbn [mbind option_bind]. rewrite parse_decimal_spec by lia. replace (q + (lim - q)) with lim by lia. cbn zeta.
    destruct (count_digits (win hdr q lim) =? 0) eqn:E; cbn [mbind option_bind]; [done|].
    apply Nat.eqb_neq in E. by rewrite (proj2 (Z.leb_gt _ _)) by lia.
  - f_equal. symmetry. destruct (win hdr i lim) as [|c t] eqn:E; [done|]. cbn [content_length].
    rewrite <- E, length_win by done. by rewrite (proj2 (Nat.leb_le _ _)) by lia.
Qed.

(** ** No response leads out of the buffers *)
Lemma parse_status_line_total buf : ∃ z, parse_status_line buf (length buf) = Some z.
Proof.
  unfold parse_status_line. destruct (Nat.ltb_spec (length buf) 12); [by eexists|].
  rewrite (win_range buf 0 (length buf)) by lia. cbn [mbind option_bind].
  destruct (_ && _); [by eexists|]. rewrite parse_decimal_spec by lia. cbn zeta.
  destruct (count_digits _ =? 0); cbn [mbind option_bind]; destruct (_ <=? 0)%Z; by eexists.
Qed.

Lemma do_round_trip_total cn req cap status0 : is_Some (do_round_trip cn req cap status0).
Proof.
  unfold do_round_trip. destruct (negb (cn_connects cn)); [done|]. destruct (negb (send_all _ _ _)); [done|].
  destruct (read_full_response _ _ _) as [resp|]; [|done]. destruct (length resp <? 12); [done|].
  destruct (parse_status_line_total resp) as [z ->]. cbn [mbind option_bind].
  destruct (z <? 0)%Z; [done|]. unfold find_header_end.
  destruct (header_end_loop_spec (S (length resp)) resp (length resp) 0 ltac:(lia) ltac:(lia) ltac:(lia))
    as (e & -> & He). cbn [mbind option_bind].
  destruct (Nat.eqb_spec e 0) as [->|He0]; [done|].
  assert (e ≤ length resp) as Hle by (destruct (after_header _); [lia|done]).
  unfold parse_content_length. rewrite content_length_loop_spec by lia. cbn [mbind option_bind].
  destruct (match content_length _ with Some _ => _ | None => _ end); [done|].
  destruct (cap <? _)%Z; [done|]. rewrite (win_range resp e (length resp)) by lia. done.
Qed.

Section Total.
Context {W : Type} `{HttpPeer W} (host : list byte) (port : Z).

Lemma round_trip_total req cap w : is_Some (round_trip req cap w).
Proof.
  unfold round_trip. destruct (exchange req w) as [cn w'].
  by destruct (do_round_trip_total cn req cap 0) as [r ->].
Qed.

Lemma fetch_pending_total cap w : is_Some (EgressPollClient_fetch_pending host port cap w).
Proof.
  unfold EgressPollClient_fetch_pending. destruct (cap =? 0)%Z; [done|].
  destruct (REQ_BUF_SIZE <=? _); [done|]. apply round_trip_total.
Qed.

Lemma ack_dispatched_total pid hash w : is_Some (EgressPollClient_ack_dispatched host port pid hash w).
Proof.
  unfold EgressPollClient_ack_dispatched. destruct (256 <=? _); [done|].
  destruct (REQ_BUF_SIZE <=? _); [done|].
  by destruct (round_trip_total (ack_request host port (ack_json pid hash)) 1024 w) as [[[[? ?] ?] ?] ->].
Qed.
End Total.
