(* ===== verification/HttpWire.v ===== *)
(** * HTTP on the wire, between the gateway and the ground station

    What the two ends use of HTTP/1.1: the bytes [net/http] writes for an answer of the
    gateway ([response_text]), and the reading of a request ([ReadRequest]). The
    lemmas say what the parser of [PollClient] makes of such an answer.

    [net/http] buffers the first 2048 bytes a handler writes. If the handler is done by
    then, it answers with [Content-Length]; else, to a client of HTTP/1.1, in chunks,
    which the ground station does not know. *)
From S2P Require Export PollClient.
#[local] Open Scope nat_scope.

(** [bufferBeforeChunkingSize] of [net/http]. *)
Definition bufferBeforeChunkingSize : Z := 2048.

(** Hexadecimal digits, the lowest first; [n] bounds their number. *)
Fixpoint hex_low (n : nat) (z : Z) : list byte :=
  match n with
  | O => []
  | S n =>
      let d := Ascii.byte_of_ascii (hex_digit (z mod 16)) in
      if (z <? 16)%Z then [d] else d :: hex_low n (z / 16)
  end.

(** [fmt.Fprintf("%x")] of a length. *)
Definition write_hex (z : Z) : list byte := reverse (hex_low 16 z).

(** A body written at once, as one chunk and the last one. *)
Definition chunked (body : list byte) : list byte :=
  write_hex (zlen body) ++ crlf ++ body ++ crlf ++ bytes_of "0" ++ crlf ++ crlf.

Definition header_text (lines : list (list byte)) : list byte :=
  concat ((λ l, l ++ crlf) <$> lines) ++ crlf.

(** The lines of [net/http] for a JSON answer to a request with [Connection: close]:
    the headers of the handler, then its own. *)
Definition status_line (status : Z) (reason : list byte) : list byte :=
  bytes_of "HTTP/1.1 " ++ write_int status ++ bytes_of " " ++ reason.
Definition json_type_line : list byte := bytes_of "Content-Type: application/json; charset=utf-8".
Definition length_line (body : list byte) : list byte := bytes_of "Content-Length: " ++ write_int (zlen body).
Definition close_line : list byte := bytes_of "Connection: close".

Definition buffered (body : list byte) : bool := (zlen body <=? bufferBeforeChunkingSize)%Z.

Definition response_lines (reason date : list byte) (status : Z) (body : list byte) : list (list byte) :=
  [status_line status reason; json_type_line; bytes_of "Date: " ++ date] ++
  (if buffered body
   then [length_line body; close_line]
   else [close_line; bytes_of "Transfer-Encoding: chunked"]).

Definition payload (body : list byte) : list byte := if buffered body then body else chunked body.

Definition response_text (reason date : list byte) (status : Z) (body : list byte) : list byte :=
  header_text (response_lines reason date status body) ++ payload body.

(** ** Reading a request

    What [net/http] makes of the requests of the ground station: the method and target
    of the first line, and the body, of the length the header says. *)
Definition not_space (b : byte) : bool := negb (Byte.eqb b x20).

Fixpoint span (p : byte → bool) (l : list byte) : list byte * list byte :=
  match l with
  | b :: t => if p b then let '(x, y) := span p t in (b :: x, y) else ([], l)
  | [] => ([], [])
  end.

Definition ReadRequest (req : list byte) : option (list byte * list byte * list byte) :=
  let '(method, rest) := span not_space req in
  let '(target, _) := span not_space (drop 1 rest) in
  body ← after_header req;
  let n := default 0%Z (content_length (take (length req - length body) req)) in
  if (n <=? zlen body)%Z then Some (method, target, take (Z.to_nat n) body) else None.

(** ** Header blocks *)
Definition no_cr (b : byte) : Prop := b ≠ x0d.

Lemma after_header_line line w : Forall no_cr line → after_header (line ++ w) = after_header w.
Proof.
  induction 1 as [|b line Hb _ IH]; [done|]. cbn [app after_header].
  rewrite bool_decide_eq_false_2 by (cbn [take]; intros [= ? _]; done). exact IH.
Qed.

Lemma after_header_crlf b w : no_cr b → after_header (crlf ++ b :: w) = after_header (b :: w).
Proof.
  intros Hb. unfold crlf. cbn [app]. 
  change (after_header (x0d :: ?t)) with
    (if bool_decide (take 4 (x0d :: t) = [x0d; x0a; x0d; x0a]) then Some (drop 4 (x0d :: t)) else after_header t).
  rewrite bool_decide_eq_false_2 by (cbn [take]; intros [= ? _]; done). reflexivity.
Qed.

Lemma after_header_text lines body :
  lines ≠ [] → Forall (λ l, l ≠ [] ∧ Forall no_cr l) lines → after_header (header_text lines ++ body) = Some body.
Proof.
  intros Hne Hl. unfold header_text. induction Hl as [|l lines [Hl0 Hl] Hls IH]; [done|].
  cbn [fmap list_fmap concat]. rewrite <- !app_assoc, after_header_line by done.
  destruct Hls as [|l' lines [Hl0' Hl'] _].
  - reflexivity.
  - destruct l' as [|b l']; [done|]. rewrite !list.Forall_cons in Hl'.
    specialize (IH ltac:(done)). cbn [fmap list_fmap concat] in IH. rewrite <- !app_assoc in IH.
    cbn [fmap list_fmap concat]. rewrite <- !app_assoc. cbn [app] in *.
    rewrite after_header_crlf by apply Hl'. exact IH.
Qed.

(** A line in which the scanner for the length finds nothing. *)
Fixpoint clear (l : list byte) : bool :=
  match l with
  | [] => true
  | _ :: t => negb (starts_with needle (l ++ [x0d])) && clear t
  end.

Lemma content_length_short l : length l ≤ length needle → content_length l = None.
Proof. destruct l; [done|]. cbn [content_length]. intros H. by rewrite (proj2 (Nat.leb_le _ _)). Qed.

Lemma content_length_skip b l : starts_with needle (b :: l) = false → content_length (b :: l) = content_length l.
Proof.
  intros Hs. cbn [content_length]. destruct (Nat.leb_spec (length (b :: l)) (length needle)).
  - symmetry. apply content_length_short. cbn [length] in *. lia.
  - by rewrite Hs.
Qed.

Lemma starts_with_cr ndl s w :
  forallb (λ b, negb (Byte.eqb x0d (to_lower b))) ndl = true →
  starts_with ndl (s ++ x0d :: w) = starts_with ndl (s ++ [x0d]).
Proof.
  revert ndl. induction s as [|b s IH]; intros [|n ndl] Hn; try done; cbn [forallb] in Hn;
    apply andb_true_iff in Hn as [Hn Hns]; cbn [app starts_with].
  - change (to_lower x0d) with x0d. by apply negb_true_iff in Hn as ->.
  - by rewrite IH.
Qed.

Lemma content_length_line line w :
  clear line = true → content_length (line ++ crlf ++ w) = content_length w.
Proof.
  induction line as [|b line IH]; intros Hc.
  - cbn [app]. unfold crlf. cbn [app]. rewrite !content_length_skip by reflexivity. done.
  - cbn [clear] in Hc. apply andb_true_iff in Hc as [Hc Hcs]. apply negb_true_iff in Hc.
    cbn [app]. rewrite content_length_skip; [by apply IH|].
    change (b :: line ++ crlf ++ w) with ((b :: line) ++ x0d :: ([x0a] ++ w)).
    by rewrite starts_with_cr.
Qed.

(** The needle has a hyphen. *)
Lemma starts_with_hyphen ndl s :
  Forall (λ b, b ≠ x2d) s → forallb (λ b, negb (Byte.eqb x0d (to_lower b))) ndl = true →
  x2d ∈ ndl → starts_with ndl (s ++ [x0d]) = false.
Proof.
  intros Hs. revert ndl. induction Hs as [|b s Hb Hs IH]; intros [|n ndl] Hn Hin;
    try (by apply list.elem_of_nil in Hin); cbn [forallb] in Hn; apply andb_true_iff in Hn as [Hn Hns];
    cbn [app starts_with].
  - change (to_lower x0d) with x0d. by apply negb_true_iff in Hn as ->.
  - apply elem_of_cons in Hin as [<-|Hin]; [|by rewrite IH, andb_false_r].
    assert (Byte.eqb (to_lower b) (to_lower x2d) = false) as ->; [|done]. by destruct b.
Qed.

Lemma clear_no_hyphen line : Forall (λ b, b ≠ x2d) line → clear line = true.
Proof.
  induction 1 as [|b line Hb Hl IH]; [done|]. cbn [clear]. rewrite IH, andb_true_r.
  apply negb_true_iff, starts_with_hyphen; [by constructor|done|].
  apply (bool_decide_unpack _). reflexivity.
Qed.

Lemma content_length_lines lines w :
  Forall (λ l, clear l = true) lines →
  content_length (concat ((λ l, l ++ crlf) <$> lines) ++ w) = content_length w.
Proof.
  induction 1 as [|l lines Hl _ IH]; [done|]. cbn [fmap list_fmap concat].
  rewrite <- !app_assoc, content_length_line by done. exact IH.
Qed.

(** ** Numbers *)
Lemma decimal_value_digits l c w v :
  Forall (λ b, is_digit b = true) l → is_digit c = false →
  decimal_value (l ++ c :: w) (u64 v) = u64 (foldl (λ acc b, acc * 10 + (byte_to_Z b - 48)) v l)%Z ∧
  count_digits (l ++ c :: w) = length l.
Proof.
  intros Hl Hc. revert v. induction Hl as [|b l Hb _ IH]; intros v; cbn [app decimal_value count_digits foldl].
  - by rewrite Hc.
  - rewrite Hb. assert (u64 (u64 v * 10 + (byte_to_Z b - 48)) = u64 (v * 10 + (byte_to_Z b - 48)))%Z as ->.
    { unfold u64. rewrite <- Zplus_mod_idemp_l, Zmult_mod_idemp_l, Zplus_mod_idemp_l. done. }
    destruct (IH (v * 10 + (byte_to_Z b - 48)))%Z as [-> Hlen]. split; [done|]. cbn [length]. by f_equal.
Qed.

Lemma write_int_value z c w :
  (0 <= z < 2 ^ 64)%Z → is_digit c = false →
  decimal_value (write_int z ++ c :: w) 0 = z ∧ count_digits (write_int z ++ c :: w) ≠ 0.
Proof.
  intros Hz Hc. unfold write_int. rewrite (proj2 (Z.ltb_ge _ _)) by lia.
  destruct (digits_low_spec 20 z) as (Hf & Hv & _ & Hne); [cbn; lia|].
  destruct (decimal_value_digits (reverse (digits_low 20 z)) c w 0) as [Hd ->]; [by apply Forall_reverse|done|].
  change (u64 0) with 0%Z in Hd. rewrite Hd. rewrite length_reverse. split.
  - unfold digits_value in Hv. rewrite Hv. apply u64_small. lia.
  - specialize (Hne ltac:(lia)). by destruct (digits_low 20 z).
Qed.

Lemma skip_blanks_int z w : (0 <= z < 2 ^ 64)%Z → skip_blanks (write_int z ++ w) = write_int z ++ w.
Proof.
  intros Hz. assert (Forall (λ b, is_digit b = true) (write_int z) ∧ write_int z ≠ []) as [Hd Hne].
  { unfold write_int. rewrite (proj2 (Z.ltb_ge _ _)) by lia.
    destruct (digits_low_spec 20 z) as (Hf & _ & _ & Hne); [cbn; lia|].
    split; [by apply Forall_reverse|]. intros E. apply (f_equal reverse) in E.
    rewrite reverse_involutive in E. by apply Hne; [lia|]. }
  destruct Hd as [|b l Hb _]; [done|]. by destruct b.
Qed.

(** The value of a number in a header line. *)
Lemma content_length_found z w :
  (0 <= z < 2 ^ 64)%Z →
  content_length (bytes_of "Content-Length: " ++ write_int z ++ crlf ++ w) = Some z.
Proof.
  intros Hz. set (v := write_int z ++ crlf ++ w).
  change (content_length (bytes_of "Content-Length: " ++ v)) with
    (if length (bytes_of "Content-Length: " ++ v) <=? length needle then None
     else let v := skip_blanks v in if count_digits v =? 0 then None else Some (decimal_value v 0)).
  rewrite (proj2 (Nat.leb_gt _ _)) by (cbn; lia). cbn zeta.
  unfold v. rewrite skip_blanks_int by done. unfold crlf. cbn [app].
  destruct (write_int_value z x0d ([x0a] ++ w) Hz eq_refl) as [Hv Hc]. cbn [app] in *.
  by rewrite Hv, (proj2 (Nat.eqb_neq _ _)).
Qed.

(** ** The answers of the gateway *)

(** Reasons and dates: text on one line, without a hyphen. *)
Definition plain_text (l : list byte) : Prop := Forall (λ b, b ≠ x0d ∧ b ≠ x2d) l.

#[export] Instance plain_text_dec l : Decision (plain_text l).
Proof. unfold plain_text. apply _. Defined.

Lemma plain_text_app l k : plain_text l → plain_text k → plain_text (l ++ k).
Proof. intros. by apply Forall_app. Qed.

Lemma write_uint_digits z : (0 <= z < 2 ^ 64)%Z → Forall (λ b, is_digit b = true) (write_int z).
Proof.
  intros Hz. unfold write_int. rewrite (proj2 (Z.ltb_ge _ _)) by lia.
  apply Forall_reverse, (digits_low_spec 20 z). cbn. lia.
Qed.

Lemma plain_text_int z : (0 <= z < 2 ^ 64)%Z → plain_text (write_int z).
Proof.
  intros Hz. eapply list.Forall_impl; [by apply write_uint_digits|]. intros b Hb. by destruct b.
Qed.

Lemma plain_text_clear l : plain_text l → clear l = true.
Proof. intros Hl. apply clear_no_hyphen. eapply list.Forall_impl; [exact Hl|]. by intros b []. Qed.

Lemma plain_text_line l : plain_text l → l ≠ [] → l ≠ [] ∧ Forall no_cr l.
Proof. intros Hl ?. split; [done|]. eapply list.Forall_impl; [exact Hl|]. by intros b []. Qed.

Lemma length_line_ok body :
  (zlen body < 2 ^ 63)%Z → length_line body ≠ [] ∧ Forall no_cr (length_line body).
Proof.
  intros Hb. split; [done|]. unfold length_line. apply Forall_app. split.
  - change (Forall (λ b, b ≠ x0d) (bytes_of "Content-Length: ")). apply (bool_decide_unpack _). vm_compute. exact I.
  - eapply list.Forall_impl; [apply plain_text_int; unfold zlen in *; lia|]. by intros b [].
Qed.

Section Response.
Context (reason date : list byte) (status : Z) (body : list byte).
Context (Hreason : plain_text reason) (Hdate : plain_text date) (Hstatus : (100 <= status < 1000)%Z).
Context (Hbody : (zlen body < 2 ^ 63)%Z).

Let head_lines := [status_line status reason; json_type_line; bytes_of "Date: " ++ date].

Lemma status_line_plain : plain_text (status_line status reason).
Proof.
  unfold status_line. apply plain_text_app; [apply (bool_decide_unpack _); vm_compute; exact I|].
  apply plain_text_app; [apply plain_text_int; lia|].
  by apply plain_text_app; [apply (bool_decide_unpack _); vm_compute; exact I|].
Qed.

Lemma date_line_plain : plain_text (bytes_of "Date: " ++ date).
Proof. apply plain_text_app; [apply (bool_decide_unpack _); vm_compute; exact I|done]. Qed.

Lemma zlen_nonneg : (0 <= zlen body)%Z.
Proof. unfold zlen. lia. Qed.

Lemma response_lines_ok : Forall (λ l, l ≠ [] ∧ Forall no_cr l) (response_lines reason date status body).
Proof.
  assert (∀ l, bool_decide (l ≠ [] ∧ Forall (λ b, b ≠ x0d) l) = true → l ≠ [] ∧ Forall no_cr l) as Hc.
  { intros l Hl%bool_decide_eq_true. exact Hl. }
  unfold response_lines. apply Forall_app. split; [|destruct (buffered body)];
    repeat (apply list.Forall_cons; split); try by apply list.Forall_nil.
  - apply plain_text_line; [apply status_line_plain|done].
  - by apply Hc.
  - apply plain_text_line; [apply date_line_plain|done].
  - by apply length_line_ok.
  - by apply Hc.
  - by apply Hc.
  - by apply Hc.
Qed.

Lemma head_lines_clear : Forall (λ l, clear l = true) head_lines.
Proof.
  repeat (apply list.Forall_cons; split); try by apply list.Forall_nil.
  - apply plain_text_clear, status_line_plain.
  - reflexivity.
  - apply plain_text_clear, date_line_plain.
Qed.

Lemma response_content_length :
  content_length (header_text (response_lines reason date status body)) =
    if buffered body then Some (zlen body) else None.
Proof.
  unfold header_text, response_lines. rewrite fmap_app, concat_app, <- !app_assoc.
  rewrite content_length_lines by apply head_lines_clear.
  destruct (buffered body); [|reflexivity].
  cbn [fmap list_fmap concat]. rewrite <- !app_assoc.
  apply content_length_found. pose proof zlen_nonneg. lia.
Qed.

Lemma response_after_header :
  after_header (response_text reason date status body) = Some (payload body).
Proof. apply after_header_text; [done|apply response_lines_ok]. Qed.

(** The status the client reads. *)
Lemma response_status w :
  take 9 (response_text reason date status body ++ w) = bytes_of "HTTP/1.1 " ∧
  count_digits (drop 9 (response_text reason date status body ++ w)) ≠ 0 ∧
  decimal_value (drop 9 (response_text reason date status body ++ w)) 0 = status.
Proof.
  assert (∃ t, response_text reason date status body ++ w = bytes_of "HTTP/1.1 " ++ write_int status ++ x20 :: t)
    as [t ->].
  { unfold response_text, header_text, response_lines, status_line. cbn [app fmap list_fmap concat].
    rewrite <- !app_assoc. by eexists. }
  split; [done|]. change (drop 9 (bytes_of "HTTP/1.1 " ++ ?l)) with l.
  destruct (write_int_value status x20 t ltac:(lia) eq_refl) as [Hv Hc]. by split.
Qed.
End Response.

(** ** What the client makes of them *)

(** A connection that takes the request and delivers [resp], in any pieces, and closes. *)
Record delivers (cn : connection) (req resp : list byte) : Prop := {
  dl_connects : cn_connects cn = true;
  dl_sent : send_all (cn_sends cn) 0 (zlen req) = true;
  dl_chunks : concat (cn_chunks cn) = resp;
  dl_pieces : Forall (λ c, 0 < zlen c <= RECV_CHUNK)%Z (cn_chunks cn);
  dl_closed : cn_closed cn = true;
}.

Lemma read_full_response_pieces chunks acc :
  Forall (λ c, 0 < zlen c <= RECV_CHUNK)%Z chunks → (zlen acc + zlen (concat chunks) < RESP_CAP)%Z →
  read_full_response chunks true acc = Some (acc ++ concat chunks).
Proof.
  intros Hc. revert acc. induction Hc as [|c chunks [Hc _] _ IH]; intros acc Hs; cbn [read_full_response concat].
  - change (zlen (concat [])) with 0%Z in Hs. rewrite (proj2 (Z.leb_gt _ _)) by lia. by rewrite app_nil_r.
  - assert (zlen (c ++ concat chunks) = zlen c + zlen (concat chunks))%Z as Hsz by (unfold zlen; len).
    cbn [concat] in Hs. rewrite Hsz in Hs. assert (0 <= zlen (concat chunks))%Z by (unfold zlen; lia).
    rewrite (proj2 (Z.leb_gt _ _)) by lia. destruct c as [|b c]; [by unfold zlen in Hc|].
    rewrite (proj2 (Z.ltb_ge _ _)) by lia. rewrite IH, <- app_assoc; [done|].
    assert (zlen (acc ++ b :: c) = zlen acc + zlen (b :: c))%Z as -> by (unfold zlen; len). lia.
Qed.

Lemma parse_status_line_spec buf :
  12 ≤ length buf → take 9 buf = bytes_of "HTTP/1.1 " → count_digits (drop 9 buf) ≠ 0 →
  parse_status_line buf (length buf) = Some (s32 (decimal_value (drop 9 buf) 0)).
Proof.
  intros Hl Hp Hd. unfold parse_status_line. rewrite (proj2 (Nat.ltb_ge _ _)) by done.
  rewrite (win_range buf 0 (length buf)), win_all, Hp by lia. cbn [mbind option_bind].
  rewrite (bool_decide_eq_true_2 (bytes_of "HTTP/1.1 " = bytes_of "HTTP/1.1 ")), andb_false_r by done.
  rewrite parse_decimal_spec by lia. replace (9 + (length buf - 9)) with (length buf) by lia.
  assert (win buf 9 (length buf) = drop 9 buf) as -> by (unfold win; by rewrite firstn_all).
  cbn zeta. rewrite (proj2 (Nat.eqb_neq _ _)) by done. cbn [mbind option_bind].
  by rewrite (proj2 (Z.leb_gt _ _)) by lia.
Qed.

Lemma response_length reason date status body : 17 ≤ length (response_text reason date status body).
Proof.
  unfold response_text, header_text, response_lines, status_line, json_type_line. cbn [app fmap list_fmap concat].
  rewrite !length_app. change (length (bytes_of "Content-Type: application/json; charset=utf-8")) with 45. lia.
Qed.

(** What [do_round_trip] makes of an answer that arrives: its status, and its payload
    if that fits. *)
Lemma do_round_trip_response cn req cap status0 reason date status body :
  delivers cn req (response_text reason date status body) →
  plain_text reason → plain_text date → (100 <= status < 1000)%Z → (zlen body < 2 ^ 63)%Z →
  (zlen (response_text reason date status body) < RESP_CAP)%Z →
  do_round_trip cn req cap status0 =
    if (cap <? zlen (payload body))%Z then Some (false, [], status) else Some (true, payload body, status).
Proof.
  intros [Hc Hs Hcs Hps Hcl] Hr Hd Hst Hb Hsz.
  pose proof (response_length reason date status body) as Hlen.
  pose proof (response_after_header reason date status body Hr Hd Hst Hb) as Hah.
  destruct (response_status reason date status body Hst []) as (Hp & Hdig & Hval).
  pose proof (response_content_length reason date status body Hr Hd Hst Hb) as Hcn.
  rewrite app_nil_r in Hp, Hdig, Hval.
  unfold do_round_trip. rewrite Hc, Hs, Hcl. cbn [negb].
  rewrite read_full_response_pieces, Hcs by (done || (rewrite Hcs; change (zlen []) with 0%Z; lia)). cbn [app].
  set (resp := response_text reason date status body) in *.
  rewrite (proj2 (Nat.ltb_ge _ _)) by lia.
  rewrite parse_status_line_spec, Hval by (done || lia). cbn [mbind option_bind].
  assert (s32 status = status) as ->.
  { unfold s32. rewrite Z.mod_small by lia. unfold to_signed. by rewrite (proj2 (Z.ltb_lt _ _)) by lia. }
  rewrite (proj2 (Z.ltb_ge _ _)) by lia.
  destruct (header_end_loop_spec (S (length resp)) resp (length resp) 0 ltac:(lia) ltac:(lia) ltac:(lia)) as (e & He & Hw).
  unfold find_header_end. rewrite He. cbn [mbind option_bind]. rewrite win_all, Hah in Hw. destruct Hw as [He' Hw].
  rewrite (proj2 (Nat.eqb_neq _ _)) by lia.
  assert (length resp - e = length (payload body)) as Hbl.
  { rewrite <- Hw. by rewrite length_win by lia. }
  assert (take e resp = header_text (response_lines reason date status body)) as Hhd.
  { assert (e = length (header_text (response_lines reason date status body))) as ->.
    { unfold resp, response_text in Hbl, He'. rewrite length_app in Hbl, He'. lia. }
    unfold resp, response_text. by rewrite take_app_length. }
  unfold parse_content_length. rewrite content_length_loop_spec by lia.
  unfold win. rewrite drop_0, Hhd, Hcn. cbn [mbind option_bind].
  assert (match (if buffered body then Some (zlen body) else None) with
          | Some a => negb (a =? Z.of_nat (length resp - e))%Z | None => false end = false) as ->.
  { rewrite Hbl. unfold payload. destruct (buffered body); [|done]. by rewrite Z.eqb_refl. }
  rewrite Hbl. fold (zlen (payload body)). destruct (cap <? zlen (payload body))%Z; [done|].
  rewrite <- Hbl, (win_range resp e (length resp)), Hw by lia. cbn [mbind option_bind].
  by rewrite Hbl, firstn_all.
Qed.
