(* ===== verification/Orchestrator.v ===== *)
(** * One poll of the ground station

    Models [ground-station/include/egress_orchestrator.h]: [EgressOrchestrator::tick],
    which fetches the page of pending receipts, and for each decodes its frame, hands it
    to the radio and acknowledges it. The HTTP client is the interface [EgressClient],
    of which [PollClient] is an instance; the radio is a function on the same state.

    [forward] is what a poll does with the three strings of a receipt, and [tick] is
    proved to do it with the strings [EgressScan.pending] finds in the answer. *)
From S2P Require Export PollClient.
#[local] Open Scope nat_scope.

Definition EgressMaxPerTick : nat := 10.
Definition EgressPacketCSize : nat := 112.
Definition RESPONSE_BUF_SIZE : Z := 8192.

(** A buffer read as a C string; without a NUL that is undefined. *)
Definition c_str (buf : list byte) : option (list byte) :=
  if bool_decide (x00 ∈ buf) then Some (c_string buf) else None.

Section Tick.
Context {W : Type} `{EgressClient W}.
(** [LoraTxFn]; [None] is [nullptr]. *)
Variable tx_fn : option (list byte → W → bool * W).
(** What the arrays [recs] and [frame] hold before they are written. *)
Variables (stack_recs : list EgressRecord) (stack_frame : list byte).

Fixpoint hex_length (fuel : nat) (hex : list byte) (hexlen : nat) : option nat :=
  match fuel with
  | O => None
  | S fuel =>
      c ← rd hex hexlen;
      if negb (Byte.eqb c x00) && (hexlen <? EgressPacketCHexMaxLen)
      then hex_length fuel hex (S hexlen) else Some hexlen
  end.

(** The body of the loop: whether the receipt is counted. *)
Definition dispatch_one (r : EgressRecord) (w : W) : option (bool * W) :=
  let hex := er_packet_c_hex r in
  hexlen ← hex_length (S EgressPacketCHexMaxLen) hex 0;
  if negb (hexlen =? EgressPacketCSize * 2) then Some (false, w) else
  '(ok, frame) ← hex_decode (Some hex) hexlen (Some stack_frame) EgressPacketCSize;
  if negb ok then Some (false, w) else
  frame ← frame;
  match tx_fn with
  | None => Some (false, w)
  | Some tx =>
      let '(sent, w) := tx frame w in
      if negb sent then Some (false, w) else
      pid ← c_str (er_payment_id r);
      hash ← c_str (er_settlement_tx_hash r);
      '((ack_ok, ack_code), w) ← ack_dispatched pid hash w;
      if negb ack_ok then Some (false, w) else
      if negb (ack_code =? 200)%Z then Some (true, w) else
      Some (true, w)
  end.

Fixpoint dispatch_loop (n i : nat) (recs : list EgressRecord) (count : Z) (w : W) : option (Z * W) :=
  match n with
  | O => Some (count, w)
  | S n =>
      r ← recs !! i;
      '(counted, w) ← dispatch_one r w;
      dispatch_loop n (S i) recs (if (counted : bool) then count + 1 else count)%Z w
  end.

Definition tick (w : W) : option (Z * W) :=
  '((ok, body, status_code), w) ← fetch_pending RESPONSE_BUF_SIZE w;
  if negb ok then Some ((-1)%Z, w) else
  if negb (status_code =? 200)%Z then Some (0%Z, w) else
  '(parsed, recs) ← parse_pending_response (Some body) (length body) (Some stack_recs) EgressMaxPerTick;
  if (parsed <? 0)%Z then Some ((-1)%Z, w) else
  recs ← recs;
  dispatch_loop (Z.to_nat parsed) 0 recs 0 w.

(** ** What a poll does, on strings *)
Definition forward (f : list byte * list byte * list byte) (w : W) : option (bool * W) :=
  let '(pid, hash, hex) := f in
  let hex := c_string hex in
  if negb (length hex =? EgressPacketCSize * 2) then Some (false, w) else
  match hex_bytes hex, tx_fn with
  | Some frame, Some tx =>
      let '(sent, w) := tx frame w in
      if negb sent then Some (false, w) else
      '((ack_ok, _), w) ← ack_dispatched (c_string pid) (c_string hash) w;
      Some (ack_ok, w)
  | _, _ => Some (false, w)
  end.

Fixpoint forward_all (fs : list (list byte * list byte * list byte)) (count : Z) (w : W) : option (Z * W) :=
  match fs with
  | [] => Some (count, w)
  | f :: fs =>
      '(counted, w) ← forward f w;
      forward_all fs (if (counted : bool) then count + 1 else count)%Z w
  end.

Lemma c_string_nul s tl : c_string (s ++ x00 :: tl) = c_string s.
Proof. induction s as [|b s IH]; cbn [app c_string]; [done|]. destruct (Byte.eqb b x00); [done|by rewrite IH]. Qed.

Lemma c_str_holds bucket s : bucket_holds bucket s → c_str bucket = Some (c_string s).
Proof.
  intros [tl ->]. unfold c_str. rewrite bool_decide_eq_true_2; [by rewrite c_string_nul|].
  apply elem_of_app. right. by left.
Qed.

Lemma c_string_length s : length (c_string s) ≤ length s.
Proof. induction s as [|b s IH]; cbn; [done|]. destruct (Byte.eqb b x00); cbn; lia. Qed.

Lemma hex_length_spec fuel don s tl :
  length s < fuel → length don + length s < EgressPacketCHexMaxLen →
  hex_length fuel (don ++ s ++ x00 :: tl) (length don) = Some (length don + length (c_string s)).
Proof.
  revert don s. induction fuel as [|fuel IH]; intros don s Hf Hl; [lia|]. cbn [hex_length].
  unfold rd. rewrite lookup_app_r, Nat.sub_diag by done.
  destruct s as [|b s]; cbn [app c_string]; [by rewrite Nat.add_0_r|].
  change ((b :: s ++ x00 :: tl) !! 0) with (Some b). cbn [mbind option_bind].
  destruct (byte_eqb_spec b x00) as [->|Hb]; cbn [negb andb length]; [by rewrite Nat.add_0_r|].
  cbn [length] in *. rewrite (proj2 (Nat.ltb_lt _ _)) by lia.
  replace (S (length don)) with (length (don ++ [b])) by len.
  replace (don ++ b :: s ++ x00 :: tl) with ((don ++ [b]) ++ s ++ x00 :: tl) by by rewrite <- app_assoc.
  rewrite IH; [f_equal; len|lia|len].
Qed.

Lemma take_c_string s tl : take (length (c_string s)) (s ++ x00 :: tl) = c_string s.
Proof.
  induction s as [|b s IH]; cbn [app c_string]; [done|].
  destruct (Byte.eqb b x00); cbn [length take]; [done|by rewrite IH].
Qed.

Context (Hframe : length stack_frame = EgressPacketCSize).

Lemma dispatch_one_spec r f w :
  sized r → holds r f → dispatch_one r w = forward f w.
Proof.
  destruct f as [[pid hash] hex]. intros (_ & _ & Hsz) (Hp & Hh & Hx). cbn [fst snd] in *.
  destruct Hx as [tl Hx]. unfold dispatch_one, forward. rewrite Hx in Hsz |- *.
  pose proof (hex_length_spec (S EgressPacketCHexMaxLen) [] hex tl) as Hhl. cbn [length app] in Hhl.
  rewrite length_app in Hsz. cbn [length] in Hsz.
  rewrite Hhl by (unfold EgressPacketCHexMaxLen in *; lia). cbn [mbind option_bind Nat.add].
  destruct (Nat.eqb_spec (length (c_string hex)) (EgressPacketCSize * 2)) as [Hl|]; [|done]. cbn [negb].
  pose proof (hex_decode_spec (hex ++ x00 :: tl) (length (c_string hex)) stack_frame EgressPacketCSize) as Hd.
  rewrite take_c_string in Hd. pose proof (c_string_length hex).
  specialize (Hd ltac:(len) ltac:(by rewrite Hframe)).
  destruct (hex_bytes (c_string hex)) as [frame|].
  - rewrite Hl in Hd |- *. change (Nat.even _ && _) with true in Hd. cbn iota in Hd. rewrite Hd.
    cbn [mbind option_bind negb]. change (EgressPacketCSize * 2 / 2) with EgressPacketCSize.
    rewrite drop_ge, app_nil_r by lia. destruct tx_fn as [tx|]; [|done].
    destruct (tx frame w) as [[] w']; [|done]. cbn [negb].
    rewrite (c_str_holds _ _ Hp), (c_str_holds _ _ Hh). cbn [mbind option_bind].
    destruct (ack_dispatched _ _ w') as [[[[] code] w'']|]; cbn [mbind option_bind negb]; [|done..].
    by destruct (negb (code =? 200)%Z).
  - destruct Hd as (buf & -> & _). done.
Qed.

Lemma dispatch_loop_spec recs i fs count w :
  Forall sized recs →
  (∀ j f, fs !! j = Some f → ∃ r, recs !! (i + j) = Some r ∧ holds r f) →
  dispatch_loop (length fs) i recs count w = forward_all fs count w.
Proof.
  intros Hall. revert i count w. induction fs as [|f fs IH]; intros i count w Hfs; [done|].
  cbn [length dispatch_loop forward_all].
  destruct (Hfs 0 f eq_refl) as (r & Hr & Hh). rewrite Nat.add_0_r in Hr. rewrite Hr. cbn [mbind option_bind].
  rewrite (dispatch_one_spec r f) by (done || by eapply Forall_lookup_1).
  destruct (forward f w) as [[counted w']|]; [|done]. cbn [mbind option_bind]. apply IH.
  intros j g Hj. destruct (Hfs (S j) g Hj) as (r' & ? & ?). exists r'. by replace (S i + j) with (i + S j) by lia.
Qed.

Context (Hrecs : length stack_recs = EgressMaxPerTick) (Hsized : Forall sized stack_recs).

Lemma tick_spec w ok body status w' :
  fetch_pending RESPONSE_BUF_SIZE w = Some ((ok, body, status), w') →
  tick w =
    if negb ok then Some ((-1)%Z, w') else
    if negb (status =? 200)%Z then Some (0%Z, w') else
    match pending EgressMaxPerTick body with
    | None => Some ((-1)%Z, w')
    | Some fs => forward_all fs 0 w'
    end.
Proof.
  intros Hfetch. unfold tick. rewrite Hfetch. cbn [mbind option_bind].
  destruct ok; [|done]. destruct (status =? 200)%Z; [|done]. cbn [negb].
  destruct (parse_pending_response_spec body (length body) stack_recs EgressMaxPerTick)
    as (n & recs & -> & _ & Hall & Hp); [done|by rewrite Hrecs|done|].
  rewrite firstn_all in Hp. cbn [mbind option_bind].
  destruct (pending _ _) as [fs|]; [|by rewrite Hp].
  destruct Hp as (-> & _ & Hfs). rewrite (proj2 (Z.ltb_ge _ _)) by lia.
  rewrite Nat2Z.id. by apply dispatch_loop_spec.
Qed.
End Tick.

(** ** Properties *)
Section Safety.
Context {W : Type} `{HttpPeer W} (host : list byte) (port : Z).

Lemma forward_total tx_fn f (w : W) :
  is_Some (forward (H := EgressPollClient host port) tx_fn f w).
Proof.
  destruct f as [[pid hash] hex]. unfold forward. destruct (negb _); [done|].
  destruct (hex_bytes _) as [frame|]; [|done]. destruct tx_fn as [tx|]; [|done].
  destruct (tx frame w) as [[] w']; [|done]. cbn [negb].
  destruct (ack_dispatched_total host port (c_string pid) (c_string hash) w') as [[[ok code] w''] E].
  cbn [ack_dispatched EgressPollClient]. by rewrite E.
Qed.

Lemma forward_all_total tx_fn fs count (w : W) :
  ∃ n w', forward_all (H := EgressPollClient host port) tx_fn fs count w = Some (n, w') ∧
    (count <= n <= count + Z.of_nat (length fs))%Z.
Proof.
  revert count w. induction fs as [|f fs IH]; intros count w; cbn [forward_all length].
  - exists count, w. split; [done|lia].
  - destruct (forward_total tx_fn f w) as [[counted w'] ->]. cbn [mbind option_bind].
    destruct (IH (if counted then count + 1 else count)%Z w') as (n & w'' & -> & Hn).
    exists n, w''. split; [done|]. destruct counted; lia.
Qed.

(** C21. A poll is safe against everything the network and the gateway can send: whatever
    the script of the socket, the bytes, the radio, and the contents of the arrays on
    the stack, it ends, never accesses memory outside them and never reads a byte it has
    not received or written; and it reports -1, or a count of at most ten receipts. *)
Theorem tick_safe tx_fn stack_recs stack_frame (w : W) :
  length stack_recs = EgressMaxPerTick → Forall sized stack_recs → length stack_frame = EgressPacketCSize →
  ∃ n w', tick (H := EgressPollClient host port) tx_fn stack_recs stack_frame w = Some (n, w') ∧
    (-1 <= n <= 10)%Z.
Proof.
  intros Hrecs Hsized Hframe.
  destruct (fetch_pending_total host port RESPONSE_BUF_SIZE w) as [[[[ok body] status] w1] Hfetch].
  rewrite (tick_spec (H := EgressPollClient host port) tx_fn stack_recs stack_frame Hframe Hrecs Hsized w ok body status w1 Hfetch).
  destruct ok; cbn [negb]; [|by exists (-1)%Z, w1].
  destruct (status =? 200)%Z; cbn [negb]; [|by exists 0%Z, w1].
  destruct (parse_pending_response_spec body (length body) stack_recs EgressMaxPerTick)
    as (n & recs & _ & _ & _ & Hp); [done|by rewrite Hrecs|done|].
  rewrite firstn_all in Hp. destruct (pending _ _) as [fs|]; [|by exists (-1)%Z, w1].
  destruct Hp as (_ & Hlen & _). destruct (forward_all_total tx_fn fs 0 w1) as (m & w2 & -> & Hm).
  exists m, w2. split; [done|]. unfold EgressMaxPerTick in Hlen. lia.
Qed.
End Safety.

(** A server that answers every request with the same bytes. *)
Definition answering (resp : list byte) : HttpPeer nat :=
  λ req n, ({| cn_connects := true; cn_sends := [zlen req]; cn_chunks := [resp]; cn_closed := true |}, S n).

(** An array that breaks off inside an object. *)
Lemma tick_safe_witness :
  let peer := answering (bytes_of "HTTP/1.1 200 OK" ++ crlf ++ crlf ++ bytes_of "[{,") in
  tick (H := @EgressPollClient nat peer (bytes_of "127.0.0.1") 8080%Z) (Some (λ _ n, (true, n)))
    (replicate EgressMaxPerTick blank_record) (replicate EgressPacketCSize xff) 0 = Some ((-1)%Z, 1) ∧
  ∃ n w', tick (H := @EgressPollClient nat peer (bytes_of "127.0.0.1") 8080%Z) (Some (λ _ n, (true, n)))
    (replicate EgressMaxPerTick blank_record) (replicate EgressPacketCSize xff) 0 = Some (n, w') ∧
    (-1 <= n <= 10)%Z.
Proof.
  intros peer. split; [vm_compute; reflexivity|].
  apply (@tick_safe nat peer).
  - reflexivity.
  - apply Forall_replicate. repeat split; reflexivity.
  - reflexivity.
Defined.
