(* ===== verification/WireReceipt.v ===== *)
(** * The receipts on the wire

    The sizes and forms of the receipts the gateway stores ([wire_receipt]), the bounds
    they give for the page it serves, and that the receipts of the processor have
    them. *)
From stdpp Require Import pretty.
From S2P Require Export HttpWire Processor.
#[local] Open Scope nat_scope.

(** A receipt as the processor writes it: decimal numbers of 256 bits, a hash of 32
    bytes, an address of 20, and a frame of 112. *)
Record wire_receipt (r : Receipt) : Prop := {
  wr_scannable : scannable r;
  wr_id : length (bytes_of (PaymentID r)) ≤ 81;
  wr_hash : length (bytes_of (SettlementTxHash r)) = 66;
  wr_amount : length (bytes_of (RecAmount r)) ≤ 81;
  wr_wallet : length (bytes_of (RecWallet r)) = 42;
  wr_frame : ∃ frame, PacketCHex r = hex_encode frame ∧ length frame = 112;
}.

Lemma length_write_string s : hex_text s → length (write_string s) = length (bytes_of s) + 2.
Proof. intros Hs. rewrite write_string_hex by done. cbn [length]. rewrite length_app. cbn. lia. Qed.

Lemma length_write_int z : (- 2 ^ 63 <= z < 2 ^ 64)%Z → 1 ≤ length (write_int z) ≤ 21.
Proof.
  intros Hz. split; [|by apply write_int_line].
  unfold write_int. destruct (Z.ltb_spec z 0); [cbn [app length]; lia|]. rewrite length_reverse.
  destruct (digits_low_spec 20 z) as (_ & _ & _ & Hne); [cbn; lia|]. specialize (Hne ltac:(lia)).
  destruct (digits_low 20 z); [done|cbn; lia].
Qed.

Lemma length_hex_encode l : length (bytes_of (hex_encode l)) = 2 * length l.
Proof.
  unfold bytes_of. induction l as [|b l IH]; [done|]. cbn [hex_encode String.list_byte_of_string length].
  change (String.list_byte_of_string (String ?a (String ?b ?s))) with
    (Ascii.byte_of_ascii a :: Ascii.byte_of_ascii b :: String.list_byte_of_string s).
  cbn [length]. lia.
Qed.

Lemma length_write_member k v : length (write_member k v) = length (bytes_of k) + 3 + length v.
Proof. unfold write_member. len. Qed.

Lemma MarshalRecord_length r :
  wire_receipt r → DispatchStatus r = StatusPending → 450 ≤ length (MarshalRecord r) ≤ 780.
Proof.
  intros [(Hj & Hh & _) Hi Hx Ha Hw (frame & Hf & Hfl)] Hst. pose proof (json_ok_ints r Hj) as Hints.
  rewrite !list.Forall_cons in Hh. rewrite !list.Forall_cons in Hints.
  destruct Hh as (H1 & H2 & H3 & H4 & H5 & _). destruct Hints as (I1 & I2 & I3 & I4 & _).
  pose proof (length_write_int _ I1). pose proof (length_write_int _ I2).
  pose proof (length_write_int _ I3). pose proof (length_write_int _ I4).
  assert (length (bytes_of (PacketCHex r)) = 224) as Hp by (rewrite Hf, length_hex_encode; lia).
  unfold MarshalRecord, record_members. rewrite Hst. change (String.eqb StatusPending "") with false. cbn iota.
  cbn [app write_members]. rewrite <- ?app_assoc. cbn [length].
  repeat (rewrite length_app || rewrite length_cons || rewrite length_write_member).
  rewrite !length_write_string by done. rewrite Hx, Hw, Hp.
  change (length (write_string StatusPending)) with 9.
  repeat match goal with |- context [length (bytes_of (String ?a ?s))] =>
    let n := eval vm_compute in (length (bytes_of (String a s))) in
    change (length (bytes_of (String a s))) with n end.
  cbn [length]. lia.
Qed.

(** ** The page *)
Lemma length_write_elements rs lo hi :
  rs ≠ [] → Forall (λ r, lo ≤ length (MarshalRecord r) ≤ hi) rs →
  length rs * S lo ≤ length (write_elements rs) ≤ length rs * S hi.
Proof.
  intros Hne Hrs. induction Hrs as [|r rs Hr Hrs IH]; [done|]. destruct rs as [|r' rs].
  - cbn [write_elements]. rewrite length_app. cbn [length]. lia.
  - change (write_elements (r :: r' :: rs)) with (MarshalRecord r ++ [x2c] ++ write_elements (r' :: rs)).
    rewrite !length_app. specialize (IH ltac:(done)). cbn [length] in *. lia.
Qed.

Definition pending_wire (r : Receipt) : Prop := wire_receipt r ∧ DispatchStatus r = StatusPending.

(** A page of ten fits the buffer of the ground station, one of five or more does not
    fit the buffer of [net/http]. *)
Lemma page_size rs :
  Forall pending_wire rs →
  (zlen (MarshalRecords rs) <= 2 + 781 * Z.of_nat (length rs) ∧
   451 * Z.of_nat (length rs) <= zlen (MarshalRecords rs))%Z.
Proof.
  intros Hrs. unfold zlen, MarshalRecords. rewrite length_app. cbn [length].
  destruct rs as [|r rs]; [cbn; lia|].
  pose proof (length_write_elements (r :: rs) 450 780 ltac:(done)) as Hl.
  specialize (Hl ltac:(eapply list.Forall_impl; [exact Hrs|]; intros x [Hx Hs]; by apply MarshalRecord_length)).
  lia.
Qed.

(** ** The answer *)
Lemma length_hex_low n z : length (hex_low n z) ≤ n.
Proof.
  revert z. induction n as [|n IH]; intros z; cbn [hex_low]; [done|].
  destruct (z <? 16)%Z; cbn [length]; [lia|]. specialize (IH (z / 16)%Z). lia.
Qed.

Lemma payload_size body : (zlen (payload body) <= zlen body + 30)%Z.
Proof.
  unfold payload. destruct (buffered body); [unfold zlen; lia|]. unfold chunked, write_hex, zlen, crlf.
  pose proof (length_hex_low 16 (Z.of_nat (length body))).
  rewrite !length_app, length_reverse. change (length (bytes_of "0")) with 1. cbn [length]. lia.
Qed.

Lemma response_size reason date status body :
  (100 <= status < 1000)%Z → (zlen body < 2 ^ 63)%Z →
  (zlen (response_text reason date status body) <= zlen reason + zlen date + zlen body + 300)%Z.
Proof.
  intros Hs Hb. pose proof (payload_size body) as Hp. assert (0 <= zlen body)%Z by (unfold zlen; lia).
  pose proof (length_write_int status ltac:(lia)). pose proof (length_write_int (zlen body) ltac:(lia)).
  unfold response_text, header_text, response_lines.
  assert (∀ a b : list byte, zlen (a ++ b) = zlen a + zlen b)%Z as Happ by (intros; unfold zlen; len).
  rewrite !Happ. enough (zlen (concat ((λ l, l ++ crlf) <$> [status_line status reason; json_type_line;
    bytes_of "Date: " ++ date] ++ (if buffered body then [length_line body; close_line]
    else [close_line; bytes_of "Transfer-Encoding: chunked"]))) <= zlen reason + zlen date + 200)%Z.
  { change (zlen crlf) with 2%Z. lia. }
  unfold status_line, json_type_line, length_line, close_line.
  destruct (buffered body); cbn [app fmap list_fmap concat]; rewrite !Happ;
    repeat match goal with |- context [zlen (bytes_of (String ?a ?s))] =>
      let n := eval vm_compute in (zlen (bytes_of (String a s))) in
      change (zlen (bytes_of (String a s))) with n end;
    change (zlen crlf) with 2%Z; change (zlen []) with 0%Z; unfold zlen in *; lia.
Qed.

(** ** Frames in hexadecimal *)
Lemma hex_digit_value z :
  (0 <= z < 16)%Z → hex_value (Ascii.byte_of_ascii (hex_digit z)) = Some z.
Proof.
  intros Hz. apply (bool_decide_unpack _).
  assert (Forall (λ z, hex_value (Ascii.byte_of_ascii (hex_digit z)) = Some z) (seqZ 0 16)) as Hall
    by (apply (bool_decide_unpack _); vm_compute; exact I).
  rewrite list.Forall_forall in Hall. apply bool_decide_pack, Hall, elem_of_seqZ. lia.
Qed.

Lemma bytes_of_hex_encode b l :
  bytes_of (hex_encode (b :: l)) =
    Ascii.byte_of_ascii (hex_digit (byte_to_Z b / 16)) :: Ascii.byte_of_ascii (hex_digit (byte_to_Z b mod 16)) ::
    bytes_of (hex_encode l).
Proof. reflexivity. Qed.

Lemma hex_bytes_encode l : hex_bytes (bytes_of (hex_encode l)) = Some l.
Proof.
  induction l as [|b l IH]; [done|]. rewrite bytes_of_hex_encode. cbn [hex_bytes].
  pose proof (byte_to_Z_range b) as Hb. pose proof (Z.div_mod (byte_to_Z b) 16 ltac:(lia)) as Hdm.
  pose proof (Z.mod_pos_bound (byte_to_Z b) 16 ltac:(lia)).
  rewrite !hex_digit_value by (lia || (split; [apply Z.div_pos; lia|apply Z.div_lt_upper_bound; lia])).
  cbn [mbind option_bind]. rewrite IH, <- Hdm. cbn. by rewrite byte_of_to_Z.
Qed.

Lemma hex_encode_text l : hex_text (hex_encode l).
Proof.
  induction l as [|b l IH]; [constructor|]. unfold hex_text. rewrite bytes_of_hex_encode.
  pose proof (byte_to_Z_range b). pose proof (Z.mod_pos_bound (byte_to_Z b) 16 ltac:(lia)).
  assert (∀ z, (0 <= z < 16)%Z → hex_text_byte (Ascii.byte_of_ascii (hex_digit z)) = true) as Hd.
  { intros z Hz. unfold hex_text_byte. rewrite hex_digit_value by done. by rewrite bool_decide_eq_true_2. }
  repeat constructor; [apply Hd; split; [apply Z.div_pos; lia|apply Z.div_lt_upper_bound; lia]|by apply Hd|done].
Qed.

(** ** The receipts of the processor *)
Lemma pretty_N_go_text n x s :
  (x < 10 ^ N.of_nat n)%N → hex_text s → hex_text (pretty_N_go x s).
Proof.
  revert x s. induction n as [|n IH]; intros x s Hx Hs.
  { assert (x = 0)%N as -> by (cbn in Hx; lia). by rewrite pretty_N_go_0. }
  destruct (decide (x = 0)%N) as [->|Hx0]; [by rewrite pretty_N_go_0|].
  rewrite pretty_N_go_step by lia. apply IH.
  - rewrite Nat2N.inj_succ, N.pow_succ_r' in Hx. apply N.Div0.div_lt_upper_bound. lia.
  - constructor; [|done]. unfold pretty_N_char. by repeat case_match.
Qed.

Lemma pretty_Z_text z n : (0 <= z < 10 ^ Z.of_nat n)%Z → hex_text (pretty z).
Proof.
  intros Hz. unfold pretty, pretty_Z. destruct z as [|x|x]; [by repeat constructor| |lia].
  unfold pretty_positive, pretty, pretty_N. rewrite decide_False by lia.
  apply (pretty_N_go_text n); [|constructor].
  apply N2Z.inj_lt. rewrite N2Z.inj_pow, nat_N_Z. cbn. lia.
Qed.

Lemma length_bytes_of s : length (bytes_of s) = String.length s.
Proof.
  unfold bytes_of. induction s as [|c s IH]; [done|].
  change (String.list_byte_of_string (String c s)) with (Ascii.byte_of_ascii c :: String.list_byte_of_string s).
  cbn [length String.length]. by rewrite IH.
Qed.

(** What go-ethereum prints for a hash and an address: [0x] and hexadecimal digits. *)
Definition hex_forms `{EthCommon} (ev : SettlementEvent) : Prop :=
  hex_text (tx_hash_hex ev) ∧ hex_text (Address_Hex (Ev_Wallet ev)) ∧
  String.length (tx_hash_hex ev) = 66 ∧ String.length (Address_Hex (Ev_Wallet ev)) = 42.

(** The receipts the processor appends are of this kind. *)
Lemma event_wire `{Ed25519} `{EthCommon} ev raw :
  Event_wf ev → (Ev_TxNonce ev < 2 ^ 256 ∧ Ev_Amount ev < 2 ^ 256)%Z → hex_forms ev → length raw = 112 →
  pending_wire (pending_receipt ev raw).
Proof.
  intros Hwf [Hn Ha] (Hh & Hw & Hhl & Hwl) Hraw.
  assert (json_ok (event_record ev raw)) as Hj.
  { apply (json_event_ok ev Hwf); [done| |done]. unfold hex_forms_ok.
    split_and!; [by apply hex_text_ascii|by apply hex_text_ascii|lia|lia]. }
  destruct Hwf as (Hn0 & Ha0 & _).
  assert (2 ^ 256 <= 10 ^ Z.of_nat 80)%Z as Hpow by (vm_compute; discriminate).
  pose proof (pretty_Z_text (Ev_TxNonce ev) 80 ltac:(lia)) as Tp.
  pose proof (pretty_Z_text (Ev_Amount ev) 80 ltac:(lia)) as Ta.
  destruct (pretty_Z_ascii (Ev_TxNonce ev) 80 ltac:(lia)) as [_ Hpl].
  destruct (pretty_Z_ascii (Ev_Amount ev) 80 ltac:(lia)) as [_ Hql].
  split; [|done]. split.
  - split_and!.
    + apply (@codec_pending json_codec json_codec_laws _ Hj).
    + repeat constructor; try done. apply hex_encode_text.
    + cbn [pending_receipt event_record set_DispatchStatus PaymentID]. unfold payment_id, BigInt_String.
      rewrite length_bytes_of. unfold EgressPaymentIdMaxLen. lia.
    + cbn [pending_receipt event_record set_DispatchStatus SettlementTxHash].
      rewrite length_bytes_of, Hhl. unfold EgressTxHashMaxLen. lia.
    + cbn [pending_receipt event_record set_DispatchStatus PacketCHex].
      rewrite length_hex_encode, Hraw. unfold EgressPacketCHexMaxLen. lia.
  - change (PaymentID _) with (payment_id ev). rewrite length_bytes_of. unfold payment_id, BigInt_String. lia.
  - change (SettlementTxHash _) with (tx_hash_hex ev). by rewrite length_bytes_of.
  - change (RecAmount _) with (BigInt_String (Ev_Amount ev)). rewrite length_bytes_of. unfold BigInt_String. lia.
  - change (RecWallet _) with (Address_Hex (Ev_Wallet ev)). by rewrite length_bytes_of.
  - by exists raw.
Qed.
