(* ===== verification/GroundLink.v ===== *)
(** * The ground station and the gateway together

    [EgressOrchestrator::tick] over [EgressPollClient], over a network, over the egress
    handlers of the gateway: the requests are the bytes the client formats, read by
    [HttpWire.ReadRequest], routed as in [cmd/server/main.go] to the handlers of
    [Egress]; the answers are the bytes [net/http] writes for them.

    A [Network] decides the fate of each exchange: the request does not arrive, or its
    answer is lost, or it is delivered, in any pieces. The radio may refuse a frame. The
    state of the whole, [station], is the store behind the handlers, the frames given to
    the radio, and the number of exchanges so far. *)
From S2P Require Export WireReceipt Orchestrator Egress.
#[local] Open Scope nat_scope.
#[local] Existing Instance json_codec.
#[local] Existing Instance json_codec_laws.

(** ** What the gateway answers *)
Definition StatusText (code : Z) : list byte :=
  bytes_of
    (if code =? 200 then "OK" else if code =? 400 then "Bad Request" else if code =? 404 then "Not Found"
     else if code =? 500 then "Internal Server Error" else if code =? 503 then "Service Unavailable"
     else "")%Z%string.

Definition value_json (v : gin_value) : list byte :=
  match v with V_string s => write_string s | V_int z => write_int z end.

(** [json.Marshal] of what a handler answers with; the text of an error of the file
    system is the system's. *)
Definition body_json (error_text : store_error → string) (b : egress_body) : list byte :=
  match b with
  | B_object h => [x7b] ++ write_members ((λ m, (m.1, value_json m.2)) <$> h)
  | B_records rs => MarshalRecords rs
  | B_store_error e => [x7b] ++ write_members [("error"%string, write_string (error_text e))]
  end.

(** [ShouldBindJSON] into an [ackRequest]: the first JSON value of the body. *)
Fixpoint set_ack (ms : list (list byte * json)) (a : ackRequest) : option ackRequest :=
  match ms with
  | [] => Some a
  | (k, v) :: ms =>
      let named key := bool_decide (fold_name (unquote 0 k) = fold_name (bytes_of key)) in
      a ← (if named "payment_id"%string then
             match v with
             | J_string raw => Some {| Ack_PaymentID := string_value raw;
                                       Ack_SettlementTxHash := Ack_SettlementTxHash a |}
             | J_null => Some a
             | _ => None
             end
           else if named "settlement_tx_hash"%string then
             match v with
             | J_string raw => Some {| Ack_PaymentID := Ack_PaymentID a;
                                       Ack_SettlementTxHash := string_value raw |}
             | J_null => Some a
             | _ => None
             end
           else Some a);
      set_ack ms a
  end.

Definition BindAck (body : list byte) : option ackRequest :=
  let zero := {| Ack_PaymentID := ""; Ack_SettlementTxHash := "" |} in
  '(v, _) ← parse_value (2 * length body + 2) maxNestingDepth body;
  match v with
  | J_object ms => set_ack ms zero
  | J_null => Some zero
  | _ => None
  end.

Lemma ack_json_text pid hash :
  hex_text pid → hex_text hash →
  ack_json (bytes_of pid) (bytes_of hash) =
    [x7b] ++ write_members [("payment_id", write_string pid); ("settlement_tx_hash", write_string hash)]%string.
Proof.
  intros Hp Hh. cbn [write_members]. rewrite !write_string_hex by done.
  unfold ack_json, write_member. rewrite <- ?app_assoc. cbn [app]. rewrite <- ?app_assoc. reflexivity.
Qed.

Lemma parse_json_value l v :
  parse_json l = Some v → ∃ r, parse_value (2 * length l + 2) maxNestingDepth l = Some (v, r).
Proof.
  unfold parse_json, parse_document. generalize (parse_value (2 * length l + 2) maxNestingDepth l).
  intros [[v' r]|]; [|done]. cbn [mbind option_bind]. destruct (skip_space r); [|done].
  intros [= ->]. by exists r.
Qed.

Lemma BindAck_ack_json pid hash :
  hex_text pid → hex_text hash →
  BindAck (ack_json (bytes_of pid) (bytes_of hash)) =
    Some {| Ack_PaymentID := pid; Ack_SettlementTxHash := hash |}.
Proof.
  intros Hp Hh. rewrite ack_json_text by done.
  pose proof (hex_text_ascii _ Hp) as Ap. pose proof (hex_text_ascii _ Hh) as Ah.
  assert (Forall2 member_text
    [("payment_id", write_string pid); ("settlement_tx_hash", write_string hash)]%string
    [(bytes_of "payment_id", J_string (escape 0 true (bytes_of pid)));
     (bytes_of "settlement_tx_hash", J_string (escape 0 true (bytes_of hash)))]) as Hms.
  { repeat apply list.Forall2_cons_2; try apply list.Forall2_nil_2;
      (split; [intros rest; reflexivity|split; [done|by apply value_text_string]]). }
  apply parse_write_object in Hms; [|done]. apply parse_json_value in Hms as [rest Hms].
  unfold BindAck. rewrite Hms. cbn [mbind option_bind set_ack].
  rewrite !string_value_escape by done. reflexivity.
Qed.

(** ** Networks *)
Inductive outcome := Refused | Lost | Delivered.

#[export] Instance outcome_eq_dec : EqDecision outcome.
Proof. solve_decision. Defined.

(** By the number of the exchange: its fate, and what the socket calls return, given the
    request and the answer. *)
Class Network := {
  fate : nat → outcome;
  socket : nat → list byte → list byte → connection;
}.

(** No answer: whatever pieces come, [recv] fails in the end; or the peer closes before
    the 12 bytes of a status line. (An answer that an orderly close cuts later is left
    out: where it has no [Content-Length] the client takes it for a whole one.) *)
Record unanswered (cn : connection) : Prop := {
  un_pieces : Forall (λ c, 0 < zlen c <= RECV_CHUNK)%Z (cn_chunks cn);
  un_size : (zlen (concat (cn_chunks cn)) < RESP_CAP)%Z;
  un_end : cn_closed cn = false ∨ (zlen (concat (cn_chunks cn)) < 12)%Z;
}.

(** A request that does not arrive fails to connect or to be sent, or is sent and not
    answered; one whose answer is lost is not answered either. *)
Class NetworkLaws `{Network} : Prop := {
  refused_socket n req resp : fate n = Refused →
    cn_connects (socket n req resp) = false ∨ send_all (cn_sends (socket n req resp)) 0 (zlen req) = false ∨
    unanswered (socket n req resp);
  lost_socket n req resp : fate n = Lost → unanswered (socket n req resp);
  delivered_socket n req resp : fate n = Delivered → delivers (socket n req resp) req resp;
}.

Record station := {
  gs_store : option (Store * list byte);
  gs_radio : list (list byte);
  gs_clock : nat;
}.

Section Link.
Context `{Network}.
(** The disk of the gateway and its clock, by exchange, and whether the radio takes a
    frame; what is answered to anything but the two routes. *)
Variables (plan : nat → io) (date : nat → list byte) (radio_ok : nat → list byte → bool).
Variables (error_text : store_error → string) (elsewhere : list byte).
Variables (host : list byte) (port : Z).

Definition fresh : TraceContext egress_body := new_context.

(** One request to the gateway: the bytes it answers with, and its store. *)
Definition answer (n : nat) (s : egress_state (TraceContext egress_body)) : list byte * option (Store * list byte) :=
  match tc_responses (eg_ctx s) with
  | (code, body) :: _ => (response_text (StatusText code) (date n) code (body_json error_text body), eg_store s)
  | [] => (elsewhere, eg_store s)
  end.

Definition gateway_serve (n : nat) (req : list byte) (store : option (Store * list byte))
    : list byte * option (Store * list byte) :=
  let s := {| eg_ctx := fresh; eg_store := store |} in
  match ReadRequest req with
  | Some (method, target, body) =>
      if bool_decide (method = bytes_of "GET" ∧ target = bytes_of "/api/v1/egress/pending")
      then answer n (HandleEgressPending s)
      else if bool_decide (method = bytes_of "POST" ∧ target = bytes_of "/api/v1/egress/ack")
      then answer n (HandleEgressAck (plan n) (BindAck body) s)
      else (elsewhere, store)
  | None => (elsewhere, store)
  end.

#[local] Instance station_peer : HttpPeer station := λ req w,
  let n := gs_clock w in
  match fate n with
  | Refused => (socket n req [], {| gs_store := gs_store w; gs_radio := gs_radio w; gs_clock := S n |})
  | _ =>
      let '(resp, store) := gateway_serve n req (gs_store w) in
      (socket n req resp, {| gs_store := store; gs_radio := gs_radio w; gs_clock := S n |})
  end.

(** The radio: a frame it takes is transmitted. *)
Definition transmit (frame : list byte) (w : station) : bool * station :=
  if radio_ok (gs_clock w) frame
  then (true, {| gs_store := gs_store w; gs_radio := gs_radio w ++ [frame]; gs_clock := gs_clock w |})
  else (false, w).

(** [orch.tick()] of [main.cpp]. *)
Definition poll (stack_recs : list EgressRecord) (stack_frame : list byte) (w : station)
    : option (Z * station) :=
  tick (H := EgressPollClient host port) (Some transmit) stack_recs stack_frame w.

(** ** The requests are understood *)
Definition plain_host : Prop := plain_text host ∧ length host ≤ 100.

Context (Hhost : plain_host) (Hport : (0 <= port < 65536)%Z).

Definition host_line : list byte := bytes_of "Host: " ++ host ++ bytes_of ":" ++ write_int port.

Lemma host_line_plain : plain_text host_line.
Proof.
  unfold host_line. apply plain_text_app; [apply (bool_decide_unpack _); vm_compute; exact I|].
  apply plain_text_app; [apply Hhost|].
  apply plain_text_app; [apply (bool_decide_unpack _); vm_compute; exact I|apply plain_text_int; lia].
Qed.

(** A request of the client, by its lines. *)
Lemma ReadRequest_text method target lines body n :
  forallb not_space method = true → forallb not_space target = true →
  let first := method ++ [x20] ++ target ++ [x20] ++ bytes_of "HTTP/1.1" in
  Forall (λ l, l ≠ [] ∧ Forall no_cr l) (first :: lines) →
  default 0%Z (content_length (header_text (first :: lines))) = n → n = zlen body →
  ReadRequest (header_text (first :: lines) ++ body) = Some (method, target, body).
Proof.
  intros Hm Ht first Hl Hn ->. unfold ReadRequest.
  assert (∀ l tl, forallb not_space l = true → span not_space (l ++ x20 :: tl) = (l, x20 :: tl)) as Hspan.
  { clear. induction l as [|b l IH]; intros tl Hl; [done|]. cbn [forallb] in Hl.
    apply andb_true_iff in Hl as [Hb Hl]. cbn [app span]. by rewrite Hb, IH. }
  rewrite after_header_text by done. cbn [mbind option_bind].
  assert (take (length (header_text (first :: lines) ++ body) - length body)
            (header_text (first :: lines) ++ body) = header_text (first :: lines)) as ->.
  { rewrite length_app, Nat.add_sub. apply take_app_length. }
  rewrite Hn, Z.leb_refl. unfold zlen. rewrite Nat2Z.id, firstn_all.
  unfold header_text, first. cbn [fmap list_fmap concat]. rewrite <- !app_assoc. cbn [app].
  rewrite Hspan by done. change (drop 1 (x20 :: ?l)) with l. by rewrite Hspan.
Qed.

Lemma const_line l : bool_decide (l ≠ [] ∧ Forall (λ b, b ≠ x0d) l) = true → l ≠ [] ∧ Forall no_cr l.
Proof. intros Hl%bool_decide_eq_true. exact Hl. Qed.

Definition request_line (method target : list byte) : list byte :=
  method ++ [x20] ++ target ++ [x20] ++ bytes_of "HTTP/1.1".

Definition accept_line : list byte := bytes_of "Accept: application/json".
Definition type_line : list byte := bytes_of "Content-Type: application/json".

Lemma fetch_request_text :
  fetch_request host port =
    header_text [request_line (bytes_of "GET") (bytes_of "/api/v1/egress/pending"); host_line; accept_line;
                 close_line] ++ [].
Proof.
  unfold fetch_request, header_text, host_line, accept_line, close_line. cbn [fmap list_fmap concat].
  rewrite <- ?app_assoc. reflexivity.
Qed.

Lemma ack_request_text json :
  ack_request host port json =
    header_text [request_line (bytes_of "POST") (bytes_of "/api/v1/egress/ack"); host_line; type_line;
                 length_line json; close_line] ++ json.
Proof.
  unfold ack_request, header_text, host_line, type_line, length_line, close_line. cbn [fmap list_fmap concat].
  rewrite <- ?app_assoc. reflexivity.
Qed.

Lemma host_line_ok : host_line ≠ [] ∧ Forall no_cr host_line.
Proof. apply plain_text_line; [apply host_line_plain|done]. Qed.

Lemma ReadRequest_fetch :
  ReadRequest (fetch_request host port) = Some (bytes_of "GET", bytes_of "/api/v1/egress/pending", []).
Proof.
  rewrite fetch_request_text. apply (ReadRequest_text _ _ _ _ 0); [done|done| | |done].
  - repeat (apply list.Forall_cons; split); try (by apply list.Forall_nil); try (by apply const_line).
    apply host_line_ok.
  - unfold header_text. rewrite content_length_lines; [done|].
    repeat (apply list.Forall_cons; split); try (by apply list.Forall_nil); try done.
    apply plain_text_clear, host_line_plain.
Qed.

Lemma ReadRequest_ack json :
  (zlen json < 2 ^ 63)%Z →
  ReadRequest (ack_request host port json) = Some (bytes_of "POST", bytes_of "/api/v1/egress/ack", json).
Proof.
  intros Hj. assert (0 <= zlen json)%Z by (unfold zlen; lia).
  rewrite ack_request_text. apply (ReadRequest_text _ _ _ _ (zlen json)); [done|done| | |done].
  - repeat (apply list.Forall_cons; split); try (by apply list.Forall_nil); try (by apply const_line).
    + apply host_line_ok.
    + by apply length_line_ok.
  - unfold header_text.
    assert (∀ lines, Forall (λ l, clear l = true) lines →
      content_length (concat ((λ l, l ++ crlf) <$> (lines ++ [length_line json; close_line])) ++ crlf) =
      Some (zlen json)) as Hl.
    { intros lines Hl. rewrite fmap_app, concat_app, <- app_assoc, content_length_lines by done.
      cbn [fmap list_fmap concat]. unfold length_line. rewrite <- !app_assoc. apply content_length_found. lia. }
    transitivity (default 0%Z (Some (zlen json))); [|done]. apply (f_equal (default 0%Z)).
    apply (Hl [_; _; _]).
    repeat (apply list.Forall_cons; split); try (by apply list.Forall_nil); try done.
    apply plain_text_clear, host_line_plain.
Qed.

(** ** One exchange *)
Context `{!NetworkLaws}.
Context (Hdate : ∀ n, plain_text (date n) ∧ length (date n) ≤ 100).
Context (Herror : ∀ e, (zlen (body_json error_text (B_store_error e)) <= 1024)%Z).

Lemma lost_response chunks acc :
  Forall (λ c, 0 < zlen c <= RECV_CHUNK)%Z chunks → (zlen acc + zlen (concat chunks) < RESP_CAP)%Z →
  read_full_response chunks false acc = None.
Proof.
  intros Hc. revert acc. induction Hc as [|c chunks [Hc _] _ IH]; intros acc Hs; cbn [read_full_response concat].
  - change (zlen (concat [])) with 0%Z in Hs. by rewrite (proj2 (Z.leb_gt _ _)) by lia.
  - assert (∀ a b : list byte, zlen (a ++ b) = zlen a + zlen b)%Z as Happ by (intros; unfold zlen; len).
    cbn [concat] in Hs. rewrite Happ in Hs. assert (0 <= zlen (concat chunks))%Z by (unfold zlen; lia).
    rewrite (proj2 (Z.leb_gt _ _)) by lia. destruct c as [|b c]; [by unfold zlen in Hc|].
    rewrite (proj2 (Z.ltb_ge _ _)) by lia. apply IH. rewrite Happ. lia.
Qed.

Lemma unanswered_round_trip cn req cap :
  unanswered cn → do_round_trip cn req cap 0 = Some (false, [], 0%Z).
Proof.
  intros [Hp Hs He]. unfold do_round_trip.
  destruct (negb (cn_connects _)); [done|]. destruct (negb (send_all _ _ _)); [done|].
  destruct (cn_closed cn) eqn:Hc.
  - destruct He as [He|He]; [done|].
    rewrite read_full_response_pieces by (done || by change (zlen []) with 0%Z).
    cbn [app]. by rewrite (proj2 (Nat.ltb_lt _ _)) by (unfold zlen in He; lia).
  - rewrite lost_response; [done|done|]. by change (zlen []) with 0%Z.
Qed.

(** Without delivery the client has nothing. *)
Lemma undelivered n req resp cap :
  fate n ≠ Delivered → do_round_trip (socket n req resp) req cap 0 = Some (false, [], 0%Z).
Proof.
  intros Hf. destruct (fate n) eqn:E; [| |done].
  - destruct (refused_socket n req resp E) as [Hr | [Hr | Hr]]; [..|by apply unanswered_round_trip];
      unfold do_round_trip; rewrite Hr; [done|]. by destruct (negb (cn_connects _)).
  - by apply unanswered_round_trip, (lost_socket n req resp).
Qed.

Definition status_ok (code : Z) : Prop := code ∈ [200; 400; 404; 500; 503]%Z.

Lemma StatusText_plain code : status_ok code → plain_text (StatusText code) ∧ (100 <= code < 1000)%Z ∧
  (zlen (StatusText code) <= 30)%Z.
Proof.
  intros Hc. repeat (apply elem_of_cons in Hc as [-> | Hc];
    [split; [apply (bool_decide_unpack _); vm_compute; exact I|split; [lia|vm_compute; discriminate]]|]).
  by apply list.elem_of_nil in Hc.
Qed.

(** An answer that arrives. *)
Lemma delivered_answer n req cap code body :
  fate n = Delivered → status_ok code → (zlen body <= 60000)%Z →
  do_round_trip (socket n req (response_text (StatusText code) (date n) code body)) req cap 0 =
    Some (if (cap <? zlen (payload body))%Z then (false, [], code) else (true, payload body, code)).
Proof.
  intros Hf Hc Hb. destruct (StatusText_plain code Hc) as (Hp & Hr & Hl). destruct (Hdate n) as [Hd Hdl].
  rewrite (do_round_trip_response _ _ _ _ (StatusText code) (date n) code body); [|by apply delivered_socket|done..|lia|].
  - by destruct (cap <? _)%Z.
  - pose proof (response_size (StatusText code) (date n) code body Hr ltac:(lia)).
    unfold RESP_CAP, zlen in *. lia.
Qed.

(** ** Polling *)
Definition after_exchange (w : station) (store : option (Store * list byte)) : station :=
  {| gs_store := store; gs_radio := gs_radio w; gs_clock := S (gs_clock w) |}.

Definition page_of (store : Store) : list Receipt := take 10 (log_pending (contents store)).

Lemma fetch_request_fits : length (fetch_request host port) < REQ_BUF_SIZE.
Proof.
  destruct Hhost as [_ Hl]. pose proof (length_write_int port ltac:(lia)).
  unfold fetch_request, REQ_BUF_SIZE, crlf. rewrite !length_app.
  repeat match goal with |- context [length (bytes_of (String ?a ?s))] =>
    let n := eval vm_compute in (length (bytes_of (String a s))) in
    change (length (bytes_of (String a s))) with n end. cbn [length]. lia.
Qed.

Lemma poll_fetch w store disk :
  gs_store w = Some (store, disk) → (zlen (MarshalRecords (page_of store)) <= 8000)%Z →
  EgressPollClient_fetch_pending host port RESPONSE_BUF_SIZE w =
    Some (match fate (gs_clock w) with
          | Delivered => (true, payload (MarshalRecords (page_of store)), 200%Z)
          | _ => (false, [], 0%Z)
          end, after_exchange w (gs_store w)).
Proof.
  intros Hst Hsz. unfold EgressPollClient_fetch_pending.
  change (RESPONSE_BUF_SIZE =? 0)%Z with false. cbn iota.
  rewrite (proj2 (Nat.leb_gt _ _)) by apply fetch_request_fits.
  unfold round_trip, exchange, station_peer.
  assert (gateway_serve (gs_clock w) (fetch_request host port) (gs_store w) =
    (response_text (StatusText 200) (date (gs_clock w)) 200 (MarshalRecords (page_of store)), gs_store w)) as Hs.
  { unfold gateway_serve. rewrite ReadRequest_fetch, Hst.
    rewrite bool_decide_eq_true_2 by done. unfold HandleEgressPending, answer.
    cbn [eg_store eg_json eg_ctx JSON TraceContext_ops tc_responses fresh new_context app].
    by rewrite PendingRecords_spec. }
  destruct (fate (gs_clock w)) eqn:Hf.
  - by rewrite undelivered by (by rewrite Hf).
  - rewrite Hs. by rewrite undelivered by (by rewrite Hf).
  - rewrite Hs. rewrite delivered_answer by (done || lia || by (unfold status_ok; left)). cbn [mbind option_bind].
    pose proof (payload_size (MarshalRecords (page_of store))).
    by rewrite (proj2 (Z.ltb_ge _ _)) by (unfold RESPONSE_BUF_SIZE; lia).
Qed.

(** ** Acknowledging *)
Lemma HandleEgressAck_answer p bound (store : option (Store * list byte)) :
  ∃ code body, tc_responses (eg_ctx (HandleEgressAck p bound {| eg_ctx := fresh; eg_store := store |})) = [(code, body)] ∧
    status_ok code ∧ (zlen (body_json error_text body) <= 1024)%Z.
Proof.
  assert (∀ code msg, status_ok code → (zlen (body_json error_text (B_object (error_H msg))) <= 1024)%Z →
    ∃ c b, [(code, B_object (error_H msg))] = [(c, b)] ∧ status_ok c ∧ (zlen (body_json error_text b) <= 1024)%Z) as Hobj.
  { intros code msg Hc Hl. by eexists _, _. }
  assert (∀ code, code ∈ [200; 400; 404; 500; 503]%Z → status_ok code) as Hok by done.
  unfold HandleEgressAck. destruct store as [st|]; cbn [eg_store].
  2:{ apply Hobj; [apply Hok; set_solver|vm_compute; discriminate]. }
  destruct bound as [req|]; [|apply Hobj; [apply Hok; set_solver|vm_compute; discriminate]].
  destruct (_ || _); [apply Hobj; [apply Hok; set_solver|vm_compute; discriminate]|].
  destruct (MarkDispatched p _ _ st) as [[[]|e] st'].
  - eexists _, _. split; [reflexivity|]. split; [apply Hok; set_solver|vm_compute; discriminate].
  - assert (e = ErrUnknown ∨ e ≠ ErrUnknown) as [-> |Hne] by (destruct e; auto).
    + apply Hobj; [apply Hok; set_solver|vm_compute; discriminate].
    + exists 500%Z, (B_store_error e). split; [by destruct e|]. split; [apply Hok; set_solver|apply Herror].
Qed.

Lemma ack_json_fits pid hash :
  length pid ≤ 95 → length hash ≤ 79 → length (ack_json pid hash) < 256 ∧
  length (ack_request host port (ack_json pid hash)) < REQ_BUF_SIZE.
Proof.
  intros Hp Hh. destruct Hhost as [_ Hl]. pose proof (length_write_int port ltac:(lia)).
  assert (length (ack_json pid hash) ≤ 215) as Hj.
  { unfold ack_json. rewrite !length_app.
    repeat match goal with |- context [length (quoted ?s)] =>
      let n := eval vm_compute in (length (quoted s)) in change (length (quoted s)) with n end. lia. }
  split; [lia|]. pose proof (length_write_int (zlen (ack_json pid hash)) ltac:(unfold zlen; lia)) as Hn.
  assert (length (write_int (zlen (ack_json pid hash))) ≤ 21) by lia.
  unfold ack_request, REQ_BUF_SIZE, crlf. rewrite !length_app.
  repeat match goal with |- context [length (bytes_of (String ?a ?s))] =>
    let n := eval vm_compute in (length (bytes_of (String a s))) in
    change (length (bytes_of (String a s))) with n end. cbn [length]. lia.
Qed.

(** An acknowledgement reaches the gateway unless it is refused, and is confirmed if it
    is delivered. *)
Definition ack_store (w : station) (r : Receipt) : option (Store * list byte) :=
  match fate (gs_clock w) with
  | Refused => gs_store w
  | _ => ack fresh (plan (gs_clock w)) r (gs_store w)
  end.

Lemma ack_exchange w r :
  wire_receipt r →
  ∃ code, EgressPollClient_ack_dispatched host port (bytes_of (PaymentID r)) (bytes_of (SettlementTxHash r)) w =
    Some ((bool_decide (fate (gs_clock w) = Delivered), code), after_exchange w (ack_store w r)).
Proof.
  intros [(_ & Hh & Hb1 & Hb2 & _) _ _ _ _ _]. unfold EgressPaymentIdMaxLen, EgressTxHashMaxLen in *.
  rewrite !list.Forall_cons in Hh. destruct Hh as (H1 & H2 & _).
  destruct (ack_json_fits (bytes_of (PaymentID r)) (bytes_of (SettlementTxHash r)) ltac:(lia) ltac:(lia)) as [Hj Hr].
  unfold EgressPollClient_ack_dispatched, ack_store.
  rewrite (proj2 (Nat.leb_gt _ _)) by done. rewrite (proj2 (Nat.leb_gt _ _)) by done.
  unfold round_trip, exchange, station_peer.
  destruct (HandleEgressAck_answer (plan (gs_clock w)) (Some (ack_of r)) (gs_store w)) as (code & body & Ha & Hc & Hl).
  assert (gateway_serve (gs_clock w) (ack_request host port (ack_json (bytes_of (PaymentID r)) (bytes_of (SettlementTxHash r)))) (gs_store w) =
    (response_text (StatusText code) (date (gs_clock w)) code (body_json error_text body),
     ack fresh (plan (gs_clock w)) r (gs_store w))) as Hs.
  { unfold gateway_serve. rewrite ReadRequest_ack by (unfold zlen; lia).
    rewrite bool_decide_eq_false_2 by (intros [[=] _]). rewrite bool_decide_eq_true_2 by done.
    rewrite BindAck_ack_json by done. unfold answer. fold (ack_of r). by rewrite Ha. }
  destruct (fate (gs_clock w)) eqn:Hf.
  - rewrite undelivered by (by rewrite Hf). by eexists.
  - rewrite Hs. rewrite undelivered by (by rewrite Hf). by eexists.
  - rewrite Hs. rewrite delivered_answer by (done || lia). cbn [mbind option_bind].
    assert (payload (body_json error_text body) = body_json error_text body) as ->.
    { unfold payload, buffered, bufferBeforeChunkingSize. by rewrite (proj2 (Z.leb_le _ _)) by lia. }
    rewrite (proj2 (Z.ltb_ge _ _)) by done. by eexists.
Qed.

(** ** Forwarding a receipt *)
Definition receipt_frame (r : Receipt) : list byte := default [] (hex_bytes (bytes_of (PacketCHex r))).

Definition forwarded (r : Receipt) (w : station) : bool * station :=
  let frame := receipt_frame r in
  if radio_ok (gs_clock w) frame
  then (bool_decide (fate (gs_clock w) = Delivered),
        {| gs_store := ack_store w r; gs_radio := gs_radio w ++ [frame]; gs_clock := S (gs_clock w) |})
  else (false, w).

Lemma hex_text_c_string s : hex_text s → c_string (bytes_of s) = bytes_of s.
Proof.
  unfold hex_text. induction 1 as [|b l Hb _ IH]; [done|]. cbn [c_string].
  destruct (hex_text_byte_spec b Hb) as (_ & _ & _ & _ & Hn & _).
  destruct (byte_eqb_spec b x00); [done|]. by rewrite IH.
Qed.

Lemma forward_receipt r w :
  wire_receipt r →
  forward (H := EgressPollClient host port) (Some transmit) (field_bytes r) w = Some (forwarded r w).
Proof.
  intros Hr. pose proof Hr as [(_ & Hh & _) _ _ _ _ (frame & Hf & Hl)].
  rewrite !list.Forall_cons in Hh. destruct Hh as (H1 & H2 & _ & _ & H5 & _).
  unfold forward, field_bytes. rewrite !hex_text_c_string by done.
  unfold forwarded, receipt_frame. rewrite Hf, hex_bytes_encode, length_hex_encode, Hl. change (default [] (Some frame)) with frame.
  change (112 * 2) with 224. rewrite (proj2 (Nat.eqb_eq _ _)) by done. cbn [negb]. unfold transmit at 1.
  destruct (radio_ok (gs_clock w) frame); [|done]. cbn [negb].
  destruct (ack_exchange {| gs_store := gs_store w; gs_radio := gs_radio w ++ [frame]; gs_clock := gs_clock w |} r Hr)
    as [code E].
  cbn [ack_dispatched EgressPollClient]. rewrite E. done.
Qed.

Fixpoint forwarded_all (rs : list Receipt) (count : Z) (w : station) : Z * station :=
  match rs with
  | [] => (count, w)
  | r :: rs =>
      let '(counted, w) := forwarded r w in
      forwarded_all rs (if (counted : bool) then count + 1 else count)%Z w
  end.

Lemma forward_all_receipts rs count w :
  Forall wire_receipt rs →
  forward_all (H := EgressPollClient host port) (Some transmit) (field_bytes <$> rs) count w =
    Some (forwarded_all rs count w).
Proof.
  intros Hrs. revert count w. induction Hrs as [|r rs Hr _ IH]; intros count w; [done|].
  cbn [fmap list_fmap forward_all forwarded_all]. rewrite forward_receipt by done. cbn [mbind option_bind].
  destruct (forwarded r w) as [counted w']. apply IH.
Qed.

(** ** One poll *)
Variables (stack_recs : list EgressRecord) (stack_frame : list byte).
Context (Hframe : length stack_frame = EgressPacketCSize).
Context (Hrecs : length stack_recs = EgressMaxPerTick) (Hsized : Forall sized stack_recs).

Lemma chunked_is_no_array max body : pending max (chunked body) = None.
Proof.
  assert (∃ d t, chunked body = d :: t ∧ is_space d = false ∧ Byte.eqb d x5b = false) as (d & t & -> & Hsp & Hb).
  { unfold chunked, write_hex.
    assert (Forall (λ d, is_space d = false ∧ Byte.eqb d x5b = false) (reverse (hex_low 16 (zlen body))) ∧
            reverse (hex_low 16 (zlen body)) ≠ []) as [Hd Hne].
    - split.
      + apply Forall_reverse. generalize 16 (zlen body). induction n as [|n IH]; intros z; [constructor|].
        cbn [hex_low]. assert (∀ z, is_space (Ascii.byte_of_ascii (hex_digit (z mod 16))) = false ∧
          Byte.eqb (Ascii.byte_of_ascii (hex_digit (z mod 16))) x5b = false) as Hh.
        { intros y. pose proof (hex_digit_value (y mod 16) ltac:(apply Z.mod_pos_bound; lia)) as Hv.
          by destruct (Ascii.byte_of_ascii (hex_digit (y mod 16))). }
        destruct (z <? 16)%Z; repeat constructor; try apply Hh. apply IH.
      + intros E. apply (f_equal reverse) in E. rewrite reverse_involutive in E. cbn in E.
        by destruct (zlen body <? 16)%Z.
    - destruct Hd as [|d l [H1 H2] _]; [done|]. by exists d, (l ++ crlf ++ body ++ crlf ++ bytes_of "0" ++ crlf ++ crlf). }
  unfold pending. cbn [skip_space]. rewrite Hsp. destruct max; [done|]. by rewrite Hb.
Qed.

Lemma poll_spec w store disk :
  gs_store w = Some (store, disk) → Forall pending_wire (page_of store) →
  poll stack_recs stack_frame w =
    let w1 := after_exchange w (gs_store w) in
    Some (if bool_decide (fate (gs_clock w) = Delivered) && buffered (MarshalRecords (page_of store))
          then forwarded_all (page_of store) 0 w1 else ((-1)%Z, w1)).
Proof.
  intros Hst Hp. destruct (page_size _ Hp) as [Hsz _].
  assert (length (page_of store) ≤ 10) as Hlen by (unfold page_of; rewrite length_take; lia).
  unfold poll. pose proof (poll_fetch w store disk Hst ltac:(lia)) as Hfetch. cbn zeta.
  destruct (fate (gs_clock w)) eqn:Hf.
  - by rewrite (tick_spec (H := EgressPollClient host port) _ _ _ Hframe Hrecs Hsized _ _ _ _ _ Hfetch).
  - by rewrite (tick_spec (H := EgressPollClient host port) _ _ _ Hframe Hrecs Hsized _ _ _ _ _ Hfetch).
  - rewrite (tick_spec (H := EgressPollClient host port) _ _ _ Hframe Hrecs Hsized _ _ _ _ _ Hfetch). cbn [negb].
    change (200 =? 200)%Z with true. cbn [negb].
    rewrite (bool_decide_eq_true_2 (Delivered = Delivered)) by done. cbn [andb]. unfold payload.
    destruct (buffered _); [|by rewrite chunked_is_no_array].
    rewrite pending_MarshalRecords; [|eapply list.Forall_impl; [exact Hp|]; by intros r [[? _ _ _ _ _] _]|unfold EgressMaxPerTick; lia].
    rewrite take_ge by (rewrite length_fmap; unfold EgressMaxPerTick; lia).
    apply forward_all_receipts. eapply list.Forall_impl; [exact Hp|]. by intros r [].
Qed.

(** ** The store behind the polls *)
Definition all_wire (store : Store) : Prop := Forall wire_receipt (contents store).

Lemma wire_set_status r s :
  wire_receipt r → s = StatusPending ∨ s = StatusDispatched → wire_receipt (set_DispatchStatus s r).
Proof.
  intros [(Hj & Hr) ? ? ? ? ?] Hs. split; try done. split; [|done].
  destruct Hs as [-> | ->]; [apply (@codec_pending json_codec _ _ Hj)|apply (@codec_dispatched json_codec _ _ Hj)].
Qed.

Lemma all_wire_pending store : all_wire store → Forall pending_wire (page_of store).
Proof.
  intros Hw. apply Forall_take, list.Forall_forall. intros r [Hs Hr]%log_pending_elem.
  split; [|done]. by eapply list.Forall_forall.
Qed.

Lemma all_wire_dispatch store key : all_wire store → Forall wire_receipt (log_dispatch key (contents store)).
Proof.
  intros Hw. unfold log_dispatch. apply Forall_fmap. eapply list.Forall_impl; [exact Hw|].
  intros r Hr. cbn. destruct (decide _); [apply wire_set_status; auto|done].
Qed.

(** An acknowledgement at the gateway: nothing, or the receipt is dispatched. *)
Lemma ack_effect p r store disk :
  store_wf store → all_wire store →
  ∃ store' disk', ack fresh p r (Some (store, disk)) = Some (store', disk') ∧ store_wf store' ∧ all_wire store' ∧
    (contents store' = contents store ∨ contents store' = log_dispatch (key_of r) (contents store)).
Proof.
  intros Hwf Hw. unfold ack, HandleEgressAck. cbn [eg_store eg_ctx ack_of Ack_PaymentID Ack_SettlementTxHash].
  destruct (_ || _); [exists store, disk; by split_and!; [..|left]|].
  pose proof (MarkDispatched_log p (PaymentID r) (SettlementTxHash r) store disk Hwf) as Hlog.
  destruct (MarkDispatched p _ _ (store, disk)) as [a [store' disk']]. destruct Hlog as (Hwf' & _ & _ & Hc).
  exists store', disk'. split; [by destruct a as [[]|[]]|]. split; [done|]. fold (key_of r) in Hc.
  unfold all_wire. rewrite Hc. destruct (is_ok a).
  - split; [by apply all_wire_dispatch|by right].
  - split; [done|by left].
Qed.

Lemma NoDup_fmap_inj_elem {A B} (f : A → B) l x y :
  NoDup (f <$> l) → x ∈ l → y ∈ l → f x = f y → x = y.
Proof.
  intros Hnd [i Hi]%list_elem_of_lookup [j Hj]%list_elem_of_lookup E.
  assert (i = j) as ->; [|congruence].
  eapply (NoDup_lookup (f <$> l) _ _ (f x)); [done|..]; rewrite list_lookup_fmap; [by rewrite Hi|by rewrite Hj, E].
Qed.

(** Forwarding acknowledges no receipt but one whose frame the radio took. *)
Lemma forwarded_safe orig page count w store disk :
  NoDup (key_of <$> orig) → Forall (.∈ orig) page → gs_store w = Some (store, disk) → store_wf store →
  all_wire store → log_pending (contents store) ⊆ orig →
  ∃ sent store' disk', let w' := (forwarded_all page count w).2 in
    gs_radio w' = gs_radio w ++ sent ∧ gs_store w' = Some (store', disk') ∧ store_wf store' ∧ all_wire store' ∧
    ∀ r, r ∈ log_pending (contents store) → r ∈ log_pending (contents store') ∨ receipt_frame r ∈ sent.
Proof.
  intros Hnd Hpage. revert count w store disk.
  induction Hpage as [|r page Hr Hpage IH]; intros count w store disk Hst Hwf Hw Hsub; cbn [forwarded_all].
  { exists [], store, disk. cbn. rewrite app_nil_r. by split_and!; [..|left]. }
  unfold forwarded. destruct (radio_ok (gs_clock w) (receipt_frame r)); [|by eapply IH].
  assert (∃ store1 disk1, ack_store w r = Some (store1, disk1) ∧ store_wf store1 ∧ all_wire store1 ∧
    (contents store1 = contents store ∨ contents store1 = log_dispatch (key_of r) (contents store)))
    as (store1 & disk1 & E & Hwf1 & Hw1 & Hc).
  { unfold ack_store. rewrite Hst. destruct (fate (gs_clock w)); [|by apply ack_effect..].
    exists store, disk. by split_and!; [..|left]. }
  assert (log_pending (contents store1) ⊆ log_pending (contents store)) as Hsub1.
  { destruct Hc as [-> | ->]; [done|]. rewrite log_pending_dispatch. intros x [_ Hx]%list_elem_of_filter. done. }
  destruct (IH (if bool_decide (fate (gs_clock w) = Delivered) then count + 1 else count)%Z
    {| gs_store := ack_store w r; gs_radio := gs_radio w ++ [receipt_frame r]; gs_clock := S (gs_clock w) |}
    store1 disk1 E Hwf1 Hw1 ltac:(by etrans)) as (sent & store' & disk' & Hrad & Hst' & Hwf' & Hw' & Hall).
  exists (receipt_frame r :: sent), store', disk'. cbn zeta. rewrite Hrad. cbn [gs_radio].
  rewrite <- app_assoc. split_and!; [done|done|done|done|].
  intros x Hx. destruct (decide (x ∈ log_pending (contents store1))) as [Hx1|Hx1].
  - destruct (Hall x Hx1); [by left|right; by right].
  - right. apply elem_of_cons. left. destruct Hc as [Hc | Hc]; rewrite Hc in Hx1; [done|].
    rewrite log_pending_dispatch, list_elem_of_filter in Hx1.
    assert (key_of x = key_of r) as Hk by (apply dec_stable; intros Hk; by apply Hx1).
    f_equal. apply (NoDup_fmap_inj_elem key_of orig); [done|by apply Hsub|exact Hr|done].
Qed.

(** Network, disk and radio all work. *)
Definition link_works : Prop := ∀ n, fate n = Delivered ∧ good_io (plan n) ∧ ∀ f, radio_ok n f = true.

Lemma forwarded_works page rest count w store disk :
  link_works → gs_store w = Some (store, disk) → drainable store disk →
  log_pending (contents store) = page ++ rest →
  ∃ w' store' disk', forwarded_all page count w = ((count + Z.of_nat (length page))%Z, w') ∧
    gs_radio w' = gs_radio w ++ (receipt_frame <$> page) ∧
    gs_store w' = Some (store', disk') ∧ drainable store' disk' ∧ log_pending (contents store') = rest.
Proof.
  intros Hworks. revert count w store disk.
  induction page as [|r page IH]; intros count w store disk Hst Hd Hp; cbn [forwarded_all].
  { exists w, store, disk. cbn. rewrite app_nil_r, Z.add_0_r. by split_and!. }
  destruct (Hworks (gs_clock w)) as (Hf & Hio & Hradio).
  unfold forwarded, ack_store. rewrite Hradio, Hf, Hst. cbn iota.
  rewrite (bool_decide_eq_true_2 (Delivered = Delivered)) by done.
  destruct (ack_head fresh (plan (gs_clock w)) store disk r (page ++ rest) Hd Hio Hp) as (s1 & d1 & -> & Hd1 & Hp1).
  destruct (IH (count + 1)%Z {| gs_store := Some (s1, d1); gs_radio := gs_radio w ++ [receipt_frame r];
    gs_clock := S (gs_clock w) |} s1 d1 eq_refl Hd1 Hp1) as (w' & s' & d' & -> & Hr & Hs' & Hd' & Hp').
  exists w', s', d'. split; [f_equal; cbn [length]; lia|]. rewrite Hr. cbn [gs_radio fmap list_fmap].
  by rewrite <- app_assoc.
Qed.

(** ** What else happens to the store *)
Inductive ground_event :=
  | G_poll
  | G_append (p : io) (r : Receipt)
  | G_close (ok : bool).

Definition ground_step (w : station) (e : ground_event) : option station :=
  let on_store c := {| gs_store := run_cmd c <$> gs_store w; gs_radio := gs_radio w; gs_clock := gs_clock w |} in
  match e with
  | G_poll => snd <$> poll stack_recs stack_frame w
  | G_append p r => Some (on_store (C_Append p r))
  | G_close ok => Some (on_store (C_Close ok))
  end.

Definition ground_run (w : station) (es : list ground_event) : option station :=
  foldl (λ w e, w ← w; ground_step w e) (Some w) es.

Definition event_wired (e : ground_event) : Prop :=
  match e with G_append _ r => wire_receipt r | _ => True end.

(** A store with at least [k] pending receipts, of which the first are those of [log]. *)
Record holding (log : list Receipt) (w : station) (store : Store) (disk : list byte) : Prop := {
  ho_store : gs_store w = Some (store, disk);
  ho_wf : store_wf store;
  ho_wire : all_wire store;
  ho_pending : log `prefix_of` log_pending (contents store);
}.

Lemma run_cmd_holding log w store disk e c :
  holding log w store disk → event_wired e →
  (∃ p r, e = G_append p r ∧ c = C_Append p r) ∨ (∃ ok, c = C_Close ok) →
  store_wf (run_cmd c (store, disk)).1 ∧ all_wire (run_cmd c (store, disk)).1 ∧
  log `prefix_of` log_pending (contents (run_cmd c (store, disk)).1).
Proof.
  intros [_ Hwf Hw Hp] He [(p & r & -> & ->) | [ok ->]]; cbn [run_cmd].
  - pose proof (Append_log p r store disk Hwf) as Hlog.
    destruct (Append p r (store, disk)) as [a [s' d']]. destruct Hlog as (Hwf' & _ & _ & _ & Hc).
    cbn [snd fst]. split; [done|]. unfold all_wire. rewrite Hc. destruct (is_ok a); [|done].
    unfold log_append. split.
    + apply Forall_app. split; [done|]. apply list.Forall_cons. split; [|by apply list.Forall_nil].
      unfold default_pending. cbn in He. destruct (String.eqb _ _); [apply wire_set_status; auto|done].
    + unfold log_pending. rewrite list.filter_app. by apply prefix_app_r.
  - unfold Close. cbn [fst]. destruct (file store); cbn [negb snd]; [|done]. by destruct Hwf.
Qed.

Lemma five_are_too_many store :
  all_wire store → 5 ≤ length (log_pending (contents store)) → buffered (MarshalRecords (page_of store)) = false.
Proof.
  intros Hw Hl. destruct (page_size _ (all_wire_pending store Hw)) as [_ Hsz].
  assert (5 ≤ length (page_of store)) by (unfold page_of; rewrite length_take; lia).
  unfold buffered, bufferBeforeChunkingSize. apply Z.leb_gt. lia.
Qed.

Lemma ground_step_stuck log w store disk e :
  5 ≤ length log → holding log w store disk → event_wired e →
  ∃ w' store' disk', ground_step w e = Some w' ∧ gs_radio w' = gs_radio w ∧ holding log w' store' disk'.
Proof.
  intros Hlog Hh He. pose proof Hh as [Hst Hwf Hw Hp].
  assert (∀ c, (∃ p r, e = G_append p r ∧ c = C_Append p r) ∨ (∃ ok, c = C_Close ok) →
    ∃ store' disk', holding log {| gs_store := run_cmd c <$> gs_store w; gs_radio := gs_radio w; gs_clock := gs_clock w |}
      store' disk') as Hcmd.
  { intros c Hc. destruct (run_cmd_holding log w store disk e c Hh He Hc) as (H1 & H2 & H3).
    exists (run_cmd c (store, disk)).1, (run_cmd c (store, disk)).2. split; [|done..].
    cbn [gs_store]. rewrite Hst. cbn. by destruct (run_cmd c (store, disk)). }
  destruct e as [|p r|ok]; cbn [ground_step].
  - rewrite (poll_spec w store disk Hst (all_wire_pending store Hw)). cbn zeta.
    rewrite five_are_too_many by (done || (apply prefix_length in Hp; lia)). rewrite andb_false_r.
    by exists (after_exchange w (gs_store w)), store, disk.
  - destruct (Hcmd (C_Append p r)) as (s' & d' & Hh'); [by left; eauto|]. by eexists _, s', d'.
  - destruct (Hcmd (C_Close ok)) as (s' & d' & Hh'); [by right; eauto|]. by eexists _, s', d'.
Qed.

Lemma ground_run_stuck log w store disk es :
  5 ≤ length log → holding log w store disk → Forall event_wired es →
  ∃ w' store' disk', ground_run w es = Some w' ∧ gs_radio w' = gs_radio w ∧ holding log w' store' disk'.
Proof.
  intros Hlog Hh Hes. unfold ground_run. revert w store disk Hh.
  induction Hes as [|e es He _ IH]; intros w store disk Hh; cbn [foldl]; [by exists w, store, disk|].
  destruct (ground_step_stuck log w store disk e Hlog Hh He) as (w1 & s1 & d1 & E & Hr1 & Hh1).
  cbn [mbind option_bind]. rewrite E. destruct (IH w1 s1 d1 Hh1) as (w' & s' & d' & Hrun & Hr & Hh').
  exists w', s', d'. split_and!; [exact Hrun|by rewrite Hr|done].
Qed.

(** ** Properties *)

(** C7. End to end, the ground station delivers. With a working network, disk and radio, one
    poll of a page that [net/http] does not chunk (two receipts always make such a page)
    transmits the frame of each of its receipts, oldest first, in 112 bytes as the
    processor built them, and acknowledges each: exactly these stop being pending. *)
Theorem poll_delivers w store disk :
  link_works → gs_store w = Some (store, disk) → drainable store disk → all_wire store →
  length (log_pending (contents store)) ≤ 2 ∨
    (zlen (MarshalRecords (page_of store)) <= bufferBeforeChunkingSize)%Z →
  ∃ w' store' disk',
    poll stack_recs stack_frame w = Some (Z.of_nat (length (page_of store)), w') ∧
    gs_radio w' = gs_radio w ++ (receipt_frame <$> page_of store) ∧
    gs_store w' = Some (store', disk') ∧ drainable store' disk' ∧
    log_pending (contents store') = drop 10 (log_pending (contents store)).
Proof.
  intros Hworks Hst Hd Hw Hsmall. pose proof (all_wire_pending store Hw) as Hpw.
  rewrite (poll_spec w store disk Hst Hpw). cbn zeta.
  assert (buffered (MarshalRecords (page_of store)) = true) as ->.
  { apply Z.leb_le. destruct Hsmall as [Hl|]; [|done]. destruct (page_size _ Hpw) as [Hsz _].
    assert (length (page_of store) ≤ 2) by (unfold page_of; rewrite length_take; lia).
    unfold bufferBeforeChunkingSize. lia. }
  rewrite bool_decide_eq_true_2 by apply Hworks. cbn [andb].
  destruct (forwarded_works (page_of store) (drop 10 (log_pending (contents store))) 0
    (after_exchange w (gs_store w)) store disk Hworks Hst Hd) as (w' & s' & d' & -> & Hr & Hs' & Hd' & Hp').
  { unfold page_of. by rewrite take_drop. }
  by exists w', s', d'.
Qed.

(** C9. A backlog is never delivered. Once five receipts are pending, their page is over
    2048 bytes, [net/http] answers in chunks, and the ground station takes the length of
    the first chunk for the body: every poll fails, on any network, disk and radio.
    Whatever polls, appends and closes follow, no frame is transmitted and all those
    receipts stay pending. *)
Theorem backlog_never_drains w store disk es :
  gs_store w = Some (store, disk) → store_wf store → all_wire store →
  5 ≤ length (log_pending (contents store)) → Forall event_wired es →
  ∃ w' store' disk', ground_run w es = Some w' ∧ gs_radio w' = gs_radio w ∧
    gs_store w' = Some (store', disk') ∧
    log_pending (contents store) `prefix_of` log_pending (contents store').
Proof.
  intros Hst Hwf Hw Hl Hes.
  destruct (ground_run_stuck (log_pending (contents store)) w store disk es) as (w' & s' & d' & -> & Hr & Hs');
    [done|by split|done|].
  exists w', s', d'. by destruct Hs'.
Qed.

(** C8. No receipt is acknowledged unheard. On any network, with any losses of requests and
    answers (as [NetworkLaws] has them), any failures of the disk and any refusals of the radio, a poll ends, and
    a receipt that was pending and no longer is had its frame transmitted in it. *)
Theorem poll_acknowledges_transmitted w store disk :
  gs_store w = Some (store, disk) → store_wf store → all_wire store →
  ∃ n w' sent store' disk', poll stack_recs stack_frame w = Some (n, w') ∧
    gs_radio w' = gs_radio w ++ sent ∧ gs_store w' = Some (store', disk') ∧ store_wf store' ∧
    ∀ r, r ∈ log_pending (contents store) → r ∈ log_pending (contents store') ∨ receipt_frame r ∈ sent.
Proof.
  intros Hst Hwf Hw. rewrite (poll_spec w store disk Hst (all_wire_pending store Hw)). cbn zeta.
  destruct (_ && _).
  - destruct (forwarded_safe (log_pending (contents store)) (page_of store) 0 (after_exchange w (gs_store w))
      store disk) as (sent & s' & d' & Hr & Hs' & Hwf' & _ & Hall); try done.
    + eapply sublist_NoDup; [by apply log_keys_nodup|]. apply fmap_sublist, sublist_filter.
    + by apply Forall_take, list.Forall_forall.
    + destruct (forwarded_all _ _ _) as [n w'] eqn:E. by exists n, w', sent, s', d'.
  - exists (-1)%Z, (after_exchange w (gs_store w)), [], store, disk. cbn. rewrite app_nil_r.
    by split_and!; [..|left].
Qed.
End Link.

(** ** Witnesses *)

(** A network that works, one byte at a time. *)
#[local] Instance demo_network : Network := {|
  fate n := Delivered;
  socket n req resp := {| cn_connects := true; cn_sends := [zlen req]; cn_chunks := (λ b, [b]) <$> resp;
                          cn_closed := true |};
|}.

#[local] Instance demo_network_laws : NetworkLaws.
Proof.
  split; [done|done|]. intros n req resp _. split; cbn [cn_connects cn_sends cn_chunks cn_closed socket demo_network].
  - done.
  - cbn [send_all]. destruct (Z.leb_spec (zlen req) 0); [done|].
    rewrite Z.add_0_l. destruct (Z.leb_spec (zlen req) (zlen req)); [done|lia].
  - induction resp as [|b resp IH]; [done|]. cbn [fmap list_fmap concat app]. by rewrite IH.
  - apply Forall_fmap, list.Forall_forall. intros b _. cbn. unfold zlen, RECV_CHUNK. cbn. lia.
  - done.
Qed.

Definition wire_demo (id : string) : Receipt :=
  {| PaymentID := id; SettlementTxHash := "0x" +:+ hex_encode (replicate 32 xab); RecSatID := 0xCAFEBABE;
     RecAmount := "420"; RecAssetID := 1; RecWallet := "0x" +:+ hex_encode (replicate 20 x11);
     PacketCHex := hex_encode (replicate 112 x5a); RecBlockNumber := 7; TsMs := 1710000006000;
     DispatchStatus := StatusPending |}.

Definition demo_commands (ids : list string) : list store_cmd := (λ id, C_Append io_good (wire_demo id)) <$> ids.
Definition demo_store (ids : list string) : Store * list byte :=
  foldl (λ st c, run_cmd c st) (empty_store, []) (demo_commands ids).
Definition demo_station (ids : list string) : station :=
  {| gs_store := Some (demo_store ids); gs_radio := []; gs_clock := 0 |}.

Definition demo_host : list byte := bytes_of "127.0.0.1".
Definition demo_date (n : nat) : list byte := bytes_of "Tue, 21 Apr 2026 12:00:00 GMT".

Lemma demo_conditions :
  plain_host demo_host ∧ (0 <= 8080 < 65536)%Z ∧
  (∀ n, plain_text (demo_date n) ∧ length (demo_date n) ≤ 100) ∧
  (∀ e, (zlen (body_json (λ _, "disk full"%string) (B_store_error e)) <= 1024)%Z) ∧
  length (replicate EgressPacketCSize xff) = EgressPacketCSize ∧
  length (replicate EgressMaxPerTick blank_record) = EgressMaxPerTick ∧
  Forall sized (replicate EgressMaxPerTick blank_record).
Proof.
  split_and!.
  - split; [apply (bool_decide_unpack _); vm_compute; exact I|cbn; lia].
  - lia.
  - lia.
  - intros n. split; [apply (bool_decide_unpack _); vm_compute; exact I|cbn; lia].
  - intros []; vm_compute; discriminate.
  - reflexivity.
  - reflexivity.
  - by apply Forall_replicate.
Qed.

Lemma wire_demo_receipt id :
  id ∈ ["1"; "2"; "3"; "4"; "5"]%string → wire_receipt (wire_demo id) ∧ codec_ok (wire_demo id).
Proof.
  intros Hid. assert (scannable (wire_demo id) ∧ length (bytes_of id) = 1) as [Hs Hl].
  { repeat (apply elem_of_cons in Hid as [-> | Hid];
      [split; [apply (bool_decide_unpack _); vm_compute; exact I|reflexivity]|]).
    by apply list.elem_of_nil in Hid. }
  split; [|exact (proj1 Hs)]. split; [done|cbn [wire_demo PaymentID]; lia|reflexivity|cbn; lia|reflexivity|].
  by exists (replicate 112 x5a).
Qed.

Lemma demo_store_synced ids st :
  Forall (.∈ ["1"; "2"; "3"; "4"; "5"]%string) ids → synced st.1 st.2 →
  synced (foldl (λ st c, run_cmd c st) st (demo_commands ids)).1
    (foldl (λ st c, run_cmd c st) st (demo_commands ids)).2.
Proof.
  intros Hids. revert st. induction Hids as [|id ids Hid _ IH]; intros st Hst; [exact Hst|].
  cbn [demo_commands fmap list_fmap foldl]. apply IH. destruct st as [s d].
  apply run_cmd_synced; [exact Hst|]. split; [by apply wire_demo_receipt|by right].
Qed.

(** The stations with two and with five pending receipts. *)
Lemma demo_station_ok ids (store := (demo_store ids).1) (disk := (demo_store ids).2) :
  ids = ["1"; "2"]%string ∨ ids = ["1"; "2"; "3"; "4"; "5"]%string →
  gs_store (demo_station ids) = Some (store, disk) ∧ log_pending (contents store) = wire_demo <$> ids ∧
  drainable store disk ∧ all_wire store ∧ store_wf store.
Proof.
  intros Hids.
  assert (Forall (.∈ ["1"; "2"; "3"; "4"; "5"]%string) ids) as Hin.
  { apply (bool_decide_unpack _). by destruct Hids as [-> | ->]. }
  assert (contents store = wire_demo <$> ids ∧ file store = true) as [Hc Hf].
  { unfold store. apply (bool_decide_unpack _). by destruct Hids as [-> | ->]; vm_compute. }
  assert (synced store disk) as Hs.
  { apply (demo_store_synced ids (empty_store, []) Hin). exists []. split; [exact file_of_nil|by split]. }
  split_and!; [|by rewrite Hc; destruct Hids as [-> | ->]|split; [done|done|]| |by eapply synced_wf].
  - cbn [gs_store demo_station]. unfold store, disk. by destruct (demo_store ids).
  - rewrite Hc. apply Forall_fmap. eapply list.Forall_impl; [exact Hin|]. intros id Hid. cbn. split; [|done].
    repeat (apply elem_of_cons in Hid as [-> | Hid]; [done|]). by apply list.elem_of_nil in Hid.
  - unfold all_wire. rewrite Hc. apply Forall_fmap. eapply list.Forall_impl; [exact Hin|].
    intros id Hid. by apply wire_demo_receipt.
Qed.

Definition demo_poll (ids : list string) : option (Z * station) :=
  poll (λ _, io_good) demo_date (λ _ _, true) (λ _, "disk full"%string) [] demo_host 8080
    (replicate EgressMaxPerTick blank_record) (replicate EgressPacketCSize xff) (demo_station ids).

Lemma poll_delivers_witness :
  ∃ w', demo_poll ["1"; "2"] = Some (2%Z, w') ∧ gs_radio w' = [replicate 112 x5a; replicate 112 x5a].
Proof.
  destruct demo_conditions as (C1 & C2 & C3 & C4 & C5 & C6 & C7).
  destruct (demo_station_ok ["1"; "2"]%string) as (E & Hp & Hd & Hw & Hwf); [by (left + right)|].
  destruct (poll_delivers (λ _, io_good) demo_date (λ _ _, true) (λ _, "disk full"%string) [] demo_host 8080
    C1 C2 C3 C4 (replicate EgressMaxPerTick blank_record) (replicate EgressPacketCSize xff) C5 C6 C7
    (demo_station ["1"; "2"]) (demo_store ["1"; "2"]%string).1 (demo_store ["1"; "2"]%string).2) as (w' & store' & disk' & Hr & Hrad & _).
  - intros n. split; [reflexivity|]. split; [split; reflexivity|reflexivity].
  - exact E.
  - exact Hd.
  - exact Hw.
  - left. rewrite Hp. cbn. lia.
  - exists w'. split.
    + unfold demo_poll. rewrite Hr. unfold page_of. rewrite Hp. reflexivity.
    + rewrite Hrad. unfold page_of. rewrite Hp. vm_compute. reflexivity.
Defined.

Lemma backlog_never_drains_witness :
  ∃ w', ground_run (λ _, io_good) demo_date (λ _ _, true) (λ _, "disk full"%string) [] demo_host 8080
      (replicate EgressMaxPerTick blank_record) (replicate EgressPacketCSize xff)
      (demo_station ["1"; "2"; "3"; "4"; "5"]) [G_poll; G_close true; G_poll] = Some w' ∧ gs_radio w' = [].
Proof.
  destruct demo_conditions as (C1 & C2 & C3 & C4 & C5 & C6 & C7).
  destruct (demo_station_ok ["1"; "2"; "3"; "4"; "5"]%string) as (E & Hp & Hd & Hw & Hwf); [by (left + right)|].
  destruct (backlog_never_drains (λ _, io_good) demo_date (λ _ _, true) (λ _, "disk full"%string) [] demo_host 8080
    C1 C2 C3 C4 (replicate EgressMaxPerTick blank_record) (replicate EgressPacketCSize xff) C5 C6 C7
    (demo_station ["1"; "2"; "3"; "4"; "5"]) (demo_store ["1"; "2"; "3"; "4"; "5"]%string).1
    (demo_store ["1"; "2"; "3"; "4"; "5"]%string).2 [G_poll; G_close true; G_poll])
    as (w' & store' & disk' & Hr & Hrad & _).
  - exact E.
  - exact Hwf.
  - exact Hw.
  - rewrite Hp. cbn. lia.
  - repeat constructor.
  - exists w'. split; [exact Hr|]. rewrite Hrad. reflexivity.
Defined.

Lemma poll_acknowledges_transmitted_witness :
  ∃ n w', poll (λ _, io_good) demo_date (λ _ _, false) (λ _, "disk full"%string) [] demo_host 8080
      (replicate EgressMaxPerTick blank_record) (replicate EgressPacketCSize xff)
      (demo_station ["1"; "2"]) = Some (n, w').
Proof.
  destruct demo_conditions as (C1 & C2 & C3 & C4 & C5 & C6 & C7).
  destruct (demo_station_ok ["1"; "2"]%string) as (E & Hp & Hd & Hw & Hwf); [by (left + right)|].
  destruct (poll_acknowledges_transmitted (λ _, io_good) demo_date (λ _ _, false) (λ _, "disk full"%string) []
    demo_host 8080 C1 C2 C3 C4 (replicate EgressMaxPerTick blank_record) (replicate EgressPacketCSize xff) C5 C6 C7
    (demo_station ["1"; "2"]) _ _ E Hwf Hw) as (n & w' & _ & _ & _ & Hr & _).
  exists n, w'. exact Hr.
Defined.
