(* ===== verification/PacketBuilders.v ===== *)
(** * The packet builders of the ground station and of the firmware

    Models [ground-station/src/ack_builder.cpp], which builds the acknowledgement of a
    payment, and [void-core/src/packet_d_builder.cpp], which builds the delivery of a
    receipt, with their own copies of the store helpers and of the CRC. A cursor is the
    output buffer and the offset; every store is checked.

    The frames they build are proved to be frames of the gateway's format ([Frames]),
    with the inputs as their fields and a checksum its gate accepts, and for the inputs
    of the golden vectors the output of the Go generator. *)
From S2P Require Export CBuffer Frames Crc32.
From S2P Require Import Generator Golden Builder.
#[local] Open Scope Z_scope.

(** ** Stores *)
Definition cursor : Type := list byte * nat.

(** [dst[off++] = static_cast<uint8_t>(v)] *)
Definition put_byte (v : Z) (c : cursor) : option cursor :=
  out ← wr c.1 c.2 (byte_of_Z v); Some (out, S c.2).

Definition WriteU16LE (v : Z) (c : cursor) : option cursor :=
  c ← put_byte (Z.land v 0xFF) c;
  put_byte (Z.land (Z.shiftr v 8) 0xFF) c.

Definition WriteU32LE (v : Z) (c : cursor) : option cursor :=
  c ← put_byte (Z.land v 0xFF) c;
  c ← put_byte (Z.land (Z.shiftr v 8) 0xFF) c;
  c ← put_byte (Z.land (Z.shiftr v 16) 0xFF) c;
  put_byte (Z.land (Z.shiftr v 24) 0xFF) c.

(** The loop over [i] from 0 to 7. *)
Fixpoint write_le_loop (n : nat) (i : Z) (v : Z) (c : cursor) : option cursor :=
  match n with
  | O => Some c
  | S n => c ← put_byte (Z.land (Z.shiftr v (8 * i)) 0xFF) c; write_le_loop n (i + 1) v c
  end.

Definition WriteU64LE (v : Z) (c : cursor) : option cursor := write_le_loop 8 0 v c.

Definition WriteU16BE (v : Z) (c : cursor) : option cursor :=
  c ← put_byte (Z.land (Z.shiftr v 8) 0xFF) c;
  put_byte (Z.land v 0xFF) c.

Definition WriteU32BE (v : Z) (c : cursor) : option cursor :=
  c ← put_byte (Z.land (Z.shiftr v 24) 0xFF) c;
  c ← put_byte (Z.land (Z.shiftr v 16) 0xFF) c;
  c ← put_byte (Z.land (Z.shiftr v 8) 0xFF) c;
  put_byte (Z.land v 0xFF) c.

(** [std::memcpy(&out[off], src, n); off += n] *)
Definition put_range (src : list byte) (n : nat) (c : cursor) : option cursor :=
  src ← rd_range src 0 n;
  out ← wr_range c.1 c.2 src;
  Some (out, c.2 + n)%nat.

(** ** The CRC *)
Definition crc_round (crc : Z) : Z :=
  let mask := u32 (- Z.land crc 1) in
  Z.lxor (Z.shiftr crc 1) (Z.land 0xEDB88320 mask).

Definition Crc32Ieee (data : list byte) : Z :=
  let crc := foldl (λ crc b, Nat.iter 8 crc_round (Z.lxor crc (byte_to_Z b))) 0xFFFFFFFF data in
  u32 (Z.lnot crc).

(** ** [ack_builder] *)
Definition kSnlpSyncWord : Z := 0x1D01A5A5.
Definition kApidSatB : Z := 101.
Definition kSeqFlags : Z := 0xC000.
Definition kSnlpAckBodyLen : Z := 122.
Definition kPacketAckSize : nat := 136.
Definition kEncTunnelSize : nat := 96.
Definition kPacketAckMagic : Z := 0xAC.
Definition kAckStatusVerified : Z := 0x01.

Definition ack_IdField (apid : Z) : Z :=
  u16 (Z.lor (Z.lor (Z.shiftl 1 12) (Z.shiftl 1 11)) (Z.land apid 0x7FF)).

Record AckInputs := {
  target_tx_id : Z;
  ack_status : Z;
  ack_azimuth : Z;
  ack_elevation : Z;
  frequency_hz : Z;
  duration_ms : Z;
  enc_tunnel : list byte;
}.

(** The offset after the checked part, and the checksum of what is before it. *)
Definition put_crc (c : cursor) : option cursor :=
  data ← rd_range c.1 0 c.2;
  WriteU32LE (Crc32Ieee data) c.

Definition ack_build (inp : AckInputs) (out : option (list byte)) (out_cap : nat)
    : option (bool * option (list byte)) :=
  match out with
  | None => Some (false, None)
  | Some buf =>
      if (out_cap <? kPacketAckSize)%nat then Some (false, out) else
      buf ← wr_range buf 0 (replicate kPacketAckSize x00);
      c ← WriteU32BE kSnlpSyncWord (buf, 0%nat);
      c ← WriteU16BE (ack_IdField kApidSatB) c;
      c ← WriteU16BE kSeqFlags c;
      c ← WriteU16BE (u16 (kSnlpAckBodyLen - 1)) c;
      c ← WriteU32BE 0 c;
      c ← put_byte kPacketAckMagic c;
      c ← put_byte 0 c;
      c ← WriteU32LE (target_tx_id inp) c;
      c ← put_byte (ack_status inp) c;
      c ← put_byte 0 c;
      c ← WriteU16LE (ack_azimuth inp) c;
      c ← WriteU16LE (ack_elevation inp) c;
      c ← WriteU32LE (frequency_hz inp) c;
      c ← WriteU32LE (duration_ms inp) c;
      c ← put_range (enc_tunnel inp) kEncTunnelSize c;
      c ← put_byte 0 c;
      c ← put_byte 0 c;
      c ← put_crc c;
      Some (c.2 =? kPacketAckSize, Some c.1)%nat
  end.

(** ** [packet_d_builder] *)
Definition kSnlpDBodyLen : Z := 122.
Definition kPacketDSize : nat := 136.
Definition kPayloadSize : nat := 98.
Definition kPacketDMagic : Z := 0xD0.

Definition d_IdField (apid : Z) : Z := u16 (Z.lor (Z.shiftl 1 11) (Z.land apid 0x7FF)).

Record DeliveryInputs := {
  downlink_ts : Z;
  sat_b_id : Z;
  d_payload : list byte;
}.

Definition d_build (inp : DeliveryInputs) (out : option (list byte)) (out_cap : nat)
    : option (bool * option (list byte)) :=
  match out with
  | None => Some (false, None)
  | Some buf =>
      if (out_cap <? kPacketDSize)%nat then Some (false, out) else
      buf ← wr_range buf 0 (replicate kPacketDSize x00);
      c ← WriteU32BE kSnlpSyncWord (buf, 0%nat);
      c ← WriteU16BE (d_IdField kApidSatB) c;
      c ← WriteU16BE kSeqFlags c;
      c ← WriteU16BE (u16 (kSnlpDBodyLen - 1)) c;
      c ← WriteU32BE 0 c;
      c ← put_byte kPacketDMagic c;
      c ← put_byte 0 c;
      c ← WriteU64LE (downlink_ts inp) c;
      c ← WriteU32LE (sat_b_id inp) c;
      c ← put_range (d_payload inp) kPayloadSize c;
      c ← put_crc c;
      let off := (c.2 + 6)%nat in
      Some (off =? kPacketDSize, Some c.1)%nat
  end.

(** ** Cursors *)

(** [writes f bs]: [f] stores the bytes [bs] at the offset and moves behind them, where
    they fit. *)
Definition writes (f : cursor → option cursor) (bs : list byte) : Prop :=
  ∀ done rest, (length bs ≤ length rest)%nat →
    f (done ++ rest, length done) = Some ((done ++ bs) ++ drop (length bs) rest, length (done ++ bs)).

Lemma writes_byte v : writes (put_byte v) [byte_of_Z v].
Proof.
  intros don rest Hr. unfold put_byte. cbn [fst snd].
  assert (rest ≠ []) as Hne by (intros E; rewrite E in Hr; cbn [length] in Hr; lia).
  rewrite (wr_next don rest _ (length don) eq_refl Hne).
  cbn [mbind option_bind length]. do 2 f_equal. rewrite length_app. cbn [length]. lia.
Qed.

Lemma writes_then f g bs cs :
  writes f bs → writes g cs → writes (λ c, c ← f c; g c) (bs ++ cs).
Proof.
  intros Hf Hg don rest Hr. rewrite length_app in Hr. rewrite Hf by lia. cbn [mbind option_bind].
  rewrite Hg by len. by rewrite drop_drop, (app_assoc don), (length_app bs cs).
Qed.

Lemma writes_eq f bs cs : writes f bs → bs = cs → writes f cs.
Proof. by intros ? <-. Qed.

(** A sequence of stores writes the bytes of its parts. *)
#[local] Ltac writes := repeat first [eassumption | apply writes_byte | eapply writes_then].

Lemma byte_of_Z_mod a b : a mod 256 = b mod 256 → byte_of_Z a = byte_of_Z b.
Proof. intros E. unfold byte_of_Z. by rewrite E. Qed.

Lemma byte_of_Z_land v i : 0 <= i → byte_of_Z (Z.land (Z.shiftr v i) 0xFF) = byte_of_Z (v / 2 ^ i).
Proof.
  intros Hi. apply byte_of_Z_mod. change 0xFF with (Z.ones 8). rewrite Z.land_ones, Z.shiftr_div_pow2 by lia.
  apply Z.mod_mod. lia.
Qed.

Lemma byte_of_Z_land0 v : byte_of_Z (Z.land v 0xFF) = byte_of_Z v.
Proof. apply byte_of_Z_mod. change 0xFF with (Z.ones 8). rewrite Z.land_ones by lia. apply Z.mod_mod. lia. Qed.

Lemma put_le_S n z : put_le (S n) z = byte_of_Z z :: put_le n (z / 256).
Proof. done. Qed.

#[local] Ltac writes_word :=
  rewrite !put_le_S; cbn [app reverse rev_append]; rewrite ?byte_of_Z_land, ?byte_of_Z_land0 by lia;
  rewrite ?Z.div_div by lia; reflexivity.

Lemma writes_u16le v : writes (WriteU16LE v) (put_le 2 v).
Proof. eapply writes_eq; [unfold WriteU16LE; writes|writes_word]. Qed.

Lemma writes_u32le v : writes (WriteU32LE v) (put_le 4 v).
Proof. eapply writes_eq; [unfold WriteU32LE; writes|writes_word]. Qed.

Lemma writes_u16be v : writes (WriteU16BE v) (put_be 2 v).
Proof. unfold put_be. eapply writes_eq; [unfold WriteU16BE; writes|writes_word]. Qed.

Lemma writes_u32be v : writes (WriteU32BE v) (put_be 4 v).
Proof. unfold put_be. eapply writes_eq; [unfold WriteU32BE; writes|writes_word]. Qed.

Lemma writes_le_loop n i v : 0 <= i → writes (write_le_loop n i v) (put_le n (v / 2 ^ (8 * i))).
Proof.
  revert i. induction n as [|n IH]; intros i Hi.
  { intros don rest _. cbn. by rewrite app_nil_r. }
  eapply writes_eq; [cbn [write_le_loop]; eapply writes_then; [apply writes_byte|apply IH; lia]|].
  rewrite put_le_S. cbn [app]. rewrite byte_of_Z_land by lia. f_equal. f_equal.
  rewrite Z.mul_add_distr_l, Z.pow_add_r, <- Z.div_div by lia. reflexivity.
Qed.

Lemma writes_u64le v : writes (WriteU64LE v) (put_le 8 v).
Proof. eapply writes_eq; [apply (writes_le_loop 8 0 v); lia|]. by rewrite Z.div_1_r. Qed.

Lemma writes_range src n : length src = n → writes (put_range src n) src.
Proof.
  intros Hn don rest Hr. unfold put_range. rewrite (win_range src 0 n) by lia. rewrite <- Hn, win_all.
  rewrite firstn_all. cbn [mbind option_bind fst snd]. unfold wr_range.
  rewrite (proj2 (Nat.leb_le _ _)) by len. cbn [mbind option_bind].
  rewrite take_app_length, drop_app_ge, length_app by lia. f_equal. f_equal.
  rewrite <- app_assoc. do 3 f_equal. lia.
Qed.

(** A store in the middle of a function. *)
Lemma writes_bind {A} f bs (k : cursor → option A) don rest :
  writes f bs → (length bs ≤ length rest)%nat →
  (c ← f (don ++ rest, length don); k c) =
  k ((don ++ bs) ++ drop (length bs) rest, length (don ++ bs)).
Proof. intros Hf Hr. by rewrite Hf. Qed.

(** ** The checksum is the gateway's *)
Lemma crc_round_bit c : crc_round c = crc_bit c.
Proof.
  unfold crc_round, crc_bit. change 1 with (Z.ones 1) at 2. rewrite Z.land_ones by lia.
  change (2 ^ 1) with 2. rewrite Zmod_odd. destruct (Z.odd c); [done|].
  change (Z.land 0xEDB88320 (u32 (- 0))) with 0. apply Z.lxor_0_r.
Qed.

Lemma lnot_word32 c : word32 c → u32 (Z.lnot c) = Z.lxor c crc_init.
Proof.
  intros Hc. unfold u32. change crc_init with (Z.ones 32). rewrite <- Z.land_ones by lia.
  apply Z.bits_inj'. intros i Hi.
  rewrite Z.land_spec, Z.lnot_spec, Z.lxor_spec, Z.testbit_ones_nonneg by lia.
  destruct (Z.ltb_spec i 32); [by destruct (Z.testbit c i)|].
  by rewrite (testbit_word32 c) by done.
Qed.

Lemma crc_rounds_update c data :
  foldl (λ crc b, Nat.iter 8 crc_round (Z.lxor crc (byte_to_Z b))) c data = crc_update c data.
Proof.
  revert c. induction data as [|b data IH]; intros c; [done|]. cbn [foldl]. rewrite IH.
  unfold crc_update. cbn [foldl]. f_equal. unfold crc_byte. cbn [Nat.iter nat_rect].
  by rewrite !crc_round_bit.
Qed.

Lemma Crc32Ieee_eq data : Crc32Ieee data = ChecksumIEEE data.
Proof.
  unfold Crc32Ieee, ChecksumIEEE. rewrite crc_rounds_update. apply lnot_word32.
  apply word32_crc_update, word32_init.
Qed.

Lemma put_crc_spec don rest :
  (4 ≤ length rest)%nat →
  put_crc (don ++ rest, length don) =
  Some ((don ++ put_le 4 (ChecksumIEEE don)) ++ drop 4 rest, length don + 4)%nat.
Proof.
  intros Hr. unfold put_crc. cbn [fst snd].
  rewrite (win_range _ 0 (length (don ++ rest))), win_all by len.
  rewrite take_app_length. cbn [mbind option_bind].
  rewrite Crc32Ieee_eq, writes_u32le by len. by rewrite length_app, length_put_le.
Qed.

(** ** The frames *)
Definition AckInputs_wf (inp : AckInputs) : Prop :=
  in_u 32 (target_tx_id inp) ∧ in_u 8 (ack_status inp) ∧ in_u 16 (ack_azimuth inp) ∧
  in_u 16 (ack_elevation inp) ∧ in_u 32 (frequency_hz inp) ∧ in_u 32 (duration_ms inp) ∧
  length (enc_tunnel inp) = kEncTunnelSize.

Definition DeliveryInputs_wf (inp : DeliveryInputs) : Prop :=
  in_u 64 (downlink_ts inp) ∧ in_u 32 (sat_b_id inp) ∧ length (d_payload inp) = kPayloadSize.

Definition ack_header : frame_header := F_Snlp 0x1865 0xC000 121.
Definition d_header : frame_header := F_Snlp 0x0865 0xC000 121.

Definition ack_body (inp : AckInputs) (crc : Z) : VoidProtocol_PacketAckBodySnlp :=
  {| AckSnlp_Magic := [xac]; AckSnlp_PadA := [x00]; AckSnlp_TargetTxId := target_tx_id inp;
     AckSnlp_Status := ack_status inp; AckSnlp_PadB := [x00];
     AckSnlp_RelayOps :=
       {| RelayOps_Azimuth := ack_azimuth inp; RelayOps_Elevation := ack_elevation inp;
          RelayOps_Frequency := frequency_hz inp; RelayOps_DurationMs := duration_ms inp |};
     AckSnlp_EncTunnel := enc_tunnel inp; AckSnlp_PadC := [x00; x00]; AckSnlp_Crc32 := crc |}.

Definition d_body (inp : DeliveryInputs) (crc : Z) : VoidProtocol_PacketDBody :=
  {| PacketD_Magic := [xd0]; PacketD_PadHead := [x00]; PacketD_DownlinkTs := downlink_ts inp;
     PacketD_SatBId := sat_b_id inp; PacketD_Payload := d_payload inp; PacketD_GlobalCrc := crc;
     PacketD_Tail := replicate 6 x00 |}.

(** The bytes the checksum covers. *)
Definition ack_covered (inp : AckInputs) : list byte :=
  fh_bytes ack_header ++ [xac] ++ [x00] ++ put_le 4 (target_tx_id inp) ++ put_le 1 (ack_status inp) ++
  [x00] ++ put_le 2 (ack_azimuth inp) ++ put_le 2 (ack_elevation inp) ++
  put_le 4 (frequency_hz inp) ++ put_le 4 (duration_ms inp) ++ enc_tunnel inp ++ [x00; x00].

Definition d_covered (inp : DeliveryInputs) : list byte :=
  fh_bytes d_header ++ [xd0] ++ [x00] ++ put_le 8 (downlink_ts inp) ++ put_le 4 (sat_b_id inp) ++
  d_payload inp.

Definition dispatched (m : Z) (c : dispatch_content) : option packet_body :=
  Some (Body_Dispatch122 {| Dispatch_Content := Some c; m_dispatchMagicPeek := memo_some m |}).

Definition ack_frame (inp : AckInputs) : frame :=
  let body := ack_body inp (ChecksumIEEE (ack_covered inp)) in
  {| fr_header := ack_header; fr_raw := PacketAckBodySnlp_bytes body;
     fr_body := dispatched kPacketAckMagic (Content_AckSnlp body) |}.

Definition d_frame (inp : DeliveryInputs) : frame :=
  let body := d_body inp (ChecksumIEEE (d_covered inp)) in
  {| fr_header := d_header; fr_raw := PacketDBody_bytes body;
     fr_body := dispatched kPacketDMagic (Content_D body) |}.

Lemma ack_body_wf inp l : AckInputs_wf inp → PacketAckBodySnlp_wf (ack_body inp (ChecksumIEEE l)).
Proof. intros (? & ? & ? & ? & ? & ? & ?). split_and!; try done; apply ChecksumIEEE_u32. Qed.

Lemma d_body_wf inp l : DeliveryInputs_wf inp → PacketDBody_wf (d_body inp (ChecksumIEEE l)).
Proof. intros (? & ? & ?). split_and!; try done; apply ChecksumIEEE_u32. Qed.

Lemma ack_frame_wf inp : AckInputs_wf inp → frame_wf (ack_frame inp).
Proof.
  intros Hwf. pose proof (ack_body_wf inp (ack_covered inp) Hwf) as Hb. split_and!; [done..| |].
  - cbn [fr_raw ack_frame]. by rewrite length_PacketAckBodySnlp_bytes.
  - split; [done|]. by exists xac.
Qed.

Lemma d_frame_wf inp : DeliveryInputs_wf inp → frame_wf (d_frame inp).
Proof.
  intros Hwf. pose proof (d_body_wf inp (d_covered inp) Hwf) as Hb. split_and!; [done..| |].
  - cbn [fr_raw d_frame]. by rewrite length_PacketDBody_bytes.
  - split; [done|]. by exists xd0.
Qed.

(** A frame around its checksum. *)
Lemma length_ack_covered inp : AckInputs_wf inp → length (ack_covered inp) = 132%nat.
Proof.
  intros (_ & _ & _ & _ & _ & _ & Ht). unfold ack_covered, kEncTunnelSize in *. len.
Qed.

Lemma length_d_covered inp : DeliveryInputs_wf inp → length (d_covered inp) = 126%nat.
Proof. intros (_ & _ & Ht). unfold d_covered, kPayloadSize in *. len. Qed.

Lemma ack_frame_bytes inp :
  frame_bytes (ack_frame inp) = ack_covered inp ++ put_le 4 (ChecksumIEEE (ack_covered inp)).
Proof.
  unfold frame_bytes, ack_frame. cbn [fr_header fr_raw]. generalize (ChecksumIEEE (ack_covered inp)).
  intros crc. unfold ack_covered, PacketAckBodySnlp_bytes, RelayOps_bytes. by rewrite <- !app_assoc.
Qed.

Lemma d_frame_bytes inp :
  frame_bytes (d_frame inp) =
  d_covered inp ++ put_le 4 (ChecksumIEEE (d_covered inp)) ++ replicate 6 x00.
Proof.
  unfold frame_bytes, d_frame. cbn [fr_header fr_raw]. generalize (ChecksumIEEE (d_covered inp)).
  intros crc. unfold d_covered, PacketDBody_bytes. by rewrite <- !app_assoc.
Qed.

(** ** The builders *)
Create HintDb stores.
#[local] Hint Resolve writes_byte writes_u16le writes_u32le writes_u64le writes_u16be writes_u32be
  writes_range : stores.

(** The stores of a function one after another, then the bytes they left. *)
#[local] Ltac stores covered :=
  repeat (erewrite writes_bind; [|solve [eauto with stores]|len]);
  match goal with |- context [put_crc (?d ++ _, length ?d)] =>
    assert (d = covered) as -> by (rewrite <- !app_assoc; reflexivity) end;
  rewrite put_crc_spec by len; cbn [mbind option_bind fst snd].

Lemma zeroed n buf out_cap :
  (n ≤ out_cap ≤ length buf)%nat →
  (out_cap <? n)%nat = false ∧
  wr_range buf 0 (replicate n x00) = Some (replicate n x00 ++ drop n buf).
Proof.
  intros Hc. split; [apply Nat.ltb_ge; lia|]. unfold wr_range.
  rewrite (proj2 (Nat.leb_le _ _)) by len. by rewrite length_replicate.
Qed.

Lemma drop_zeroed k n buf :
  (k ≤ n ≤ length buf)%nat → drop k (replicate n x00 ++ drop n buf) = replicate (n - k) x00 ++ drop n buf.
Proof. intros. rewrite drop_app_le by len. by rewrite drop_replicate. Qed.

Lemma ack_build_bytes inp buf out_cap :
  AckInputs_wf inp → (kPacketAckSize ≤ out_cap ≤ length buf)%nat →
  ack_build inp (Some buf) out_cap =
  Some (true, Some (frame_bytes (ack_frame inp) ++ drop kPacketAckSize buf)).
Proof.
  intros Hwf Hc. pose proof (length_ack_covered inp Hwf) as Hl.
  assert (Ht : length (enc_tunnel inp) = kEncTunnelSize) by apply Hwf.
  destruct (zeroed _ _ _ Hc) as [Hcap Hz]. unfold ack_build. rewrite Hcap, Hz. cbn [mbind option_bind].
  unfold kPacketAckSize, kEncTunnelSize in *. set (rest := replicate _ _ ++ _).
  assert (Hr : length rest = length buf) by (unfold rest; len).
  change (rest, 0%nat) with ([] ++ rest, length ([] : list byte)).
  stores (ack_covered inp). rewrite Hl, ack_frame_bytes. do 4 f_equal.
  rewrite !drop_drop. unfold rest. rewrite drop_zeroed by len. rewrite Ht. reflexivity.
Qed.

Lemma d_build_bytes inp buf out_cap :
  DeliveryInputs_wf inp → (kPacketDSize ≤ out_cap ≤ length buf)%nat →
  d_build inp (Some buf) out_cap =
  Some (true, Some (frame_bytes (d_frame inp) ++ drop kPacketDSize buf)).
Proof.
  intros Hwf Hc. pose proof (length_d_covered inp Hwf) as Hl.
  assert (Ht : length (d_payload inp) = kPayloadSize) by apply Hwf.
  destruct (zeroed _ _ _ Hc) as [Hcap Hz]. unfold d_build. rewrite Hcap, Hz. cbn [mbind option_bind].
  unfold kPacketDSize, kPayloadSize in *. set (rest := replicate _ _ ++ _).
  assert (Hr : length rest = length buf) by (unfold rest; len).
  change (rest, 0%nat) with ([] ++ rest, length ([] : list byte)).
  stores (d_covered inp). rewrite Hl, d_frame_bytes. cbv zeta.
  rewrite <- (app_assoc (d_covered inp)). rewrite <- !(app_assoc _ _ (drop 136 buf)). do 5 f_equal.
  rewrite !drop_drop. unfold rest. rewrite drop_zeroed by len. rewrite Ht. reflexivity.
Qed.

(** ** What the gateway makes of them *)
Section Accepted.
Context {St : Type} `{KaitaiStreamLaws St} `{Ed25519Laws} `{EthCommon}.
Context {C E : Type} `{GinContextLaws C gin_H} `{!Enqueuer E}.

Lemma gate_accepts covered tl :
  ValidateFrameCRC32 (covered ++ put_le 4 (ChecksumIEEE covered) ++ tl) (Z.of_nat (length covered)) =
  Ok tt.
Proof. apply ValidateFrameCRC32_spec. by exists covered, (put_le 4 (ChecksumIEEE covered)), tl. Qed.

Lemma ack_frame_accepted db inp :
  AckInputs_wf inp → frame_verdict db (ack_frame inp) (frame_bytes (ack_frame inp)) = Accept.
Proof.
  intros Hwf. unfold frame_verdict. change (spec_version _ =? 0) with true. cbv iota.
  cbn [fr_body ack_frame dispatched body_verdict Dispatch_Content]. rewrite ack_frame_bytes.
  unfold crc_verdict. replace (_ - 4) with (Z.of_nat (length (ack_covered inp))) by len.
  rewrite <- (app_nil_r (put_le 4 _)), gate_accepts. done.
Qed.

Lemma d_frame_accepted db inp :
  DeliveryInputs_wf inp → frame_verdict db (d_frame inp) (frame_bytes (d_frame inp)) = Accept.
Proof.
  intros Hwf. unfold frame_verdict. change (spec_version _ =? 0) with true. cbv iota.
  cbn [fr_body d_frame dispatched body_verdict Dispatch_Content]. rewrite d_frame_bytes.
  unfold crc_verdict. replace (_ - 10) with (Z.of_nat (length (d_covered inp))) by len.
  by rewrite gate_accepts.
Qed.

(** A built frame read back, and ingested. *)
Lemma ingest_accepts f db (s : handler_state (C := C) (E := E)) :
  frame_wf f → fh_is_snlp (fr_header f) = true → spec_apid (fh_ccsds (fr_header f)) = kApidSatB →
  frame_verdict db f (frame_bytes f) = Accept → payment_intent db (fr_body f) = None →
  IsAborted (h_ctx s) = false →
  decode_frame (frame_bytes f) = Some f ∧
  IngestPacket (St := St) db (Ok (frame_bytes f)) s =
    Some (tt, after_verdict Accept None (success_H kApidSatB (tier_name true)) s).
Proof.
  intros Hwf Ht Ha Hv Hp Hs. split; [by apply decode_frame_iff|].
  rewrite <- (app_nil_r (frame_bytes f)), IngestPacket_frame by done.
  rewrite app_nil_r, Hv, Hp. unfold frame_success. by rewrite Ht, Ha.
Qed.

(** C24. The ground station acknowledges in the gateway's format. For any inputs, the
    builder fills the first 136 bytes of the buffer with a frame that carries them, and
    nothing behind; the gateway's parser reads exactly those inputs back, and its ingest
    handler accepts the frame, checksum included, as a command to satellite B. *)
Theorem ack_build_accepted db inp buf out_cap (s : handler_state (C := C) (E := E)) :
  AckInputs_wf inp → (kPacketAckSize ≤ out_cap ≤ length buf)%nat → IsAborted (h_ctx s) = false →
  ∃ raw, ack_build inp (Some buf) out_cap = Some (true, Some (raw ++ drop kPacketAckSize buf)) ∧
    length raw = kPacketAckSize ∧ decode_frame raw = Some (ack_frame inp) ∧
    IngestPacket (St := St) db (Ok raw) s =
      Some (tt, after_verdict Accept None (success_H kApidSatB (tier_name true)) s).
Proof.
  intros Hwf Hc Hs. exists (frame_bytes (ack_frame inp)). split; [by apply ack_build_bytes|]. split.
  { pose proof (length_ack_covered inp Hwf). rewrite ack_frame_bytes. unfold kPacketAckSize. len. }
  apply ingest_accepts; auto using ack_frame_wf, ack_frame_accepted.
Qed.

(** The same for the delivery of a receipt. *)
Theorem d_build_accepted db inp buf out_cap (s : handler_state (C := C) (E := E)) :
  DeliveryInputs_wf inp → (kPacketDSize ≤ out_cap ≤ length buf)%nat → IsAborted (h_ctx s) = false →
  ∃ raw, d_build inp (Some buf) out_cap = Some (true, Some (raw ++ drop kPacketDSize buf)) ∧
    length raw = kPacketDSize ∧ decode_frame raw = Some (d_frame inp) ∧
    IngestPacket (St := St) db (Ok raw) s =
      Some (tt, after_verdict Accept None (success_H kApidSatB (tier_name true)) s).
Proof.
  intros Hwf Hc Hs. exists (frame_bytes (d_frame inp)). split; [by apply d_build_bytes|]. split.
  { pose proof (length_d_covered inp Hwf). rewrite d_frame_bytes. unfold kPacketDSize. len. }
  apply ingest_accepts; auto using d_frame_wf, d_frame_accepted.
Qed.
End Accepted.

(** The inputs of the golden vectors. *)
Definition golden_ack : AckInputs :=
  {| target_tx_id := 0xCAFEBABE; ack_status := 1; ack_azimuth := 180; ack_elevation := 45;
     frequency_hz := 437200000; duration_ms := 5000; enc_tunnel := ramp 0xAA 96 |}.
Definition golden_d : DeliveryInputs :=
  {| downlink_ts := detEpochTsMs; sat_b_id := detSatId; d_payload := ramp 0xE0 98 |}.

Lemma golden_ack_wf : AckInputs_wf golden_ack.
Proof. vm_compute. repeat split; first [reflexivity | discriminate]. Qed.
Lemma golden_d_wf : DeliveryInputs_wf golden_d.
Proof. vm_compute. repeat split; first [reflexivity | discriminate]. Qed.

Lemma ack_build_accepted_witness :
  ack_build golden_ack (Some (replicate 136 xff)) 136 = Some (true, Some golden_snlp_ack) ∧
  ∃ raw, raw ++ [] = golden_snlp_ack ∧
    IngestPacket (St := ListStream) ∅ (Ok raw) demo_state =
      Some (tt, after_verdict Accept None (success_H 101 (tier_name true)) demo_state).
Proof.
  assert (Hb : ack_build golden_ack (Some (replicate 136 xff)) 136 = Some (true, Some golden_snlp_ack))
    by (vm_compute; reflexivity).
  split; [exact Hb|].
  destruct (ack_build_accepted (St := ListStream) ∅ golden_ack (replicate 136 xff) 136 demo_state)
    as (raw & Hraw & _ & _ & Hi).
  - exact golden_ack_wf.
  - split; apply Nat.leb_le; reflexivity.
  - exact demo_fresh.
  - exists raw. split; [|exact Hi]. rewrite Hb in Hraw. injection Hraw as Hraw. symmetry. exact Hraw.
Defined.

Lemma d_build_accepted_witness :
  d_build golden_d (Some (replicate 136 xff)) 136 = Some (true, Some golden_snlp_d) ∧
  ∃ raw, raw ++ [] = golden_snlp_d ∧
    IngestPacket (St := ListStream) ∅ (Ok raw) demo_state =
      Some (tt, after_verdict Accept None (success_H 101 (tier_name true)) demo_state).
Proof.
  assert (Hb : d_build golden_d (Some (replicate 136 xff)) 136 = Some (true, Some golden_snlp_d))
    by (vm_compute; reflexivity).
  split; [exact Hb|].
  destruct (d_build_accepted (St := ListStream) ∅ golden_d (replicate 136 xff) 136 demo_state)
    as (raw & Hraw & _ & _ & Hi).
  - exact golden_d_wf.
  - split; apply Nat.leb_le; reflexivity.
  - exact demo_fresh.
  - exists raw. split; [|exact Hi]. rewrite Hb in Hraw. injection Hraw as Hraw. symmetry. exact Hraw.
Defined.
