(* ===== verification/Bridge.v ===== *)
(** * The serial bridge of the ground station

    Models what [ground-station/src/main.cpp] does with the USB line of a satellite, with
    [bouncer.cpp] and [gateway_client.cpp]: bytes are gathered into lines, a line
    [PACKET_B:<hex>] is decoded, passed through the bouncer, acknowledged on the same
    line and pushed to the gateway. The commands of the operator ([cli_listener]) write to
    the same line.

    Arrays on the stack are not initialised; their contents are variables. The outside
    (the port and a socket) is the interface [GroundIO]. *)
From S2P Require Export PacketBuilders.
From S2P Require Export Orchestrator WireReceipt.
#[local] Open Scope nat_scope.

(** ** [Bouncer] *)
Definition SIZE_PACKET_B : nat := 192.

Definition validate_packet_size (len : nat) : bool := len =? SIZE_PACKET_B.

Definition validate_signature (data : list byte) (data_len : nat) (signature : list byte) (sig_len : nat) : bool :=
  true.

Fixpoint decrypt_loop (n i : nat) (enc out : list byte) : option (list byte) :=
  match n with
  | O => Some out
  | S n =>
      b ← rd enc i;
      out ← wr out i b;
      decrypt_loop n (S i) enc out
  end.

Definition decrypt_payload (enc : list byte) (enc_len : nat) (out : list byte) (out_len : nat)
    : option (bool * list byte) :=
  if out_len <? enc_len then Some (false, out) else
  out ← decrypt_loop enc_len 0 enc out;
  Some (true, out).

(** [PacketB_t] of the SNLP tier: [enc_payload] at 48, [signature] at 120. *)
Definition process_packet (buf : list byte) (len : nat) (out : list byte) (out_max : nat)
    : option (bool * list byte) :=
  if negb (validate_packet_size len) then Some (false, out) else
  signature ← rd_range buf 120 64;
  if negb (validate_signature buf (len - 64 - 4) signature 64) then Some (false, out) else
  enc_payload ← rd_range buf 48 62;
  '(ok, out) ← decrypt_payload enc_payload 62 out out_max;
  if negb ok then Some (false, out) else Some (true, out).

(** ** [strtol] in base 16, on the characters of a C string *)
Definition isspace (c : byte) : bool := bool_decide (c ∈ [x20; x09; x0a; x0b; x0c; x0d]).

Fixpoint skip_spaces (s : list byte) : list byte :=
  match s with
  | c :: t => if isspace c then skip_spaces t else s
  | [] => []
  end.

Fixpoint hex_number (s : list byte) (v : Z) : Z :=
  match s with
  | c :: t => match hex_value c with Some d => hex_number t (16 * v + d) | None => v end
  | [] => v
  end.

Definition strip_0x (s : list byte) : list byte :=
  match s with
  | a :: b :: c :: _ =>
      if Byte.eqb a x30 && (Byte.eqb b x78 || Byte.eqb b x58) && bool_decide (is_Some (hex_value c))
      then drop 2 s else s
  | _ => s
  end.

Definition strtol16 (s : list byte) : Z :=
  match skip_spaces s with
  | x2b :: t => hex_number (strip_0x t) 0
  | x2d :: t => - hex_number (strip_0x t) 0
  | t => hex_number (strip_0x t) 0
  end.

Fixpoint hex_to_bin_loop (fuel : nat) (hex : list byte) (len i : nat) (bin_out : list byte) (max_len : nat)
    : option (list byte) :=
  match fuel with
  | O => None
  | S fuel =>
      if (i <? len) && (i / 2 <? max_len) then
        a ← rd hex i;
        b ← rd hex (i + 1);
        let byte_str := [a; b; x00] in
        bin_out ← wr bin_out (i / 2) (byte_of_Z (strtol16 (c_string byte_str)));
        hex_to_bin_loop fuel hex len (i + 2) bin_out max_len
      else Some bin_out
  end.

(** [std::strlen] needs a NUL. *)
Definition strlen (s : list byte) : option nat :=
  if bool_decide (x00 ∈ s) then Some (length (c_string s)) else None.

Definition hex_to_bin (hex bin_out : list byte) (max_len : nat) : option (list byte) :=
  len ← strlen hex;
  hex_to_bin_loop (S len) hex len 0 bin_out max_len.

Definition extract_packet_b_sat_id_snlp (pkt : list byte) : option Z :=
  a ← rd pkt 112; b ← rd pkt 113; c ← rd pkt 114; d ← rd pkt 115;
  Some (Z.lor (Z.lor (Z.lor (byte_to_Z a) (Z.shiftl (byte_to_Z b) 8)) (Z.shiftl (byte_to_Z c) 16))
          (Z.shiftl (byte_to_Z d) 24)).

(** ** The outside *)
Class GroundIO (W : Type) := {
  serial_write_bytes : list byte → W → Z * W;
  open_socket : W → bool * W;       (** [socket] and [connect] *)
  send_bytes : list byte → W → W;   (** [send]; its result is not looked at *)
}.

Section Bridge.
Context {W : Type} `{GroundIO W} (host : list byte) (port : Z).

(** ** [GatewayClient] *)
Definition push_headers (frame_len : nat) : list byte :=
  bytes_of "POST /api/v1/ingest HTTP/1.1" ++ crlf ++
  bytes_of "Host: " ++ host ++ bytes_of ":" ++ write_int port ++ crlf ++
  bytes_of "Content-Type: application/octet-stream" ++ crlf ++
  bytes_of "Content-Length: " ++ write_int (Z.of_nat frame_len) ++ crlf ++
  bytes_of "Connection: close" ++ crlf ++ crlf.

Definition push_to_l2 (frame_bytes : option (list byte)) (frame_len : nat) (w : W) : option (bool * W) :=
  match frame_bytes with
  | None => Some (false, w)
  | Some buf =>
      if frame_len =? 0 then Some (false, w) else
      let '(connected, w) := open_socket w in
      if negb connected then Some (false, w) else
      let headers := push_headers frame_len in
      if 512 <=? length headers then Some (false, w) else
      let w := send_bytes headers w in
      body ← rd_range buf 0 frame_len;
      Some (true, send_bytes body w)
  end.

(** ** Lines to the satellite *)
Definition kDigits : list byte := bytes_of "0123456789abcdef".

Fixpoint digits_loop (n i : nat) (data : list byte) (kPrefixLen : nat) (line : list byte) : option (list byte) :=
  match n with
  | O => Some line
  | S n =>
      b ← rd data i;
      hi ← rd kDigits (Z.to_nat (Z.land (Z.shiftr (byte_to_Z b) 4) 0x0F));
      line ← wr line (kPrefixLen + i * 2) hi;
      lo ← rd kDigits (Z.to_nat (Z.land (byte_to_Z b) 0x0F));
      line ← wr line (kPrefixLen + i * 2 + 1) lo;
      digits_loop n (S i) data kPrefixLen line
  end.

(** From the digits on, both functions are the same. *)
Definition send_line (data : list byte) (n len kPrefixLen : nat) (line : list byte) (w : W) : option (bool * W) :=
  line ← digits_loop n 0 data kPrefixLen line;
  let line_len := kPrefixLen + len * 2 in
  line ← wr line line_len x0a;
  line ← wr line (line_len + 1) x00;
  bytes ← rd_range line 0 (line_len + 1);
  let '(n, w) := serial_write_bytes bytes w in
  Some ((0 <=? n)%Z, w).

(** [snprintf] writes the terminating NUL as well. *)
Definition lora_tx_via_serial (stack_line data : list byte) (len : nat) (w : W) : option (bool * W) :=
  let kPrefixLen := 13 in
  line ← wr_range stack_line 0 (bytes_of "PACKET_C_TX:" ++ [x00]);
  send_line data (Nat.min len EgressPacketCSize) len kPrefixLen line w.

Definition lora_tx_ack_via_serial (stack_line data : list byte) (len : nat) (w : W) : option (bool * W) :=
  let kPrefix := bytes_of "PACKET_ACK_TX:" in
  if negb (len =? kPacketAckSize) then Some (false, w) else
  line ← wr_range stack_line 0 kPrefix;
  send_line data len len (length kPrefix) line w.

(** ** A packet on the line *)
Record stack := {
  st_packet_bin : list byte;   (** [uint8_t packet_bin[SIZE_PACKET_B]] *)
  st_cleartext : list byte;    (** [uint8_t cleartext_out[256]] *)
  st_ack_frame : list byte;    (** [uint8_t ack_frame[kPacketAckSize]] *)
  st_ack_line : list byte;     (** [char line[kLineCap]] of [lora_tx_ack_via_serial] *)
}.
(** What they hold before, at each time. *)
Variable memory : W → stack.

Definition ack_inputs (target : Z) : AckInputs :=
  {| target_tx_id := target; ack_status := kAckStatusVerified; ack_azimuth := 180; ack_elevation := 45;
     frequency_hz := 437200000; duration_ms := 5000; enc_tunnel := replicate kEncTunnelSize x00 |}.

Definition on_packet_b (hex : list byte) (w : W) : option W :=
  let frame := memory w in
  packet_bin ← hex_to_bin hex (st_packet_bin frame) SIZE_PACKET_B;
  '(ok, cleartext_out) ← process_packet packet_bin SIZE_PACKET_B (st_cleartext frame) 256;
  if negb ok then Some w else
  target ← extract_packet_b_sat_id_snlp packet_bin;
  '(built, ack_frame) ← ack_build (ack_inputs target) (Some (st_ack_frame frame)) kPacketAckSize;
  ack_frame ← ack_frame;
  '(emitted, w) ← (if built : bool
                   then lora_tx_ack_via_serial (st_ack_line frame) ack_frame kPacketAckSize w
                   else Some (false, w));
  '(pushed, w) ← push_to_l2 (Some packet_bin) SIZE_PACKET_B w;
  Some w.

(** [strncmp(line_buf, prefix, strlen(prefix)) == 0] *)
Definition has_prefix (prefix line_buf : list byte) : bool :=
  bool_decide (take (length prefix) (c_string line_buf) = prefix).

Definition on_line (line_buf : list byte) (w : W) : option W :=
  if has_prefix (bytes_of "PACKET_B:") line_buf then on_packet_b (drop 9 line_buf) w
  else Some w.

(** ** The operator *)

(** [PacketB_t]: [header.apid_lo] is at 5. *)
Definition test_ack (w : W) : option W :=
  let mock_radio_rx := replicate SIZE_PACKET_B x00 in
  mock_radio_rx ← wr mock_radio_rx 5 x08;
  mock_radio_rx ← wr_range mock_radio_rx 48 (put_le 8 1708722000);
  mock_radio_rx ← wr_range mock_radio_rx (48 + 44) (put_le 4 999);
  mock_radio_rx ← wr_range mock_radio_rx (48 + 48) (put_le 8 50000);
  mock_radio_rx ← wr_range mock_radio_rx (48 + 56) (put_le 2 1);
  '(ok, sanitized_out) ← process_packet mock_radio_rx SIZE_PACKET_B (replicate 62 x00) 62;
  if negb ok then Some w else
  '(delivered, w) ← push_to_l2 (Some sanitized_out) 62 w;
  Some w.

(** A line [fgets] has read, without its NUL; whether the threads go on. *)
Definition cli_command (line : list byte) (w : W) : option (bool * W) :=
  let input := c_string line in
  let input := if bool_decide (list.last input = Some x0a) then removelast input else input in
  if bool_decide (input = bytes_of "h") then Some (true, (serial_write_bytes (bytes_of "H" ++ [x0a]) w).2)
  else if bool_decide (input = bytes_of "ack")
  then Some (true, (serial_write_bytes (bytes_of "ACK_BUY" ++ [x0a]) w).2)
  else if bool_decide (input = bytes_of "tst_ack") then
    w ← test_ack w;
    Some (true, w)
  else if bool_decide (input = bytes_of "exit") then Some (false, w)
  else Some (true, w).

(** ** The loop over the bytes received *)
Definition LINE_BUF_SIZE : nat := 512.

Record bridge := { line_buf : list byte; line_idx : nat; outside : W }.

Definition feed (c : byte) (b : bridge) : option bridge :=
  if Byte.eqb c x0a || Byte.eqb c x0d then
    if 0 <? line_idx b then
      buf ← wr (line_buf b) (line_idx b) x00;
      w ← on_line buf (outside b);
      Some {| line_buf := buf; line_idx := 0; outside := w |}
    else Some b
  else if line_idx b <? LINE_BUF_SIZE - 1 then
    buf ← wr (line_buf b) (line_idx b) c;
    Some {| line_buf := buf; line_idx := S (line_idx b); outside := outside b |}
  else Some b.

Fixpoint feed_all (l : list byte) (b : bridge) : option bridge :=
  match l with
  | [] => Some b
  | c :: l => b ← feed c b; feed_all l b
  end.

(** ** Lines, on strings *)
Definition ack_line (f : list byte) : list byte := bytes_of "PACKET_ACK_TX:" ++ bytes_of (hex_encode f) ++ [x0a].
Definition receipt_line (f : list byte) : list byte :=
  bytes_of "PACKET_C_TX:" ++ [x00] ++ bytes_of (hex_encode f) ++ [x0a].

Lemma kDigits_hex z : (0 <= z < 16)%Z → rd kDigits (Z.to_nat z) = Some (Ascii.byte_of_ascii (hex_digit z)).
Proof.
  intros Hz. apply (bool_decide_unpack _).
  assert (Forall (λ z, rd kDigits (Z.to_nat z) = Some (Ascii.byte_of_ascii (hex_digit z))) (seqZ 0 16)) as Hall
    by (apply (bool_decide_unpack _); vm_compute; exact I).
  rewrite list.Forall_forall in Hall. apply bool_decide_pack, Hall, elem_of_seqZ. lia.
Qed.

Lemma high_nibble b :
  rd kDigits (Z.to_nat (Z.land (Z.shiftr (byte_to_Z b) 4) 0x0F)) =
    Some (Ascii.byte_of_ascii (hex_digit (byte_to_Z b / 16))) ∧
  rd kDigits (Z.to_nat (Z.land (byte_to_Z b) 0x0F)) =
    Some (Ascii.byte_of_ascii (hex_digit (byte_to_Z b mod 16))).
Proof. destruct b; split; reflexivity. Qed.

Lemma digits_loop_spec n i data pre rest k :
  length pre = k + i * 2 → i + n ≤ length data → n * 2 ≤ length rest →
  digits_loop n i data k (pre ++ rest) =
  Some ((pre ++ bytes_of (hex_encode (take n (drop i data)))) ++ drop (n * 2) rest).
Proof.
  revert i pre rest. induction n as [|n IH]; intros i pre rest Hp Hd Hr.
  { cbn [digits_loop Nat.mul]. rewrite take_0, drop_0. cbn [hex_encode]. by rewrite app_nil_r. }
  cbn [digits_loop]. destruct (lookup_lt_is_Some_2 data i ltac:(lia)) as [b Hb].
  change (rd data i) with (data !! i). rewrite Hb. cbn [mbind option_bind]. destruct (high_nibble b) as [-> ->].
  cbn [mbind option_bind]. destruct rest as [|r0 [|r1 rest]]; cbn [length] in Hr; [lia..|].
  rewrite (wr_next pre (r0 :: r1 :: rest)) by done. cbn [mbind option_bind drop].
  rewrite (wr_next _ (r1 :: rest)) by (done || len). cbn [mbind option_bind drop].
  rewrite IH by len. rewrite (drop_S _ b _ Hb). cbn [take]. rewrite bytes_of_hex_encode.
  replace (S n * 2) with (S (S (n * 2))) by lia. cbn [drop]. by rewrite <- !app_assoc.
Qed.

(** A whole line: the prefix that is in the buffer, the digits, the newline. *)
Lemma send_line_spec data len pre rest w :
  len = length data → len * 2 + 2 ≤ length rest →
  send_line data len len (length pre) (pre ++ rest) w =
  let '(n, w) := serial_write_bytes (pre ++ bytes_of (hex_encode data) ++ [x0a]) w in Some ((0 <=? n)%Z, w).
Proof.
  intros -> Hr. unfold send_line. rewrite digits_loop_spec by lia. cbn [mbind option_bind].
  rewrite drop_0, firstn_all. pose proof (length_hex_encode data) as Hh.
  set (dg := bytes_of (hex_encode data)) in *.
  assert (length (drop (length data * 2) rest) = length rest - length data * 2) as Hd by len.
  rewrite wr_next by (len || (intros E; rewrite E in Hd; cbn [length] in Hd; lia)).
  cbn [mbind option_bind]. rewrite drop_drop.
  assert (length (drop (length data * 2 + 1) rest) = length rest - length data * 2 - 1) as Hd1 by len.
  rewrite wr_next by (len || (intros E; rewrite E in Hd1; cbn [length] in Hd1; lia)).
  cbn [mbind option_bind]. unfold rd_range.
  rewrite (proj2 (Nat.leb_le _ _)) by len. cbn [mbind option_bind]. rewrite drop_0.
  rewrite <- (app_assoc ((pre ++ dg) ++ [x0a])), take_app_length'; [by rewrite <- app_assoc|len].
Qed.

Lemma lora_tx_ack_spec stack_line data w :
  length stack_line = 14 + kPacketAckSize * 2 + 2 → length data = kPacketAckSize →
  lora_tx_ack_via_serial stack_line data kPacketAckSize w =
  let '(n, w) := serial_write_bytes (ack_line data) w in Some ((0 <=? n)%Z, w).
Proof.
  intros Hl Hd. unfold lora_tx_ack_via_serial. rewrite Nat.eqb_refl. cbn [negb].
  unfold wr_range. change (length (bytes_of "PACKET_ACK_TX:")) with 14. unfold kPacketAckSize in *.
  rewrite (proj2 (Nat.leb_le _ _)) by lia. cbn [mbind option_bind Nat.add].
  rewrite take_0. apply (send_line_spec data 136 (bytes_of "PACKET_ACK_TX:")); len.
Qed.

Lemma lora_tx_spec stack_line data w :
  length stack_line = 13 + EgressPacketCSize * 2 + 2 → length data = EgressPacketCSize →
  lora_tx_via_serial stack_line data EgressPacketCSize w =
  let '(n, w) := serial_write_bytes (receipt_line data) w in Some ((0 <=? n)%Z, w).
Proof.
  intros Hl Hd. unfold lora_tx_via_serial. unfold wr_range.
  change (length (bytes_of "PACKET_C_TX:" ++ [x00])) with 13. unfold EgressPacketCSize in *.
  rewrite (proj2 (Nat.leb_le _ _)) by lia. cbn [mbind option_bind Nat.add].
  rewrite Nat.min_id, take_0. unfold receipt_line. rewrite app_assoc.
  apply (send_line_spec data 112 (bytes_of "PACKET_C_TX:" ++ [x00])); len.
Qed.
End Bridge.

(** ** Decoding *)
Lemma hex_value_not_nul a v : hex_value a = Some v → Byte.eqb a x00 = false.
Proof. by destruct a. Qed.

Lemma strtol16_digits a b hi lo :
  hex_value a = Some hi → hex_value b = Some lo → strtol16 (c_string [a; b; x00]) = (16 * hi + lo)%Z.
Proof.
  intros Ha Hb. cbn [c_string]. rewrite (hex_value_not_nul a hi Ha), (hex_value_not_nul b lo Hb).
  cbn [Byte.eqb]. change (if Byte.eqb x00 x00 then [] else _) with (@nil byte).
  assert (strtol16 [a; b] = hex_number [a; b] 0) as ->.
  { destruct a; try discriminate Ha; reflexivity. }
  cbn [hex_number]. rewrite Ha, Hb. lia.
Qed.

Lemma hex_bytes_length l : Nat.Even (length l) → ∀ r, hex_bytes l = Some r → length l = length r * 2.
Proof.
  revert l. fix IH 1. intros [|a [|b l]] He r; cbn [hex_bytes length].
  - by intros [= <-].
  - by apply Nat.even_spec in He.
  - destruct (hex_value a); [|done]. destruct (hex_value b); [|done]. cbn [mbind option_bind].
    destruct (hex_bytes l) as [r'|] eqn:E; [|done]. intros [= <-]. cbn [length].
    assert (Nat.Even (length l)) as Hl by (destruct He as [m Hm]; exists (m - 1); cbn [length] in Hm; lia).
    specialize (IH l Hl r' E). lia.
Qed.

(** Digits are decoded, up to the room there is. *)
Lemma hex_to_bin_loop_digits fuel pre s tl r done rest max :
  length s < fuel → length pre = length done * 2 → hex_bytes s = Some r → length s = length r * 2 →
  length r ≤ length rest → length done + length r = max →
  hex_to_bin_loop fuel (pre ++ s ++ x00 :: tl) (length pre + length s) (length pre) (done ++ rest) max =
  Some (done ++ r ++ drop (length r) rest).
Proof.
  revert pre s r done rest. induction fuel as [|fuel IH]; intros pre s r don rest Hf Hp Hs Hl Hr Hm; [lia|].
  cbn [hex_to_bin_loop]. destruct s as [|a [|b s]].
  - destruct r; [|cbn in Hl; lia]. cbn [length app drop]. rewrite (proj2 (Nat.ltb_ge _ _)) by lia. done.
  - cbn [length] in Hl. lia.
  - cbn [hex_bytes] in Hs. destruct (hex_value a) as [hi|] eqn:Ha; [|done].
    destruct (hex_value b) as [lo|] eqn:Hb; [|done]. cbn [mbind option_bind] in Hs.
    destruct (hex_bytes s) as [r'|] eqn:Er; [|done]. injection Hs as <-. cbn [length] in *.
    rewrite (proj2 (Nat.ltb_lt _ _)) by lia.
    assert (length pre / 2 = length don) as Hdiv by (rewrite Hp; by apply Nat.div_mul).
    rewrite Hdiv, (proj2 (Nat.ltb_lt _ _)) by lia. cbn [andb].
    assert (∀ k, rd (pre ++ (a :: b :: s) ++ x00 :: tl) (length pre + k) = ((a :: b :: s) ++ x00 :: tl) !! k)
      as Hrd by (intros k; unfold rd; rewrite lookup_app_r by lia; f_equal; lia).
    pose proof (Hrd 0) as Hr0. rewrite Nat.add_0_r in Hr0. rewrite Hr0, Hrd.
    cbn [app lookup list_lookup mbind option_bind].
    rewrite (strtol16_digits a b hi lo Ha Hb).
    destruct rest as [|x rest]; [cbn in Hr; lia|]. rewrite wr_next by done.
    cbn [mbind option_bind drop length] in *.
    specialize (IH (pre ++ [a; b]) s r' (don ++ [byte_of_Z (16 * hi + lo)]) rest
      ltac:(lia) ltac:(len) Er ltac:(lia) ltac:(lia) ltac:(len)).
    rewrite <- (app_assoc pre), (length_app pre) in IH. cbn [app length] in IH.
    replace (length pre + S (S (length s))) with (length pre + 2 + length s) by lia.
    cbn [app]. rewrite drop_0, IH. by rewrite <- app_assoc.
Qed.

Lemma strlen_spec s tl : x00 ∉ s → strlen (s ++ x00 :: tl) = Some (length s).
Proof.
  intros Hs. unfold strlen. rewrite bool_decide_eq_true_2 by (apply elem_of_app; right; by left).
  by rewrite c_string_spec.
Qed.

Lemma hex_digits_no_nul s r : Nat.Even (length s) → hex_bytes s = Some r → x00 ∉ s.
Proof.
  revert r. revert s. fix IH 1. intros [|a [|b s]] r He Hs; cbn [hex_bytes] in Hs.
  - apply not_elem_of_nil.
  - by apply Nat.even_spec in He.
  - destruct (hex_value a) eqn:Ha; [|done]. destruct (hex_value b) eqn:Hb; [|done]. cbn [mbind option_bind] in Hs.
    destruct (hex_bytes s) as [r'|] eqn:E; [|done].
    assert (Nat.Even (length s)) as Hl by (destruct He as [m Hm]; exists (m - 1); cbn [length] in Hm; lia).
    rewrite !not_elem_of_cons. split_and!; [by intros <-|by intros <-|by apply (IH s r')].
Qed.

Lemma hex_to_bin_digits s tl r bin :
  hex_bytes s = Some r → length s = length bin * 2 → hex_to_bin (s ++ x00 :: tl) bin (length bin) = Some r.
Proof.
  intros Hs Hl. assert (Nat.Even (length s)) as He by (exists (length bin); lia).
  pose proof (hex_bytes_length s He r Hs) as Hr. unfold hex_to_bin.
  rewrite strlen_spec by by apply (hex_digits_no_nul s r). cbn [mbind option_bind].
  pose proof (hex_to_bin_loop_digits (S (length s)) [] s tl r [] bin (length bin)
    ltac:(lia) eq_refl Hs Hr ltac:(lia) ltac:(cbn; lia)) as Hb.
  cbn [app length Nat.add] in Hb. rewrite Hb, drop_ge by lia. by rewrite app_nil_r.
Qed.

(** On any C string, the decoder stays inside both arrays. *)
Lemma hex_to_bin_loop_total fuel hex len i bin max :
  len - i < fuel → len < length hex → max ≤ length bin →
  ∃ bin', hex_to_bin_loop fuel hex len i bin max = Some bin' ∧ length bin' = length bin.
Proof.
  revert i bin. induction fuel as [|fuel IH]; intros i bin Hf Hl Hm; [lia|]. cbn [hex_to_bin_loop].
  destruct (Nat.ltb_spec i len); cbn [andb]; [|by eexists].
  destruct (Nat.ltb_spec (i / 2) max); [|by eexists].
  destruct (lookup_lt_is_Some_2 hex i ltac:(lia)) as [a Ha].
  destruct (lookup_lt_is_Some_2 hex (i + 1) ltac:(lia)) as [b Hb].
  unfold rd. rewrite Ha, Hb. cbn [mbind option_bind]. rewrite wr_ok by lia. cbn [mbind option_bind].
  destruct (IH (i + 2) (<[i / 2 := byte_of_Z (strtol16 (c_string [a; b; x00]))]> bin)) as (bin' & -> & Hb');
    [lia|done|by rewrite length_insert|]. exists bin'. split; [done|]. by rewrite Hb', length_insert.
Qed.

Lemma strlen_total s : x00 ∈ s → ∃ n, strlen s = Some n ∧ n < length s.
Proof.
  intros Hs. unfold strlen. rewrite bool_decide_eq_true_2 by done. eexists; split; [done|].
  induction s as [|b s IH]; [by apply not_elem_of_nil in Hs|]. cbn [c_string length].
  destruct (byte_eqb_spec b x00); [cbn; lia|]. cbn [length]. apply elem_of_cons in Hs as [?|Hs]; [congruence|].
  specialize (IH Hs). lia.
Qed.

Lemma hex_to_bin_total hex bin :
  x00 ∈ hex → ∃ bin', hex_to_bin hex bin (length bin) = Some bin' ∧ length bin' = length bin.
Proof.
  intros Hn. unfold hex_to_bin. destruct (strlen_total hex Hn) as (n & -> & Hl). cbn [mbind option_bind].
  apply hex_to_bin_loop_total; lia.
Qed.

(** ** The bouncer *)
Lemma decrypt_loop_spec n i enc don rest :
  i = length don → i + n = length enc → take i enc = don → n ≤ length rest →
  decrypt_loop n i enc (don ++ rest) = Some (enc ++ drop n rest).
Proof.
  revert i don rest. induction n as [|n IH]; intros i don rest Hi Hn Ht Hr; cbn [decrypt_loop].
  { rewrite drop_0. rewrite firstn_all2 in Ht by lia. by rewrite Ht. }
  destruct (lookup_lt_is_Some_2 enc i ltac:(lia)) as [b Hb]. unfold rd. rewrite Hb. cbn [mbind option_bind].
  destruct rest as [|x rest]; [cbn in Hr; lia|]. rewrite wr_next by done. cbn [mbind option_bind drop].
  rewrite drop_0, (IH (S i) (don ++ [b]) rest); [done|len|lia| |cbn in Hr; lia].
  by rewrite (take_S_r _ _ b), Ht.
Qed.

(** Every packet of the right length passes: the signature is not looked at. *)
Lemma process_packet_passes buf out :
  length buf = SIZE_PACKET_B → 62 ≤ length out →
  process_packet buf SIZE_PACKET_B out (length out) = Some (true, take 62 (drop 48 buf) ++ drop 62 out).
Proof.
  intros Hb Ho. unfold process_packet, validate_packet_size, SIZE_PACKET_B in *. rewrite Nat.eqb_refl. cbn [negb].
  unfold rd_range. rewrite !(proj2 (Nat.leb_le _ _)) by lia. cbn [mbind option_bind validate_signature negb].
  unfold decrypt_payload. rewrite (proj2 (Nat.ltb_ge _ _)) by lia.
  rewrite (decrypt_loop_spec 62 0 _ [] out); [done|done| |done|done]. len.
Qed.

Lemma lor_shiftl x y n : (0 <= n → 0 <= x < 2 ^ n → Z.lor x (Z.shiftl y n) = x + 2 ^ n * y)%Z.
Proof.
  intros Hn Hx. assert (Z.land x (Z.shiftl y n) = 0%Z) as Hland by (rewrite Z.land_comm; by apply land_shiftl_low).
  rewrite <- Z.lxor_lor, <- Z.add_nocarry_lxor by done. rewrite Z.shiftl_mul_pow2 by lia. lia.
Qed.

Lemma le_four a b c d :
  (Z.lor (Z.lor (Z.lor (byte_to_Z a) (Z.shiftl (byte_to_Z b) 8)) (Z.shiftl (byte_to_Z c) 16))
     (Z.shiftl (byte_to_Z d) 24) = le_uint [a; b; c; d])%Z.
Proof.
  rewrite !le_uint_cons. change (le_uint []) with 0%Z.
  pose proof (byte_to_Z_range a). pose proof (byte_to_Z_range b). pose proof (byte_to_Z_range c).
  rewrite (lor_shiftl (byte_to_Z a)), (lor_shiftl _ (byte_to_Z c)), (lor_shiftl _ (byte_to_Z d)) by lia. lia.
Qed.

Lemma take_four l p :
  p + 4 ≤ length l →
  ∃ a b c d, take 4 (drop p l) = [a; b; c; d] ∧
    rd l p = Some a ∧ rd l (p + 1) = Some b ∧ rd l (p + 2) = Some c ∧ rd l (p + 3) = Some d.
Proof.
  intros Hl. unfold rd.
  destruct (lookup_lt_is_Some_2 l p ltac:(lia)) as [a Ha].
  destruct (lookup_lt_is_Some_2 l (p + 1) ltac:(lia)) as [b Hb].
  destruct (lookup_lt_is_Some_2 l (p + 2) ltac:(lia)) as [c Hc].
  destruct (lookup_lt_is_Some_2 l (p + 3) ltac:(lia)) as [d Hd].
  exists a, b, c, d. split; [|done].
  rewrite (drop_S _ _ _ Ha). replace (S p) with (p + 1) by lia. rewrite (drop_S _ _ _ Hb).
  replace (S (p + 1)) with (p + 2) by lia. rewrite (drop_S _ _ _ Hc).
  replace (S (p + 2)) with (p + 3) by lia. by rewrite (drop_S _ _ _ Hd).
Qed.

Lemma extract_sat_id buf :
  length buf = SIZE_PACKET_B → extract_packet_b_sat_id_snlp buf = Some (le_uint (take 4 (drop 112 buf))).
Proof.
  unfold SIZE_PACKET_B, extract_packet_b_sat_id_snlp. intros Hb.
  destruct (take_four buf 112 ltac:(lia)) as (a & b & c & d & -> & Ha & Hb' & Hc & Hd). cbn [Nat.add] in *.
  rewrite Ha, Hb', Hc, Hd. cbn [mbind option_bind]. by rewrite le_four.
Qed.

(** ** The loop *)
Section Loop.
Context {W : Type} `{GroundIO W} (host : list byte) (port : Z) (memory : W → stack).

(** The arrays have their lengths. *)
Record stack_ok (s : stack) : Prop := {
  sk_packet_bin : length (st_packet_bin s) = SIZE_PACKET_B;
  sk_cleartext : length (st_cleartext s) = 256;
  sk_ack_frame : length (st_ack_frame s) = kPacketAckSize;
  sk_ack_line : length (st_ack_line s) = 14 + kPacketAckSize * 2 + 2;
}.
Context (Hmem : ∀ w, stack_ok (memory w)).

(** What a packet of 192 bytes gets, whatever they are: the acknowledgement of the
    satellite it names on the line, and itself to the gateway. *)
Definition target_of (raw : list byte) : Z := le_uint (take 4 (drop 112 raw)).

Definition acknowledgement (raw : list byte) : list byte :=
  ack_line (frame_bytes (ack_frame (ack_inputs (target_of raw)))).

Definition pushed (raw : list byte) (w : W) : W :=
  let '(connected, w) := open_socket w in
  if negb connected then w else
  if 512 <=? length (push_headers host port SIZE_PACKET_B) then w else
  send_bytes raw (send_bytes (push_headers host port SIZE_PACKET_B) w).

Definition bridged (raw : list byte) (w : W) : W :=
  pushed raw (serial_write_bytes (acknowledgement raw) w).2.

Lemma ack_inputs_wf raw : length raw = SIZE_PACKET_B → AckInputs_wf (ack_inputs (target_of raw)).
Proof.
  intros Hl. unfold SIZE_PACKET_B in Hl. pose proof (le_uint_range (take 4 (drop 112 raw))) as Ht.
  rewrite length_take, length_drop, Hl in Ht. by split_and!.
Qed.

Lemma push_to_l2_spec raw w :
  length raw = SIZE_PACKET_B → ∃ ok, push_to_l2 host port (Some raw) SIZE_PACKET_B w = Some (ok, pushed raw w).
Proof.
  intros Hl. unfold push_to_l2, pushed. change (SIZE_PACKET_B =? 0) with false. cbv iota.
  destruct (open_socket w) as [[] w1]; cbn [negb]; [|by eexists]. destruct (512 <=? _); [by eexists|].
  rewrite (win_range raw 0 (length raw)), win_all by lia. cbn [mbind option_bind].
  rewrite <- Hl, firstn_all. by eexists.
Qed.

Lemma on_packet_b_spec hex raw w :
  hex_to_bin hex (st_packet_bin (memory w)) SIZE_PACKET_B = Some raw → length raw = SIZE_PACKET_B →
  on_packet_b host port memory hex w = Some (bridged raw w).
Proof.
  intros Hbin Hl. destruct (Hmem w) as [_ Hc Ha Hk]. unfold on_packet_b. cbv zeta. rewrite Hbin.
  cbn [mbind option_bind]. rewrite <- Hc, process_packet_passes by (done || lia). cbn [mbind option_bind negb].
  rewrite extract_sat_id by done. cbn [mbind option_bind]. fold (target_of raw).
  rewrite ack_build_bytes by (by apply ack_inputs_wf || lia). cbn [mbind option_bind].
  rewrite drop_ge, app_nil_r by lia.
  assert (length (frame_bytes (ack_frame (ack_inputs (target_of raw)))) = kPacketAckSize) as Hf.
  { rewrite ack_frame_bytes, length_app, length_ack_covered, length_put_le by by apply ack_inputs_wf. done. }
  rewrite lora_tx_ack_spec by done. unfold bridged, acknowledgement.
  destruct (serial_write_bytes _ w) as [n w1]. cbn [mbind option_bind snd].
  destruct (push_to_l2_spec raw w1 Hl) as [ok ->]. done.
Qed.

Lemma nul_behind n buf : x00 ∈ buf → n ≤ length (c_string buf) → x00 ∈ drop n buf.
Proof.
  revert n. induction buf as [|b buf IH]; intros n Hn Hl; [by apply not_elem_of_nil in Hn|].
  destruct n as [|n]; [by rewrite drop_0|]. cbn [c_string] in Hl.
  destruct (byte_eqb_spec b x00) as [->|Hb]; cbn [length] in Hl; [lia|].
  apply elem_of_cons in Hn as [?|Hn]; [congruence|]. cbn [drop]. apply IH; [done|lia].
Qed.

Lemma on_line_total buf w : x00 ∈ buf → is_Some (on_line host port memory buf w).
Proof.
  intros Hn. unfold on_line, has_prefix. case_bool_decide as Hp; [|done].
  assert (9 <= length (c_string buf)) as Hl.
  { apply (f_equal length) in Hp. change (length (bytes_of "PACKET_B:")) with 9 in Hp. rewrite length_take in Hp. lia. }
  pose proof (nul_behind 9 buf Hn Hl) as Hn9. destruct (Hmem w) as [Hbin _ _ _].
  destruct (hex_to_bin_total (drop 9 buf) (st_packet_bin (memory w)) Hn9) as (raw & Hraw & Hlen).
  rewrite Hbin in Hraw, Hlen. by rewrite (on_packet_b_spec _ raw w Hraw Hlen).
Qed.

Definition bridge_ok (b : bridge (W := W)) : Prop :=
  length (line_buf b) = LINE_BUF_SIZE ∧ line_idx b < LINE_BUF_SIZE.

Lemma feed_total c b : bridge_ok b → ∃ b', feed host port memory c b = Some b' ∧ bridge_ok b'.
Proof.
  intros [Hl Hi]. unfold feed, LINE_BUF_SIZE in *. destruct (_ || _).
  - destruct (Nat.ltb_spec 0 (line_idx b)); [|by exists b]. rewrite wr_ok by lia. cbn [mbind option_bind].
    destruct (on_line_total (<[line_idx b:=x00]> (line_buf b)) (outside b)) as [w ->].
    { apply list_elem_of_lookup. exists (line_idx b). apply list_lookup_insert_eq. lia. }
    eexists. split; [done|]. split; cbn; [by rewrite length_insert|unfold LINE_BUF_SIZE; lia].
  - destruct (Nat.ltb_spec (line_idx b) (512 - 1)); [|by exists b]. rewrite wr_ok by lia.
    eexists. split; [done|]. split; cbn; [by rewrite length_insert|unfold LINE_BUF_SIZE; lia].
Qed.

Lemma feed_all_total l b : bridge_ok b → ∃ b', feed_all host port memory l b = Some b' ∧ bridge_ok b'.
Proof.
  revert b. induction l as [|c l IH]; intros b Hb; cbn [feed_all]; [by exists b|].
  destruct (feed_total c b Hb) as (b1 & -> & Hb1). by apply IH.
Qed.

Lemma feed_all_app l k b : feed_all host port memory (l ++ k) b = (b ← feed_all host port memory l b; feed_all host port memory k b).
Proof.
  revert b. induction l as [|c l IH]; intros b; [done|]. cbn [app feed_all].
  destruct (feed _ _ _ c b) as [b'|]; [|done]. apply IH.
Qed.

Definition in_line (c : byte) : Prop := c ≠ x0a ∧ c ≠ x0d.

Lemma feed_text l don rest w :
  Forall in_line l → length don + length l < LINE_BUF_SIZE → length l ≤ length rest →
  feed_all host port memory l {| line_buf := don ++ rest; line_idx := length don; outside := w |} =
  Some {| line_buf := (don ++ l) ++ drop (length l) rest; line_idx := length (don ++ l); outside := w |}.
Proof.
  intros Hl. revert don rest. induction Hl as [|c l [Hn Hr] Hl IH]; intros don rest Hd Hlen.
  { cbn [feed_all length]. by rewrite drop_0, app_nil_r. }
  unfold LINE_BUF_SIZE in *. cbn [feed_all length] in *. unfold feed at 1. cbn [line_buf line_idx outside].
  destruct (byte_eqb_spec c x0a); [done|]. destruct (byte_eqb_spec c x0d); [done|]. cbn [orb].
  unfold LINE_BUF_SIZE. rewrite (proj2 (Nat.ltb_lt _ _)) by lia.
  destruct rest as [|x rest]; [cbn in Hlen; lia|]. rewrite wr_next by done. cbn [mbind option_bind].
  change (drop 1 (x :: rest)) with rest. change (drop (S (length l)) (x :: rest)) with (drop (length l) rest).
  replace (S (length don)) with (length (don ++ [c])) by len. cbn [length] in Hlen.
  rewrite IH by len. by rewrite <- (app_assoc don).
Qed.

Lemma feed_end l c rest w :
  l ≠ [] → rest ≠ [] →
  feed host port memory x0d {| line_buf := l ++ c :: rest; line_idx := length l; outside := w |} =
  (w ← on_line host port memory (l ++ x00 :: rest) w;
   Some {| line_buf := l ++ x00 :: rest; line_idx := 0; outside := w |}).
Proof.
  intros Hl Hr. unfold feed. cbn [line_buf line_idx outside].
  change (Byte.eqb x0d x0a || Byte.eqb x0d x0d) with true. cbv iota.
  destruct (Nat.ltb_spec 0 (length l)); [|destruct l; [done|cbn in *; lia]].
  rewrite wr_next by done. change (drop 1 (c :: rest)) with rest. by rewrite <- (app_assoc l).
Qed.

(** A line and its end. *)
Lemma feed_line l b :
  bridge_ok b → line_idx b = 0 → Forall in_line l → l ≠ [] → length l < LINE_BUF_SIZE - 1 →
  ∃ tl, feed_all host port memory (l ++ [x0d; x0a]) b =
    (w ← on_line host port memory (l ++ x00 :: tl) (outside b);
     Some {| line_buf := l ++ x00 :: tl; line_idx := 0; outside := w |}).
Proof.
  intros [Hb _] Hi Hl Hne Hlen. destruct b as [buf i w]. cbn [line_buf line_idx outside] in *. subst i.
  unfold LINE_BUF_SIZE in *. rewrite feed_all_app.
  pose proof (feed_text l [] buf w Hl) as Ht. unfold LINE_BUF_SIZE in Ht. cbn [app length] in Ht.
  rewrite Ht by lia. cbn [mbind option_bind feed_all].
  assert (length (drop (length l) buf) = length buf - length l) as Hd by len.
  destruct (drop (length l) buf) as [|c [|c' tl]]; cbn [length] in Hd; [lia..|].
  exists (c' :: tl). rewrite feed_end by done.
  destruct (on_line host port memory _ w) as [w'|]; reflexivity.
Qed.

Lemma hex_digits_all (P : byte → Prop) s r :
  (∀ c v, hex_value c = Some v → P c) → Nat.Even (length s) → hex_bytes s = Some r → Forall P s.
Proof.
  intros HP. revert r. revert s. fix IH 1. intros [|a [|b s]] r He Hs; cbn [hex_bytes] in Hs.
  - constructor.
  - by apply Nat.even_spec in He.
  - destruct (hex_value a) eqn:Ha; [|done]. destruct (hex_value b) eqn:Hb; [|done]. cbn [mbind option_bind] in Hs.
    destruct (hex_bytes s) as [r'|] eqn:E; [|done].
    assert (Nat.Even (length s)) as Hl by (destruct He as [m Hm]; exists (m - 1); cbn [length] in Hm; lia).
    constructor; [by eapply HP|]. constructor; [by eapply HP|]. by apply (IH s r').
Qed.

Lemma hex_value_in_line c v : hex_value c = Some v → in_line c.
Proof. intros Hc. split; intros ->; discriminate. Qed.

(** A line of something else. *)
Lemma feed_other l b :
  bridge_ok b → line_idx b = 0 → Forall in_line l → x00 ∉ l → l ≠ [] → length l < LINE_BUF_SIZE - 1 →
  take 9 l ≠ bytes_of "PACKET_B:" →
  ∃ b', feed_all host port memory (l ++ [x0d; x0a]) b = Some b' ∧
    bridge_ok b' ∧ line_idx b' = 0 ∧ outside b' = outside b.
Proof.
  intros Hb Hi Hl H0 Hne Hlen Hp. destruct (feed_line l b Hb Hi Hl Hne Hlen) as [tl Ht].
  destruct (feed_all_total (l ++ [x0d; x0a]) b Hb) as (b' & Hb' & Hok). exists b'. split; [done|]. rewrite Ht in Hb'.
  unfold on_line, has_prefix in Hb'. rewrite c_string_spec in Hb' by done.
  change (length (bytes_of "PACKET_B:")) with 9 in Hb'. rewrite bool_decide_eq_false_2 in Hb' by done.
  cbn [mbind option_bind] in Hb'. by injection Hb' as <-.
Qed.

(** A line with a packet on it. *)
Lemma feed_packet_b hex raw b :
  bridge_ok b → line_idx b = 0 → hex_bytes hex = Some raw → length hex = SIZE_PACKET_B * 2 →
  ∃ b', feed_all host port memory (bytes_of "PACKET_B:" ++ hex ++ [x0d; x0a]) b = Some b' ∧
    bridge_ok b' ∧ line_idx b' = 0 ∧ outside b' = bridged raw (outside b).
Proof.
  intros Hb Hi Hx Hl. assert (Nat.Even (length hex)) as He by (exists SIZE_PACKET_B; lia).
  pose proof (hex_bytes_length hex He raw Hx) as Hr. unfold SIZE_PACKET_B in *.
  destruct (feed_line (bytes_of "PACKET_B:" ++ hex) b Hb Hi) as [tl Ht].
  - apply Forall_app. split; [repeat constructor; done|]. by eapply hex_digits_all; [apply hex_value_in_line| |].
  - done.
  - rewrite length_app, Hl. unfold LINE_BUF_SIZE. cbn. lia.
  - rewrite <- app_assoc in Ht.
    destruct (feed_all_total (bytes_of "PACKET_B:" ++ hex ++ [x0d; x0a]) b Hb) as (b' & Hb' & Hok). exists b'. split; [done|]. rewrite Ht in Hb'.
    unfold on_line in Hb'. unfold has_prefix in Hb'. rewrite c_string_spec in Hb'.
    2:{ apply not_elem_of_app. split; [by apply (bool_decide_unpack _)|]. by apply (hex_digits_no_nul hex raw). }
    change (length (bytes_of "PACKET_B:")) with 9 in Hb'.
    change 9 with (length (bytes_of "PACKET_B:")) in Hb'.
    rewrite take_app_length, bool_decide_eq_true_2 in Hb' by done.
    rewrite <- (app_assoc (bytes_of "PACKET_B:")), drop_app_length in Hb'.
    destruct (Hmem (outside b)) as [Hbin _ _ _]. unfold SIZE_PACKET_B in Hbin.
    rewrite (on_packet_b_spec _ raw) in Hb'.
    + cbn [mbind option_bind] in Hb'. by injection Hb' as <-.
    + unfold SIZE_PACKET_B. rewrite <- Hbin. apply hex_to_bin_digits; [done|]. by rewrite Hbin.
    + unfold SIZE_PACKET_B. lia.
Qed.
(** C10. The bridge is safe and forwards. Whatever bytes arrive on the serial line, no
    access of the loop, the decoder, the bouncer, the builder of acknowledgements or the
    two senders is outside its array, and the loop is ready for the next byte. And when a
    line begins and [PACKET_B:] comes with 384 hexadecimal digits of either case, the
    satellite these bytes name is acknowledged on the line and the gateway is sent the
    bytes, whatever they are: no signature is looked at. *)
Theorem bridge_forwards l b hex raw :
  bridge_ok b →
  ∃ b', feed_all host port memory l b = Some b' ∧ bridge_ok b' ∧
    (line_idx b' = 0 → hex_bytes hex = Some raw → length hex = SIZE_PACKET_B * 2 →
     ∃ b'', feed_all host port memory (l ++ bytes_of "PACKET_B:" ++ hex ++ [x0d; x0a]) b = Some b'' ∧
       bridge_ok b'' ∧ line_idx b'' = 0 ∧
       outside b'' = pushed raw (serial_write_bytes
         (ack_line (frame_bytes (ack_frame (ack_inputs (le_uint (take 4 (drop 112 raw)))))))
         (outside b')).2).
Proof.
  intros Hb. destruct (feed_all_total l b Hb) as (b' & Hl & Hb'). exists b'. split; [done|]. split; [done|].
  intros Hi Hx Hlen. destruct (feed_packet_b hex raw b' Hb' Hi Hx Hlen) as (b'' & Hf & Hrest).
  exists b''. split; [|exact Hrest]. by rewrite feed_all_app, Hl.
Qed.
End Loop.

(** ** A ground *)

(** What left the serial port, and what was sent on the last connection. *)
Record ground := { gd_serial : list (list byte); gd_sent : list byte }.

#[export] Instance ground_io : GroundIO ground := {|
  serial_write_bytes line w :=
    (Z.of_nat (length line), {| gd_serial := gd_serial w ++ [line]; gd_sent := gd_sent w |});
  open_socket w := (true, {| gd_serial := gd_serial w; gd_sent := [] |});
  send_bytes l w := {| gd_serial := gd_serial w; gd_sent := gd_sent w ++ l |};
|}.

Definition demo_stack : stack :=
  {| st_packet_bin := replicate 192 x55; st_cleartext := replicate 256 x55;
     st_ack_frame := replicate 136 x55; st_ack_line := replicate 288 x55 |}.

Definition demo_bridge : bridge (W := ground) :=
  {| line_buf := replicate 512 x55; line_idx := 0; outside := {| gd_serial := []; gd_sent := [] |} |}.

Lemma demo_stack_ok (w : ground) : stack_ok demo_stack.
Proof. by split. Qed.

(** Half a line is on its way when the bytes start. *)
Lemma bridge_forwards_witness :
  let l := bytes_of "noise" ++ [x00; x0a] in
  let hex := concat (replicate 192 (bytes_of "4a")) in
  ∃ b, feed_all [] 0 (λ _, demo_stack) (l ++ bytes_of "PACKET_B:" ++ hex ++ [x0d; x0a]) demo_bridge = Some b ∧
    gd_serial (outside b) = [ack_line (frame_bytes (ack_frame (ack_inputs 0x4a4a4a4a)))].
Proof.
  intros l hex.
  destruct (bridge_forwards [] 0 (λ _, demo_stack) demo_stack_ok l demo_bridge hex (replicate 192 x4a))
    as (b' & Hl & _ & Hf).
  - split; [reflexivity|apply Nat.ltb_lt; reflexivity].
  - destruct Hf as (b & Hb & _ & _ & Ho).
    + vm_compute in Hl. injection Hl as <-. reflexivity.
    + vm_compute. reflexivity.
    + vm_compute. reflexivity.
    + exists b. split; [exact Hb|]. rewrite Ho. vm_compute in Hl. injection Hl as <-. vm_compute. reflexivity.
Defined.
