(* ===== verification/Security.v ===== *)
(** * The security manager of the firmware

    Models [void-core/src/security_manager.cpp]: the identity key, the session state, the
    handshake packet, and [encryptPacketB], which fills the payload of a payment,
    encrypted or (with [VOID_ALPHA_PLAINTEXT], the flag [alpha]) in clear, and signs it.
    The SNLP layout is modelled ([VOID_PROTOCOL_TYPE] 2). A packet is its bytes; a store
    to a field is a store at the offset the packed structure gives it.

    libsodium is the interface [Sodium], and for signatures [Ed25519]. The loops that
    stop the board when a signature has not 64 bytes are left out: it always has. *)
From S2P Require Export CBuffer Ed25519.
#[local] Open Scope Z_scope.

Class Sodium := {
  crypto_hash_sha256 : list byte → list byte;
  crypto_box_public : list byte → list byte;   (** the public key of [crypto_box_keypair] *)
  crypto_scalarmult : list byte → list byte → bool * list byte;
  crypto_generichash : list byte → list byte;
  crypto_stream_chacha20_xor : list byte → list byte → list byte → list byte;
}.

Inductive SessionState :=
  | SESSION_IDLE | SESSION_HANDSHAKE_INIT | SESSION_HANDSHAKE_WAIT | SESSION_ACTIVE | SESSION_LOCKED.
#[export] Instance SessionState_eq_dec : EqDecision SessionState.
Proof. solve_decision. Defined.

Record SecurityManager := {
  identity_pub : list byte;
  identity_priv : list byte;
  eph_pub : list byte;
  eph_priv : list byte;
  session_key : list byte;
  sess_state : SessionState;
  session_start_ts : Z;
  session_ttl : Z;
  last_tx_epoch_ms : Z;
  gps_time_valid : bool;
}.

Definition set_identity (pub priv : list byte) (m : SecurityManager) : SecurityManager :=
  {| identity_pub := pub; identity_priv := priv; eph_pub := eph_pub m; eph_priv := eph_priv m;
     session_key := session_key m; sess_state := sess_state m; session_start_ts := session_start_ts m;
     session_ttl := session_ttl m; last_tx_epoch_ms := last_tx_epoch_ms m; gps_time_valid := gps_time_valid m |}.

Definition set_session (pub priv key : list byte) (st : SessionState) (start ttl : Z) (m : SecurityManager)
    : SecurityManager :=
  {| identity_pub := identity_pub m; identity_priv := identity_priv m; eph_pub := pub; eph_priv := priv;
     session_key := key; sess_state := st; session_start_ts := start;
     session_ttl := ttl; last_tx_epoch_ms := last_tx_epoch_ms m; gps_time_valid := gps_time_valid m |}.

Definition set_clock (last : Z) (gps : bool) (m : SecurityManager) : SecurityManager :=
  {| identity_pub := identity_pub m; identity_priv := identity_priv m; eph_pub := eph_pub m;
     eph_priv := eph_priv m; session_key := session_key m; sess_state := sess_state m;
     session_start_ts := session_start_ts m; session_ttl := session_ttl m;
     last_tx_epoch_ms := last; gps_time_valid := gps |}.

(** The singleton before [begin]. *)
Definition new_SecurityManager : SecurityManager :=
  {| identity_pub := replicate 32 x00; identity_priv := replicate 64 x00; eph_pub := replicate 32 x00;
     eph_priv := replicate 32 x00; session_key := replicate 32 x00; sess_state := SESSION_IDLE;
     session_start_ts := 0; session_ttl := 0; last_tx_epoch_ms := 0; gps_time_valid := false |}.

Definition kDetSeed : list byte :=
  hex "bc1df4fa6e3d7048992f14e655060cbb2190bded9002524c06e7cbb163df15fb".

Definition SIZE_PACKET_H : nat := 120.

Section Security.
Context `{Sodium} `{Ed25519}.
Variable alpha : bool.

(** [env_key] is the factory secret of the role; [sodium_init() < 0] is [init_fails]. *)
Definition sm_begin (init_fails : bool) (env_key : list byte) (m : SecurityManager) : bool * SecurityManager :=
  if init_fails then (false, m) else
  let seed := if alpha then kDetSeed else crypto_hash_sha256 env_key in
  (true, set_identity (derive_public seed) (seed ++ derive_public seed) m).

Definition crypto_sign_detached (msg priv : list byte) : list byte := sign_with (take 32 priv) msg.

(** [fresh] is the secret key [crypto_box_keypair] draws. *)
Definition prepareHandshake (fresh pkt : list byte) (ttl_seconds current_time_ms : Z) (m : SecurityManager)
    : option (list byte * SecurityManager) :=
  let m := set_session (crypto_box_public fresh) fresh (session_key m) SESSION_HANDSHAKE_INIT
             current_time_ms ttl_seconds m in
  pkt ← wr pkt 4 x18;
  pkt ← wr pkt 5 xb2;
  pkt ← wr pkt 6 xc0;
  pkt ← wr pkt 7 x00;
  let raw_len := Z.of_nat SIZE_PACKET_H - 1 in
  pkt ← wr_range pkt 8 (put_le 2 (u16 (Z.lor (Z.shiftr raw_len 8) (Z.shiftl raw_len 8))));
  pkt ← wr_range pkt 14 (put_le 2 ttl_seconds);
  pkt ← wr_range pkt 16 (put_le 8 current_time_ms);
  pkt ← wr_range pkt 24 (eph_pub m);
  scope ← rd_range pkt 0 48;
  pkt ← wr_range pkt 56 (crypto_sign_detached scope (identity_priv m));
  Some (pkt, m).

Definition processHandshakeResponse (peer_eph_pub_key : list byte) (m : SecurityManager) : bool * SecurityManager :=
  let '(ok, shared) := crypto_scalarmult (eph_priv m) peer_eph_pub_key in
  if negb ok
  then (false, set_session (eph_pub m) (eph_priv m) shared (sess_state m) (session_start_ts m) (session_ttl m) m)
  else
    let key := crypto_generichash shared in
    (true, set_session (eph_pub m) (replicate 32 x00) key SESSION_ACTIVE (session_start_ts m) (session_ttl m) m).

(** [PacketB_t]: [epoch_ts] at 16, [enc_payload] at 48, [sat_id] at 112, [signature] at
    120. The nonce used, if the cipher runs, is an output. *)
Definition encryptPacketB (pkt payload_in : list byte) (m : SecurityManager)
    : option ((bool * list byte * option (list byte)) * SecurityManager) :=
  let len := length payload_in in
  if (62 <? len)%nat then Some ((false, pkt, None), m) else
  '(ok, pkt, nonce, m) ←
    (if alpha then
       pkt ← wr_range pkt 48 payload_in;
       pkt ← (if (len <? 62)%nat then wr_range pkt (48 + len) (replicate (62 - len) x00) else Some pkt);
       Some (true, pkt, None, m)
     else if negb (bool_decide (sess_state m = SESSION_ACTIVE)) then Some (false, pkt, None, m)
     else if negb (gps_time_valid m) then Some (false, pkt, None, m)
     else
       epoch_ts ← rd_range pkt 16 8;
       if le_uint epoch_ts <=? last_tx_epoch_ms m then Some (false, pkt, None, m) else
       sat_id ← rd_range pkt 112 4;
       let nonce := sat_id ++ epoch_ts in
       pkt ← wr_range pkt 48 (crypto_stream_chacha20_xor payload_in nonce (session_key m));
       Some (true, pkt, Some nonce, m));
  if negb (ok : bool) then Some ((false, pkt, None), m) else
  scope ← rd_range pkt 0 120;
  pkt ← wr_range pkt 120 (crypto_sign_detached scope (identity_priv m));
  epoch_ts ← rd_range pkt 16 8;
  let m := if alpha then m else set_clock (le_uint epoch_ts) (gps_time_valid m) m in
  Some ((true, pkt, nonce), m).

Definition wipeSession (m : SecurityManager) : SecurityManager :=
  set_session (eph_pub m) (replicate 32 x00) (replicate 32 x00) SESSION_IDLE (session_start_ts m) (session_ttl m) m.

Definition isSessionActive (current_time_ms : Z) (m : SecurityManager) : bool * SecurityManager :=
  if negb (bool_decide (sess_state m = SESSION_ACTIVE)) then (false, m) else
  if u32 (session_ttl m * 1000) <? u64 (current_time_ms - session_start_ts m)
  then (false, wipeSession m) else (true, m).

Definition setGpsTimeValid (valid : bool) (m : SecurityManager) : SecurityManager :=
  set_clock (last_tx_epoch_ms m) valid m.

(** ** Runs *)
Inductive sm_op :=
  | Op_Handshake (fresh pkt : list byte) (ttl now : Z)
  | Op_Response (peer : list byte)
  | Op_Encrypt (pkt payload : list byte)
  | Op_Active (now : Z)
  | Op_Gps (valid : bool)
  | Op_Wipe.

(** The nonce of an operation, with the key it is used under. *)
Definition sm_step (op : sm_op) (m : SecurityManager) : option (option (list byte * list byte) * SecurityManager) :=
  match op with
  | Op_Handshake fresh pkt ttl now => pair None ∘ snd <$> prepareHandshake fresh pkt ttl now m
  | Op_Response peer => Some (None, (processHandshakeResponse peer m).2)
  | Op_Encrypt pkt payload =>
      (λ r : bool * list byte * option (list byte) * SecurityManager,
        (pair (session_key m) <$> r.1.2, r.2)) <$> encryptPacketB pkt payload m
  | Op_Active now => Some (None, (isSessionActive now m).2)
  | Op_Gps valid => Some (None, setGpsTimeValid valid m)
  | Op_Wipe => Some (None, wipeSession m)
  end.

Fixpoint sm_run (ops : list sm_op) (m : SecurityManager) : option (list (list byte * list byte) * SecurityManager) :=
  match ops with
  | [] => Some ([], m)
  | op :: ops =>
      '(n, m) ← sm_step op m;
      '(ns, m) ← sm_run ops m;
      Some (option_list n ++ ns, m)
  end.
End Security.

(** ** Properties *)
Class SodiumLaws `{Sodium} : Prop := {
  length_box_public sk : length (crypto_box_public sk) = 32%nat;
  length_chacha20 msg nonce key : length (crypto_stream_chacha20_xor msg nonce key) = length msg;
}.

Section Laws.
Context `{SodiumLaws} `{Ed25519Laws}.
Variable alpha : bool.

Definition op_wf (op : sm_op) : Prop :=
  match op with
  | Op_Handshake _ pkt _ _ => length pkt = SIZE_PACKET_H
  | Op_Encrypt pkt _ => length pkt = 192%nat
  | _ => True
  end.

Definition keyed (m : SecurityManager) : Prop := length (identity_priv m) = 64%nat.

Lemma wr_range_ok buf i src :
  (i + length src ≤ length buf)%nat → ∃ buf', wr_range buf i src = Some buf' ∧ length buf' = length buf ∧
    take i buf' = take i buf.
Proof.
  intros Hi. unfold wr_range. rewrite (proj2 (Nat.leb_le _ _)) by done. eexists. split; [done|].
  split; [len|]. by rewrite take_app_length' by len.
Qed.

Lemma rd_range_ok buf i n : (i + n ≤ length buf)%nat → rd_range buf i n = Some (take n (drop i buf)).
Proof. intros. unfold rd_range. by rewrite (proj2 (Nat.leb_le _ _)). Qed.

Lemma length_signed m msg : keyed m → length (crypto_sign_detached msg (identity_priv m)) = 64%nat.
Proof. intros Hk. apply length_sign_with. rewrite length_take, Hk. done. Qed.

Lemma keyed_begin env m init_fails m' :
  (alpha = false → length (crypto_hash_sha256 env) = 32%nat) →
  sm_begin alpha init_fails env m = (true, m') → keyed m'.
Proof.
  intros Hs. unfold sm_begin. destruct init_fails; [done|]. intros [= <-]. unfold keyed. cbn [set_identity identity_priv].
  assert (length (if alpha then kDetSeed else crypto_hash_sha256 env) = SeedSize) as Hl.
  { destruct alpha; [done|by apply Hs]. }
  revert Hl. generalize (if alpha then kDetSeed else crypto_hash_sha256 env). intros seed Hl.
  rewrite length_app, (length_derive_public seed Hl), Hl. done.
Qed.

(** The stores and loads of a function one after another. *)
#[local] Ltac in_bounds :=
  rewrite ?length_insert, ?length_put_le, ?length_box_public, ?length_chacha20, ?length_replicate,
    ?length_signed in * by done; lia.
#[local] Ltac access :=
  match goal with
  | |- context [mbind _ (wr ?b ?i ?x)] => rewrite (wr_ok b i x) by in_bounds
  | |- context [mbind _ (wr_range ?b ?i ?s)] =>
      let b' := fresh "b" in let Hl := fresh "Hl" in let Ht := fresh "Ht" in
      destruct (wr_range_ok b i s) as (b' & -> & Hl & Ht); [in_bounds|]
  | |- context [mbind _ (rd_range ?b ?i ?n)] => rewrite (rd_range_ok b i n) by in_bounds
  end; cbn [mbind option_bind negb].

Lemma prepareHandshake_total fresh pkt ttl now m :
  length pkt = SIZE_PACKET_H → keyed m →
  ∃ pkt' m', prepareHandshake fresh pkt ttl now m = Some (pkt', m') ∧ length pkt' = SIZE_PACKET_H ∧
    identity_priv m' = identity_priv m ∧ last_tx_epoch_ms m' = last_tx_epoch_ms m.
Proof.
  intros Hp Hk. unfold prepareHandshake. cbv zeta. unfold SIZE_PACKET_H in *.
  cbn [eph_pub set_session identity_priv]. repeat access.
  eexists _, _. split; [done|]. split; [in_bounds|done].
Qed.

Lemma prefix_range n i j (l k : list byte) :
  take n l = take n k → (i + j ≤ n)%nat → take j (drop i l) = take j (drop i k).
Proof.
  intros Hn Hij. rewrite !firstn_skipn_comm.
  assert (∀ x : list byte, take (i + j) x = take (i + j) (take n x)) as Hx
    by (intros x; rewrite take_take; f_equal; lia).
  by rewrite (Hx l), (Hx k), Hn.
Qed.

(** What an encryption does with the clock and the nonce. *)
Lemma encryptPacketB_spec pkt payload m :
  length pkt = 192%nat → keyed m →
  ∃ ok pkt' nonce m', encryptPacketB alpha pkt payload m = Some ((ok, pkt', nonce), m') ∧ keyed m' ∧
    match nonce with
    | None => last_tx_epoch_ms m' = last_tx_epoch_ms m
    | Some n => alpha = false ∧ length n = 12%nat ∧ last_tx_epoch_ms m < le_uint (drop 4 n) ∧
        last_tx_epoch_ms m' = le_uint (drop 4 n)
    end.
Proof.
  intros Hp Hk. unfold encryptPacketB. cbv zeta.
  destruct (Nat.ltb_spec 62 (length payload)); [by exists false, pkt, None, m|].
  destruct alpha.
  - access. destruct (Nat.ltb_spec (length payload) 62); cbn [mbind option_bind negb]; repeat access; by eexists true, _, None, m.
  - destruct (negb (bool_decide _)); [by exists false, pkt, None, m|].
    destruct (negb (gps_time_valid m)); [by exists false, pkt, None, m|]. repeat access.
    destruct (Z.leb_spec (le_uint (take 8 (drop 16 pkt))) (last_tx_epoch_ms m)); [by exists false, pkt, None, m|].
    cbn [mbind option_bind negb]; repeat access. eexists _, _, _, _. split; [done|]. split; [done|].
    assert (drop 4 (take 4 (drop 112 pkt) ++ take 8 (drop 16 pkt)) = take 8 (drop 16 pkt)) as Hd
      by (by rewrite drop_app_length' by len).
    rewrite Hd. split; [done|]. split; [len|]. split; [done|]. cbn [last_tx_epoch_ms set_clock]. f_equal.
    rewrite (prefix_range 120 16 8 b0 b), (prefix_range 48 16 8 b pkt) by (done || lia). done.
Qed.

Lemma processHandshakeResponse_clock peer m :
  identity_priv (processHandshakeResponse peer m).2 = identity_priv m ∧
  last_tx_epoch_ms (processHandshakeResponse peer m).2 = last_tx_epoch_ms m.
Proof. unfold processHandshakeResponse. by destruct (crypto_scalarmult _ _) as [[] ?]. Qed.

Lemma isSessionActive_clock now m :
  identity_priv (isSessionActive now m).2 = identity_priv m ∧
  last_tx_epoch_ms (isSessionActive now m).2 = last_tx_epoch_ms m.
Proof. unfold isSessionActive. destruct (negb _); [done|]. by destruct (_ <? _). Qed.

(** Every step ends, and a nonce it uses is newer than the clock was. *)
Lemma sm_step_spec op m :
  op_wf op → keyed m →
  ∃ n m', sm_step alpha op m = Some (n, m') ∧ keyed m' ∧
    match n with
    | None => last_tx_epoch_ms m' = last_tx_epoch_ms m
    | Some (_, x) => alpha = false ∧ length x = 12%nat ∧ last_tx_epoch_ms m < le_uint (drop 4 x) ∧
        last_tx_epoch_ms m' = le_uint (drop 4 x)
    end.
Proof.
  intros Hwf Hk. destruct op as [fresh pkt ttl now|peer|pkt payload|now|valid|]; cbn [sm_step].
  - destruct (prepareHandshake_total fresh pkt ttl now m Hwf Hk) as (pkt' & m' & -> & _ & Hi & Hl).
    exists None, m'. split; [done|]. split; [by unfold keyed; rewrite Hi|done].
  - destruct (processHandshakeResponse_clock peer m) as [Hi Hl]. eexists None, _. split; [done|].
    split; [by unfold keyed; rewrite Hi|done].
  - destruct (encryptPacketB_spec pkt payload m Hwf Hk) as (ok & pkt' & nonce & m' & -> & Hk' & Hn).
    exists (pair (session_key m) <$> nonce), m'. split; [done|]. split; [done|]. by destruct nonce.
  - destruct (isSessionActive_clock now m) as [Hi Hl]. eexists None, _. split; [done|].
    split; [by unfold keyed; rewrite Hi|done].
  - by exists None, (setGpsTimeValid valid m).
  - by exists None, (wipeSession m).
Qed.

(** C13. No nonce is used twice. Whatever handshakes, responses, encryptions, time-outs,
    wipes and changes of the GPS gate the firmware goes through, every call ends, and
    the nonces of the encryptions, made of the satellite and the time stamp of the
    packet, are pairwise distinct (under whatever key), each newer than the clock was at
    the start; in the plaintext build no cipher runs. *)
Theorem nonces_never_repeat ops m :
  Forall op_wf ops → keyed m →
  ∃ ns m', sm_run alpha ops m = Some (ns, m') ∧ NoDup (snd <$> ns) ∧
    Forall (λ n, length n = 12%nat ∧ last_tx_epoch_ms m < le_uint (drop 4 n)) (snd <$> ns) ∧
    (alpha = true → ns = []).
Proof.
  intros Hops. revert m. induction Hops as [|op ops Hop Hops IH]; intros m Hk; cbn [sm_run].
  { exists [], m. split_and!; [done|constructor|constructor|done]. }
  destruct (sm_step_spec op m Hop Hk) as (n & m1 & Hstep & Hk1 & Hn).
  destruct (IH m1 Hk1) as (ns & m2 & Hrun & Hd & Hall & Ha).
  rewrite Hstep. cbn [mbind option_bind]. rewrite Hrun. cbn [mbind option_bind].
  exists (option_list n ++ ns), m2. split; [done|]. destruct n as [[k x]|]; cbn [option_list app fmap list_fmap snd].
  - destruct Hn as (Hal & Hl & Hlt & He). rewrite He in Hall. split_and!.
    + constructor; [|done]. intros Hin. rewrite list.Forall_forall in Hall.
      destruct (Hall x Hin) as [_ ?]. lia.
    + constructor; [done|]. apply list.Forall_forall. intros y Hy. rewrite list.Forall_forall in Hall.
      destruct (Hall y Hy). split; [done|lia].
    + congruence.
  - rewrite Hn in Hall. by split_and!.
Qed.
End Laws.

(** ** A witness *)
Definition toy_sodium : Sodium := {|
  crypto_hash_sha256 msg := replicate 32 xaa;
  crypto_box_public sk := replicate 32 xbb;
  crypto_scalarmult sk pk := (true, pk);
  crypto_generichash l := l;
  crypto_stream_chacha20_xor msg nonce key := msg;
|}.
#[local] Existing Instance toy_sodium.

#[local] Instance toy_sodium_laws : SodiumLaws.
Proof. split; intros; [apply length_replicate|reflexivity]. Qed.

Definition demo_manager : SecurityManager := (sm_begin false false [x41] new_SecurityManager).2.

(** A packet with a time stamp. *)
Definition stamped (epoch : Z) : list byte := replicate 16 x00 ++ put_le 8 epoch ++ replicate 168 x07.

(** A session; the time stamp 5 is used twice, and after a handshake 4 is tried. *)
Definition demo_ops : list sm_op :=
  [Op_Encrypt (stamped 5) []; Op_Response (replicate 32 x01); Op_Encrypt (stamped 5) [];
   Op_Gps true; Op_Encrypt (stamped 5) []; Op_Encrypt (stamped 5) [];
   Op_Handshake (replicate 32 x02) (replicate 120 x00) 600 7; Op_Response (replicate 32 x03);
   Op_Encrypt (stamped 4) []; Op_Encrypt (stamped 6) []].

Lemma nonces_never_repeat_witness :
  (∃ m, sm_run false demo_ops demo_manager =
    Some ([(replicate 32 x01, replicate 4 x07 ++ put_le 8 5); (replicate 32 x03, replicate 4 x07 ++ put_le 8 6)], m)) ∧
  ∃ ns m, sm_run false demo_ops demo_manager = Some (ns, m) ∧ NoDup (snd <$> ns).
Proof.
  split; [eexists; vm_compute; reflexivity|].
  destruct (nonces_never_repeat false demo_ops demo_manager) as (ns & m & Hrun & Hd & _).
  - repeat constructor.
  - reflexivity.
  - exists ns, m. split; [exact Hrun|exact Hd].
Defined.
