(* ===== verification/Satellite.v ===== *)
(** * The two satellites

    Models [satellite-firmware/src] in the build of the flat-sat demo (SNLP): the seller,
    [runSellerLoop] of [seller.cpp], which broadcasts an invoice and answers a receipt, and
    the buyer, [runBuyerLoop] of [buyer.cpp], which pays on a command of the ground.

    A packed structure is its bytes; a store to a field is a store at its offset. What a
    board does is the frames it transmits and the text it prints on the serial line; the
    display and the re-arming of the receiver are left out. [millis()] and what
    [crypto_box_keypair] draws are arguments; the clock is read anew at each call, before
    the frame ([now]), for its time ([stamp]) and after it ([now']). *)
From S2P Require Export Bridge Security.
From S2P Require Import Generator.
#[local] Open Scope Z_scope.

Inductive output :=
  | Radio (frame : list byte)
  | Serial (text : list byte).

Definition VOID_MAX_PACKET_SIZE : nat := 255.
Definition SIZE_VOID_HEADER : nat := 14.
Definition SIZE_PACKET_A : nat := 80.
Definition SIZE_PACKET_C : nat := 112.
Definition SIZE_TUNNEL_DATA : nat := 96.
Definition VOID_SESSION_TTL_DEF : Z := 600.
Definition SELLER_SAT_ID : Z := 0xCAFEBABE.
Definition BUYER_SAT_ID : Z := 0xCAFEBABE.
Definition SELLER_APID : Z := 100.
Definition BUYER_APID : Z := 101.
Definition DUTY_CYCLE_TARGET_MS : Z := 36000.
Definition SNLP_SYNC_WORD : Z := 0x1D01A5A5.

(** ** [VoidProtocol] *)
Definition fw_crc_round (crc : Z) : Z :=
  let mask := if negb (Z.land crc 1 =? 0) then 0xEDB88320 else 0 in
  Z.lxor (Z.shiftr crc 1) mask.

Definition calculateCRC (data : list byte) : Z :=
  u32 (Z.lnot (foldl (λ crc b, Nat.iter 8 fw_crc_round (Z.lxor crc (byte_to_Z b))) 0xFFFFFFFF data)).

Definition println (text : list byte) : list byte := text ++ crlf.

(** [Serial.print(n, HEX)] *)
Definition HEX_digit (z : Z) : byte :=
  default x30 (bytes_of "0123456789ABCDEF" !! Z.to_nat z).
Definition print_HEX (z : Z) : list byte :=
  if z <? 16 then [HEX_digit z] else [HEX_digit (z / 16); HEX_digit (z mod 16)].

Definition hexDump (data : list byte) : list byte :=
  concat ((λ b, (if byte_to_Z b <? 0x10 then bytes_of "0" else []) ++ print_HEX (byte_to_Z b)) <$> data) ++ println [].

(** ** Headers *)
Definition packVoidHeader (apid body_len : Z) : list byte :=
  let id := u16 (Z.lor 0x0800 (Z.land apid 0x07FF)) in
  let plen := u16 (body_len - 1) in
  [x1d; x01; xa5; xa5] ++
  [byte_of_Z (Z.land (Z.shiftr id 8) 0xFF); byte_of_Z (Z.land id 0xFF)] ++
  [xc0; x00] ++
  [byte_of_Z (Z.land (Z.shiftr plen 8) 0xFF); byte_of_Z (Z.land plen 0xFF)] ++
  [x00; x00; x00; x00].

(** [getAPID] of the seller. *)
Definition getAPID (buf : list byte) : option Z :=
  a ← rd buf 0; b ← rd buf 1;
  Some (u16 (Z.lor (Z.shiftl (Z.land (byte_to_Z a) 0x07) 8) (byte_to_Z b))).

(** [extractAPID] of the buyer. *)
Definition extractAPID (buf : list byte) : option Z :=
  a ← rd buf 4; b ← rd buf 5;
  Some (u16 (Z.lor (Z.shiftl (Z.land (byte_to_Z a) 0x07) 8) (byte_to_Z b))).

Definition validSyncWord (buf : list byte) : option bool :=
  a ← rd buf 0; b ← rd buf 1; c ← rd buf 2; d ← rd buf 3;
  let sync := Z.lor (Z.lor (Z.lor (Z.shiftl (byte_to_Z a) 24) (Z.shiftl (byte_to_Z b) 16))
                (Z.shiftl (byte_to_Z c) 8)) (byte_to_Z d) in
  Some (sync =? SNLP_SYNC_WORD).

Definition loadLE32 (buf : list byte) (p : nat) : option Z :=
  a ← rd buf p; b ← rd buf (p + 1); c ← rd buf (p + 2); d ← rd buf (p + 3);
  Some (Z.lor (Z.lor (Z.lor (byte_to_Z a) (Z.shiftl (byte_to_Z b) 8)) (Z.shiftl (byte_to_Z c) 16))
          (Z.shiftl (byte_to_Z d) 24)).

(** ** The seller *)
Record seller := { lastTx : Z; d_frame_buf : list byte }.

Definition seller_invoice (now : Z) : option (list byte) :=
  let invoice := replicate SIZE_PACKET_A x00 in
  let hdr_bytes := packVoidHeader SELLER_APID (Z.of_nat (SIZE_PACKET_A - SIZE_VOID_HEADER)) in
  invoice ← wr_range invoice 0 hdr_bytes;
  invoice ← wr_range invoice 16 (put_le 8 now);
  invoice ← wr_range invoice 60 (put_le 4 SELLER_SAT_ID);
  invoice ← wr_range invoice 64 (put_le 8 500);
  invoice ← wr_range invoice 72 (put_le 2 1);
  covered ← rd_range invoice 0 76;
  wr_range invoice 76 (put_le 4 (calculateCRC covered)).

(** [millis() - lastTx] is an [unsigned long] of 32 bits. *)
Definition seller_broadcast (now stamp now' : Z) (s : seller) : option (seller * list output) :=
  if negb (8000 <? u32 (now - lastTx s)) then Some (s, []) else
  invoice ← seller_invoice stamp;
  Some ({| lastTx := now'; d_frame_buf := d_frame_buf s |},
        [Radio invoice; Serial (println (bytes_of "SELLER: Broadcasted Invoice (PacketA)"));
         Serial (bytes_of "INVOICE_TX:" ++ hexDump invoice)]).

Definition handlePacketCReceipt (buf : list byte) (len : nat) (now : Z) (s : seller)
    : option (seller * list output) :=
  if negb (len =? SIZE_PACKET_C)%nat then Some (s, []) else
  advertised ← loadLE32 buf 104;
  covered ← rd_range buf 0 104;
  let calculated := calculateCRC covered in
  if negb (advertised =? calculated)
  then Some (s, [Serial (println (bytes_of "WARN: PacketC CRC mismatch " ++ [xe2; x80; x94] ++
                                  bytes_of " receipt dropped."))])
  else
    payload ← rd_range buf SIZE_VOID_HEADER kPayloadSize;
    let d_in := {| downlink_ts := now; sat_b_id := BUYER_SAT_ID; d_payload := payload |} in
    '(built, frame) ← d_build d_in (Some (d_frame_buf s)) kPacketDSize;
    frame ← frame;
    let s := {| lastTx := lastTx s; d_frame_buf := frame |} in
    if negb (built : bool) then Some (s, [Serial (println (bytes_of "ERR: packet_d_builder::build failed."))])
    else Some (s, [Radio frame]).

(** The receipt of the old flow. *)
Definition legacy_receipt (now : Z) : option (list byte) :=
  let receipt := replicate SIZE_PACKET_C x00 in
  receipt ← wr receipt 4 x18;
  receipt ← wr receipt 5 xa1;
  let rec_len := Z.of_nat SIZE_PACKET_C - 1 in
  receipt ← wr_range receipt 8 (put_le 2 (u16 (Z.lor (Z.shiftr rec_len 8) (Z.shiftl rec_len 8))));
  receipt ← wr_range receipt 16 (put_le 8 now);
  receipt ← wr receipt 32 x01;
  receipt ← wr_range receipt 24 (put_le 8 0x12345678);
  covered ← rd_range receipt 0 (SIZE_PACKET_C - 4);
  wr_range receipt 104 (put_le 4 (calculateCRC covered)).

(** A frame received, [getPacketLength()] bytes, and whether [readData] succeeds. *)
Definition seller_rx (data : list byte) (read_ok : bool) (now : Z) (s : seller) : option (seller * list output) :=
  let len := length data in
  if negb ((len <=? VOID_MAX_PACKET_SIZE)%nat && (SIZE_VOID_HEADER <=? len)%nat) then Some (s, []) else
  if negb read_ok then Some (s, []) else
  apid ← getAPID data;
  if (apid =? SELLER_APID) && (len =? SIZE_PACKET_C)%nat then handlePacketCReceipt data len now s
  else if (apid =? 0xA1) && (len =? SIZE_TUNNEL_DATA)%nat then
    cmd_code ← rd_range data 24 2;
    if le_uint cmd_code =? 1 then
      receipt ← legacy_receipt now;
      Some (s, [Radio receipt])
    else Some (s, [Serial (println (bytes_of "WARN: Tunnel command not recognized."))])
  else Some (s, []).

(** One round: the broadcast, then a frame if one has come. *)
Definition runSellerLoop (now stamp now' later : Z) (rx : option (list byte * bool)) (s : seller) : option (seller * list output) :=
  '(s, sent) ← seller_broadcast now stamp now' s;
  match rx with
  | None => Some (s, sent)
  | Some (data, read_ok) =>
      '(s, answer) ← seller_rx data read_ok later s;
      Some (s, sent ++ answer)
  end.

(** ** The buyer *)
Record buyer := {
  invoice_pending : bool;
  pending_invoice : list byte;
  last_tx_ms : Z;
  serial_buf : list byte;
  handshake_pkt : list byte;
  security : SecurityManager;
}.

Definition set_invoice (pending : bool) (invoice : list byte) (b : buyer) : buyer :=
  {| invoice_pending := pending; pending_invoice := invoice; last_tx_ms := last_tx_ms b;
     serial_buf := serial_buf b; handshake_pkt := handshake_pkt b; security := security b |}.
Definition set_serial_buf (buf : list byte) (b : buyer) : buyer :=
  {| invoice_pending := invoice_pending b; pending_invoice := pending_invoice b; last_tx_ms := last_tx_ms b;
     serial_buf := buf; handshake_pkt := handshake_pkt b; security := security b |}.
Definition set_security (m : SecurityManager) (b : buyer) : buyer :=
  {| invoice_pending := invoice_pending b; pending_invoice := pending_invoice b; last_tx_ms := last_tx_ms b;
     serial_buf := serial_buf b; handshake_pkt := handshake_pkt b; security := m |}.
Definition set_handshake_pkt (pkt : list byte) (b : buyer) : buyer :=
  {| invoice_pending := invoice_pending b; pending_invoice := pending_invoice b; last_tx_ms := last_tx_ms b;
     serial_buf := serial_buf b; handshake_pkt := pkt; security := security b |}.
Definition set_last_tx_ms (t : Z) (b : buyer) : buyer :=
  {| invoice_pending := invoice_pending b; pending_invoice := pending_invoice b; last_tx_ms := t;
     serial_buf := serial_buf b; handshake_pkt := handshake_pkt b; security := security b |}.

(** Whether the round returns before it looks at the serial line. *)
Definition buyer_rx (data : list byte) (read_ok : bool) (b : buyer) : option ((bool * buyer) * list output) :=
  let len := length data in
  if negb ((len <=? VOID_MAX_PACKET_SIZE)%nat && (SIZE_VOID_HEADER <=? len)%nat) then Some ((false, b), []) else
  if negb read_ok then Some ((false, b), []) else
  sync ← validSyncWord data;
  if negb (sync : bool) then Some ((true, b), []) else
  apid ← extractAPID data;
  if (apid =? SELLER_APID) && (len =? SIZE_PACKET_A)%nat then
    covered ← rd_range data 0 76;
    let calc_crc := calculateCRC covered in
    wire_crc ← loadLE32 data 76;
    if negb (calc_crc =? wire_crc)
    then Some ((true, b), [Serial (println (bytes_of "WARN:PacketA CRC mismatch, dropped"))])
    else
      invoice ← rd_range data 0 SIZE_PACKET_A;
      Some ((false, set_invoice true invoice b), [Serial (bytes_of "INVOICE:" ++ hexDump data)])
  else if (apid =? SELLER_APID) && (len =? SIZE_PACKET_C)%nat
  then Some ((false, b), [Serial (bytes_of "PACKET_D:" ++ hexDump data)])
  else Some ((false, b), []).

(** [GpsStub]: the epoch; [begin] is not called, so the board counts from 0. *)
Definition kEpochBaseMs : Z := 1790985600000.
Definition GpsStub_getEpochMs (now : Z) : Z := kEpochBaseMs + u32 now.

(** [InvoicePayload_t], an echo of the fields of the invoice. *)
Definition inner_invoice (invoice : list byte) : option (list byte) :=
  epoch_ts ← rd_range invoice 16 8;
  pos_vec ← rd_range invoice 24 24;
  vel_vec ← rd_range invoice 48 12;
  sat_id ← rd_range invoice 60 4;
  amount ← rd_range invoice 64 8;
  asset_id ← rd_range invoice 72 2;
  crc32 ← rd_range invoice 76 4;
  Some (epoch_ts ++ pos_vec ++ vel_vec ++ sat_id ++ amount ++ asset_id ++ crc32).

Definition duty_gap (now : Z) (b : buyer) : list output :=
  if last_tx_ms b =? 0 then [] else
  let gap := u32 (now - last_tx_ms b) in
  [Serial (println (bytes_of "DUTY_GAP_MS:" ++ write_int gap ++ bytes_of " target=" ++
     write_int DUTY_CYCLE_TARGET_MS ++ bytes_of (if gap <? DUTY_CYCLE_TARGET_MS then " UNDER" else " OK")))].

Section Buyer.
Context `{Sodium} `{Ed25519}.
Variable alpha : bool.

(** [pos_tmp]: what the GPS says, 24 bytes. *)
Definition buyer_pay (now stamp now' : Z) (pos_tmp : list byte) (b : buyer) : option (buyer * list output) :=
  let gap := duty_gap now b in
  let packet_b := replicate SIZE_PACKET_B x00 in
  let hdr_bytes := packVoidHeader BUYER_APID (Z.of_nat (SIZE_PACKET_B - SIZE_VOID_HEADER)) in
  packet_b ← wr_range packet_b 0 hdr_bytes;
  packet_b ← wr_range packet_b 16 (put_le 8 (GpsStub_getEpochMs stamp));
  packet_b ← wr_range packet_b 24 pos_tmp;
  inner ← inner_invoice (pending_invoice b);
  packet_b ← wr_range packet_b 112 (put_le 4 BUYER_SAT_ID);
  '((ok, packet_b, _), m) ← encryptPacketB alpha packet_b inner (security b);
  let b := set_security m b in
  if negb ok
  then Some (set_invoice false (pending_invoice b) b,
             gap ++ [Serial (println (bytes_of "ERROR:encryptPacketB returned false"))])
  else
    covered ← rd_range packet_b 0 184;
    packet_b ← wr_range packet_b 184 (put_le 4 (calculateCRC covered));
    Some (set_invoice false (pending_invoice b) (set_last_tx_ms now' b),
          gap ++ [Radio packet_b; Serial (bytes_of "PACKET_B:" ++ hexDump packet_b)]).

Fixpoint key_loop (n i : nat) (buf : list byte) : option (list byte) :=
  match n with
  | O => Some []
  | S n =>
      a ← rd buf (14 + i * 2);
      b ← rd buf (15 + i * 2);
      key ← key_loop n (S i) buf;
      Some (byte_of_Z (strtol16 (c_string [a; b; x00])) :: key)
  end.

(** What [readBytesUntil] brings, at most 255 characters. *)
Definition buyer_command (cmd : list byte) (now stamp now' : Z) (pos_tmp fresh : list byte) (b : buyer)
    : option (buyer * list output) :=
  buf ← wr_range (serial_buf b) 0 (cmd ++ [x00]);
  let b := set_serial_buf buf b in
  c ← rd buf 0;
  if (length cmd =? 1)%nat && (Byte.eqb c x48 || Byte.eqb c x68) then
    '(pkt, m) ← prepareHandshake fresh (handshake_pkt b) VOID_SESSION_TTL_DEF now (security b);
    Some (set_handshake_pkt pkt (set_security m b), [Serial (bytes_of "HANDSHAKE_TX:" ++ hexDump pkt)])
  else if has_prefix (bytes_of "ACK_BUY") buf && invoice_pending b then buyer_pay now stamp now' pos_tmp b
  else if has_prefix (bytes_of "ACK_DOWNLINK:") buf then Some (b, [Radio (replicate SIZE_TUNNEL_DATA xaa)])
  else if has_prefix (bytes_of "HANDSHAKE_ACK:") buf then
    key ← key_loop 32 0 buf;
    let '(ok, m) := processHandshakeResponse key (security b) in
    Some (set_security m b,
          if ok then [Serial (println (bytes_of "SAT_READY: Session Key Derived locally."))] else [])
  else Some (b, []).

(** One round: a frame if one has come, then a command. *)
Definition runBuyerLoop (rx : option (list byte * bool)) (cmd : option (list byte)) (now stamp now' : Z)
    (pos_tmp fresh : list byte) (b : buyer) : option (buyer * list output) :=
  '((early, b), heard) ← match rx with
                         | Some (data, read_ok) => buyer_rx data read_ok b
                         | None => Some ((false, b), [])
                         end;
  if early : bool then Some (b, heard) else
  match cmd with
  | None => Some (b, heard)
  | Some cmd =>
      '(b, said) ← buyer_command cmd now stamp now' pos_tmp fresh b;
      Some (b, heard ++ said)
  end.
End Buyer.

(** ** Buffers as their fields *)
Lemma wr_range_app pre old post src :
  length old = length src → wr_range (pre ++ old ++ post) (length pre) src = Some (pre ++ src ++ post).
Proof.
  intros Hl. unfold wr_range. rewrite (proj2 (Nat.leb_le _ _)) by len.
  rewrite take_app_length, <- drop_drop, drop_app_length, <- Hl, drop_app_length. done.
Qed.

Lemma wr_piece ls k i old src :
  ls !! k = Some old → length old = length src → i = length (concat (take k ls)) →
  wr_range (concat ls) i src = Some (concat (<[k := src]> ls)).
Proof.
  intros Hk Hl ->. rewrite <- (take_drop_middle ls k old Hk) at 1.
  rewrite (insert_take_drop ls k src) by by eapply lookup_lt_Some.
  rewrite !concat_app. cbn [concat]. by apply wr_range_app.
Qed.

Lemma rd_range_app pre mid post : rd_range (pre ++ mid ++ post) (length pre) (length mid) = Some mid.
Proof.
  unfold rd_range. rewrite (proj2 (Nat.leb_le _ _)) by len. by rewrite drop_app_length, take_app_length.
Qed.

Lemma rd_pieces ls j k i n :
  i = length (concat (take j ls)) → n = length (concat (take k (drop j ls))) →
  rd_range (concat ls) i n = Some (concat (take k (drop j ls))).
Proof.
  intros -> ->.
  assert (concat ls = concat (take j ls) ++ concat (take k (drop j ls)) ++ concat (drop k (drop j ls))) as Hls
    by by rewrite <- !concat_app, !take_drop.
  rewrite Hls at 1. apply rd_range_app.
Qed.

(** ** The checksum and the dump *)
Lemma fw_crc_round_bit c : fw_crc_round c = crc_bit c.
Proof.
  unfold fw_crc_round, crc_bit. change 1 with (Z.ones 1) at 2. rewrite Z.land_ones by lia.
  change (2 ^ 1) with 2. rewrite Zmod_odd. destruct (Z.odd c); [done|]. apply Z.lxor_0_r.
Qed.

Lemma calculateCRC_eq data : calculateCRC data = ChecksumIEEE data.
Proof.
  rewrite <- Crc32Ieee_eq. unfold calculateCRC, Crc32Ieee. do 2 f_equal. generalize 0xFFFFFFFF.
  induction data as [|b data IH]; intros c; [done|]. cbn [foldl]. rewrite IH. f_equal.
  cbn [Nat.iter nat_rect]. by rewrite !fw_crc_round_bit, !crc_round_bit.
Qed.

Definition HEX_text (data : list byte) : list byte :=
  concat ((λ b, [HEX_digit (byte_to_Z b / 16); HEX_digit (byte_to_Z b mod 16)]) <$> data).

Lemma hexDump_text data : hexDump data = HEX_text data ++ crlf.
Proof.
  unfold hexDump, HEX_text. f_equal. induction data as [|b data IH]; [done|]. cbn [fmap list_fmap concat].
  rewrite IH. f_equal. by destruct b.
Qed.

Lemma hex_bytes_HEX data : hex_bytes (HEX_text data) = Some data.
Proof.
  induction data as [|b data IH]; [done|]. unfold HEX_text in *. cbn [fmap list_fmap concat app hex_bytes].
  assert (hex_value (HEX_digit (byte_to_Z b / 16)) = Some (byte_to_Z b / 16) ∧
    hex_value (HEX_digit (byte_to_Z b mod 16)) = Some (byte_to_Z b mod 16)) as [-> ->]
    by by destruct b.
  cbn [mbind option_bind]. rewrite IH, <- Z.div_mod by lia. cbn. by rewrite byte_of_to_Z.
Qed.

Lemma length_HEX data : length (HEX_text data) = (length data * 2)%nat.
Proof. induction data as [|b data IH]; [done|]. unfold HEX_text in *. cbn [fmap list_fmap concat]. len. Qed.

Lemma loadLE32_spec buf p :
  (p + 4 <= length buf)%nat → loadLE32 buf p = Some (le_uint (take 4 (drop p buf))).
Proof.
  intros Hb. destruct (take_four buf p Hb) as (a & b & c & d & -> & Ha & Hb' & Hc & Hd). unfold loadLE32.
  rewrite Ha, Hb', Hc, Hd. cbn [mbind option_bind]. by rewrite le_four.
Qed.

(** ** The invoice *)
Definition invoice_covered (now : Z) : list byte :=
  packVoidHeader SELLER_APID 66 ++ [x00; x00] ++ put_le 8 now ++ replicate 24 x00 ++ replicate 12 x00 ++
  put_le 4 SELLER_SAT_ID ++ put_le 8 500 ++ put_le 2 1 ++ [x00; x00].

Definition invoice_bytes (now : Z) : list byte :=
  invoice_covered now ++ put_le 4 (ChecksumIEEE (invoice_covered now)).

(** A store or a load of a buffer that is a list of pieces. *)
Ltac piece_pos := cbn [take drop concat]; rewrite ?length_app, ?length_put_le, ?length_replicate, ?length_Vector3d_bytes; reflexivity.
Ltac put_piece k :=
  match goal with
  | |- context [wr_range (concat ?ls) ?i ?src] =>
      rewrite (wr_piece ls k i _ src eq_refl) by piece_pos
  end; cbn [mbind option_bind insert list_insert].
Ltac get_pieces j k :=
  match goal with
  | |- context [rd_range (concat ?ls) ?i ?n] => rewrite (rd_pieces ls j k i n) by piece_pos
  end; cbn [mbind option_bind drop take].

Lemma seller_invoice_eq now : seller_invoice now = Some (invoice_bytes now).
Proof.
  unfold seller_invoice. cbv zeta.
  change (replicate SIZE_PACKET_A x00) with (concat [replicate 14 x00; [x00; x00]; replicate 8 x00;
    replicate 24 x00; replicate 12 x00; replicate 4 x00; replicate 8 x00; replicate 2 x00; [x00; x00]; replicate 4 x00]).
  change (Z.of_nat (SIZE_PACKET_A - SIZE_VOID_HEADER)) with 66.
  put_piece 0%nat. put_piece 2%nat. put_piece 5%nat. put_piece 6%nat. put_piece 7%nat. get_pieces 0%nat 9%nat.
  rewrite calculateCRC_eq. put_piece 9%nat.
  reflexivity.
Qed.

Lemma length_invoice_covered now : length (invoice_covered now) = 76%nat.
Proof. reflexivity. Qed.

Lemma length_invoice now : length (invoice_bytes now) = SIZE_PACKET_A.
Proof. unfold invoice_bytes. rewrite length_app, length_invoice_covered, length_put_le. done. Qed.

Lemma loadLE32_end l k : loadLE32 (l ++ put_le 4 k) (length l) = Some (k mod 2 ^ 32).
Proof.
  rewrite loadLE32_spec by len. rewrite drop_app_length, firstn_all2 by len. by rewrite le_uint_put_le.
Qed.

(** The seller broadcasts once in eight seconds. *)
Lemma seller_broadcast_due now stamp now' s :
  8000 < u32 (now - lastTx s) →
  seller_broadcast now stamp now' s =
  Some ({| lastTx := now'; d_frame_buf := d_frame_buf s |},
        [Radio (invoice_bytes stamp); Serial (println (bytes_of "SELLER: Broadcasted Invoice (PacketA)"));
         Serial (bytes_of "INVOICE_TX:" ++ HEX_text (invoice_bytes stamp) ++ crlf)]).
Proof.
  intros Hd. unfold seller_broadcast. rewrite (proj2 (Z.ltb_lt _ _)) by done. cbn [negb].
  rewrite seller_invoice_eq. cbn [mbind option_bind]. by rewrite hexDump_text.
Qed.

Lemma rd_range_front l k n : n = length l → rd_range (l ++ k) 0 n = Some l.
Proof. intros ->. apply (rd_range_app []). Qed.

Lemma rd_range_all l n : n = length l → rd_range l 0 n = Some l.
Proof. intros Hn. pose proof (rd_range_front l [] n Hn) as Hr. by rewrite app_nil_r in Hr. Qed.

Lemma header_sync apid len tl : validSyncWord (packVoidHeader apid len ++ tl) = Some true.
Proof. reflexivity. Qed.

Lemma header_apid_seller len tl : extractAPID (packVoidHeader SELLER_APID len ++ tl) = Some SELLER_APID.
Proof. reflexivity. Qed.

Lemma invoice_header now : ∃ tl, invoice_bytes now = packVoidHeader SELLER_APID 66 ++ tl.
Proof. unfold invoice_bytes, invoice_covered. rewrite <- app_assoc. by eexists. Qed.

(** The buyer takes it. *)
Lemma buyer_rx_invoice now b :
  buyer_rx (invoice_bytes now) true b =
  Some ((false, set_invoice true (invoice_bytes now) b), [Serial (bytes_of "INVOICE:" ++ HEX_text (invoice_bytes now) ++ crlf)]).
Proof.
  assert (validSyncWord (invoice_bytes now) = Some true ∧ extractAPID (invoice_bytes now) = Some SELLER_APID)
    as [Hsync Hapid].
  { destruct (invoice_header now) as [tl ->]. split; [apply header_sync|apply header_apid_seller]. }
  pose proof (length_invoice_covered now) as Hl. pose proof (ChecksumIEEE_u32 (invoice_covered now)) as Hc.
  unfold buyer_rx. cbv zeta. rewrite length_invoice, Hsync. cbn [mbind option_bind].
  change (negb _) with false at 1. cbv iota. cbn [negb].
  rewrite Hapid. cbn [mbind option_bind]. rewrite Z.eqb_refl, Nat.eqb_refl. cbn [andb].
  rewrite (rd_range_all (invoice_bytes now)) by by rewrite length_invoice.
  rewrite hexDump_text. unfold invoice_bytes. revert Hl Hc. generalize (invoice_covered now). intros l Hl Hc.
  rewrite rd_range_front by done. cbn [mbind option_bind]. rewrite calculateCRC_eq, <- Hl, loadLE32_end.
  cbn [mbind option_bind]. rewrite Z.mod_small, Z.eqb_refl by apply Hc. reflexivity.
Qed.

(** ** The payment *)
Definition invoice_echo (t : Z) : list byte :=
  put_le 8 t ++ replicate 24 x00 ++ replicate 12 x00 ++ put_le 4 SELLER_SAT_ID ++ put_le 8 500 ++
  put_le 2 1 ++ put_le 4 (ChecksumIEEE (invoice_covered t)).

Lemma inner_invoice_eq t : inner_invoice (invoice_bytes t) = Some (invoice_echo t).
Proof.
  assert (invoice_bytes t = concat [packVoidHeader SELLER_APID 66; [x00; x00]; put_le 8 t; replicate 24 x00;
    replicate 12 x00; put_le 4 SELLER_SAT_ID; put_le 8 500; put_le 2 1; [x00; x00];
    put_le 4 (ChecksumIEEE (invoice_covered t))]) as -> by reflexivity.
  unfold inner_invoice. get_pieces 2%nat 1%nat. get_pieces 3%nat 1%nat. get_pieces 4%nat 1%nat.
  get_pieces 5%nat 1%nat. get_pieces 6%nat 1%nat. get_pieces 7%nat 1%nat. get_pieces 9%nat 1%nat. reflexivity.
Qed.

Section Payment.
Context `{Sodium} `{Ed25519Laws}.

(** The firmware of the demo has the deterministic key. *)
Definition demo_key (m : SecurityManager) : Prop := identity_priv m = kDetSeed ++ derive_public kDetSeed.

Lemma demo_key_begin env m : demo_key (sm_begin true false env m).2.
Proof. done. Qed.

Lemma demo_sign m msg : demo_key m → crypto_sign_detached msg (identity_priv m) = sign_with kDetSeed msg.
Proof. intros Hk. unfold crypto_sign_detached. rewrite Hk. by rewrite take_app_exact. Qed.

Definition payment_signed (t now : Z) (pos : list byte) : list byte :=
  packVoidHeader BUYER_APID 178 ++ [x00; x00] ++ put_le 8 (GpsStub_getEpochMs now) ++ pos ++ invoice_echo t ++
  [x00; x00] ++ put_le 4 BUYER_SAT_ID ++ replicate 4 x00.

Definition payment_covered (t now : Z) (pos : list byte) : list byte :=
  payment_signed t now pos ++ sign_with kDetSeed (payment_signed t now pos).

Definition payment_bytes (t now : Z) (pos : list byte) : list byte :=
  payment_covered t now pos ++ put_le 4 (ChecksumIEEE (payment_covered t now pos)) ++ replicate 4 x00.

(** The plaintext build copies the payload and signs the 120 bytes before the
    signature. *)
Lemma encryptPacketB_plain m a old b sig c payload :
  demo_key m → length a = 48%nat → length old = 62%nat → length payload = 62%nat → length b = 10%nat →
  length sig = 64%nat →
  encryptPacketB true (a ++ old ++ b ++ sig ++ c) payload m =
  Some ((true, (a ++ payload ++ b) ++ sign_with kDetSeed (a ++ payload ++ b) ++ c, None), m).
Proof.
  intros Hk Ha Ho Hp Hb Hs. unfold encryptPacketB. cbv zeta. rewrite Hp. cbn [Nat.ltb Nat.leb].
  assert (wr_range (a ++ old ++ b ++ sig ++ c) 48 payload = Some (a ++ payload ++ b ++ sig ++ c)) as ->
    by (rewrite <- Ha; apply wr_range_app; lia).
  cbn [mbind option_bind negb].
  replace (a ++ payload ++ b ++ sig ++ c) with ((a ++ payload ++ b) ++ sig ++ c) by by rewrite <- !app_assoc.
  rewrite rd_range_front by len.
  cbn [mbind option_bind]. rewrite demo_sign by done.
  pose proof (wr_range_app (a ++ payload ++ b) sig c (sign_with kDetSeed (a ++ payload ++ b))) as Hw.
  replace (length (a ++ payload ++ b)) with 120%nat in Hw by len. rewrite Hw by (rewrite length_sign_with by done; done). cbn [mbind option_bind].
  rewrite rd_range_ok by (rewrite !length_app; lia). cbn [mbind option_bind].
  by rewrite <- !app_assoc.
Qed.

Lemma length_payment_signed t now v : length (payment_signed t now (Vector3d_bytes v)) = 120%nat.
Proof. unfold payment_signed. rewrite !length_app, length_Vector3d_bytes. reflexivity. Qed.

Lemma length_payment_covered t now v : length (payment_covered t now (Vector3d_bytes v)) = 184%nat.
Proof.
  unfold payment_covered. rewrite length_app, length_payment_signed, length_sign_with by done. done.
Qed.

Lemma length_payment t now v : length (payment_bytes t now (Vector3d_bytes v)) = SIZE_PACKET_B.
Proof. unfold payment_bytes. rewrite length_app, length_payment_covered. reflexivity. Qed.

Lemma buyer_pay_spec t now stamp now' v b :
  demo_key (security b) → pending_invoice b = invoice_bytes t →
  buyer_pay true now stamp now' (Vector3d_bytes v) b =
  Some (set_invoice false (pending_invoice b) (set_last_tx_ms now' b),
        duty_gap now b ++ [Radio (payment_bytes t stamp (Vector3d_bytes v));
          Serial (bytes_of "PACKET_B:" ++ HEX_text (payment_bytes t stamp (Vector3d_bytes v)) ++ crlf)]).
Proof.
  intros Hk Hp. unfold buyer_pay. cbv zeta.
  change (replicate SIZE_PACKET_B x00) with (concat [replicate 14 x00; [x00; x00]; replicate 8 x00;
    replicate 24 x00; replicate 62 x00; [x00; x00]; replicate 4 x00; replicate 4 x00; replicate 64 x00;
    replicate 4 x00; replicate 4 x00]).
  change (Z.of_nat (SIZE_PACKET_B - SIZE_VOID_HEADER)) with 178.
  put_piece 0%nat. put_piece 2%nat. put_piece 3%nat. rewrite Hp, inner_invoice_eq. cbn [mbind option_bind].
  put_piece 6%nat.
  set (a := concat [packVoidHeader BUYER_APID 178; [x00; x00]; put_le 8 (GpsStub_getEpochMs stamp); Vector3d_bytes v]).
  set (c := concat [[x00; x00]; put_le 4 BUYER_SAT_ID; replicate 4 x00]).
  match goal with |- context [encryptPacketB _ ?p _ _] =>
    replace p with (a ++ replicate 62 x00 ++ c ++ replicate 64 x00 ++ replicate 4 x00 ++ replicate 4 x00)
      by (unfold a, c; cbn [concat]; by rewrite !app_nil_r, <- !app_assoc)
  end.
  rewrite encryptPacketB_plain by (done || unfold a; cbn [concat]; rewrite !length_app, length_Vector3d_bytes; done).
  cbn [mbind option_bind negb].
  assert (a ++ invoice_echo t ++ c = payment_signed t stamp (Vector3d_bytes v)) as ->
    by (unfold a, c, payment_signed; cbn [concat]; by rewrite !app_nil_r, <- !app_assoc).
  rewrite (app_assoc (payment_signed _ _ _)). fold (payment_covered t stamp (Vector3d_bytes v)).
  rewrite rd_range_front by by rewrite length_payment_covered. cbn [mbind option_bind]. rewrite calculateCRC_eq.
  pose proof (wr_range_app (payment_covered t stamp (Vector3d_bytes v)) (replicate 4 x00) (replicate 4 x00)
    (put_le 4 (ChecksumIEEE (payment_covered t stamp (Vector3d_bytes v)))) eq_refl) as Hw.
  rewrite length_payment_covered in Hw. rewrite Hw. cbn [mbind option_bind].
  rewrite hexDump_text. fold (payment_bytes t stamp (Vector3d_bytes v)).
  assert (set_security (security b) b = b) as -> by by destruct b. by rewrite Hp.
Qed.

Definition buf_size (b : buyer) : Prop := length (serial_buf b) = 256%nat.

(** A command in the buffer. *)
Lemma command_in_buffer cmd b :
  buf_size b → (length cmd < 256)%nat →
  wr_range (serial_buf b) 0 (cmd ++ [x00]) = Some ((cmd ++ [x00]) ++ drop (length cmd + 1) (serial_buf b)).
Proof.
  intros Hb Hc. unfold wr_range. rewrite length_app, Hb. cbn [Nat.add length].
  rewrite (proj2 (Nat.leb_le _ _)) by lia. by rewrite take_0.
Qed.

Lemma buyer_command_ack_buy now stamp now' pos fresh b :
  buf_size b → invoice_pending b = true →
  ∃ buf, length buf = 256%nat ∧
    buyer_command true (bytes_of "ACK_BUY") now stamp now' pos fresh b = buyer_pay true now stamp now' pos (set_serial_buf buf b).
Proof.
  intros Hb Hp. exists ((bytes_of "ACK_BUY" ++ [x00]) ++ drop 8 (serial_buf b)).
  split; [rewrite length_app, length_drop, Hb; done|].
  unfold buyer_command. rewrite command_in_buffer by (done || apply Nat.ltb_lt; reflexivity).
  cbn [mbind option_bind]. change (length (bytes_of "ACK_BUY") + 1)%nat with 8%nat.
  generalize (drop 8 (serial_buf b)). intros tl.
  change (rd ((bytes_of "ACK_BUY" ++ [x00]) ++ tl) 0) with (Some x41). cbn [mbind option_bind].
  change (length (bytes_of "ACK_BUY") =? 1)%nat with false. cbn [andb].
  change (has_prefix (bytes_of "ACK_BUY") ((bytes_of "ACK_BUY" ++ [x00]) ++ tl)) with true. cbn [andb].
  cbn [invoice_pending set_serial_buf]. by rewrite Hp.
Qed.
End Payment.
