(* ===== verification/Purchase.v ===== *)
(** * A purchase, from the seller's broadcast to the submitter

    The two satellites ([Satellite]), the ground station between the serial line of the
    buyer and the gateway ([Bridge]), and the gateway ([Ingest]), in the demo build. Then
    what becomes of the receipt on its way back to the satellites. *)
From S2P Require Export Satellite GroundLink.
From S2P Require Import Generator Builder.
#[local] Open Scope Z_scope.

(** ** The connection to the gateway *)

Definition octet_line : list byte := bytes_of "Content-Type: application/octet-stream".

Section Push.
Variables (host : list byte) (port : Z).
Context (Hhost : plain_host host) (Hport : 0 <= port < 65536).

Lemma push_headers_text raw :
  push_headers host port (length raw) ++ raw =
  header_text [request_line (bytes_of "POST") (bytes_of "/api/v1/ingest"); host_line host port; octet_line;
               length_line raw; close_line] ++ raw.
Proof.
  unfold push_headers, header_text, host_line, octet_line, length_line, close_line. cbn [fmap list_fmap concat].
  rewrite <- ?app_assoc. reflexivity.
Qed.

(** The gateway reads the request as it was meant. *)
Lemma ReadRequest_push raw :
  zlen raw < 2 ^ 63 →
  ReadRequest (push_headers host port (length raw) ++ raw) = Some (bytes_of "POST", bytes_of "/api/v1/ingest", raw).
Proof.
  intros Hj. assert (0 <= zlen raw) by (unfold zlen; lia).
  rewrite push_headers_text. apply (ReadRequest_text _ _ _ _ (zlen raw)); [done|done| | |done].
  - repeat (apply list.Forall_cons; split); try (by apply list.Forall_nil); try (by apply const_line).
    + by apply host_line_ok.
    + by apply length_line_ok.
  - unfold header_text.
    assert (∀ lines, Forall (λ l, clear l = true) lines →
      content_length (concat ((λ l, l ++ crlf) <$> (lines ++ [length_line raw; close_line])) ++ crlf) =
      Some (zlen raw)) as Hl.
    { intros lines Hl. rewrite fmap_app, concat_app, <- app_assoc, content_length_lines by done.
      cbn [fmap list_fmap concat]. unfold length_line. rewrite <- !app_assoc. apply content_length_found. lia. }
    transitivity (default 0 (Some (zlen raw))); [|done]. apply (f_equal (default 0)).
    apply (Hl [_; _; _]).
    repeat (apply list.Forall_cons; split); try (by apply list.Forall_nil); try done.
    by apply plain_text_clear, host_line_plain.
Qed.

Lemma push_headers_fit raw : zlen raw < 2 ^ 63 → (length (push_headers host port (length raw)) < 512)%nat.
Proof.
  intros Hj. assert (0 <= zlen raw) by (unfold zlen; lia). destruct Hhost as [_ Hl].
  destruct (write_int_line port ltac:(lia)) as [_ L1]. destruct (write_int_line (zlen raw) ltac:(lia)) as [_ L2].
  unfold zlen in *. unfold push_headers. rewrite !length_app.
  change (length (bytes_of "POST /api/v1/ingest HTTP/1.1")) with 28%nat.
  change (length (bytes_of "Host: ")) with 6%nat. change (length (bytes_of ":")) with 1%nat.
  change (length (bytes_of "Content-Type: application/octet-stream")) with 38%nat.
  change (length (bytes_of "Content-Length: ")) with 16%nat.
  change (length (bytes_of "Connection: close")) with 17%nat. change (length crlf) with 2%nat. lia.
Qed.

Lemma bridged_ground raw w :
  length raw = SIZE_PACKET_B →
  bridged host port raw w =
  {| gd_serial := gd_serial w ++ [acknowledgement raw]; gd_sent := push_headers host port (length raw) ++ raw |}.
Proof.
  intros Hl. pose proof (push_headers_fit raw) as Hf. unfold zlen in Hf. rewrite Hl in *.
  unfold bridged, pushed. cbn [open_socket ground_io serial_write_bytes snd negb].
  rewrite (proj2 (Nat.leb_gt _ _)) by by apply Hf. done.
Qed.
End Push.

(** ** The text of a board *)
Definition serial_text (outs : list output) : list byte :=
  concat (omap (λ o, match o with Serial t => Some t | Radio _ => None end) outs).
Definition on_air (outs : list output) : list (list byte) :=
  omap (λ o, match o with Radio f => Some f | Serial _ => None end) outs.

Definition clean (l : list byte) : Prop := Forall (λ c, in_line c ∧ c ≠ x00) l.

Lemma clean_app l k : clean l → clean k → clean (l ++ k).
Proof. intros. by apply Forall_app. Qed.

Lemma clean_HEX data : clean (HEX_text data).
Proof.
  apply (hex_digits_all _ _ data).
  - intros c v Hc. split; [by eapply hex_value_in_line|]. by intros ->.
  - rewrite length_HEX. exists (length data). lia.
  - apply hex_bytes_HEX.
Qed.

Lemma clean_int z : 0 <= z < 2 ^ 64 → clean (write_int z).
Proof.
  intros Hz. pose proof (write_uint_digits z Hz) as Hd. eapply list.Forall_impl; [exact Hd|]. intros b Hb.
  split; [split|]; intros ->; discriminate Hb.
Qed.

#[export] Instance clean_dec l : Decision (clean l).
Proof. unfold clean, in_line. apply _. Defined.

Lemma clean_const l : bool_decide (clean l) = true → clean l.
Proof. apply bool_decide_eq_true. Qed.

Lemma clean_split l : clean l → Forall in_line l ∧ x00 ∉ l.
Proof.
  intros Hl. split; [eapply list.Forall_impl; [exact Hl|]; by intros c []|].
  intros Hin. unfold clean in Hl. rewrite list.Forall_forall in Hl. by destruct (Hl _ Hin).
Qed.

Section Bridged.
Variables (host : list byte) (port : Z) (memory : ground → stack).
Context (Hmem : ∀ w, stack_ok (memory w)).

(** A line that is not a packet leaves the ground as it is. *)
Lemma feed_clean l b rest :
  bridge_ok b → line_idx b = 0%nat → clean l → l ≠ [] → (length l < LINE_BUF_SIZE - 1)%nat →
  take 9 l ≠ bytes_of "PACKET_B:" →
  ∃ b', feed_all host port memory ((l ++ crlf) ++ rest) b = feed_all host port memory rest b' ∧
    bridge_ok b' ∧ line_idx b' = 0%nat ∧ outside b' = outside b.
Proof.
  intros Hb Hi [Hl H0]%clean_split Hne Hlen Hp.
  destruct (feed_other host port memory Hmem l b Hb Hi Hl H0 Hne Hlen Hp) as (b' & Hf & Hok & Hi' & Ho).
  exists b'. split; [|done]. rewrite feed_all_app. unfold crlf. by rewrite Hf.
Qed.

Lemma duty_gap_fed now m b rest :
  bridge_ok b → line_idx b = 0%nat →
  ∃ b', feed_all host port memory (serial_text (duty_gap now m) ++ rest) b = feed_all host port memory rest b' ∧
    bridge_ok b' ∧ line_idx b' = 0%nat ∧ outside b' = outside b.
Proof.
  intros Hb Hi. unfold duty_gap. destruct (last_tx_ms m =? 0); [by exists b|]. cbv zeta.
  pose proof (Z.mod_pos_bound (now - last_tx_ms m) (2 ^ 32) ltac:(lia)) as Hr. fold (u32 (now - last_tx_ms m)) in Hr.
  revert Hr. generalize (u32 (now - last_tx_ms m)). intros gap Hr.
  destruct (write_int_line gap ltac:(lia)) as [_ Hlen].
  unfold serial_text, println. cbn [omap list_omap concat]. rewrite app_nil_r.
  apply feed_clean; try done.
  - repeat apply clean_app; try (by apply clean_const); try (apply clean_int; lia).
    by destruct (gap <? DUTY_CYCLE_TARGET_MS); apply clean_const.
  - rewrite !length_app. unfold LINE_BUF_SIZE.
    change (length (bytes_of "DUTY_GAP_MS:")) with 12%nat. change (length (bytes_of " target=")) with 8%nat.
    change (length (write_int DUTY_CYCLE_TARGET_MS)) with 5%nat.
    assert ((length (bytes_of (if (gap <? DUTY_CYCLE_TARGET_MS)%Z then " UNDER" else " OK")) ≤ 6)%nat)
      by (destruct (gap <? DUTY_CYCLE_TARGET_MS); cbn; lia).
    lia.
Qed.

(** The two rounds of the buyer, on the line. *)
Lemma invoice_fed t b :
  bridge_ok b → line_idx b = 0%nat →
  ∃ b', feed_all host port memory
      (serial_text [Serial (bytes_of "INVOICE:" ++ HEX_text (invoice_bytes t) ++ crlf)]) b = Some b' ∧
    bridge_ok b' ∧ line_idx b' = 0%nat ∧ outside b' = outside b.
Proof.
  intros Hb Hi. unfold serial_text. cbn [omap list_omap concat]. rewrite (app_assoc (bytes_of "INVOICE:")).
  edestruct (feed_clean (bytes_of "INVOICE:" ++ HEX_text (invoice_bytes t)) b []) as (b1 & -> & Hb1); try done.
  - apply clean_app; [by apply clean_const|apply clean_HEX].
  - rewrite length_app, length_HEX, length_invoice. unfold LINE_BUF_SIZE. apply Nat.ltb_lt. reflexivity.
  - by exists b1.
Qed.

Lemma payment_fed pkt now m b :
  bridge_ok b → line_idx b = 0%nat → length pkt = SIZE_PACKET_B →
  ∃ b', feed_all host port memory
      (serial_text (duty_gap now m ++ [Radio pkt; Serial (bytes_of "PACKET_B:" ++ HEX_text pkt ++ crlf)])) b = Some b' ∧
    bridge_ok b' ∧ line_idx b' = 0%nat ∧ outside b' = bridged host port pkt (outside b).
Proof.
  intros Hb Hi Hl. unfold serial_text at 1. rewrite omap_app, concat_app. fold (serial_text (duty_gap now m)).
  edestruct (duty_gap_fed now m b) as (b2 & -> & Hb2 & Hi2 & Ho2); try done.
  cbn [omap list_omap concat]. rewrite app_nil_r.
  destruct (feed_packet_b host port memory Hmem (HEX_text pkt) pkt b2 Hb2 Hi2 (hex_bytes_HEX pkt)) as (b' & Hf & Hok & Hi' & Ho).
  { by rewrite length_HEX, Hl. }
  exists b'. unfold crlf. rewrite Hf, Ho, Ho2. done.
Qed.
End Bridged.

(** ** What the gateway makes of the payment *)
Definition set_outside {W} (w : W) (b : bridge (W := W)) : bridge :=
  {| line_buf := line_buf b; line_idx := line_idx b; outside := w |}.

Section Payment.
Context `{Sodium} `{Ed25519Laws}.

Definition payment_body (t now : Z) (v : TigCommonTypes_Vector3d) : VoidProtocol_PacketBBody :=
  {| PacketB_PadHead := [x00; x00];
     PacketB_EpochTs := GpsStub_getEpochMs now;
     PacketB_PosVec := v;
     PacketB_EncPayload := invoice_echo t;
     PacketB_PreSat := [x00; x00];
     PacketB_SatId := BUYER_SAT_ID;
     PacketB_PreSig := replicate 4 x00;
     PacketB_Signature := {| Ed25519Signature_Raw := sign_with kDetSeed (payment_signed t now (Vector3d_bytes v)) |};
     PacketB_GlobalCrc := ChecksumIEEE (payment_covered t now (Vector3d_bytes v));
     PacketB_TailPad := replicate 4 x00 |}.

Definition payment_frame (t now : Z) (v : TigCommonTypes_Vector3d) : frame :=
  {| fr_header := F_Snlp 0x0865 0xC000 177;
     fr_raw := PacketBBody_bytes (payment_body t now v);
     fr_body := Some (Body_B (payment_body t now v)) |}.

Lemma payment_frame_bytes t now v :
  frame_bytes (payment_frame t now v) = payment_bytes t now (Vector3d_bytes v).
Proof.
  unfold frame_bytes, payment_frame. cbn [fr_header fr_raw].
  assert (fh_bytes (F_Snlp 0x0865 0xC000 177) = packVoidHeader BUYER_APID 178) as -> by reflexivity.
  unfold PacketBBody_bytes, payment_body, payment_bytes, payment_covered, payment_signed, Ed25519Signature_bytes.
  cbn [PacketB_PadHead PacketB_EpochTs PacketB_PosVec PacketB_EncPayload PacketB_PreSat PacketB_SatId PacketB_PreSig
    PacketB_Signature PacketB_GlobalCrc PacketB_TailPad Ed25519Signature_Raw].
  by rewrite <- !app_assoc.
Qed.

Lemma payment_body_wf t now v : Vector3d_wf v → PacketBBody_wf (payment_body t now v).
Proof.
  intros Hv. pose proof (Z.mod_pos_bound now (2 ^ 32) ltac:(lia)) as Hnow.
  assert (in_u 64 (GpsStub_getEpochMs now)) as He
    by (unfold in_u, GpsStub_getEpochMs, kEpochBaseMs, u32; lia).
  pose proof (ChecksumIEEE_u32 (payment_covered t now (Vector3d_bytes v))) as Hc.
  assert (length (sign_with kDetSeed (payment_signed t now (Vector3d_bytes v))) = SignatureSize) as Hs
    by by apply length_sign_with.
  repeat apply conj; first [done|apply He|apply Hv|apply Hc|apply Hs].
Qed.

Lemma target_of_payment t now v : target_of (payment_bytes t now (Vector3d_bytes v)) = BUYER_SAT_ID.
Proof.
  unfold target_of, payment_bytes, payment_covered, payment_signed.
  set (a := packVoidHeader BUYER_APID 178 ++ [x00; x00] ++ put_le 8 (GpsStub_getEpochMs now) ++
    Vector3d_bytes v ++ invoice_echo t ++ [x00; x00]).
  assert (length a = 112%nat) as Ha.
  { unfold a. rewrite !length_app, length_Vector3d_bytes. reflexivity. }
  match goal with |- le_uint (take 4 (drop 112 ?l)) = _ =>
    assert (∃ tl, l = a ++ put_le 4 BUYER_SAT_ID ++ tl) as [tl ->] end.
  { unfold a. eexists. by rewrite <- !app_assoc. }
  rewrite drop_app_exact, take_app_exact by (done || apply length_put_le). by rewrite le_uint_put_le.
Qed.

Lemma payment_frame_wf t now v : Vector3d_wf v → frame_wf (payment_frame t now v).
Proof.
  intros Hv. pose proof (payment_body_wf t now v Hv) as Hb. split_and!; [done..| |done].
  cbn [fr_raw payment_frame]. by rewrite length_PacketBBody_bytes.
Qed.

(** Signed with the key that is registered. *)
Lemma payment_verdict db t now v :
  registered_key db BUYER_SAT_ID = Some (derive_public kDetSeed) →
  frame_verdict db (payment_frame t now v) (frame_bytes (payment_frame t now v)) = Accept.
Proof.
  intros Hk. rewrite payment_frame_bytes. unfold frame_verdict. cbn [fr_header fr_body payment_frame body_verdict].
  change (spec_version _ =? 0) with true. cbv iota zeta.
  unfold sig_ok. cbn [PacketB_SatId PacketB_Signature payment_body Ed25519Signature_Raw]. rewrite Hk.
  rewrite bool_decide_eq_true_2 by by rewrite length_sign_with. cbn [andb].
  pose proof (length_payment t now v) as Hl. rewrite Hl. unfold gslice.
  change (Z.to_nat (Z.of_nat SIZE_PACKET_B - 72 - 0)) with 120%nat. rewrite drop_0.
  unfold payment_bytes, payment_covered. rewrite <- app_assoc, take_app_exact by apply length_payment_signed.
  by rewrite verify_sign_with.
Qed.

Definition purchase_intent `{EthCommon} (now : Z) (wallet : string) : SettlementIntent :=
  {| SI_SatId := BUYER_SAT_ID;
     SI_Amount := 500;
     SI_AssetId := 1;
     SI_TxNonce := DeriveTxNonce BUYER_SAT_ID (GpsStub_getEpochMs now);
     SI_Wallet := HexToAddress wallet |}.

Lemma purchase_payment_intent `{EthCommon} db rec t now v :
  GetSat db BUYER_SAT_ID = Some rec → Wallet rec ≠ ""%string →
  payment_intent db (fr_body (payment_frame t now v)) = Some (purchase_intent now (Wallet rec)).
Proof.
  intros Hr Hw. unfold payment_intent. cbn [fr_body payment_frame PacketB_SatId payment_body]. rewrite Hr.
  destruct (String.eqb_spec (Wallet rec) ""); [done|]. reflexivity.
Qed.
End Payment.

Section Purchase.
Context {St : Type} `{KaitaiStreamLaws St} `{Ed25519Laws} `{EthCommon} `{Sodium}.
Context {C E : Type} `{GinContextLaws C gin_H} `{!Enqueuer E}.
Variables (host : list byte) (port : Z) (memory : ground → stack).
Context (Hhost : plain_host host) (Hport : 0 <= port < 65536) (Hmem : ∀ w, stack_ok (memory w)).

(** C5. A purchase goes through, from the air to the submitter. The seller broadcasts an
    invoice, the buyer accepts it, and the operator of the ground station, which reads
    what the buyer prints, types [ack]; at the command this sends, the buyer transmits a
    payment and prints it on its serial line; of everything the buyer printed then, the
    ground station makes one acknowledgement, of the buyer's identifier, and one
    connection to the gateway, on which [net/http] reads the payment as the body of a POST to
    [/api/v1/ingest]; the gateway accepts it, its signature being that of the registered
    key, and hands the submitter an intent of 500 in asset 1, with the nonce of the
    satellite and the time of the payment. *)
Theorem purchase_settles db rec (s : seller) (b : buyer) (g : bridge (W := ground)) t0 t t' t'' now stamp now' v fresh
    (h : handler_state (C := C) (E := E)) q :
  (* the satellites *)
  8000 < u32 (t0 - lastTx s) → demo_key (security b) → buf_size b → Vector3d_wf v →
  (* the ground station *)
  bridge_ok g → line_idx g = 0%nat →
  (* the gateway *)
  registered_key db BUYER_SAT_ID = Some (derive_public kDetSeed) → GetSat db BUYER_SAT_ID = Some rec →
  Wallet rec ≠ ""%string → IsAborted (h_ctx h) = false → h_submitter h = Some q →
  ∃ s' sold invoice b1 heard g1 w cmd b2 said pkt g',
    runSellerLoop t0 t t' t'' None s = Some (s', sold) ∧ on_air sold = [invoice] ∧
    runBuyerLoop true (Some (invoice, true)) None now stamp now' (Vector3d_bytes v) fresh b = Some (b1, heard) ∧
    feed_all host port memory (serial_text heard) g = Some g1 ∧
    cli_command host port (bytes_of "ack" ++ [x0a]) (outside g1) = Some (true, w) ∧
    gd_serial w = gd_serial (outside g) ++ [cmd ++ [x0a]] ∧
    runBuyerLoop true None (Some cmd) now stamp now' (Vector3d_bytes v) fresh b1 = Some (b2, said) ∧
    on_air said = [pkt] ∧ invoice_pending b2 = false ∧
    feed_all host port memory (serial_text said) (set_outside w g1) = Some g' ∧
    gd_serial (outside g') = gd_serial w ++ [ack_line (frame_bytes (ack_frame (ack_inputs BUYER_SAT_ID)))] ∧
    ReadRequest (gd_sent (outside g')) = Some (bytes_of "POST", bytes_of "/api/v1/ingest", pkt) ∧
    ∃ h', IngestPacket (St := St) db (Ok pkt) h = Some (tt, h') ∧
      responses (h_ctx h') =
        responses (h_ctx h) ++ [(200, success_H BUYER_APID "Community (SNLP)")] ∧
      h_submitter h' = Some (Enqueue (purchase_intent stamp (Wallet rec)) q).
Proof.
  intros Hdue Hkey Hbuf Hv Hg Hi Hreg Hrec Hw Ha Hq.
  set (b1 := set_invoice true (invoice_bytes t) b).
  destruct (buyer_command_ack_buy now stamp now' (Vector3d_bytes v) fresh b1 Hbuf eq_refl) as (buf & Hl & Hcmd).
  set (b1' := set_serial_buf buf b1) in *.
  rewrite (buyer_pay_spec t now stamp now' v b1' Hkey eq_refl) in Hcmd.
  set (pkt := payment_bytes t stamp (Vector3d_bytes v)) in *.
  assert (length pkt = SIZE_PACKET_B) as Hlen by apply length_payment.
  destruct (invoice_fed host port memory Hmem t g Hg Hi) as (g1 & Hheard & Hg1 & Hi1 & Ho1).
  set (w := {| gd_serial := gd_serial (outside g1) ++ [bytes_of "ACK_BUY" ++ [x0a]]; gd_sent := gd_sent (outside g1) |}).
  destruct (payment_fed host port memory Hmem pkt now b1' (set_outside w g1) Hg1 Hi1 Hlen)
    as (g' & Hfeed & _ & _ & Hout).
  rewrite bridged_ground in Hout by done.
  eexists _, _, (invoice_bytes t), b1, _, g1, w, (bytes_of "ACK_BUY"), _, _, pkt, g'. split_and!.
  - unfold runSellerLoop. rewrite seller_broadcast_due by done. done.
  - done.
  - unfold runBuyerLoop. by rewrite buyer_rx_invoice.
  - exact Hheard.
  - done.
  - unfold w. cbn [gd_serial]. by rewrite Ho1.
  - unfold runBuyerLoop. cbn [mbind option_bind]. rewrite Hcmd. done.
  - unfold on_air. rewrite omap_app. unfold duty_gap. by destruct (last_tx_ms b1' =? 0).
  - done.
  - exact Hfeed.
  - rewrite Hout. unfold acknowledgement, pkt. by rewrite target_of_payment.
  - rewrite Hout. cbn [gd_sent]. apply ReadRequest_push; [done|done|]. unfold zlen. rewrite Hlen. done.
  - pose proof (IngestPacket_frame (St := St) db (payment_frame t stamp v) [] h (payment_frame_wf t stamp v Hv) Ha) as Hrun.
    rewrite app_nil_r, payment_verdict, (purchase_payment_intent db rec), payment_frame_bytes in Hrun by done.
    eexists. split; [exact Hrun|]. cbn [after_verdict h_ctx h_submitter]. rewrite JSON_responses, Hq. done.
Qed.
End Purchase.

(** ** The pipeline test

    [tst_ack] sends the 62 bytes of the payload and not the frame: the gateway reads the
    time stamp as a CCSDS header of an unknown version. *)
Definition test_frame : frame :=
  {| fr_header := F_Ccsds 0x5007 0xD965 0; fr_raw := [x00]; fr_body := None |}.
Definition test_payload : list byte :=
  put_le 8 1708722000 ++ replicate 36 x00 ++ put_le 4 999 ++ put_le 8 50000 ++ put_le 2 1 ++ replicate 4 x00.

Lemma test_ack_refused {St : Type} `{KaitaiStreamLaws St} `{Ed25519} `{EthCommon} {C E : Type}
    `{GinContextLaws C gin_H} `{!Enqueuer E} host port db (h : handler_state (C := C) (E := E)) w :
  plain_host host → 0 <= port < 65536 → IsAborted (h_ctx h) = false →
  test_ack host port w =
    Some {| gd_serial := gd_serial w; gd_sent := push_headers host port 62 ++ test_payload |} ∧
  ∃ msg, IngestPacket (St := St) db (Ok test_payload) h = Some (tt, after_verdict (Reject 400 msg) None [] h).
Proof.
  intros Hhost Hport Ha. split.
  - pose proof (push_headers_fit host port Hhost Hport test_payload ltac:(vm_compute; reflexivity)) as Hf.
    change (length test_payload) with 62%nat in Hf. unfold test_ack, push_to_l2.
    revert Hf. generalize (push_headers host port 62). intros hd Hf.
    rewrite (proj2 (Nat.leb_gt 512 (length hd)) Hf). vm_compute. reflexivity.
  - assert (frame_wf test_frame) as Hwf.
    { split; [split|split; [done|]]; [by repeat split|vm_compute; discriminate|].
      apply (bool_decide_unpack (fh_body_length (fr_header test_frame) ∉ _)). vm_compute. exact I. }
    pose proof (IngestPacket_frame (St := St) db test_frame (drop 7 test_payload) h Hwf Ha) as Hrun.
    assert (frame_bytes test_frame ++ drop 7 test_payload = test_payload) as Hb by (vm_compute; reflexivity).
    rewrite Hb in Hrun. eexists. rewrite Hrun. reflexivity.
Qed.

(** ** The way back

    A receipt, and the acknowledgement of a payment, go down the serial line of the buyer;
    the seller is meant to hear the receipt and to answer with a delivery. *)
Definition piece_of (l line : list byte) : Prop := ∃ pre post, line = pre ++ l ++ post.

(** Bytes no command starts with or contains early: [H], [h], [U] and [O]. *)
Definition mute (b : byte) : bool := negb (existsb (Byte.eqb b) [x48; x68; x55; x4f]).

Lemma c_string_stops l tl : c_string (l ++ x00 :: tl) = c_string l.
Proof. induction l as [|b l IH]; [done|]. cbn [app c_string]. by rewrite IH. Qed.

Lemma mute_c_string l : forallb mute l = true → forallb mute (c_string l) = true.
Proof.
  induction l as [|b l IH]; [done|]. cbn [forallb c_string]. intros [Hb Hl]%andb_true_iff.
  destruct (Byte.eqb b x00); [done|]. cbn [forallb]. by rewrite Hb, IH.
Qed.

Lemma mute_take n l : forallb mute l = true → forallb mute (take n l) = true.
Proof.
  revert l. induction n as [|n IH]; intros [|b l] Hl; try done. cbn [take forallb] in *.
  apply andb_true_iff in Hl as [-> Hl]. by rewrite IH.
Qed.

(** Nothing mute is taken for a command. *)
Lemma mute_prefix prefix l tl :
  forallb mute l = true → forallb mute prefix = false → has_prefix prefix (l ++ x00 :: tl) = false.
Proof.
  intros Hl Hp. unfold has_prefix. rewrite c_string_stops. apply bool_decide_eq_false. intros E.
  apply mute_c_string, (mute_take (length prefix)) in Hl. rewrite E in Hl. congruence.
Qed.

Lemma mute_command `{Sodium} `{Ed25519} alpha cmd now stamp now' pos fresh b :
  buf_size b → (length cmd < 256)%nat → forallb mute cmd = true →
  ∃ buf, length buf = 256%nat ∧ buyer_command alpha cmd now stamp now' pos fresh b = Some (set_serial_buf buf b, []).
Proof.
  intros Hb Hl Hm. exists ((cmd ++ [x00]) ++ drop (length cmd + 1) (serial_buf b)). unfold buf_size in Hb.
  split; [rewrite !length_app, length_drop, Hb; cbn [length]; lia|].
  unfold buyer_command. rewrite command_in_buffer by done. cbn [mbind option_bind].
  rewrite <- !app_assoc. cbn [app]. rewrite !mute_prefix by done.
  destruct cmd as [|c cmd]; [done|]. cbn [app rd]. change (rd (c :: ?l) 0) with (Some c). cbn [mbind option_bind].
  cbn [forallb] in Hm. apply andb_true_iff in Hm as [Hm _].
  assert (Byte.eqb c x48 || Byte.eqb c x68 = false) as -> by by destruct c.
  by rewrite andb_false_r.
Qed.

Lemma mute_hex f : forallb mute (bytes_of (hex_encode f)) = true.
Proof.
  apply Is_true_true, forallb_True. eapply list.Forall_impl; [apply hex_encode_text|]. intros b Hb. by destruct b.
Qed.

Lemma mute_ack_line f : forallb mute (ack_line f) = true.
Proof. unfold ack_line. rewrite !forallb_app, mute_hex. reflexivity. Qed.

Lemma mute_receipt_line f : forallb mute (receipt_line f) = true.
Proof. unfold receipt_line. rewrite !forallb_app, mute_hex. reflexivity. Qed.

Lemma mute_piece l line : forallb mute line = true → piece_of l line → forallb mute l = true.
Proof.
  intros Hm (pre & post & ->). rewrite !forallb_app in Hm. by repeat apply andb_true_iff in Hm as [? Hm].
Qed.

(** C12. What the ground sends down, the buyer does not hear. The lines of
    [lora_tx_ack_via_serial] and [lora_tx_via_serial] begin with words the firmware has no
    command for, so whichever pieces of them [readBytesUntil] delivers (the first is
    longer than its buffer, and a pause on the line splits either), the round transmits
    nothing, prints nothing and changes nothing but the command buffer. *)
Theorem downlink_ignored `{Sodium} `{Ed25519} alpha f cmd now stamp now' pos fresh b :
  buf_size b → (length cmd < 256)%nat → piece_of cmd (ack_line f) ∨ piece_of cmd (receipt_line f) →
  ∃ buf, length buf = 256%nat ∧
    runBuyerLoop alpha None (Some cmd) now stamp now' pos fresh b = Some (set_serial_buf buf b, []).
Proof.
  intros Hb Hl Hp. unfold runBuyerLoop. cbn [mbind option_bind].
  destruct (mute_command alpha cmd now stamp now' pos fresh b Hb Hl) as (buf & Hbuf & ->).
  - destruct Hp as [Hp|Hp]; eapply mute_piece; [apply mute_ack_line|exact Hp|apply mute_receipt_line|exact Hp].
  - by exists buf.
Qed.

(** ** The seller and the receipt *)
Lemma getAPID_sync data : take 4 data = [x1d; x01; xa5; xa5] → getAPID data = Some 1281.
Proof. destruct data as [|? [|? [|? [|? data]]]]; try discriminate. by intros [= -> -> -> ->]. Qed.

Section Receipt.
Context `{Ed25519Laws}.

Definition delivery_of (inp : Inputs) (now : Z) : DeliveryInputs :=
  {| downlink_ts := now; sat_b_id := BUYER_SAT_ID; d_payload := fr_raw (receipt_frame inp) |}.

Lemma delivery_wf inp now :
  Inputs_wf inp → length (SeedEd25519 inp) = SeedSize → in_u 64 now → DeliveryInputs_wf (delivery_of inp now).
Proof.
  intros Hi Hs Hn. split; [done|]. split; [done|]. cbn [d_payload delivery_of].
  destruct (receipt_frame_wf inp Hi Hs) as (_ & Hl & _).
  destruct (receipt_words inp) as (_ & _ & _ & _ & _ & _ & Hb). cbn [fr_header receipt_frame] in Hl. rewrite Hb in Hl.
  unfold kPayloadSize. lia.
Qed.

(** The handler, given the receipt. *)
Lemma handle_receipt inp now s :
  Inputs_wf inp → length (SeedEd25519 inp) = SeedSize → in_u 64 now → length (d_frame_buf s) = kPacketDSize →
  let f := frame_bytes (d_frame (delivery_of inp now)) in
  handlePacketCReceipt (frame_bytes (receipt_frame inp)) SIZE_PACKET_C now s =
  Some ({| lastTx := lastTx s; d_frame_buf := f |}, [Radio f]).
Proof.
  intros Hi Hs Hn Hb f. pose proof (length_receipt_covered inp Hs) as Hc.
  pose proof (ChecksumIEEE_u32 (receipt_covered inp)) as Hu.
  assert (rd_range (frame_bytes (receipt_frame inp)) SIZE_VOID_HEADER kPayloadSize = Some (fr_raw (receipt_frame inp)))
    as Hp.
  { unfold frame_bytes. pose proof (rd_range_app (fh_bytes (fr_header (receipt_frame inp))) (fr_raw (receipt_frame inp)) []) as Hr.
    rewrite app_nil_r in Hr. replace kPayloadSize with (length (fr_raw (receipt_frame inp))); [exact Hr|].
    apply (delivery_wf inp now Hi Hs Hn). }
  unfold handlePacketCReceipt. rewrite Nat.eqb_refl. cbn [negb]. rewrite Hp.
  assert (loadLE32 (frame_bytes (receipt_frame inp)) 104 = Some (ChecksumIEEE (receipt_covered inp))) as ->.
  { rewrite receipt_bytes_split. rewrite loadLE32_spec by (rewrite !length_app, Hc, length_put_le; cbn; lia).
    rewrite drop_app_exact, take_app_exact by (done || apply length_put_le).
    rewrite le_uint_put_le, Z.mod_small by exact Hu. done. }
  assert (rd_range (frame_bytes (receipt_frame inp)) 0 104 = Some (receipt_covered inp)) as ->.
  { rewrite receipt_bytes_split. by apply rd_range_front. }
  cbn [mbind option_bind]. rewrite calculateCRC_eq, Z.eqb_refl. cbn [negb].
  fold (delivery_of inp now). rewrite d_build_bytes by (by apply delivery_wf || lia). cbn [mbind option_bind].
  rewrite drop_ge, app_nil_r by lia. done.
Qed.

(** C11. The seller does not hear receipts either. A frame of the SNLP tier starts with
    the sync word, which [getAPID] takes for the CCSDS header: whatever else is in the
    frame, nothing is transmitted. The receipts the gateway signs for the seller are such
    frames, and named to it: [extractAPID], with which the buyer reads the same header,
    gives the identifier the seller compares with, and [handlePacketCReceipt], had it been
    called, would have answered with a delivery that the gateway accepts. *)
Theorem seller_deaf data now s :
  take 4 data = [x1d; x01; xa5; xa5] →
  (∀ read_ok, seller_rx data read_ok now s = Some (s, [])) ∧
  ∀ inp db, Inputs_wf inp → length (SeedEd25519 inp) = SeedSize → APID inp = SELLER_APID → in_u 64 now →
    length (d_frame_buf s) = kPacketDSize → Build inp = Some (Ok data) →
    length data = SIZE_PACKET_C ∧ extractAPID data = Some SELLER_APID ∧
    ∃ s' f, handlePacketCReceipt data SIZE_PACKET_C now s = Some (s', [Radio (frame_bytes f)]) ∧
      frame_wf f ∧ frame_verdict db f (frame_bytes f) = Accept.
Proof.
  intros Hsync. split.
  - intros read_ok. unfold seller_rx. rewrite getAPID_sync by done. destruct (negb (_ && _)); [done|].
    by destruct read_ok.
  - intros inp db Hi Hs Ha Hn Hb HB. rewrite (Build_frame inp Hi Hs) in HB. injection HB as <-. split_and!.
    + rewrite receipt_bytes_split, !length_app, (length_receipt_covered inp Hs), length_put_le. done.
    + unfold frame_bytes. cbn [fr_header receipt_frame]. unfold receipt_header. rewrite Ha. reflexivity.
    + eexists _, (d_frame (delivery_of inp now)). rewrite (handle_receipt inp now s Hi Hs Hn Hb).
      split; [done|]. split; [apply d_frame_wf|apply d_frame_accepted]; by apply delivery_wf.
Qed.
End Receipt.

(** ** Witnesses *)
#[local] Existing Instance toy_sodium.

Definition demo_seller : seller := {| lastTx := 0; d_frame_buf := replicate 136 x00 |}.

Definition demo_buyer : buyer :=
  {| invoice_pending := false; pending_invoice := replicate 80 x00; last_tx_ms := 0;
     serial_buf := replicate 256 x00; handshake_pkt := replicate 120 x00;
     security := (sm_begin true false [] new_SecurityManager).2 |}.

(** The gateway, with the key of the satellites loaded. *)
Definition sat_db : MockDB :=
  match LoadFlatSatDemoKey (hex_encode kDetSeed) (Initialize ∅) with Some (_, db) => db | None => ∅ end.

Definition demo_position : TigCommonTypes_Vector3d := {| Vector3d_X := 1; Vector3d_Y := 2; Vector3d_Z := 3 |}.

Lemma sat_db_ok :
  registered_key sat_db BUYER_SAT_ID = Some (derive_public kDetSeed) ∧
  ∃ rec, GetSat sat_db BUYER_SAT_ID = Some rec ∧ Wallet rec = FlatSatDemoWallet.
Proof. split; [vm_compute; reflexivity|]. eexists. split; vm_compute; reflexivity. Qed.

Lemma demo_host : plain_host (bytes_of "gateway").
Proof. split; [apply (bool_decide_unpack _); vm_compute; exact I|cbn; lia]. Qed.

Lemma purchase_settles_witness :
  ∃ said pkt g1 w g' h',
    cli_command (bytes_of "gateway") 8080 (bytes_of "ack" ++ [x0a]) (outside g1) = Some (true, w) ∧
    on_air said = [pkt] ∧
    feed_all (bytes_of "gateway") 8080 (λ _, demo_stack) (serial_text said) (set_outside w g1) = Some g' ∧
    ReadRequest (gd_sent (outside g')) = Some (bytes_of "POST", bytes_of "/api/v1/ingest", pkt) ∧
    IngestPacket (St := ListStream) (E := list SettlementIntent) (C := TraceContext gin_H) sat_db (Ok pkt) demo_state =
      Some (tt, h') ∧
    h_submitter h' = Some [purchase_intent 7000 FlatSatDemoWallet].
Proof.
  destruct sat_db_ok as [Hk (rec & Hrec & Hw)].
  assert (Wallet rec ≠ ""%string) as Hne by (rewrite Hw; discriminate).
  destruct (purchase_settles (St := ListStream) (bytes_of "gateway") 8080 (λ _, demo_stack) demo_host
    ltac:(lia) demo_stack_ok sat_db rec demo_seller demo_buyer demo_bridge 9000 9000 9001 9002 6999 7000 7001 demo_position []
    demo_state [] ltac:(vm_compute; reflexivity) (demo_key_begin [] new_SecurityManager) eq_refl
    ltac:(repeat split; vm_compute; discriminate || reflexivity) ltac:(split; [reflexivity|apply Nat.ltb_lt; reflexivity])
    eq_refl Hk Hrec Hne demo_fresh eq_refl)
    as (_ & _ & _ & _ & _ & g1 & w & _ & _ & said & pkt & g' & _ & _ & _ & _ & Hcli & _ & _ & Hair & _ & Hfeed & _ & Hreq &
        h' & Hrun & _ & Hq).
  rewrite Hw in Hq. exists said, pkt, g1, w, g', h'. split; [exact Hcli|]. split; [exact Hair|]. split; [exact Hfeed|].
  split; [exact Hreq|]. split; [exact Hrun|exact Hq].
Defined.

Lemma downlink_ignored_witness :
  ∃ buf, runBuyerLoop true None (Some (bytes_of "ACK_TX:ac")) 1 1 2 (replicate 24 x00) [] demo_buyer =
    Some (set_serial_buf buf demo_buyer, []).
Proof.
  destruct (downlink_ignored true (hex "ac") (bytes_of "ACK_TX:ac") 1 1 2 (replicate 24 x00) [] demo_buyer)
    as (buf & _ & Hr).
  - reflexivity.
  - apply Nat.ltb_lt. reflexivity.
  - left. exists (bytes_of "PACKET_"), [x0a]. reflexivity.
  - exists buf. exact Hr.
Defined.

Definition demo_receipt : Inputs :=
  {| ExecTimeMs := 1; EncTxID := 2; EncStatus := 1; APID := 100; SeqCount := 0; SeedEd25519 := kDetSeed |}.

Lemma seller_deaf_witness :
  ∃ data s' f, Build demo_receipt = Some (Ok data) ∧
    seller_rx data true 5 demo_seller = Some (demo_seller, []) ∧
    handlePacketCReceipt data SIZE_PACKET_C 5 demo_seller = Some (s', [Radio (frame_bytes f)]).
Proof.
  set (data := match Build demo_receipt with Some (Ok d) => d | _ => [] end).
  assert (Build demo_receipt = Some (Ok data)) as HB by (vm_compute; reflexivity).
  destruct (seller_deaf data 5 demo_seller ltac:(vm_compute; reflexivity)) as [Hdeaf Hheard].
  destruct (Hheard demo_receipt ∅) as (_ & _ & s' & f & Hf & _).
  - repeat split; vm_compute; discriminate || reflexivity.
  - reflexivity.
  - reflexivity.
  - unfold in_u. lia.
  - reflexivity.
  - exact HB.
  - exists data, s', f. split; [exact HB|]. split; [exact (Hdeaf true)|exact Hf].
Defined.
